(* ===== verification/_CoqProject ===== *)
-Q . S2P
Prelude.v
GoStrings.v
GoErrors.v
Effects.v
GoText.v
GoHeap.v
Version.v
Kube.v
Client.v
ZonesAPI.v
RecordsAPI.v
ServerAPI.v
DhcpAPI.v
ClusterAPI.v
Lifecycle.v
ClusterTypes.v
Zone.v
Record.v
RecordWire.v
Fleet.v
ServerSettings.v
Blocklist.v
DHCPScope.v
DNSSEC.v
DNSApp.v
Finalizers.v
ClusterKube.v
Services.v
Workload.v
Nodes.v
Rollout.v
ClusterStatus.v
ClusterController.v
ServerRef.v
NodeClient.v
ServerClients.v
Wired.v
Chartgen.v
ExternalDns.v
ExternalDnsStore.v
StatsPoller.v
GoNet.v
Webhooks.v
GoFlags.v
ExternalDnsRun.v
OperatorMain.v
DeepCopies.v
