(* ===== verification/Prelude.v ===== *)
(** * Verification of the Technitium Kubernetes operator

    The operator (Go, under [src/]) keeps Technitium DNS servers as Kubernetes
    resources say: it runs the servers (TechnitiumCluster), configures them
    (Zone, Record, ServerSettings, Blocklist, DHCPScope, DNSSEC, DNSApp), checks
    the resources it is given (admission webhooks), publishes the servers'
    statistics, and serves ExternalDNS.  Its Helm chart is generated.  This
    library translates that code into Rocq and proves what it promises.  This file is the root: this header, and
    what every file uses (notations, tactics, the hint database [op], generic
    lemmas).

    ** How programs are modelled

    Pure Go functions are Rocq functions of the same name.  A function that
    calls an interface (the Kubernetes API, a Technitium server, an HTTP
    transport) is a [prog] of [Effects.v]: an inductive tree of calls and of
    continuations over their answers, written with [x <- p ;; q], [try], [check]
    in the order of the source, early returns included.  Nothing is assumed of
    the answers: [always p Q] says that [Q] holds of the call history and the
    result of every execution, [executes] names one execution, and [run h p s]
    executes against an implementation [h] with state [s], for statements about
    a well-behaved server.  [(T, error)] results are [fallible T]; errors
    ([GoErrors.v]) are the chains [errors.Is] and [errors.As] walk.  Integers are
    [Z], with the bounds of the Go type wherever the code parses or decodes them;
    strings are byte strings; maps are [gmap], sets [gset]; lists keep order and
    duplicates.  Times are Unix times.  Objects are values throughout, as if each
    call had its own copy; [DeepCopies] is where pointers and sharing are
    modelled.

    ** Files, and the code they model

    Go and its library: [GoStrings] ([strings], [strconv], [slices]), [GoErrors]
    ([errors], [fmt.Errorf], and [internal/technitium/errors.go]), [GoNet]
    ([net.ParseIP], masks, [net.ParseMAC]), [GoText] ([strings] and [path/filepath]
    on whole texts), [GoFlags] (the [flag] package), [GoHeap] (memory with
    pointers, slices and maps, and what a deep copy is), [Effects].

    The Technitium client, [internal/technitium]: [Version] ([version.go]),
    [Client] ([client.go]: one form POST per call, over an abstract transport),
    [ZonesAPI] ([zones.go], [dnssec.go]), [RecordsAPI], [ServerAPI]
    ([settings.go], [blocklist.go], [apps.go], [user.go], [stats.go]), [DhcpAPI],
    [ClusterAPI].

    The resource controllers, [internal/controller]: [Kube] (objects,
    conditions, and the helpers of apimachinery as an interface [KubeLib] with
    its documented laws [KubeLibLaws], an implementation of which is
    [RefKubeLib]); [Lifecycle], the reconcile skeleton that seven controllers
    spell out, over the class [Resource]; [Zone], [Record], [ServerSettings],
    [Blocklist], [DHCPScope], [DNSSEC], [DNSApp], each with the resource
    ([api/v1alpha1]), the interface its controller needs of the client (a type
    of calls), the controller's steps, and a class of servers ([ZoneServer],
    [RecordServer], ...) with the laws its convergence theorem needs;
    [Finalizers], what they have in common; [Fleet], many Records on one server;
    and [RecordWire], the Record controller on top of the HTTP client: an
    endpoint that reads forms and writes JSON ([RecordEndpoint], with its
    documented laws) is a [RecordServer], so the controller's theorems hold of
    HTTP requests.

    The cluster controller, [technitiumcluster_*.go]: [ClusterTypes] and
    [ClusterKube] (the resource, the objects it owns and the calls made),
    [Services] (Services, annotations, disruption budget), [Workload] (admin
    Secret, pod template, StatefulSet, downgrades), [Nodes] (credentials, token,
    clustering), [Rollout] (upgrades), [ClusterStatus], [ClusterController] ([Reconcile] and
    [finalizeCluster]).  [ServerRef] is [serverref.go] and
    [internal/config/credentials.go]: how a controller gets a client, and the
    cache of clients under its lock; [NodeClient] is the client of a single node
    that logs in on first use.  [ServerClients] makes the client's methods the
    calls of each resource controller (class [ServerClient]), and [Wired]
    composes controller, [serverRef] resolution and client into one program over
    Kubernetes and HTTP.

    Around them: [StatsPoller] ([technitium_stats.go]); [Webhooks]
    ([internal/webhook/v1alpha1], over the class [Admission]); [ExternalDns]
    ([internal/externaldns]: [translate.go], [server.go], the checks of
    [run.go]), [ExternalDnsStore], its theorems over a store of Records, and
    [ExternalDnsRun], the command: flags and environment, routing, decoding of
    bodies, [Run].  [OperatorMain] is [cmd/main.go] with the [SetupWithManager] of
    every controller and webhook; [Chartgen] is [hack/chartgen/main.go], a
    program over the file system.  [DeepCopies] is [zz_generated.deepcopy.go],
    with the API types as shapes in memory, and the two places of the operator
    that edit next to a copy ([patch_edits] of [server.go], [keep_image] of
    [reconcileStatefulSet]).

    ** What the theorems show

    - Convergence: one Reconcile brings the server to the spec and a second one
      only reads ([zoneReconcile_converges], [recordReconcile_converges] and
      their kin); what a resource does not own is left alone.
      Records that do not claim the same server record do so together, in any
      order of passes ([fleet_converges]).
    - Ordering and safety under any answers: finalizers bracket server-side
      state ([cleanup_before_release], [cluster_cleanup_before_release]); failures are returned and reported
      ([failed_reconcile_degraded], [cluster_failure_degraded]); tokens are
      minted once, clusters form in order, only owned objects are deleted, no
      version is downgraded.
    - Upgrades: a pass releases one node on evidence ([rollout_releases_one]); as
      a transition system with Kubernetes, at most one node is down
      ([rollout_one_at_a_time]); and a healthy upgrade ends
      ([rollout_completes]).
    - Composition: through the client, a Record pass converges against an HTTP
      endpoint ([record_pass_over_http]) and sends a bounded number of requests,
      all of its own ([record_requests_bounded]); whichever controller sends a
      request, it goes to the server and under the token its object names
      ([requests_addressed]); a node client logs in until a token is granted and
      uses that token ever after ([node_session]).
    - Equivalences and refinements: the client cache is invisible
      ([cache_transparent]); a change set of ExternalDNS acts on the Records as
      on a set of pairs ([changes_refine]); endpoints survive the trip through
      Records ([endpoints_roundtrip]); versions print and parse; flags do
      ([flags_roundtrip]).
    - Admission: what is admitted can be carried out ([admitted_specs_wf]), DHCP
      scopes are coherent ([dhcp_admitted_coherent]), and the operator's own
      writes always pass ([own_writes_admitted]).
    - Memory: every generated copy function makes a deep copy, so that a copy and
      its original are independent ([deepcopy_independent]); a Record's patch is
      computed against what was read ([patch_base]), and an image kept on a
      refused downgrade is not set on the cluster itself ([keep_image_apart]).
    - Entry points: what the operator starts, in which order, and its exit status
      ([operator_starts]); which requests to the ExternalDNS webhook can touch
      Records ([requests_touch]); the chart is a verbatim copy of its sources
      ([generate_copies]), and what the check of a rendered chart accepts
      ([verifyRendered_accepts]).
    - Theorems about behaviour that is surprising: [zone_name_misclassified],
      [dhcp_reservation_edit_ignored], [blocklist_failed_pass_leaks],
      [app_version_unreachable], [missing_secret_taken_for_gone],
      [blank_token_unauthenticated], [respelled_mx_survives_deletion],
      [dhcp_range_leaves_subnet], [record_zone_edit_admitted],
      [null_endpoint_panics].

    ** Fuel and bounds

    Only [ListZones], whose loop ends when the server says so, takes fuel: one
    unit per page.  [ListZones_complete] shows that one more than the number of
    pages is enough against a server that pages its zones.  Every other loop is
    structural.  [parse_groups] of [GoNet] counts the room left in an address.

    ** What is not modelled

    - HTTP and JSON text, TLS, timeouts and contexts: a response is a status and
      the tree it decodes to, a request body the tree or the reason it has none;
      the texts of JSON errors, SHA-256, the YAML library of the chart generator
      and zap's own flags are parameters.
    - Logging, events, the predicates of watches, scheme registration and the
      signal handler; the flags of [cmd/main.go] and of the chart generator are
      taken as parsed.  Listening and shutting down are calls of [runE] and
      [setupE].
    - Conflicts on update are answers like any other error; the transition times
      of conditions, which the operator neither sets nor reads, are left out.
    - A nil and an empty slice or map are the same value, except where the code
      tells them apart.
    - Case mapping and white space outside ASCII; escapes in [%q].
    - Gauges hold the integers given to [float64], which rounds above 2^53.
    - CRD schema validation, which runs before the webhooks.
    - The types of Kubernetes that the API types contain, and their copy
      functions, are a parameter of [DeepCopies] with their laws. *)

From Stdlib Require Export ZArith Lia Bool Ascii String List.
From stdpp Require Export base tactics option list gmap strings pretty.

#[export] Set Default Goal Selector "!".

(** ** Notation scope of the development

    [go_scope] carries the comparison notations of the Go source; files open
    it locally. *)
Declare Scope go_scope.
Delimit Scope go_scope with go.

(** Go's [==] on strings, as a boolean. *)
Notation "a =s? b" := (String.eqb a b) (at level 70, no associativity) : go_scope.

(** ** Hint database of the development *)
Create HintDb op discriminated.

(** ** Tactics *)

(** Invert, substitute and clear. *)
Ltac invert H := inversion H; subst; clear H.

(** Case analysis on the scrutinee of some [match] or [if] of the goal. *)
Ltac dmatch :=
  match goal with
  | |- context [ match ?x with _ => _ end ] =>
      lazymatch x with
      | context [ match _ with _ => _ end ] => fail
      | _ => let E := fresh "E" in destruct x eqn:E
      end
  end.

(** The same for a hypothesis. *)
Ltac dmatch_in H :=
  match type of H with
  | context [ match ?x with _ => _ end ] =>
      lazymatch x with
      | context [ match _ with _ => _ end ] => fail
      | _ => let E := fresh "E" in destruct x eqn:E
      end
  end.

(** Turn boolean facts about integers and strings into propositions. *)
Ltac reflect_bools :=
  repeat match goal with
  | H : (_ && _)%bool = true |- _ => apply andb_true_iff in H; destruct H
  | H : (_ || _)%bool = false |- _ => apply orb_false_iff in H; destruct H
  | H : negb _ = true |- _ => apply negb_true_iff in H
  | H : negb _ = false |- _ => apply negb_false_iff in H
  | H : String.eqb _ _ = true |- _ => apply String.eqb_eq in H
  | H : String.eqb _ _ = false |- _ => apply String.eqb_neq in H
  | H : (_ =? _)%Z = true |- _ => apply Z.eqb_eq in H
  | H : (_ =? _)%Z = false |- _ => apply Z.eqb_neq in H
  | H : (_ <? _)%Z = true |- _ => apply Z.ltb_lt in H
  | H : (_ <? _)%Z = false |- _ => apply Z.ltb_ge in H
  | H : (_ <=? _)%Z = true |- _ => apply Z.leb_le in H
  | H : (_ <=? _)%Z = false |- _ => apply Z.leb_gt in H
  | H : bool_decide _ = true |- _ => apply bool_decide_eq_true_1 in H
  | H : bool_decide _ = false |- _ => apply bool_decide_eq_false_1 in H
  end.

(** Evaluate a closed decidable statement. *)
Ltac by_decision := apply (bool_decide_unpack _); vm_compute; exact I.

(** Case analysis on membership in explicit lists. *)
Ltac enumerate :=
  repeat match goal with
  | H : _ ∈ _ :: _ |- _ => apply elem_of_cons in H as [H|H]; [first [subst|injection H as ? ?; subst]|]
  | H : _ ∈ [] |- _ => by apply elem_of_nil in H
  end.

(** ** Reduction behaviour

    Character and string equality stay folded on symbolic arguments. *)
#[global] Arguments Ascii.eqb !_ !_ : simpl nomatch.
#[global] Arguments String.eqb !_ !_ : simpl nomatch.

(** ** Generic lemmas *)

Lemma eqb_string_refl (s : string) : String.eqb s s = true.
Proof. apply String.eqb_refl. Qed.

Lemma string_app_nil_r (s : string) : (s +:+ "")%string = s.
Proof. induction s as [|c s IH]; [done|]. exact (f_equal (String c) IH). Qed.

Lemma string_app_assoc (a b c : string) : ((a +:+ b) +:+ c)%string = (a +:+ (b +:+ c))%string.
Proof. induction a as [|x a IH]; [done|]. exact (f_equal (String x) IH). Qed.

Lemma existsb_In {A} (f : A -> bool) (l : list A) (x : A) :
  In x l -> f x = true -> existsb f l = true.
Proof. intros Hin Hf. apply existsb_exists. eauto. Qed.

Lemma existsb_none {A} (f : A -> bool) (l : list A) :
  (forall x, In x l -> f x = false) -> existsb f l = false.
Proof.
  induction l as [|x l IH]; intros Hf; [done|]. cbn. rewrite Hf by (by left).
  apply IH. intros y Hy. apply Hf. by right.
Qed.

Lemma existsb_false_In {A} (f : A -> bool) (l : list A) (x : A) :
  existsb f l = false -> In x l -> f x = false.
Proof.
  intros He Hin. destruct (f x) eqn:Hf; [|done].
  rewrite (existsb_In f l x Hin Hf) in He. done.
Qed.

Lemma find_none_iff {A} (f : A -> bool) (l : list A) :
  find f l = None <-> forall x, In x l -> f x = false.
Proof.
  split; [apply find_none|].
  induction l as [|a l IH]; cbn; [done|]. intros H.
  rewrite (H a) by auto. apply IH. auto.
Qed.

Lemma find_app {A} (f : A -> bool) (l1 l2 : list A) :
  find f (l1 ++ l2) = match find f l1 with Some x => Some x | None => find f l2 end.
Proof. induction l1 as [|a l1 IH]; cbn; [done|]. by destruct (f a). Qed.

Lemma filter_all {X : Type} (P : X -> Prop) `{!forall x, Decision (P x)} (l : list X) :
  (forall x, P x) -> filter P l = l.
Proof. intros HP. induction l as [|x l IH]; [done|]. by rewrite filter_cons_True, IH. Qed.

Lemma filter_bool_elem {X} (P : X -> Prop) `{forall x, Decision (P x)} (l : list X) x :
  x ∈ List.filter (fun y => bool_decide (P y)) l <-> P x /\ x ∈ l.
Proof. rewrite !list_elem_of_In, filter_In, bool_decide_eq_true. tauto. Qed.

Lemma map_elem {X Y} (f : X -> Y) (l : list X) y : y ∈ map f l <-> exists x, y = f x /\ x ∈ l.
Proof.
  rewrite list_elem_of_In, in_map_iff. setoid_rewrite list_elem_of_In.
  split; intros (x & E & Hx); by exists x.
Qed.

#[export] Hint Rewrite eqb_string_refl string_app_nil_r : op.
#[export] Hint Resolve existsb_In : op.
