(* ===== verification/GoStrings.v ===== *)
(** * The part of Go's [strings] and [strconv] packages the source uses

    Strings are byte strings.  Case mapping and white space are those of the
    ASCII range, which is what DNS names, image references, server messages
    and version strings are made of; a byte outside it is left unchanged.
    [int] is the 64-bit type of the platforms the operator is built for. *)

From stdpp Require Import sorting.
From S2P Require Import Prelude.

Local Open Scope string_scope.
Local Open Scope Z_scope.
Local Open Scope go_scope.

(** ** Characters *)

Definition ascii_code (c : ascii) : N := N_of_ascii c.

Definition is_digit (c : ascii) : bool :=
  (48 <=? ascii_code c)%N && (ascii_code c <=? 57)%N.

Definition is_upper (c : ascii) : bool :=
  (65 <=? ascii_code c)%N && (ascii_code c <=? 90)%N.

(** Tab, line feed, vertical tab, form feed, carriage return, space. *)
Definition is_space (c : ascii) : bool :=
  ((9 <=? ascii_code c)%N && (ascii_code c <=? 13)%N) || (ascii_code c =? 32)%N.

Definition lower_char (c : ascii) : ascii :=
  if is_upper c then ascii_of_N (ascii_code c + 32) else c.

Definition upper_char (c : ascii) : ascii :=
  if (97 <=? ascii_code c)%N && (ascii_code c <=? 122)%N
  then ascii_of_N (ascii_code c - 32) else c.

(** ** [strings] *)

Fixpoint string_map (f : ascii -> ascii) (s : string) : string :=
  match s with "" => "" | String c s' => String (f c) (string_map f s') end.

Definition ToLower : string -> string := string_map lower_char.
Definition ToUpper : string -> string := string_map upper_char.
Definition EqualFold (a b : string) : bool := ToLower a =s? ToLower b.

(** Drop the longest prefix of characters satisfying [f]. *)
Fixpoint trim_left_by (f : ascii -> bool) (s : string) : string :=
  match s with
  | "" => ""
  | String c s' => if f c then trim_left_by f s' else s
  end.

(** Drop the longest suffix of characters satisfying [f]. *)
Fixpoint trim_right_by (f : ascii -> bool) (s : string) : string :=
  match s with
  | "" => ""
  | String c s' =>
      match trim_right_by f s' with
      | "" => if f c then "" else String c ""
      | t => String c t
      end
  end.

Definition trim_by (f : ascii -> bool) (s : string) : string :=
  trim_right_by f (trim_left_by f s).

Definition TrimSpace (s : string) : string := trim_by is_space s.
Definition TrimRightChar (s : string) (c : ascii) : string := trim_right_by (Ascii.eqb c) s.
Definition TrimChar (s : string) (c : ascii) : string := trim_by (Ascii.eqb c) s.

Definition HasPrefix (s p : string) : bool := String.prefix p s.

(** [strings.CutPrefix]: the rest of [s] after [p], when [p] is a prefix. *)
Fixpoint CutPrefix (s p : string) {struct p} : option string :=
  match p, s with
  | "", _ => Some s
  | String a p', String b s' => if Ascii.eqb a b then CutPrefix s' p' else None
  | String _ _, "" => None
  end.

Definition TrimPrefix (s p : string) : string :=
  match CutPrefix s p with Some r => r | None => s end.

Fixpoint HasSuffix (s p : string) : bool :=
  (s =s? p) || match s with "" => false | String _ s' => HasSuffix s' p end.

Fixpoint Contains (s p : string) : bool :=
  HasPrefix s p || match s with "" => false | String _ s' => Contains s' p end.

(** [s] up to the first [c] and what follows it; [None] when [c] is absent. *)
Fixpoint CutChar (c : ascii) (s : string) : option (string * string) :=
  match s with
  | "" => None
  | String a s' =>
      if Ascii.eqb c a then Some ("", s')
      else match CutChar c s' with
           | Some (l, r) => Some (String a l, r)
           | None => None
           end
  end.

(** [s[strings.LastIndex(s, c)+1:]]: all of [s] when [c] is absent. *)
Fixpoint after_last (c : ascii) (s : string) : string :=
  match s with
  | "" => ""
  | String a s' =>
      if Contains s' (String c "") then after_last c s'
      else if Ascii.eqb c a then s' else s
  end.

(** [strings.Split] on a one-character separator. *)
Fixpoint SplitChar (c : ascii) (s : string) : list string :=
  match s with
  | "" => [""]
  | String a s' =>
      if Ascii.eqb c a then "" :: SplitChar c s'
      else match SplitChar c s' with
           | [] => [String a ""]
           | w :: ws => String a w :: ws
           end
  end.

Fixpoint Join (l : list string) (sep : string) : string :=
  match l with
  | [] => ""
  | [x] => x
  | x :: l' => x +:+ sep +:+ Join l' sep
  end.

(** [strings.Fields]: the maximal runs of non-space characters. *)
Fixpoint fields_from (cur : string) (s : string) : list string :=
  match s with
  | "" => if cur =s? "" then [] else [cur]
  | String c s' =>
      if is_space c
      then (if cur =s? "" then fields_from "" s' else cur :: fields_from "" s')
      else fields_from (cur +:+ String c "") s'
  end.
Definition Fields (s : string) : list string := fields_from "" s.

(** [strings.Compare] and the order [slices.Sort] uses on strings. *)
Definition string_leb (a b : string) : bool :=
  match String.compare a b with Gt => false | _ => true end.

Fixpoint insert_sorted {A} (le : A -> A -> bool) (x : A) (l : list A) : list A :=
  match l with
  | [] => [x]
  | y :: l' => if le x y then x :: l else y :: insert_sorted le x l'
  end.

(** A stable sort ([slices.SortStableFunc]); on strings, where equal elements
    are identical, it also models [slices.Sort]. *)
Fixpoint sort_by {A} (le : A -> A -> bool) (l : list A) : list A :=
  match l with
  | [] => []
  | x :: l' => insert_sorted le x (sort_by le l')
  end.

Definition Sort (l : list string) : list string := sort_by string_leb l.

(** ** [strconv] *)

(** The digits of [s] as a number continuing [acc]. *)
Fixpoint parse_digits (s : string) (acc : N) : option N :=
  match s with
  | "" => Some acc
  | String c s' =>
      if is_digit c then parse_digits s' (acc * 10 + (ascii_code c - 48))%N else None
  end.

Definition parse_nonneg (s : string) : option Z :=
  if s =s? "" then None
  else match parse_digits s 0 with Some n => Some (Z.of_N n) | None => None end.

Definition max_int : Z := 2 ^ 63 - 1.
Definition min_int : Z := - 2 ^ 63.
Definition max_int32 : Z := 2 ^ 31 - 1.

Definition in_range (lo hi : Z) (o : option Z) : option Z :=
  match o with
  | Some n => if (lo <=? n) && (n <=? hi) then Some n else None
  | None => None
  end.

(** An optionally signed decimal. *)
Definition parse_signed (s : string) : option Z :=
  match s with
  | String "+" s' => parse_nonneg s'
  | String "-" s' => match parse_nonneg s' with Some n => Some (- n) | None => None end
  | _ => parse_nonneg s
  end.

(** [strconv.Atoi]; [None] is its error. *)
Definition Atoi (s : string) : option Z := in_range min_int max_int (parse_signed s).

(** [strconv.ParseUint(s, 10, 16)]. *)
Definition ParseUint16 (s : string) : option Z := in_range 0 65535 (parse_nonneg s).

(** [strconv.ParseInt(s, 10, 32)]. *)
Definition ParseInt32 (s : string) : option Z := in_range (- 2 ^ 31) max_int32 (parse_signed s).

(** [strconv.Itoa], and the [%d] verb of [fmt]. *)
Definition Itoa (n : Z) : string := pretty n.

Definition FormatBool (b : bool) : string := if b then "true" else "false".

Definition quote_char : string := String (ascii_of_N 34) "".

(** The [%q] verb, for strings without characters that need an escape. *)
Definition quoted (s : string) : string := quote_char +:+ s +:+ quote_char.

(** ** Lemmas: digits and decimal printing *)

Lemma pretty_N_char_digit (n : N) :
  (n < 10)%N -> is_digit (pretty_N_char n) = true /\ (ascii_code (pretty_N_char n) - 48)%N = n.
Proof.
  intros Hn.
  assert (Hall : Forall (fun k => let d := N.of_nat k in
      is_digit (pretty_N_char d) = true /\ (ascii_code (pretty_N_char d) - 48)%N = d) (seq 0 10))
    by (repeat constructor).
  rewrite Forall_forall in Hall. specialize (Hall (N.to_nat n)). cbn zeta in Hall.
  rewrite N2Nat.id in Hall. apply Hall, elem_of_seq. lia.
Qed.

Lemma parse_digits_pretty_go (n : N) : forall s,
  parse_digits (pretty_N_go n s) 0 = parse_digits s n.
Proof.
  induction (N.lt_wf_0 n) as [n _ IH]; intros s.
  destruct (decide (n = 0)%N) as [->|Hn].
  - by rewrite pretty_N_go_0.
  - rewrite pretty_N_go_step by lia.
    rewrite IH by (apply N.div_lt; lia).
    cbn [parse_digits].
    destruct (pretty_N_char_digit (n `mod` 10)) as [Hd Hc]; [apply N.mod_lt; lia|].
    rewrite Hd, Hc. f_equal. pose proof (N.div_mod n 10). lia.
Qed.

Lemma parse_digits_forall (s : string) : forall acc n,
  parse_digits s acc = Some n -> (acc <= n)%N.
Proof.
  induction s as [|c s IH]; cbn; intros acc n H; [by simplify_eq|].
  destruct (is_digit c); [|done]. apply IH in H. lia.
Qed.

Lemma pretty_N_go_nonempty (n : N) : forall s, s <> "" -> pretty_N_go n s <> "".
Proof.
  induction (N.lt_wf_0 n) as [n _ IH]; intros s Hs.
  destruct (decide (n = 0)%N) as [->|Hn]; [by rewrite pretty_N_go_0|].
  rewrite pretty_N_go_step by lia. apply IH; [apply N.div_lt; lia|done].
Qed.

Lemma Itoa_nonneg (n : Z) : 0 <= n -> Itoa n = pretty (Z.to_N n).
Proof. intros H. unfold Itoa. destruct n; cbn; [done|done|lia]. Qed.

Lemma pretty_N_nonempty (n : N) : (pretty n : string) <> "".
Proof.
  unfold pretty, pretty_N. case_decide; [done|].
  rewrite pretty_N_go_step by lia. by apply pretty_N_go_nonempty.
Qed.

Lemma parse_digits_pretty (n : N) : parse_digits (pretty n) 0 = Some n.
Proof.
  unfold pretty, pretty_N. case_decide as H; [by subst|].
  by rewrite parse_digits_pretty_go.
Qed.

Lemma parse_nonneg_Itoa (n : Z) : 0 <= n -> parse_nonneg (Itoa n) = Some n.
Proof.
  intros Hn. rewrite Itoa_nonneg by done. unfold parse_nonneg.
  destruct (pretty (Z.to_N n) =s? "") eqn:E.
  - reflect_bools. by apply pretty_N_nonempty in E.
  - rewrite parse_digits_pretty. f_equal. lia.
Qed.

(** ** Lemmas: characters of a string *)

Fixpoint str_forall (f : ascii -> bool) (s : string) : bool :=
  match s with "" => true | String c s' => f c && str_forall f s' end.

Lemma str_forall_app (f : ascii -> bool) (a b : string) :
  str_forall f (a +:+ b) = str_forall f a && str_forall f b.
Proof.
  induction a as [|c a IH]; [done|].
  change (f c && str_forall f (a +:+ b) = f c && str_forall f a && str_forall f b).
  by rewrite IH, andb_assoc.
Qed.

Lemma str_forall_impl (f g : ascii -> bool) (s : string) :
  (forall c, f c = true -> g c = true) -> str_forall f s = true -> str_forall g s = true.
Proof.
  intros Hfg. induction s as [|c s IH]; cbn; [done|]. intros H.
  apply andb_true_iff in H as [? ?]. apply andb_true_iff; auto.
Qed.

Lemma pretty_go_digits (n : N) : forall s,
  str_forall is_digit s = true -> str_forall is_digit (pretty_N_go n s) = true.
Proof.
  induction (N.lt_wf_0 n) as [n _ IH]; intros s Hs.
  destruct (decide (n = 0)%N) as [->|Hn]; [by rewrite pretty_N_go_0|].
  rewrite pretty_N_go_step by lia. apply IH; [apply N.div_lt; lia|]. cbn.
  apply andb_true_iff; split; [|done].
  apply pretty_N_char_digit. apply N.mod_lt; lia.
Qed.

Lemma Itoa_digits (n : Z) : 0 <= n -> str_forall is_digit (Itoa n) = true.
Proof.
  intros Hn. rewrite Itoa_nonneg by done. unfold pretty, pretty_N.
  case_decide; [done|]. by apply pretty_go_digits.
Qed.

(** A non-empty digit string starts with a digit. *)
Lemma digits_head (s : string) :
  s <> "" -> str_forall is_digit s = true ->
  exists c s', s = String c s' /\ is_digit c = true /\ str_forall is_digit s' = true.
Proof.
  destruct s as [|c s]; [done|]. cbn. intros _ H.
  apply andb_true_iff in H as [? ?]. eauto.
Qed.

Lemma Itoa_head (n : Z) :
  0 <= n -> exists c s', Itoa n = String c s' /\ is_digit c = true /\ str_forall is_digit s' = true.
Proof.
  intros Hn. apply digits_head; [|by apply Itoa_digits].
  rewrite Itoa_nonneg by done. apply pretty_N_nonempty.
Qed.

Lemma Itoa_nonneg_inj (n m : Z) : 0 <= n -> 0 <= m -> Itoa n = Itoa m -> n = m.
Proof.
  intros Hn Hm H. apply parse_nonneg_Itoa in Hn. apply parse_nonneg_Itoa in Hm.
  rewrite H in Hn. congruence.
Qed.

Lemma Atoi_Itoa (n : Z) : 0 <= n <= max_int -> Atoi (Itoa n) = Some n.
Proof.
  intros Hn. unfold Atoi, parse_signed.
  destruct (Itoa_head n) as (c & s & Hs & Hc & _); [lia|].
  assert (Hp : parse_nonneg (String c s) = Some n) by (rewrite <- Hs; apply parse_nonneg_Itoa; lia).
  rewrite Hs.
  assert (match c with "+"%char | "-"%char => False | _ => True end) as Hsign.
  { destruct c as [[] [] [] [] [] [] [] []]; cbn in *; done. }
  replace (match c with
           | "+"%char => parse_nonneg s
           | "-"%char => match parse_nonneg s with Some n0 => Some (- n0) | None => None end
           | _ => parse_nonneg (String c s)
           end) with (Some n); cycle 1.
  { destruct c as [[] [] [] [] [] [] [] []]; cbn in Hc; try discriminate; symmetry; exact Hp. }
  unfold in_range, min_int, max_int in *.
  destruct ((- 2 ^ 63 <=? n) && (n <=? 2 ^ 63 - 1)) eqn:E; [done|].
  apply andb_false_iff in E as [E|E]; reflect_bools; lia.
Qed.

(** ** Lemmas: trimming, splitting, searching *)

Lemma trim_right_by_app (f : ascii -> bool) (a b : string) :
  trim_right_by f b <> "" -> trim_right_by f (a +:+ b) = a +:+ trim_right_by f b.
Proof.
  intros Hb. induction a as [|c a IH]; [done|].
  change (match trim_right_by f (a +:+ b) with
          | "" => if f c then "" else String c "" | t => String c t end
          = String c (a +:+ trim_right_by f b)).
  rewrite IH. destruct a as [|x a]; [|done]. by destruct (trim_right_by f b) eqn:E.
Qed.

Lemma trim_right_by_none (f : ascii -> bool) (s : string) :
  str_forall (fun c => negb (f c)) s = true -> trim_right_by f s = s.
Proof.
  induction s as [|c s IH]; cbn; [done|]. intros H.
  apply andb_true_iff in H as [Hc Hs]. rewrite IH by done.
  apply negb_true_iff in Hc. rewrite Hc. by destruct s.
Qed.

Lemma trim_left_by_head (f : ascii -> bool) (c : ascii) (s : string) :
  f c = false -> trim_left_by f (String c s) = String c s.
Proof. cbn. by intros ->. Qed.

Lemma SplitChar_app (c : ascii) (a b : string) :
  str_forall (fun x => negb (Ascii.eqb c x)) a = true ->
  SplitChar c (a +:+ String c b) = a :: SplitChar c b.
Proof.
  induction a as [|x a IH]; intros H.
  - change ((if Ascii.eqb c c then "" :: SplitChar c b else
             match SplitChar c b with [] => [String c ""] | w :: ws => String c w :: ws end)
            = "" :: SplitChar c b).
    by rewrite Ascii.eqb_refl.
  - cbn in H. apply andb_true_iff in H as [Hx Ha]. apply negb_true_iff in Hx.
    change ((if Ascii.eqb c x then "" :: SplitChar c (a +:+ String c b)
             else match SplitChar c (a +:+ String c b) with
                  | [] => [String x ""] | w :: ws => String x w :: ws end)
            = String x a :: SplitChar c b).
    by rewrite Hx, IH.
Qed.

Lemma SplitChar_none (c : ascii) (a : string) :
  str_forall (fun x => negb (Ascii.eqb c x)) a = true -> SplitChar c a = [a].
Proof.
  induction a as [|x a IH]; intros H; [done|].
  cbn in *. apply andb_true_iff in H as [Hx Ha]. apply negb_true_iff in Hx.
  by rewrite Hx, IH.
Qed.

Lemma HasPrefix_cons (c d : ascii) (s p : string) :
  HasPrefix (String c s) (String d p) = Ascii.eqb d c && HasPrefix s p.
Proof.
  change (HasPrefix (String c s) (String d p))
    with (if ascii_dec d c then HasPrefix s p else false).
  destruct (ascii_dec d c) as [->|Hne]; [by rewrite Ascii.eqb_refl|].
  apply Ascii.eqb_neq in Hne. by rewrite Hne.
Qed.

Lemma HasPrefix_app (p s : string) : HasPrefix (p +:+ s) p = true.
Proof.
  unfold HasPrefix. induction p as [|c p IH]; [by destruct s|].
  change (String.prefix (String c p) (String c (p +:+ s)) = true). cbn.
  destruct (ascii_dec c c); [done|congruence].
Qed.

Lemma HasPrefix_spec (s p : string) : HasPrefix s p = true <-> exists r, s = p +:+ r.
Proof.
  split; [|intros [r ->]; apply HasPrefix_app].
  unfold HasPrefix. revert s. induction p as [|c p IH]; intros s H; [by exists s|].
  destruct s as [|d s]; [done|]. cbn in H.
  destruct (ascii_dec c d) as [->|]; [|done].
  destruct (IH _ H) as [r ->]. by exists r.
Qed.

Lemma HasSuffix_spec (s p : string) : HasSuffix s p = true <-> exists r, s = r +:+ p.
Proof.
  split.
  - induction s as [|c s IH]; cbn; intros H; apply orb_true_iff in H as [H|H]; reflect_bools; subst.
    + by exists "".
    + done.
    + by exists "".
    + destruct (IH H) as [r ->]. by exists (String c r).
  - intros [r ->]. induction r as [|c r IH].
    + change ("" +:+ p) with p. destruct p as [|c p]; [done|].
      change (((String c p) =s? (String c p)) || HasSuffix p (String c p) = true).
      by rewrite eqb_string_refl.
    + change (((String c (r +:+ p)) =s? p) || HasSuffix (r +:+ p) p = true).
      rewrite IH. apply orb_true_r.
Qed.

Lemma CutPrefix_spec (s p r : string) : CutPrefix s p = Some r <-> s = p +:+ r.
Proof.
  revert s. induction p as [|a p IH]; intros s; cbn.
  - change ("" +:+ r) with r. split; [intros H; by injection H|by intros ->].
  - change ((String a p) +:+ r) with (String a (p +:+ r)). destruct s as [|b s]; [done|].
    destruct (Ascii.eqb_spec a b) as [->|Hne].
    + rewrite IH. split; [by intros ->|intros Hs; by injection Hs].
    + split; [done|]. intros Hs. by injection Hs.
Qed.

(** [c] does not occur in [s]. *)
Definition lacks (c : ascii) (s : string) : bool := str_forall (fun x => negb (Ascii.eqb c x)) s.

Lemma CutChar_app (c : ascii) (a b : string) :
  lacks c a = true -> CutChar c (a +:+ String c b) = Some (a, b).
Proof.
  unfold lacks. induction a as [|x a IH]; intros H.
  - change ((if Ascii.eqb c c then Some ("", b) else
             match CutChar c b with Some (l, r) => Some (String c l, r) | None => None end)
            = Some ("", b)). by rewrite Ascii.eqb_refl.
  - cbn in H. apply andb_true_iff in H as [Hx Ha]. apply negb_true_iff in Hx.
    change ((if Ascii.eqb c x then Some ("", a +:+ String c b) else
             match CutChar c (a +:+ String c b) with Some (l, r) => Some (String x l, r) | None => None end)
            = Some (String x a, b)). by rewrite Hx, IH.
Qed.

Lemma CutChar_none (c : ascii) (a : string) : lacks c a = true -> CutChar c a = None.
Proof.
  unfold lacks. induction a as [|x a IH]; cbn; intros H; [done|].
  apply andb_true_iff in H as [Hx Ha]. apply negb_true_iff in Hx. by rewrite Hx, IH.
Qed.

Lemma Contains_char (c : ascii) (s : string) : Contains s (String c "") = negb (lacks c s).
Proof.
  unfold lacks. induction s as [|x s IH]; [done|].
  change (HasPrefix (String x s) (String c "") || Contains s (String c "")
          = negb (negb (Ascii.eqb c x) && str_forall (fun x => negb (Ascii.eqb c x)) s)).
  rewrite IH, HasPrefix_cons, negb_andb, negb_involutive.
  assert (HasPrefix s "" = true) as -> by (by destruct s). by rewrite andb_true_r.
Qed.

Lemma lacks_app (c : ascii) (a b : string) : lacks c (a +:+ b) = lacks c a && lacks c b.
Proof. apply str_forall_app. Qed.

Lemma after_last_app (c : ascii) (a b : string) :
  lacks c b = true -> after_last c (a +:+ String c b) = b.
Proof.
  intros Hb. induction a as [|x a IH].
  - change ((if Contains b (String c "") then after_last c b
             else if Ascii.eqb c c then b else String c b) = b).
    by rewrite Contains_char, Hb, Ascii.eqb_refl.
  - change ((if Contains (a +:+ String c b) (String c "") then after_last c (a +:+ String c b)
             else if Ascii.eqb c x then a +:+ String c b else String x (a +:+ String c b)) = b).
    rewrite Contains_char, lacks_app.
    assert (lacks c (String c b) = false) as ->
      by (change (negb (Ascii.eqb c c) && lacks c b = false); by rewrite Ascii.eqb_refl).
    by rewrite andb_false_r.
Qed.

(** ** Lemmas: case mapping and searching *)

Lemma Contains_spec (s p : string) : Contains s p = true <-> exists a b, s = a +:+ p +:+ b.
Proof.
  split.
  - induction s as [|c s IH]; intros H.
    { destruct p; [by exists "", ""|done]. }
    change (HasPrefix (String c s) p || Contains s p = true) in H.
    apply orb_true_iff in H as [H|H].
    + apply HasPrefix_spec in H as [r Hr]. exists "", r. by rewrite Hr.
    + destruct (IH H) as (a & b & ->). by exists (String c a), b.
  - intros (a & b & ->). induction a as [|c a IH].
    + change (Contains (p +:+ b) p = true).
      pose proof (HasPrefix_app p b) as Hp. destruct (p +:+ b) as [|c t].
      * destruct p; done.
      * change (HasPrefix (String c t) p || Contains t p = true). by rewrite Hp.
    + change (HasPrefix (String c (a +:+ p +:+ b)) p || Contains (a +:+ p +:+ b) p = true).
      rewrite IH. apply orb_true_r.
Qed.

Lemma string_map_app (f : ascii -> ascii) (a b : string) :
  string_map f (a +:+ b) = string_map f a +:+ string_map f b.
Proof. induction a as [|c a IH]; [done|]. exact (f_equal (String (f c)) IH). Qed.

(** A lower-case needle is found in the lower-cased text wherever the text has
    it in any case. *)
Lemma Contains_ToLower_app (a b p : string) :
  Contains (ToLower (a +:+ p +:+ b)) (ToLower p) = true.
Proof. apply Contains_spec. exists (ToLower a), (ToLower b). unfold ToLower. by rewrite !string_map_app. Qed.

Lemma Contains_app_r (a s p : string) : Contains s p = true -> Contains (a +:+ s) p = true.
Proof.
  intros H. apply Contains_spec in H as (x & y & ->). apply Contains_spec.
  exists (a +:+ x), y. by rewrite string_app_assoc.
Qed.

Lemma ToLower_app (a b : string) : ToLower (a +:+ b) = ToLower a +:+ ToLower b.
Proof. apply string_map_app. Qed.

(** ** Lemmas: sorting *)

Lemma insert_sorted_perm {A} (le : A -> A -> bool) (x : A) (l : list A) : insert_sorted le x l ≡ₚ x :: l.
Proof.
  induction l as [|y l IH]; cbn; [done|]. destruct (le x y); [done|].
  rewrite IH. apply Permutation_swap.
Qed.

Lemma sort_by_perm {A} (le : A -> A -> bool) (l : list A) : sort_by le l ≡ₚ l.
Proof. induction l as [|x l IH]; cbn; [done|]. by rewrite insert_sorted_perm, IH. Qed.

Lemma string_leb_le (a b : string) : string_leb a b = true <-> String.le a b.
Proof. unfold string_leb, String.le, String.leb. by destruct (a ?= b)%string. Qed.

Lemma insert_sorted_Sorted (x : string) (l : list string) :
  Sorted String.le l -> Sorted String.le (insert_sorted string_leb x l).
Proof.
  induction l as [|y l IH]; intros Hl; cbn; [by repeat constructor|].
  destruct (string_leb x y) eqn:E; [by constructor; [|constructor; apply string_leb_le]|].
  apply Sorted_inv in Hl as [Hl Hy]. assert (Hyx : String.le y x).
  { destruct (total String.le x y) as [Hxy|]; [|done]. apply string_leb_le in Hxy. congruence. }
  constructor; [by apply IH|]. destruct l as [|z l]; cbn; [by constructor|].
  destruct (string_leb x z); constructor; [done|]. by inversion Hy.
Qed.

Lemma Sort_Sorted (l : list string) : Sorted String.le (Sort l).
Proof. induction l as [|x l IH]; [constructor|]. by apply insert_sorted_Sorted. Qed.

(** Sorted texts are equal when the texts are the same up to order. *)
Lemma Sort_eq (l l' : list string) : Sort l = Sort l' <-> l ≡ₚ l'.
Proof.
  split; intros E.
  - transitivity (Sort l); [symmetry; apply sort_by_perm|]. rewrite E. apply sort_by_perm.
  - apply (Sorted_unique String.le); [apply Sort_Sorted..|]. unfold Sort. by rewrite !sort_by_perm.
Qed.
