(* ===== verification/GoErrors.v ===== *)
(** * Go errors, and [internal/technitium/errors.go]

    A Go [error] value is the chain [errors.Is] and [errors.As] walk: sentinel
    values, typed API errors, errors of the Kubernetes client (whose reason the
    apimachinery predicates read) and the wrappers of [fmt.Errorf]. *)

From S2P Require Import Prelude GoStrings.

Local Open Scope string_scope.
Local Open Scope Z_scope.
Local Open Scope go_scope.

(** ** Error values *)

(** The sentinel errors of the operator ([errors.New] values, compared by
    identity). *)
Inductive sentinel :=
| ErrZoneAlreadyExists
| ErrZoneNotFound
| ErrInvalidToken
| ErrInvalidCredentials
| ErrClusterAlreadyInitialized
| ErrRecordAlreadyExists
| ErrRecordNotFound
| ErrAppAlreadyInstalled
| ErrAppNotInstalled
| ErrDHCPScopeNotFound
| ErrDHCPReservationNotFound
| ErrAdminCredentialsRejected
| ErrPDBNotOwned.

#[export] Instance sentinel_eq_dec : EqDecision sentinel.
Proof. solve_decision. Defined.

Definition sentinel_text (s : sentinel) : string :=
  match s with
  | ErrZoneAlreadyExists => "technitium: zone already exists"
  | ErrZoneNotFound => "technitium: zone not found"
  | ErrInvalidToken => "technitium: invalid or expired token"
  | ErrInvalidCredentials => "technitium: invalid username or password"
  | ErrClusterAlreadyInitialized => "technitium: cluster already initialized"
  | ErrRecordAlreadyExists => "technitium: record already exists"
  | ErrRecordNotFound => "technitium: record not found"
  | ErrAppAlreadyInstalled => "technitium: app already installed"
  | ErrAppNotInstalled => "technitium: app not installed"
  | ErrDHCPScopeNotFound => "technitium: dhcp scope not found"
  | ErrDHCPReservationNotFound => "technitium: dhcp reservation not found"
  | ErrAdminCredentialsRejected => "admin credentials rejected"
  | ErrPDBNotOwned => "pod disruption budget exists but is not owned by this TechnitiumCluster"
  end.

(** [technitium.APIError]. *)
Module APIError.
Record t := mk { Status : string; Message : string; HTTPStatus : Z }.

#[export] Instance t_eq_dec : EqDecision t.
Proof. solve_decision. Defined.

Definition Error (e : t) : string :=
  if negb (Message e =s? "") then
    "technitium: API returned status " +:+ quoted (Status e) +:+ ": " +:+ Message e
  else if negb (HTTPStatus e =? 0) then
    "technitium: unexpected HTTP " +:+ Itoa (HTTPStatus e) +:+ " response"
  else "technitium: API returned status " +:+ quoted (Status e).
End APIError.

(** The reason a Kubernetes client error carries. *)
Inductive kube_reason := NotFound | AlreadyExists | Conflict | Invalid | OtherReason.

#[export] Instance kube_reason_eq_dec : EqDecision kube_reason.
Proof. solve_decision. Defined.

Inductive error :=
| ESentinel (s : sentinel)
| EAPI (e : APIError.t)
| EKube (r : kube_reason) (msg : string)
(** [errors.New] or [fmt.Errorf] without [%w], and standard-library errors *)
| EText (msg : string)
(** [fmt.Errorf] with [%w]: the rendered text and the wrapped error *)
| EWrap (msg : string) (inner : error).

#[export] Existing Instance APIError.t_eq_dec.
#[export] Instance error_eq_dec : EqDecision error.
Proof. solve_decision. Defined.

(** The [Error] method. *)
Definition Error (e : error) : string :=
  match e with
  | ESentinel s => sentinel_text s
  | EAPI a => APIError.Error a
  | EKube _ m | EText m | EWrap m _ => m
  end.

(** [errors.Is] against a sentinel. *)
Fixpoint Is (e : error) (s : sentinel) : bool :=
  match e with
  | ESentinel s' => bool_decide (s' = s)
  | EWrap _ i => Is i s
  | _ => false
  end.

(** [errors.AsType[*technitium.APIError]]. *)
Fixpoint AsAPIError (e : error) : option APIError.t :=
  match e with
  | EAPI a => Some a
  | EWrap _ i => AsAPIError i
  | _ => None
  end.

(** [apierrors.ReasonForError]: the reason of the first Kubernetes error of
    the chain. *)
Fixpoint kube_reason_of (e : error) : option kube_reason :=
  match e with
  | EKube r _ => Some r
  | EWrap _ i => kube_reason_of i
  | _ => None
  end.

Definition IsNotFound (e : error) : bool := bool_decide (kube_reason_of e = Some NotFound).
Definition IsAlreadyExists (e : error) : bool := bool_decide (kube_reason_of e = Some AlreadyExists).

(** [client.IgnoreNotFound]. *)
Definition IgnoreNotFound (e : error) : option error := if IsNotFound e then None else Some e.

(** [fmt.Errorf("%w: %s", sentinel, message)]. *)
Definition wrap_sentinel (s : sentinel) (message : string) : error :=
  EWrap (sentinel_text s +:+ ": " +:+ message) (ESentinel s).

(** [fmt.Errorf("<prefix>: %w", err)]. *)
Definition wrapf (prefix : string) (e : error) : error :=
  EWrap (prefix +:+ ": " +:+ Error e) e.

(** ** [classifyStatus] *)

Definition classifyStatus (status message : string) : option error :=
  if status =s? "ok" then None
  else if status =s? "invalid-token" then Some (ESentinel ErrInvalidToken)
  else
    let lower := ToLower message in
    if Contains lower "invalid username or password" then
      Some (wrap_sentinel ErrInvalidCredentials message)
    else
      let isRecord := Contains lower "record" in
      let isApp := Contains lower "app" in
      let isDHCPReservation := Contains lower "reservation" || Contains lower "lease" in
      let isDHCPScope := Contains lower "scope" in
      if Contains lower "already initialized" then
        Some (wrap_sentinel ErrClusterAlreadyInitialized message)
      else if Contains lower "already exists" || Contains lower "already installed" then
        Some (wrap_sentinel
          (if isRecord then ErrRecordAlreadyExists
           else if isApp then ErrAppAlreadyInstalled
           else ErrZoneAlreadyExists) message)
      else if Contains lower "no such zone" || Contains lower "no such record"
           || Contains lower "no such app" || Contains lower "no such scope"
           || Contains lower "no reservation" || Contains lower "not installed"
           || Contains lower "not found" || Contains lower "does not exist" then
        Some (wrap_sentinel
          (if isRecord then ErrRecordNotFound
           else if isApp then ErrAppNotInstalled
           else if isDHCPReservation then ErrDHCPReservationNotFound
           else if isDHCPScope then ErrDHCPScopeNotFound
           else ErrZoneNotFound) message)
      else Some (EAPI (APIError.mk status message 0)).

(** ** Lemmas *)

Lemma Is_wrap_sentinel (s t : sentinel) (m : string) :
  Is (wrap_sentinel s m) t = bool_decide (s = t).
Proof. reflexivity. Qed.

Lemma wrapf_Is (p : string) (e : error) (s : sentinel) : Is (wrapf p e) s = Is e s.
Proof. reflexivity. Qed.

Lemma wrapf_IsNotFound (p : string) (e : error) : IsNotFound (wrapf p e) = IsNotFound e.
Proof. reflexivity. Qed.

#[export] Hint Rewrite Is_wrap_sentinel wrapf_Is wrapf_IsNotFound : op.

(** [classifyStatus] by cases on the message's words. *)
Ltac classify_cases :=
  unfold classifyStatus; intros Hc;
  repeat match type of Hc with
  | context [if ?b then _ else _] => let E := fresh "E" in destruct b eqn:E
  end; try discriminate Hc; injection Hc as <-.

(** A message that mentions a record or an app is never taken for a zone error. *)
Lemma classifyStatus_not_zone (status message : string) (e : error) :
  Contains (ToLower message) "record" = true \/ Contains (ToLower message) "app" = true ->
  classifyStatus status message = Some e ->
  Is e ErrZoneNotFound = false /\ Is e ErrZoneAlreadyExists = false.
Proof.
  intros Hm. cbv zeta. classify_cases; try (split; reflexivity); destruct Hm; congruence.
Qed.

Lemma classifyStatus_nil (status message : string) :
  classifyStatus status message = None <-> status = "ok".
Proof.
  unfold classifyStatus. destruct (String.eqb_spec status "ok") as [->|Hn]; [done|].
  split; [|done]. repeat (dmatch; try done).
Qed.

(** The message is kept in the error's text. *)
Definition carries (e : error) (message : string) : Prop := exists p, Error e = p +:+ message.

(** The words in a (lower-case) message that justify each sentinel. *)
Definition said (s : sentinel) (lower : string) : bool :=
  match s with
  | ErrInvalidCredentials => Contains lower "invalid username or password"
  | ErrClusterAlreadyInitialized => Contains lower "already initialized"
  | ErrZoneAlreadyExists | ErrRecordAlreadyExists | ErrAppAlreadyInstalled =>
      Contains lower "already exists" || Contains lower "already installed"
  | ErrZoneNotFound | ErrRecordNotFound | ErrAppNotInstalled
  | ErrDHCPScopeNotFound | ErrDHCPReservationNotFound =>
      Contains lower "no such zone" || Contains lower "no such record"
      || Contains lower "no such app" || Contains lower "no such scope"
      || Contains lower "no reservation" || Contains lower "not installed"
      || Contains lower "not found" || Contains lower "does not exist"
  | _ => false
  end.

Lemma classifyStatus_cases (status message : string) (e : error) :
  classifyStatus status message = Some e ->
  status <> "ok" /\
  ((status = "invalid-token" /\ e = ESentinel ErrInvalidToken) \/
   (status <> "invalid-token" /\
    ((exists s, e = wrap_sentinel s message /\ said s (ToLower message) = true) \/
     e = EAPI (APIError.mk status message 0)))).
Proof.
  unfold classifyStatus. destruct (String.eqb_spec status "ok") as [|Hok]; [done|].
  destruct (String.eqb_spec status "invalid-token") as [->|Ht]; intros Hc.
  { injection Hc as <-. split; [done|]. by left. }
  split; [done|]. right. split; [done|].
  repeat match type of Hc with
  | (if ?b then Some (wrap_sentinel ?s _) else _) = _ =>
      let E := fresh "E" in destruct b eqn:E;
      [injection Hc as <-; left; exists s; split; [done|]; repeat dmatch; exact E|]
  end.
  injection Hc as <-. by right.
Qed.

(** [classifyStatus] accepts exactly the status ["ok"].  Any other answer is
    an error that carries the server's message verbatim (an expired token, which
    has a status of its own, excepted) and answers to at most one sentinel, and
    callers can trust it: it is [ErrInvalidToken] exactly on the status
    ["invalid-token"], and every other sentinel is justified by the words of the
    message. *)
Theorem classifyStatus_sound (status message : string) :
  (classifyStatus status message = None <-> status = "ok") /\
  forall e, classifyStatus status message = Some e ->
    (Is e ErrInvalidToken = true <-> status = "invalid-token") /\
    (status <> "invalid-token" -> message <> "" -> carries e message) /\
    (forall s, Is e s = true -> s = ErrInvalidToken \/ said s (ToLower message) = true) /\
    (forall s s', Is e s = true -> Is e s' = true -> s = s').
Proof.
  split; [apply classifyStatus_nil|]. intros e He.
  apply classifyStatus_cases in He as (_ & [[Hs ->]|(Hs & [(s & -> & Hsaid)| ->])]); cbn.
  - split_and!; try done.
    + intros s Hs'. apply bool_decide_eq_true in Hs'. by left.
    + intros s s' H1 H2. apply bool_decide_eq_true in H1, H2. congruence.
  - split_and!.
    + split; [|done]. intros Hi. apply bool_decide_eq_true in Hi. by subst.
    + intros _ _. exists (sentinel_text s +:+ ": "). cbn. by rewrite string_app_assoc.
    + intros s' Hs'. apply bool_decide_eq_true in Hs'. subst. by right.
    + intros s1 s2 H1 H2. apply bool_decide_eq_true in H1, H2. congruence.
  - split_and!; try done. intros _ Hm. unfold carries. cbn. unfold APIError.Error. cbn.
    destruct (String.eqb_spec message ""); [done|]. cbn [negb].
    exists ("technitium: API returned status " +:+ quoted status +:+ ": ").
    by rewrite !string_app_assoc.
Qed.
