(* ===== verification/Effects.v ===== *)
(** * Effectful programs

    A handler of the operator is a program that calls interfaces it does not
    implement (the Kubernetes API, a Technitium server, an HTTP transport) and
    continues with their answers.  [prog A R] is that program as an inductive
    tree over the calls [A], each with its answer type; nothing is assumed
    about the answers.  Two semantics are given:
    - [always p Q] : [Q] holds of the call history and result of every
      execution, whatever the answers;
    - [run h p s] : execution against a stateful implementation [h]. *)

From S2P Require Import Prelude GoErrors.

(** ** Calls and programs *)

Class Effect (A : Type) := answer : A -> Type.

Inductive prog (A : Type) `{Effect A} (R : Type) : Type :=
| Ret (r : R)
| Call (a : A) (k : answer a -> prog A R).
Arguments Ret {A _ R} r.
Arguments Call {A _ R} a k.

Fixpoint bind {A : Type} `{Effect A} {R T : Type} (p : prog A R) (f : R -> prog A T) : prog A T :=
  match p with
  | Ret r => f r
  | Call a k => Call a (fun x => bind (k x) f)
  end.

Definition call {A : Type} `{Effect A} (a : A) : prog A (answer a) := Call a Ret.

(** Go's [(value, error)] results. *)
Abbreviation fallible T := (sum error T).
Abbreviation fail e := (Ret (inl e)).
Abbreviation ok v := (Ret (inr v)).

Declare Scope prog_scope.
Delimit Scope prog_scope with prog.
Notation "x <- p ;; q" := (bind p (fun x => q))
  (at level 100, p at next level, right associativity) : prog_scope.
Notation "p ;; q" := (bind p (fun _ => q))
  (at level 100, right associativity) : prog_scope.
(** [v, err := p; if err != nil { return _, err }; q] *)
Notation "'try' x <- p ;; q" :=
  (bind p (fun r => match r with inl e => Ret (inl e) | inr x => q end))
  (at level 100, x pattern, p at next level, right associativity) : prog_scope.
(** The same in a function that returns only an error. *)
Notation "'tryE' x <- p ;; q" :=
  (bind p (fun r => match r with inl e => Ret (Some e) | inr x => q end))
  (at level 100, x pattern, p at next level, right associativity) : prog_scope.
(** [if err := p; err != nil { return err }; q] *)
Notation "'check' p ;; q" :=
  (bind p (fun r => match r with Some e => Ret (Some e) | None => q end))
  (at level 100, p at next level, right associativity) : prog_scope.
(** The same in a function that also returns a value. *)
Notation "'checkV' p ;; q" :=
  (bind p (fun r => match r with Some e => Ret (inl e) | None => q end))
  (at level 100, p at next level, right associativity) : prog_scope.

(** A [for] loop over a slice whose body may return an error. *)
Fixpoint for_each {A : Type} `{Effect A} {X : Type} (l : list X) (body : X -> prog A (option error))
  : prog A (option error) :=
  match l with
  | [] => Ret None
  | x :: l' => bind (body x) (fun r =>
      match r with Some e => Ret (Some e) | None => for_each l' body end)
  end.

(** Calls to either of two interfaces. *)
#[export] Instance sum_Effect {A B : Type} `{Effect A} `{Effect B} : Effect (A + B) :=
  fun c => match c with inl a => answer a | inr b => answer b end.

(** ** Semantics *)

Section semantics.
Context {A : Type} `{Effect A}.

(** A call with its answer; a history is the calls made so far. *)
Definition event : Type := { a : A & answer a }.
Definition ev (a : A) (x : answer a) : event := existT a x.

Fixpoint holds {R : Type} (p : prog A R) (past : list event) (Q : list event -> R -> Prop) : Prop :=
  match p with
  | Ret r => Q past r
  | Call a k => forall x, holds (k x) (past ++ [ev a x]) Q
  end.

(** [Q] holds of every execution of [p]. *)
Definition always {R : Type} (p : prog A R) (Q : list event -> R -> Prop) : Prop := holds p [] Q.

(** Execution against an implementation of the interface. *)
Fixpoint run {S R : Type} (h : forall a, S -> answer a * S) (p : prog A R) (s : S) : R * S :=
  match p with
  | Ret r => (r, s)
  | Call a k => let '(x, s') := h a s in run h (k x) s'
  end.

(** The history of that execution. *)
Fixpoint history {S R : Type} (h : forall a, S -> answer a * S) (p : prog A R) (s : S) : list event :=
  match p with
  | Ret _ => []
  | Call a k => let '(x, s') := h a s in ev a x :: history h (k x) s'
  end.

Lemma holds_mono {R : Type} (p : prog A R) (Q Q' : list event -> R -> Prop) : forall past,
  (forall tr r, Q tr r -> Q' tr r) -> holds p past Q -> holds p past Q'.
Proof. induction p as [r|a k IH]; cbn; intros past HQ Hp; eauto. Qed.

Lemma holds_bind {R T : Type} (p : prog A R) (f : R -> prog A T) (Q : list event -> T -> Prop) :
  forall past, holds (bind p f) past Q <-> holds p past (fun tr r => holds (f r) tr Q).
Proof.
  induction p as [r|a k IH]; cbn; intros past; [done|].
  split; intros Hp x; apply IH; auto.
Qed.

Lemma holds_conj {R : Type} (p : prog A R) (Q Q' : list event -> R -> Prop) : forall past,
  holds p past Q -> holds p past Q' -> holds p past (fun tr r => Q tr r /\ Q' tr r).
Proof. induction p as [r|a k IH]; cbn; intros past HQ HQ'; auto. Qed.

(** What holds of every execution holds of the executions against any
    implementation. *)
Lemma holds_run {S R : Type} (h : forall a, S -> answer a * S) (p : prog A R)
    (Q : list event -> R -> Prop) : forall past s,
  holds p past Q -> Q (past ++ history h p s) (run h p s).1.
Proof.
  induction p as [r|a k IH]; cbn; intros past s Hp; [by rewrite app_nil_r|].
  destruct (h a s) as [x s'] eqn:E. cbn.
  specialize (IH x (past ++ [ev a x]) s' (Hp x)).
  by rewrite <- app_assoc in IH.
Qed.

Lemma always_run {S R : Type} (h : forall a, S -> answer a * S) (p : prog A R)
    (Q : list event -> R -> Prop) (s : S) :
  always p Q -> Q (history h p s) (run h p s).1.
Proof. intros Hp. exact (holds_run h p Q [] s Hp). Qed.

Lemma run_bind {S R T : Type} (h : forall a, S -> answer a * S) (p : prog A R) (f : R -> prog A T) :
  forall s, run h (bind p f) s = run h (f (run h p s).1) (run h p s).2.
Proof.
  induction p as [r|a k IH]; cbn; intros s; [done|].
  destruct (h a s) as [x s']. apply IH.
Qed.

(** An invariant on histories that a loop body preserves holds after the loop. *)
Lemma holds_for_each {X : Type} (l : list X) (body : X -> prog A (option error))
    (I : list event -> Prop) (past : list event) :
  I past ->
  (forall x tr, x ∈ l -> I tr -> holds (body x) tr (fun tr' _ => I tr')) ->
  holds (for_each l body) past (fun tr _ => I tr).
Proof.
  revert past. induction l as [|x l IH]; cbn; intros past HI Hbody; [done|].
  apply holds_bind. eapply holds_mono; [|apply Hbody; [set_solver|done]].
  intros tr r Htr. cbn. destruct r as [e|]; [done|].
  apply IH; [done|]. intros y tr' Hy. apply Hbody. set_solver.
Qed.

(** No execution of the program makes a call in [P]. *)
Fixpoint avoids {R : Type} (P : A -> Prop) (p : prog A R) : Prop :=
  match p with
  | Ret _ => True
  | Call a k => ~ P a /\ forall x, avoids P (k x)
  end.

Lemma avoids_bind {R T : Type} (P : A -> Prop) (p : prog A R) (f : R -> prog A T) :
  avoids P p -> (forall r, avoids P (f r)) -> avoids P (bind p f).
Proof. induction p as [r|a k IH]; cbn; [auto|]. intros [Ha Hk] Hf. split; [done|]. auto. Qed.

Lemma avoids_holds {R : Type} (P : A -> Prop) (p : prog A R) : forall past,
  avoids P p ->
  holds p past (fun tr _ => exists ext, tr = (past ++ ext)%list /\ Forall (fun e => ~ P (projT1 e)) ext).
Proof.
  induction p as [r|a k IH]; cbn; intros past Hp; [by exists []; rewrite app_nil_r|].
  destruct Hp as [Ha Hk]. intros x. eapply holds_mono; [|apply IH; apply Hk].
  intros tr r (ext & -> & Hext). exists (ev a x :: ext). split; [by rewrite <- app_assoc|].
  by constructor.
Qed.

Lemma avoids_for_each {X : Type} (P : A -> Prop) (l : list X) (body : X -> prog A (option error)) :
  (forall x, x ∈ l -> avoids P (body x)) -> avoids P (for_each l body).
Proof.
  induction l as [|x l IH]; cbn; intros Hb; [done|].
  apply avoids_bind; [apply Hb; set_solver|]. intros [e|]; [done|]. apply IH. set_solver.
Qed.

(** What a program avoids is in none of its histories. *)
Lemma avoids_always {R : Type} (P : A -> Prop) (p : prog A R) :
  avoids P p -> always p (fun tr _ => Forall (fun e => ~ P (projT1 e)) tr).
Proof.
  intros Hp. eapply holds_mono; [|apply (avoids_holds P p [] Hp)].
  intros tr r (ext & -> & Hext). exact Hext.
Qed.

(** A program that every history extends. *)
Lemma holds_extends {R : Type} (p : prog A R) (past : list event) :
  holds p past (fun tr _ => exists ext, tr = (past ++ ext)%list).
Proof.
  eapply holds_mono; [|apply (avoids_holds (fun _ => False))].
  - intros tr r (ext & E & _). by exists ext.
  - clear past. induction p; cbn; auto.
Qed.

Lemma holds_ext {R : Type} (p : prog A R) (past : list event) (Q : list event -> R -> Prop) :
  holds p past Q -> holds p past (fun tr r => Q tr r /\ exists ext, tr = (past ++ ext)%list).
Proof. intros Hp. apply holds_conj; [done|apply holds_extends]. Qed.

(** What a program avoids is not in what it adds to a history. *)
Lemma holds_avoiding {R : Type} (P : A -> Prop) (p : prog A R) (past : list event) (Q : list event -> R -> Prop) :
  avoids P p -> holds p past Q ->
  holds p past (fun tr r => Q tr r /\
    exists ext, tr = (past ++ ext)%list /\ Forall (fun e => ~ P (projT1 e)) ext).
Proof. intros Ha Hp. apply holds_conj; [done|by apply avoids_holds]. Qed.

(** What holds of a program's own histories holds of what it adds to one. *)
Lemma holds_shift {R : Type} (p : prog A R) (Q : list event -> R -> Prop) : forall past own,
  holds p own Q -> holds p (past ++ own)%list (fun tr r => exists ext, tr = (past ++ ext)%list /\ Q ext r).
Proof.
  induction p as [r|a k IH]; cbn; intros past own Hp; [by exists own|].
  intros x. rewrite <- app_assoc. by apply IH.
Qed.

Lemma holds_frame {R : Type} (p : prog A R) (past : list event) (Q : list event -> R -> Prop) :
  always p Q -> holds p past (fun tr r => exists ext, tr = (past ++ ext)%list /\ Q ext r).
Proof. intros Hp. pose proof (holds_shift p Q past [] Hp) as Hs. by rewrite app_nil_r in Hs. Qed.

(** Programs one after the other, each judged by its own history. *)
Lemma always_bind {R T : Type} (p : prog A R) (f : R -> prog A T)
    (Q : list event -> R -> Prop) (Q' : list event -> T -> Prop) :
  always p Q -> (forall tr r, Q tr r -> always (f r) (fun tr' x => Q' (tr ++ tr')%list x)) ->
  always (bind p f) Q'.
Proof.
  intros Hp Hf. apply holds_bind. eapply holds_mono; [|exact Hp]. cbn beta. intros tr r Hr.
  eapply holds_mono; [|exact (holds_frame (f r) tr _ (Hf tr r Hr))].
  by intros tr' x (ext & -> & Hx).
Qed.

(** [tr] and [r] are the history and the result of an execution. *)
Fixpoint executes {R : Type} (p : prog A R) (tr : list event) (r : R) : Prop :=
  match p with
  | Ret r' => tr = [] /\ r = r'
  | Call a k => exists x tr', tr = ev a x :: tr' /\ executes (k x) tr' r
  end.

Lemma holds_executes {R : Type} (p : prog A R) (Q : list event -> R -> Prop) : forall past tr r,
  holds p past Q -> executes p tr r -> Q (past ++ tr)%list r.
Proof.
  induction p as [r'|a k IH]; cbn; intros past tr r Hp He.
  - destruct He as [-> ->]. by rewrite app_nil_r.
  - destruct He as (x & tr' & -> & He). specialize (IH x _ _ _ (Hp x) He). by rewrite <- app_assoc in IH.
Qed.

Lemma always_executes {R : Type} (p : prog A R) (Q : list event -> R -> Prop) tr r :
  always p Q -> executes p tr r -> Q tr r.
Proof. intros Hp He. exact (holds_executes p Q [] tr r Hp He). Qed.

Lemma run_executes {S R : Type} (h : forall a, S -> answer a * S) (p : prog A R) : forall s,
  executes p (history h p s) (run h p s).1.
Proof.
  induction p as [r|a k IH]; cbn; intros s; [done|]. destruct (h a s) as [x s']. cbn.
  exists x, (history h (k x) s'). split; [done|]. apply IH.
Qed.

Lemma history_bind {S R T : Type} (h : forall a, S -> answer a * S) (p : prog A R) (f : R -> prog A T) :
  forall s, history h (bind p f) s
    = (history h p s ++ history h (f (run h p s).1) (run h p s).2)%list.
Proof.
  induction p as [r|a k IH]; cbn; intros s; [done|].
  destruct (h a s) as [x s']. cbn. by rewrite IH.
Qed.
End semantics.

Arguments event A {_}.

(** ** Composition

    [t] implements the calls [A] of a program by programs over [B]: a client
    library between a controller and the transport.  Running the composition is
    running the controller against the interface [t] gives the server. *)
Section interpretation.
Context {A B : Type} `{Effect A} `{Effect B} (t : forall a : A, prog B (answer a)).

Fixpoint interp {R : Type} (p : prog A R) : prog B R :=
  match p with
  | Ret r => Ret r
  | Call a k => bind (t a) (fun x => interp (k x))
  end.

Lemma run_interp {S R : Type} (h : forall b, S -> answer b * S) (p : prog A R) : forall s,
  run h (interp p) s = run (fun a => run h (t a)) p s.
Proof.
  induction p as [r|a k IH]; cbn; intros s; [done|].
  rewrite run_bind, IH. by destruct (run h (t a) s).
Qed.

(** No call in [P] is made when no call the program makes leads to one. *)
Lemma avoids_interp {R : Type} (P : A -> Prop) (Q : B -> Prop) (p : prog A R) :
  avoids P p -> (forall a, ~ P a -> avoids Q (t a)) -> avoids Q (interp p).
Proof.
  intros Hp Ht. induction p as [r|a k IH]; cbn in *; [done|]. destruct Hp as [Ha Hk].
  apply avoids_bind; auto.
Qed.
End interpretation.

(** *** A program over one of two interfaces *)
Section sum.
Context {A B : Type} `{Effect A} `{Effect B}.

Definition ev_inl (e : event A) : event (A + B) := existT (inl (projT1 e) : A + B) (projT2 e).
Definition ev_inr (e : event B) : event (A + B) := existT (inr (projT1 e) : A + B) (projT2 e).

Fixpoint injl {R : Type} (p : prog A R) : prog (A + B) R :=
  match p with
  | Ret r => Ret r
  | Call a k => Call (inl a : A + B) (fun x => injl (k x))
  end.
Fixpoint injr {R : Type} (p : prog B R) : prog (A + B) R :=
  match p with
  | Ret r => Ret r
  | Call b k => Call (inr b : A + B) (fun x => injr (k x))
  end.

Lemma holds_injl {R : Type} (p : prog A R) (Q : list (event (A + B)) -> R -> Prop) : forall past,
  (forall tr r, executes p tr r -> Q (past ++ map ev_inl tr)%list r) -> holds (injl p) past Q.
Proof.
  induction p as [r|a k IH]; cbn; intros past Hp.
  - specialize (Hp [] r). rewrite app_nil_r in Hp. by apply Hp.
  - intros x. apply IH. intros tr r He. rewrite <- app_assoc. apply (Hp (ev a x :: tr)). by exists x, tr.
Qed.

Lemma holds_injr {R : Type} (p : prog B R) (Q : list (event (A + B)) -> R -> Prop) : forall past,
  (forall tr r, executes p tr r -> Q (past ++ map ev_inr tr)%list r) -> holds (injr p) past Q.
Proof.
  induction p as [r|b k IH]; cbn; intros past Hp.
  - specialize (Hp [] r). rewrite app_nil_r in Hp. by apply Hp.
  - intros x. apply IH. intros tr r He. rewrite <- app_assoc. apply (Hp (ev b x :: tr)). by exists x, tr.
Qed.

(** What a program avoids, its embedding avoids. *)
Lemma avoids_injr {R : Type} (P : A + B -> Prop) (p : prog B R) :
  avoids (fun b => P (inr b)) p -> avoids P (injr p).
Proof. induction p as [r|b k IH]; cbn; [done|]. intros [Hb Hk]. split; [done|auto]. Qed.
End sum.

(** *** Counting calls

    No execution of the program makes more than [n] calls that satisfy [f]. *)
Section counting.
Context {A : Type} `{Effect A}.

Fixpoint at_most {R : Type} (n : nat) (f : A -> bool) (p : prog A R) : Prop :=
  match p with
  | Ret _ => True
  | Call a k =>
      if f a then match n with O => False | S n' => forall x, at_most n' f (k x) end
      else forall x, at_most n f (k x)
  end.

Lemma at_most_mono {R : Type} (f : A -> bool) (p : prog A R) : forall n m,
  (n <= m)%nat -> at_most n f p -> at_most m f p.
Proof.
  induction p as [r|a k IH]; cbn; intros n m Hnm Hp; [done|]. destruct (f a); [|by eauto].
  destruct n as [|n]; [done|]. destruct m as [|m]; [lia|]. intros x. apply (IH x n); [lia|apply Hp].
Qed.

Lemma at_most_bind {R T : Type} (f : A -> bool) (p : prog A R) (g : R -> prog A T) m : forall n,
  at_most n f p -> (forall r, at_most m f (g r)) -> at_most (n + m) f (bind p g).
Proof.
  induction p as [r|a k IH]; cbn; intros n Hp Hg.
  - apply (at_most_mono f (g r) m); [lia|apply Hg].
  - destruct (f a); [|auto]. destruct n as [|n]; [done|]. cbn. auto.
Qed.

(** A continuation that makes no such call does not count. *)
Lemma at_most_bind_quiet {R T : Type} (f : A -> bool) (p : prog A R) (g : R -> prog A T) n :
  at_most n f p -> (forall r, at_most 0 f (g r)) -> at_most n f (bind p g).
Proof. intros Hp Hg. rewrite <- (Nat.add_0_r n). by apply at_most_bind. Qed.

Lemma at_most_holds {R : Type} (f : A -> bool) (p : prog A R) : forall n past,
  at_most n f p ->
  holds p past (fun tr _ => (length (filter (fun e => f (projT1 e) = true) tr)
                             <= length (filter (fun e => f (projT1 e) = true) past) + n)%nat).
Proof.
  induction p as [r|a k IH]; cbn [at_most holds]; intros n past Hp; [lia|]. intros x.
  assert (Hlast : length (filter (fun e => f (projT1 e) = true) (past ++ [ev a x])%list)
    = (length (filter (fun e => f (projT1 e) = true) past) + if f a then 1 else 0)%nat).
  { rewrite filter_app, length_app. f_equal. destruct (f a) eqn:E.
    - by rewrite filter_cons_True.
    - rewrite filter_cons_False; [done|]. cbn. congruence. }
  destruct (f a); [destruct n as [|n]; [done|]|].
  all: eapply holds_mono; [|by apply (IH x n)]; cbn beta; intros tr r Htr; lia.
Qed.

Lemma at_most_always {R : Type} (f : A -> bool) (p : prog A R) n :
  at_most n f p -> always p (fun tr _ => (length (filter (fun e => f (projT1 e) = true) tr) <= n)%nat).
Proof. intros Hp. exact (at_most_holds f p n [] Hp). Qed.

Lemma at_most_length {R : Type} (p : prog A R) n :
  at_most n (fun _ => true) p -> always p (fun tr _ => (length tr <= n)%nat).
Proof.
  intros Hp. eapply holds_mono; [|exact (at_most_always _ _ _ Hp)]. cbn beta. intros tr r.
  by rewrite filter_all.
Qed.
End counting.

Lemma at_most_interp {A B : Type} `{Effect A} `{Effect B} (t : forall a : A, prog B (answer a)) {R : Type}
    (f : A -> bool) (g : B -> bool) (p : prog A R) : forall n,
  at_most n f p -> (forall a, at_most (if f a then 1 else 0) g (t a)) -> at_most n g (interp t p).
Proof.
  induction p as [r|a k IH]; cbn; intros n Hp Ht; [done|]. specialize (Ht a) as Ha.
  destruct (f a).
  - destruct n as [|n]; [done|]. apply (at_most_bind g (t a) _ n 1); [done|]. intros x. auto.
  - apply (at_most_bind g (t a) _ n 0); [done|]. intros x. auto.
Qed.

(** ** Proof automation

    [walk] executes a program symbolically: it introduces the answer of each
    call and splits on what the program inspects. *)
Ltac walk_step :=
  match goal with
  | |- holds (bind _ _) _ _ => apply holds_bind
  | |- holds (Call _ _) _ _ => let x := fresh "ans" in intros x
  | |- holds (Ret _) _ _ => cbn [holds]
  | |- holds (match ?x with _ => _ end) _ _ => destruct x eqn:?
  | |- holds _ _ _ => progress cbn
  end.
Ltac walk := repeat walk_step.
