(* ===== verification/GoText.v ===== *)
(** * Searching, splitting and replacing text; slash-separated paths

    [strings.Index], [Cut], [Split], [Count], [ReplaceAll] and [TrimRight] on
    patterns of several characters (non-empty, as the code has them), and
    [path/filepath] on Unix.  [Split] and [Join] are inverse to each other, and a
    replacement is undone by the opposite one, when the new text cannot overlap
    what surrounds it: a condition on the pattern that evaluates. *)

From S2P Require Import Prelude GoStrings.

Local Open Scope string_scope.
Local Open Scope go_scope.

(** ** Functions *)

(** [strings.Cut]: what precedes the first [p], and what follows it. *)
Fixpoint Cut (s p : string) : option (string * string) :=
  match CutPrefix s p with
  | Some r => Some ("", r)
  | None =>
      match s with
      | "" => None
      | String c s' =>
          match Cut s' p with
          | Some (l, r) => Some (String c l, r)
          | None => None
          end
      end
  end.

(** [strings.Split]; [skip] characters of the separator remain to be passed. *)
Definition add_char (c : ascii) (ws : list string) : list string :=
  match ws with
  | [] => [String c ""]
  | w :: ws => String c w :: ws
  end.
Fixpoint split_from (p : string) (skip : nat) (s : string) : list string :=
  match s with
  | "" => [""]
  | String c s' =>
      match skip with
      | S k => split_from p k s'
      | O =>
          if HasPrefix s p then "" :: split_from p (pred (String.length p)) s'
          else add_char c (split_from p 0 s')
      end
  end.
Definition Split (s p : string) : list string := split_from p 0 s.

Definition Count (s p : string) : Z := Z.of_nat (pred (length (Split s p))).
Definition ReplaceAll (s old new : string) : string := Join (Split s old) new.

(** ** Paths *)

Definition slash : ascii := "/"%char.

(** [filepath.Clean] of the elements of a path. *)
Fixpoint clean_elements (rooted : bool) (out : list string) (elems : list string) : list string :=
  match elems with
  | [] => rev out
  | e :: elems =>
      if (e =s? "") || (e =s? ".") then clean_elements rooted out elems
      else if e =s? ".." then
        match out with
        | x :: out' =>
            if x =s? ".." then clean_elements rooted (".." :: out) elems
            else clean_elements rooted out' elems
        | [] => clean_elements rooted (if rooted then [] else [".."]) elems
        end
      else clean_elements rooted (e :: out) elems
  end.
Definition Clean (path : string) : string :=
  let rooted := HasPrefix path "/" in
  let body := Join (clean_elements rooted [] (SplitChar slash path)) "/" in
  if rooted then "/" +:+ body else if body =s? "" then "." else body.

Definition JoinPath (elems : list string) : string :=
  match List.filter (fun e => negb (e =s? "")) elems with
  | [] => ""
  | elems => Clean (Join elems "/")
  end.

(** [filepath.Dir] and [Base]. *)
Fixpoint before_last (c : ascii) (s : string) : string :=
  match s with
  | "" => ""
  | String a s' =>
      if Contains s' (String c "") || Ascii.eqb c a then String a (before_last c s') else ""
  end.
Definition Dir (path : string) : string := Clean (before_last slash path).
Definition Base (path : string) : string :=
  if path =s? "" then "."
  else
    let path := TrimRightChar path slash in
    if path =s? "" then "/" else after_last slash path.

Example paths_of_the_chart :
  (JoinPath ["config"; "crd"; "bases"; "*.yaml"], JoinPath ["charts/op/"; "templates"; "../x.yaml"],
   Dir "a/b/c.yaml", Base "a/b/c.yaml", Dir "c.yaml", Dir "/c")
  = ("config/crd/bases/*.yaml", "charts/op/x.yaml", "a/b", "c.yaml", ".", "/").
Proof. reflexivity. Qed.

(** ** Texts that cannot overlap *)

(** Neither text is a prefix of the other: none of them begins where the other
    does, whatever follows. *)
Definition clash (a b : string) : bool := negb (HasPrefix a b) && negb (HasPrefix b a).

(** The non-empty suffixes, and those that are not the whole. *)
Fixpoint suffixes (s : string) : list string :=
  match s with "" => [] | String _ s' => s :: suffixes s' end.
Definition inner (s : string) : list string := tail (suffixes s).

(** [q] cannot begin before [t] and end in it, nor begin inside [t]. *)
Definition ends_before (q t : string) : bool := forallb (fun b => clash b t) (inner q).
Definition not_within (q t : string) : bool := forallb (fun u => clash u q) (suffixes t).

Lemma app_comparable (a b c d : string) :
  a +:+ b = c +:+ d -> (exists l, a = c +:+ l /\ d = l +:+ b) \/ (exists l, c = a +:+ l /\ b = l +:+ d).
Proof.
  revert c. induction a as [|x a IH]; intros c E; [right; by exists c|].
  destruct c as [|y c]; [left; by exists (String x a)|]. injection E as <- E.
  destruct (IH c E) as [(l & -> & ->)|(l & -> & ->)]; [left|right]; by exists l.
Qed.

Lemma clash_prefix (a b r : string) : clash a b = true -> HasPrefix (b +:+ r) a = false.
Proof.
  intros Hc. apply not_true_is_false. intros [r' E]%HasPrefix_spec. apply andb_prop in Hc as [H1 H2].
  apply negb_true_iff in H1, H2. apply app_comparable in E as [(l & -> & _)|(l & -> & _)].
  - by rewrite HasPrefix_app in H2.
  - by rewrite HasPrefix_app in H1.
Qed.

Lemma suffixes_app (x l : string) : l <> "" -> l ∈ suffixes (x +:+ l).
Proof.
  intros Hl. induction x as [|c x IH]; cbn; [|by right]. destruct l; [done|]. by left.
Qed.

Lemma inner_app (x l : string) : x <> "" -> l <> "" -> l ∈ inner (x +:+ l).
Proof. intros Hx Hl. destruct x as [|c x]; [done|]. by apply suffixes_app. Qed.

Lemma sapp_inj (a b c : string) : a +:+ b = a +:+ c -> b = c.
Proof. induction a as [|x a IH]; cbn; [done|]. intros [= E]. auto. Qed.

(** [q] does not begin inside a text without it that [t] follows. *)
Lemma begins_nowhere (q t x rest : string) :
  ends_before q t = true -> Contains x q = false -> x <> "" -> HasPrefix (x +:+ t +:+ rest) q = false.
Proof.
  intros He Hx Hne. apply not_true_is_false. intros [r E]%HasPrefix_spec.
  assert (Hcontra : forall l, x = q +:+ l -> False).
  { intros l ->. assert (Ht : Contains (q +:+ l) q = true) by (apply Contains_spec; by exists "", l). congruence. }
  apply app_comparable in E as [(l & E & _)|(l & E & E2)]; [by eapply Hcontra|].
  destruct (decide (l = "")) as [->|Hl]; [apply (Hcontra ""); by rewrite E, !string_app_nil_r|].
  unfold ends_before in He. rewrite forallb_forall in He.
  assert (Hcl : clash l t = true).
  { apply He, list_elem_of_In. rewrite E. by apply inner_app. }
  apply (clash_prefix _ _ rest) in Hcl. apply not_true_iff_false in Hcl. apply Hcl, HasPrefix_spec. by exists r.
Qed.

(** ** Splitting and joining *)

Lemma string_length_app (a b : string) : String.length (a +:+ b) = (String.length a + String.length b)%nat.
Proof. induction a as [|c a IH]; [done|]. exact (f_equal S IH). Qed.

Lemma split_skip (p a s : string) : split_from p (String.length a) (a +:+ s) = split_from p 0 s.
Proof. induction a as [|c a IH]; [done|exact IH]. Qed.

Lemma Split_separator (p s : string) : p <> "" -> Split (p +:+ s) p = "" :: Split s p.
Proof.
  intros Hp. unfold Split. destruct p as [|c p]; [done|].
  change (String c p +:+ s) with (String c (p +:+ s)). cbn -[HasPrefix].
  by rewrite HasPrefix_cons, Ascii.eqb_refl, HasPrefix_app, split_skip.
Qed.

Lemma Split_nonempty (p s : string) : forall k, split_from p k s <> [].
Proof.
  induction s as [|c s IH]; intros [|k]; cbn -[HasPrefix]; try done.
  destruct (HasPrefix _ p); [done|]. by destruct (split_from p 0 s).
Qed.

Lemma Join_add_char (c : ascii) (ws : list string) (p : string) :
  ws <> [] -> Join (add_char c ws) p = String c (Join ws p).
Proof. destruct ws as [|w [|w' ws]]; by cbn. Qed.

Lemma Join_cons (x : string) (ws : list string) (p : string) :
  ws <> [] -> Join (x :: ws) p = x +:+ p +:+ Join ws p.
Proof. by destruct ws. Qed.

Lemma Join_Split (s p : string) : p <> "" -> Join (Split s p) p = s.
Proof.
  intros Hp. remember (String.length s) as n eqn:En. assert (Hn : (String.length s <= n)%nat) by lia. clear En.
  revert s Hn. induction n as [|n IH]; intros s Hn; [by destruct s; cbn in *; [|lia]|].
  destruct (HasPrefix s p) eqn:Ep.
  - apply HasPrefix_spec in Ep as [r ->]. rewrite Split_separator by done.
    rewrite Join_cons by apply Split_nonempty. cbn. rewrite IH; [done|].
    rewrite string_length_app in Hn. destruct p; [done|]. cbn in Hn. lia.
  - destruct s as [|c s]; [done|]. unfold Split. cbn -[HasPrefix]. rewrite Ep.
    rewrite Join_add_char by apply Split_nonempty. f_equal. apply IH. cbn in Hn. lia.
Qed.

Lemma Split_none (x p : string) : Contains x p = false -> Split x p = [x].
Proof.
  unfold Split. induction x as [|c x IH]; [done|]. cbn -[HasPrefix]. intros [E1 E2]%orb_false_iff.
  by rewrite E1, IH.
Qed.

Lemma Split_piece (x p rest : string) :
  p <> "" -> ends_before p p = true -> Contains x p = false -> Split (x +:+ p +:+ rest) p = x :: Split rest p.
Proof.
  intros Hp He. induction x as [|c x IH]; intros Hx; [exact (Split_separator p rest Hp)|].
  pose proof (begins_nowhere p p (String c x) rest He Hx) as Hn.
  change (String c x +:+ p +:+ rest) with (String c (x +:+ p +:+ rest)) in *.
  apply orb_false_iff in Hx as [_ Hx]. unfold Split. cbn -[HasPrefix] in *. rewrite Hn by done.
  fold (Split (x +:+ p +:+ rest) p). by rewrite IH.
Qed.

Lemma Split_Join (l : list string) (p : string) :
  l <> [] -> p <> "" -> ends_before p p = true -> Forall (fun x => Contains x p = false) l -> Split (Join l p) p = l.
Proof.
  intros Hl Hp He Hf. induction Hf as [|x l Hx Hf IH]; [done|]. destruct l as [|y l]; [by apply Split_none|].
  rewrite Join_cons by done. rewrite Split_piece by done. by rewrite IH.
Qed.

Lemma Join_pieces (l : list string) (p x : string) : x ∈ l -> exists a b, Join l p = a +:+ x +:+ b.
Proof.
  induction l as [|y l IH]; [by intros ?%elem_of_nil|]. intros [->|Hx]%elem_of_cons.
  - destruct l as [|z l]; [exists "", ""; cbn; by rewrite string_app_nil_r|]. exists "", (p +:+ Join (z :: l) p).
    by rewrite Join_cons.
  - destruct (IH Hx) as (a & b & E). destruct l as [|z l]; [by apply elem_of_nil in Hx|].
    exists (y +:+ p +:+ a), b. rewrite Join_cons, E by done. by rewrite !string_app_assoc.
Qed.

Lemma Contains_trans (s x q : string) : Contains s x = true -> Contains x q = true -> Contains s q = true.
Proof.
  intros (a & b & ->)%Contains_spec (c & d & ->)%Contains_spec. apply Contains_spec.
  exists (a +:+ c), (d +:+ b). by rewrite !string_app_assoc.
Qed.

Lemma Contains_trans_false (s x q : string) : Contains s q = false -> Contains x q = true -> Contains s x = false.
Proof. intros Hs Hx. apply not_true_is_false. intros Hc. by rewrite (Contains_trans _ _ _ Hc Hx) in Hs. Qed.

(** What a text lacks, its pieces lack. *)
Lemma Split_lacks (s p q : string) :
  p <> "" -> Contains s q = false -> Forall (fun x => Contains x q = false) (Split s p).
Proof.
  intros Hp Hs. apply Forall_forall. intros x Hx. apply not_true_is_false. intros Hc.
  destruct (Join_pieces (Split s p) p x Hx) as (a & b & E). rewrite Join_Split in E by done.
  rewrite (Contains_trans s x q) in Hs; [done| |done]. apply Contains_spec. by exists a, b.
Qed.

(** A replacement is undone by the opposite one. *)
Lemma ReplaceAll_undo (s old new : string) :
  old <> "" -> new <> "" -> ends_before new new = true -> Contains s new = false ->
  ReplaceAll (ReplaceAll s old new) new old = s.
Proof.
  intros Ho Hn He Hs. unfold ReplaceAll. rewrite Split_Join; [by apply Join_Split|apply Split_nonempty|done|done|].
  by apply Split_lacks.
Qed.

Lemma Contains_skip (t q rest : string) :
  not_within q t = true -> Contains (t +:+ rest) q = Contains rest q.
Proof.
  induction t as [|c t IH]; [done|]. cbn -[clash HasPrefix Contains]. intros [Hc Ht]%andb_prop.
  change (Contains (String c t +:+ rest) q) with (HasPrefix (String c t +:+ rest) q || Contains (t +:+ rest) q).
  rewrite clash_prefix by (unfold clash in *; by rewrite andb_comm). by apply IH.
Qed.

Lemma Join_lacks (l : list string) (t q : string) :
  not_within q t = true -> ends_before q t = true -> q <> "" ->
  Forall (fun x => Contains x q = false) l -> Contains (Join l t) q = false.
Proof.
  intros Hw He Hq Hf. induction Hf as [|x l Hx Hf IH]; [by destruct q|]. destruct l as [|y l]; [done|].
  rewrite Join_cons by done. clear Hf. induction x as [|c x IHx]; 
    [by etransitivity; [exact (Contains_skip t q _ Hw)|]|].
  pose proof (begins_nowhere q t (String c x) (Join (y :: l) t) He Hx) as Hn.
  change (String c x +:+ t +:+ Join (y :: l) t) with (String c (x +:+ t +:+ Join (y :: l) t)) in *.
  apply orb_false_iff in Hx as [_ Hx]. specialize (IHx Hx). cbn -[HasPrefix Join] in *. rewrite Hn by done. exact IHx.
Qed.

(** A replacement adds no occurrence of a text that cannot overlap the new one. *)
Lemma ReplaceAll_lacks (s old new q : string) :
  old <> "" -> q <> "" -> not_within q new = true -> ends_before q new = true ->
  Contains s q = false -> Contains (ReplaceAll s old new) q = false.
Proof. intros Ho Hq Hw He Hs. apply Join_lacks; [done..|]. by apply Split_lacks. Qed.

(** ** Parts of a text *)

Lemma Cut_spec (s p l r : string) : Cut s p = Some (l, r) -> s = l +:+ p +:+ r.
Proof.
  revert l. induction s as [|c s IH]; intros l; cbn [Cut];
    destruct (CutPrefix _ p) as [r'|] eqn:E; try done.
  - intros [= <- <-]. by apply CutPrefix_spec in E.
  - intros [= <- <-]. by apply CutPrefix_spec in E.
  - destruct (Cut s p) as [[l' r']|]; [|done]. intros [= <- <-]. by rewrite (IH l' eq_refl).
Qed.

(** What precedes the first occurrence has none. *)
Lemma Cut_first (s p l r : string) : p <> "" -> ends_before p p = true -> Cut s p = Some (l, r) -> Contains l p = false.
Proof.
  intros Hp He. revert l. induction s as [|c s IH]; intros l; cbn [Cut];
    destruct (CutPrefix _ p) as [r'|] eqn:E; try done.
  - intros [= <- <-]. by destruct p.
  - intros [= <- <-]. by destruct p.
  - destruct (Cut s p) as [[l' r']|] eqn:Ec; [|done]. intros [= <- <-]. cbn -[HasPrefix].
    rewrite (IH l' eq_refl), orb_false_r. apply not_true_is_false. intros [x Hx]%HasPrefix_spec.
    apply Cut_spec in Ec. assert (Hc : CutPrefix (String c s) p = Some (x +:+ p +:+ r')); [|congruence].
    apply CutPrefix_spec. subst s. change (String c (l' +:+ p +:+ r')) with (String c l' +:+ p +:+ r').
    by rewrite Hx, string_app_assoc.
Qed.

(** A text without [q] has none after another such text that it cannot join. *)
Lemma app_lacks (x t q : string) :
  not_within q t = true -> ends_before q t = true -> q <> "" -> Contains x q = false -> Contains (x +:+ t) q = false.
Proof.
  intros Hw He Hq Hx. pose proof (Join_lacks [x; ""] t q Hw He Hq) as Hj. cbn in Hj. rewrite string_app_nil_r in Hj.
  apply Hj. repeat constructor; [done|]. by destruct q.
Qed.

Lemma part_lacks (s a x b q : string) : s = a +:+ x +:+ b -> Contains s q = false -> Contains x q = false.
Proof.
  intros -> Hs. apply not_true_is_false. intros Hx.
  rewrite (Contains_trans (a +:+ x +:+ b) x q) in Hs; [done| |done]. apply Contains_spec. by exists a, b.
Qed.

Lemma trim_right_by_spec (f : ascii -> bool) (s : string) :
  exists t, s = trim_right_by f s +:+ t /\ str_forall f t = true.
Proof.
  induction s as [|c s (t & E & Ht)]; [by exists ""|]. cbn. destruct (trim_right_by f s) as [|d u] eqn:Eu.
  - destruct (f c) eqn:Ec.
    + exists (String c s). split; [done|]. cbn. rewrite Ec. by rewrite E.
    + exists s. split; [done|]. by rewrite E.
  - exists t. split; [|done]. by rewrite E at 1.
Qed.
