(* ===== verification/GoHeap.v ===== *)
(** * Go's memory

    Values with pointers, slices and maps, the memory they point into, and the
    shapes of Go types.  [read] follows a value through the memory to the data it
    stands for.  Programs are a state monad that can panic ([mem]).  A [copier]
    builds a value out of another; [Copies] says that it makes a deep copy: one
    that leaves the memory as it is and can be read in the newly allocated part
    of it alone. *)

From S2P Require Import Prelude.

Local Open Scope string_scope.
#[local] Set Warnings "-register-all".

(** ** Shapes and values *)

Inductive kind := KInt | KString | KBool.
Inductive basic := BInt (z : Z) | BString (s : string) | BBool (b : bool).
Definition kind_of (b : basic) : kind :=
  match b with BInt _ => KInt | BString _ => KString | BBool _ => KBool end.
#[export] Instance kind_eq_dec : EqDecision kind.
Proof. solve_decision. Defined.

(** Maps have string keys and basic values. *)
Inductive shape :=
| Basic (k : kind)
| Pointer (t : shape)
| Slice (t : shape)
| Map (k : kind)
| Struct (fields : list (string * shape)).

Abbreviation loc := positive.

(** A slice is a window of an array. *)
Inductive val :=
| VBasic (b : basic)
| VNil
| VPointer (l : loc)
| VSlice (l : loc) (off len : nat)
| VMap (l : loc)
| VStruct (fields : gmap string val).

Inductive cell := Pointee (v : val) | Array (vs : list val) | Entries (m : gmap string basic).
Abbreviation heap := (gmap loc cell).

Section shape_ind.
Context (P : shape -> Prop).
Context (HB : forall k, P (Basic k)) (HP : forall t, P t -> P (Pointer t)) (HS : forall t, P t -> P (Slice t)).
Context (HM : forall k, P (Map k)) (HF : forall fs, Forall (fun f => P f.2) fs -> P (Struct fs)).
Fixpoint shape_nested_ind (t : shape) : P t :=
  match t with
  | Basic k => HB k
  | Pointer t => HP t (shape_nested_ind t)
  | Slice t => HS t (shape_nested_ind t)
  | Map k => HM k
  | Struct fs => HF fs ((fix all fs : Forall (fun f => P f.2) fs :=
      match fs with [] => @List.Forall_nil _ _ | f :: fs => @List.Forall_cons _ _ f fs (shape_nested_ind f.2) (all fs) end) fs)
  end.
End shape_ind.

(** The data a value stands for. *)
Inductive tree :=
| TBasic (b : basic)
| TNil
| TPointer (x : tree)
| TSlice (xs : list tree)
| TMap (m : gmap string basic)
| TStruct (fields : list (string * tree)).

Definition window (off len : nat) (vs : list val) : option (list val) :=
  if (off + len <=? length vs)%nat then Some (take len (drop off vs)) else None.
Definition all_of_kind (k : kind) (m : gmap string basic) : bool :=
  bool_decide (map_Forall (fun _ b => kind_of b = k) m).

Fixpoint read (h : heap) (t : shape) (v : val) {struct t} : option tree :=
  match t with
  | Basic k =>
      match v with VBasic b => if decide (kind_of b = k) then Some (TBasic b) else None | _ => None end
  | Pointer t =>
      match v with
      | VNil => Some TNil
      | VPointer l => match h !! l with Some (Pointee x) => TPointer <$> read h t x | _ => None end
      | _ => None
      end
  | Slice t =>
      match v with
      | VNil => Some TNil
      | VSlice l off len =>
          match h !! l with
          | Some (Array vs) => vs ← window off len vs; TSlice <$> mapM (read h t) vs
          | _ => None
          end
      | _ => None
      end
  | Map k =>
      match v with
      | VNil => Some TNil
      | VMap l => match h !! l with Some (Entries m) => if all_of_kind k m then Some (TMap m) else None | _ => None end
      | _ => None
      end
  | Struct fields =>
      match v with
      | VStruct m => TStruct <$> mapM (fun f => x ← m !! f.1; pair f.1 <$> read h f.2 x) fields
      | _ => None
      end
  end.

(** A type without pointers, slices and maps. *)
Fixpoint flat (t : shape) : bool :=
  match t with
  | Basic _ => true
  | Struct fields => forallb (fun f => flat f.2) fields
  | _ => false
  end.

Fixpoint zero (t : shape) : val :=
  match t with
  | Basic KInt => VBasic (BInt 0)
  | Basic KString => VBasic (BString "")
  | Basic KBool => VBasic (BBool false)
  | Struct fields => VStruct (list_to_map (map (fun f => (f.1, zero f.2)) fields))
  | _ => VNil
  end.

(** ** Programs over the memory *)

(** [None]: a panic. *)
Definition mem (A : Type) : Type := heap -> option (A * heap).
#[export] Instance mem_ret : MRet mem := fun A x h => Some (x, h).
#[export] Instance mem_bind : MBind mem := fun A B f m h =>
  match m h with Some (x, h') => f x h' | None => None end.

Definition panic {A : Type} : mem A := fun _ => None.
Definition load (l : loc) : mem cell := fun h => c ← h !! l; Some (c, h).
Definition store (l : loc) (c : cell) : mem unit := fun h => _ ← h !! l; Some (tt, <[l := c]> h).
Definition alloc (c : cell) : mem loc := fun h => let l := fresh (dom h) in Some (l, <[l := c]> h).

Definition deref (v : val) : mem val :=
  match v with
  | VPointer l => c ← load l; match c with Pointee x => mret x | _ => panic end
  | _ => panic
  end.

(** [v.f], and [v] after [v.f = x]. *)
Definition field (f : string) (v : val) : mem val :=
  match v with VStruct m => match m !! f with Some x => mret x | None => panic end | _ => panic end.
Definition with_field (f : string) (x : val) (v : val) : mem val :=
  match v with VStruct m => mret (VStruct (<[f := x]> m)) | _ => panic end.

(** [p.f], [p.f = x] and [p.f.g = x] through a pointer. *)
Definition get (p : val) (f : string) : mem val := v ← deref p; field f v.
Definition set (p : val) (f : string) (x : val) : mem unit :=
  match p with
  | VPointer l => v ← deref p; v ← with_field f x v; store l (Pointee v)
  | _ => panic
  end.
Definition set_in (p : val) (f g : string) (x : val) : mem unit :=
  v ← get p f; v ← with_field g x v; set p f v.

(** [p.f = q.f] and [p.f.g = q.f.g]. *)
Definition assign_field (p : val) (f : string) (q : val) : mem unit := x ← get q f; set p f x.
Definition assign_in (p : val) (f g : string) (q : val) : mem unit := v ← get q f; x ← field g v; set_in p f g x.

(** ** Copying *)

(** From what stands in [*in], what is to stand in [*out]. *)
Definition copier : Type := val -> mem val.

(** [*out = *in] and nothing more. *)
Definition assign : copier := fun v => mret v.

(** [if in != nil { ... }], after [*out = *in]. *)
Definition non_nil (c : copier) : copier := fun v =>
  match v with VNil => mret VNil | _ => c v end.

(** [out = new(T)], and then [*in] into [*out]. *)
Definition new_ (t : shape) (c : copier) : copier := fun v =>
  out ← alloc (Pointee (zero t));
  x ← deref v;
  y ← c x;
  store out (Pointee y);;
  mret (VPointer out).

Definition index (v : val) (i : nat) : mem val :=
  match v with
  | VSlice l off len =>
      c ← load l;
      match c with
      | Array vs => if (i <? len)%nat then match vs !! (off + i)%nat with Some x => mret x | None => panic end else panic
      | _ => panic
      end
  | _ => panic
  end.
Definition set_index (l : loc) (i : nat) (x : val) : mem unit :=
  c ← load l;
  match c with Array vs => if (i <? length vs)%nat then store l (Array (<[i := x]> vs)) else panic | _ => panic end.

(** [for i := range in { in[i] into out[i] }], for [n] more elements. *)
Fixpoint each (c : copier) (v : val) (out : loc) (i n : nat) : mem unit :=
  match n with
  | O => mret tt
  | S n => x ← index v i; y ← c x; set_index out i y;; each c v out (S i) n
  end.

(** [out = make([]T, len(in))], and then every element. *)
Definition make_each (t : shape) (c : copier) : copier := fun v =>
  match v with
  | VSlice _ _ len =>
      out ← alloc (Array (replicate len (zero t)));
      each c v out 0 len;;
      mret (VSlice out 0 len)
  | _ => panic
  end.

(** [out = make([]T, len(in)); copy(out, in)]. *)
Definition make_copy (t : shape) : copier := fun v =>
  match v with
  | VSlice l off len =>
      out ← alloc (Array (replicate len (zero t)));
      c ← load l;
      match c with
      | Array vs =>
          match window off len vs with
          | Some xs => store out (Array xs);; mret (VSlice out 0 len)
          | None => panic
          end
      | _ => panic
      end
  | _ => panic
  end.

(** [out = make(map[string]T, len(in))], and then every entry, in whatever
    order. *)
Definition make_map : copier := fun v =>
  match v with
  | VMap l =>
      out ← alloc (Entries ∅);
      c ← load l;
      match c with
      | Entries m => store out (Entries (fold_right (fun e => <[e.1 := e.2]>) ∅ (map_to_list m)));; mret (VMap out)
      | _ => panic
      end
  | _ => panic
  end.

(** [*out = *in], and then fields of [*out] one by one. *)
Fixpoint statements (l : list (string * copier)) (v out : val) : mem val :=
  match l with
  | [] => mret out
  | (f, c) :: l => x ← field f v; y ← c x; out ← with_field f y out; statements l v out
  end.
Definition into (l : list (string * copier)) : copier := fun v => statements l v v.

(** A [DeepCopyObject]: nothing, or the copy as an interface value. *)
Definition as_object (c : copier) : copier := fun v =>
  y ← c v; match y with VNil => mret VNil | _ => mret y end.

(** ** Reading *)

Lemma all_of_kind_spec k m : all_of_kind k m = true <-> map_Forall (fun _ b => kind_of b = k) m.
Proof. unfold all_of_kind. by rewrite bool_decide_eq_true. Qed.

Lemma window_length off len vs xs : window off len vs = Some xs -> length xs = len.
Proof.
  unfold window. destruct (off + len <=? length vs)%nat eqn:E; [|done]. intros [= <-].
  apply Nat.leb_le in E. rewrite length_take, length_drop. lia.
Qed.

Lemma window_all vs : window 0 (length vs) vs = Some vs.
Proof. unfold window. cbn. rewrite Nat.leb_refl, drop_0, take_ge; [done|lia]. Qed.

Lemma window_lookup off len vs xs i :
  window off len vs = Some xs -> (i < len)%nat -> vs !! (off + i)%nat = xs !! i.
Proof.
  unfold window. destruct (off + len <=? length vs)%nat eqn:E; [|done]. intros [= <-] Hi.
  rewrite lookup_take_lt, lookup_drop; [done|lia].
Qed.

Lemma mapM_weaken {X Y : Type} (f g : X -> option Y) (l : list X) (ys : list Y) :
  Forall (fun x => forall y, f x = Some y -> g x = Some y) l -> mapM f l = Some ys -> mapM g l = Some ys.
Proof.
  intros Hfg. rewrite !mapM_Some. intros F. induction F as [|x y l ys Hx F IH]; [done|].
  apply Forall_cons in Hfg as [Hf Hfg]. constructor; [by apply Hf|by apply IH].
Qed.

(** More memory, and the same memory, read the same. *)
Lemma read_mono h h' t v x : h ⊆ h' -> read h t v = Some x -> read h' t v = Some x.
Proof.
  intros Hs. revert v x. induction t as [k|t IH|t IH|k|fs IH] using shape_nested_ind; intros v x; cbn [read].
  - done.
  - destruct v as [| |l| | |]; try done. destruct (h !! l) as [[y| |]|] eqn:El; try done.
    rewrite (lookup_weaken _ _ _ _ El Hs). destruct (read h t y) as [r|] eqn:Er; [|done].
    by rewrite (IH _ _ Er).
  - destruct v as [| | |l off len| |]; try done. destruct (h !! l) as [[|vs|]|] eqn:El; try done.
    rewrite (lookup_weaken _ _ _ _ El Hs). destruct (window off len vs) as [xs|]; [|done]. cbn.
    destruct (mapM (read h t) xs) as [r|] eqn:Er; [|done].
    rewrite (mapM_weaken (read h t) (read h' t) xs r); [done| |done]. apply Forall_forall. eauto.
  - destruct v as [| | | |l|]; try done. destruct (h !! l) as [[| |m]|] eqn:El; try done.
    by rewrite (lookup_weaken _ _ _ _ El Hs).
  - destruct v as [| | | | |m]; try done. destruct (mapM _ fs) as [r|] eqn:Er; [|done].
    erewrite mapM_weaken; [done| |exact Er]. eapply Forall_impl; [exact IH|].
    intros [f t] Ht y. cbn in *. destruct (m !! f) as [w|]; [|done]. cbn.
    destruct (read h t w) as [z|] eqn:Ez; [|done]. by rewrite (Ht _ _ Ez).
Qed.

(** A flat value needs no memory. *)
Lemma read_flat h h' t v x : flat t = true -> read h t v = Some x -> read h' t v = Some x.
Proof.
  revert v x. induction t as [k|t IH|t IH|k|fs IH] using shape_nested_ind; intros v x Hf; cbn [read]; try done.
  destruct v as [| | | | |m]; try done. destruct (mapM _ fs) as [r|] eqn:Er; [|done].
  erewrite mapM_weaken; [done| |exact Er]. cbn in Hf. rewrite forallb_forall in Hf.
  apply Forall_forall. intros [f t] Hin y. rewrite Forall_forall in IH. specialize (IH _ Hin).
  apply list_elem_of_In, Hf in Hin. cbn in *. destruct (m !! f) as [w|]; [|done]. cbn.
  destruct (read h t w) as [z|] eqn:Ez; [|done]. by rewrite (IH _ _ Hin Ez).
Qed.

(** A reference that is nil reads as nil, wherever. *)
Lemma read_nil h h' t x : read h t VNil = Some x -> read h' t VNil = Some x.
Proof. by destruct t. Qed.

Lemma read_pointer_nil h t v x : read h (Pointer t) v = Some x -> (v = VNil <-> x = TNil).
Proof.
  cbn [read]. destruct v as [| |l| | |]; try done; [by intros [= <-]|].
  destruct (h !! l) as [[w| |]|]; try done. destruct (read h t w); [|done]. by intros [= <-].
Qed.

(** ** New memory *)

Lemma diff_grows (h h1 h2 : heap) : h1 ⊆ h2 -> h1 ∖ h ⊆ h2 ∖ h.
Proof.
  intros Hs. apply map_subseteq_spec. intros l c [E En]%lookup_difference_Some.
  apply lookup_difference_Some. split; [by eapply lookup_weaken|done].
Qed.

Lemma diff_shrinks (h h1 h2 : heap) : h ⊆ h1 -> h2 ∖ h1 ⊆ h2 ∖ h.
Proof.
  intros Hs. apply map_subseteq_spec. intros l c [E En]%lookup_difference_Some.
  apply lookup_difference_Some. split; [done|]. by eapply lookup_weaken_None.
Qed.

Lemma diff_delete (h h1 : heap) l c : h !! l = Some c -> h1 ∖ h ⊆ delete l h1.
Proof.
  intros El. apply map_subseteq_spec. intros k d [E En]%lookup_difference_Some.
  by rewrite lookup_delete_ne by congruence.
Qed.

Lemma delete_keeps (h h1 : heap) p : h !! p = None -> h ⊆ h1 -> h ⊆ delete p h1.
Proof. intros Hp Hs. rewrite <- (delete_id h p Hp). by apply delete_mono. Qed.

Lemma alloc_spec (c : cell) (h : heap) : exists l, alloc c h = Some (l, <[l := c]> h) /\ h !! l = None.
Proof. eexists. split; [reflexivity|]. apply not_elem_of_dom, is_fresh. Qed.

Lemma load_some (h : heap) l c : h !! l = Some c -> load l h = Some (c, h).
Proof. intros E. unfold load. by rewrite E. Qed.

Lemma store_some (h : heap) l c c' : h !! l = Some c' -> store l c h = Some (tt, <[l := c]> h).
Proof. intros E. unfold store. by rewrite E. Qed.

Lemma bind_some {X Y : Type} (m : mem X) (f : X -> mem Y) h x h' : m h = Some (x, h') -> (m ≫= f) h = f x h'.
Proof. intros E. unfold mbind, mem_bind. by rewrite E. Qed.

(** Writing to memory allocated since [h] keeps [h], and what was built after
    that memory was allocated. *)
Lemma extend_insert (h h2 : heap) p c : h !! p = None -> h ⊆ h2 -> h ⊆ <[p := c]> h2.
Proof. intros Hp Hs. by apply insert_subseteq_r. Qed.

Lemma diff_apart (h h1 h2 : heap) p c c1 :
  h ⊆ h1 -> h1 !! p = Some c1 -> h2 ∖ h1 ⊆ delete p (<[p := c]> h2 ∖ h).
Proof.
  intros Hs Hp. apply map_subseteq_spec. intros l d [E En]%lookup_difference_Some.
  assert (p <> l) by congruence. rewrite lookup_delete_ne by done.
  apply lookup_difference_Some. rewrite lookup_insert_ne by done. split; [done|]. by eapply lookup_weaken_None.
Qed.

(** ** Deep copies *)

(** The copier turns a value of shape [t] into one that reads the same in newly
    allocated memory alone; what was there is untouched. *)
Definition copied (t : shape) (c : copier) (v : val) : Prop :=
  forall h x, read h t v = Some x ->
  exists v' h', c v h = Some (v', h') /\ h ⊆ h' /\ read (h' ∖ h) t v' = Some x.

Class Copies (t : shape) (c : copier) : Prop := copies : forall v, copied t c v.

(** The same of values other than nil. *)
Class CopiesSome (t : shape) (c : copier) : Prop := copies_some : forall v, v <> VNil -> copied t c v.

#[export] Instance Copies_some t c : Copies t c -> CopiesSome t c.
Proof. intros Hc v _. apply Hc. Qed.

#[export] Instance non_nil_copies t c : CopiesSome t c -> Copies t (non_nil c).
Proof.
  intros Hc v. assert (v = VNil \/ v <> VNil) as [->|Hn] by (destruct v; by (left + right)).
  - intros h x Hr. exists VNil, h. split_and!; [done|done|]. by eapply read_nil.
  - intros h x Hr. destruct (Hc v Hn h x Hr) as (v' & h' & E & R). exists v', h'. split; [|done].
    by destruct v.
Qed.

(** Plain assignment copies what is flat. *)
Class Flat (t : shape) : Prop := is_flat : flat t = true.
#[export] Hint Extern 1 (Flat _) => reflexivity : typeclass_instances.

#[export] Instance assign_copies t : Flat t -> Copies t assign.
Proof. intros Hf v h x Hr. exists v, h. split_and!; [done|done|]. by eapply read_flat. Qed.

(** A new pointer: what it points to lives in new memory and apart from it. *)
Lemma new_apart t c l w (h : heap) y :
  Copies t c -> h !! l = Some (Pointee w) -> read h t w = Some y ->
  exists p w' h', new_ t c (VPointer l) h = Some (VPointer p, h') /\ h ⊆ h' /\ h !! p = None /\
    h' !! p = Some (Pointee w') /\ read (delete p (h' ∖ h)) t w' = Some y.
Proof.
  intros Hc El Ew.
  destruct (alloc_spec (Pointee (zero t)) h) as (p & Ea & Ep).
  set (h1 := <[p := _]> h) in *. assert (H1 : h ⊆ h1) by by apply insert_subseteq.
  destruct (Hc w h1 y (read_mono _ _ _ _ _ H1 Ew)) as (w' & h2 & Ec & H2 & Ry).
  assert (E1 : h1 !! p = Some (Pointee (zero t))) by apply lookup_insert_eq.
  assert (E2 : h2 !! p = Some (Pointee (zero t))) by by eapply lookup_weaken.
  exists p, w', (<[p := Pointee w']> h2). split_and!.
  - unfold new_. rewrite (bind_some _ _ _ _ _ Ea). cbn [deref].
    rewrite (bind_some _ _ _ _ _ (bind_some _ _ _ _ _ (load_some _ _ _ (lookup_weaken _ _ _ _ El H1)))).
    rewrite (bind_some _ _ _ _ _ Ec). by rewrite (bind_some _ _ _ _ _ (store_some _ _ _ _ E2)).
  - apply extend_insert; [done|by transitivity h1].
  - done.
  - apply lookup_insert_eq.
  - eapply read_mono; [|exact Ry]. by apply (diff_apart h h1 h2 p _ _ H1 E1).
Qed.

#[export] Instance new_copies t c : Copies t c -> CopiesSome (Pointer t) (new_ t c).
Proof.
  intros Hc v Hn h x. cbn [read]. destruct v as [| |l| | |]; try done.
  destruct (h !! l) as [[w| |]|] eqn:El; try done.
  destruct (read h t w) as [y|] eqn:Ew; [|done]. intros [= <-].
  destruct (new_apart t c l w h y Hc El Ew) as (p & w' & h' & E & Hs & Ep & Ep' & R).
  exists (VPointer p), h'. split_and!; [done|done|].
  assert (Ed : (h' ∖ h) !! p = Some (Pointee w')) by by apply lookup_difference_Some.
  rewrite Ed. by rewrite (read_mono _ _ _ _ _ (delete_subseteq _ _) R).
Qed.

#[export] Instance make_copy_copies t : Flat t -> CopiesSome (Slice t) (make_copy t).
Proof.
  intros Hf v Hn h x. cbn [read]. destruct v as [| | |l off len| |]; try done.
  destruct (h !! l) as [[|vs|]|] eqn:El; try done.
  destruct (window off len vs) as [xs|] eqn:Ew; [|done]. cbn.
  destruct (mapM (read h t) xs) as [ys|] eqn:Er; [|done]. intros [= <-].
  destruct (alloc_spec (Array (replicate len (zero t))) h) as (p & Ea & Ep).
  assert (H1 : h ⊆ <[p := Array (replicate len (zero t))]> h) by by apply insert_subseteq.
  eexists (VSlice p 0 len), (<[p := Array xs]> (<[p := _]> h)). split_and!.
  - unfold make_copy. rewrite (bind_some _ _ _ _ _ Ea).
    rewrite (bind_some _ _ _ _ _ (load_some _ _ _ (lookup_weaken _ _ _ _ El H1))), Ew.
    by rewrite (bind_some _ _ _ _ _ (store_some _ _ _ _ (lookup_insert_eq _ _ _))).
  - by apply extend_insert.
  - assert (Ed : forall h1 : heap, (<[p := Array xs]> h1 ∖ h) !! p = Some (Array xs)).
    { intros h1. apply lookup_difference_Some. by rewrite lookup_insert_eq. }
    rewrite Ed. rewrite <- (window_length _ _ _ _ Ew), window_all. cbn.
    erewrite mapM_weaken; [reflexivity| |exact Er]. apply Forall_forall. intros w _ y. by apply read_flat.
Qed.

#[export] Instance make_map_copies k : CopiesSome (Map k) make_map.
Proof.
  intros v Hn h x. cbn [read]. destruct v as [| | | |l|]; try done.
  destruct (h !! l) as [[| |m]|] eqn:El; try done.
  destruct (all_of_kind k m) eqn:Ek; [|done]. intros [= <-].
  destruct (alloc_spec (Entries ∅) h) as (p & Ea & Ep).
  assert (H1 : h ⊆ <[p := Entries ∅]> h) by by apply insert_subseteq.
  assert (Em : fold_right (fun e : string * basic => <[e.1 := e.2]>) ∅ (map_to_list m) = m) by apply list_to_map_to_list.
  exists (VMap p), (<[p := Entries m]> (<[p := Entries ∅]> h)). split_and!.
  - unfold make_map. rewrite (bind_some _ _ _ _ _ Ea).
    rewrite (bind_some _ _ _ _ _ (load_some _ _ _ (lookup_weaken _ _ _ _ El H1))), Em.
    by rewrite (bind_some _ _ _ _ _ (store_some _ _ _ _ (lookup_insert_eq _ _ _))).
  - by apply extend_insert.
  - assert (Ed : forall h1 : heap, (<[p := Entries m]> h1 ∖ h) !! p = Some (Entries m)).
    { intros h1. apply lookup_difference_Some. by rewrite lookup_insert_eq. }
    by rewrite Ed, Ek.
Qed.

(** *** Element by element *)

Lemma index_window (h : heap) l off len vs ws i w :
  h !! l = Some (Array vs) -> window off len vs = Some ws -> ws !! i = Some w ->
  index (VSlice l off len) i h = Some (w, h).
Proof.
  intros El Ew Hi. assert (Hlt : (i < len)%nat).
  { rewrite <- (window_length _ _ _ _ Ew). by eapply lookup_lt_Some. }
  unfold index. rewrite (bind_some _ _ _ _ _ (load_some _ _ _ El)).
  rewrite (proj2 (Nat.ltb_lt _ _) Hlt). by rewrite (window_lookup _ _ _ _ _ Ew Hlt), Hi.
Qed.

Lemma set_index_some (h : heap) l vs i w :
  h !! l = Some (Array vs) -> (i < length vs)%nat -> set_index l i w h = Some (tt, <[l := Array (<[i := w]> vs)]> h).
Proof.
  intros El Hi. unfold set_index. rewrite (bind_some _ _ _ _ _ (load_some _ _ _ El)).
  rewrite (proj2 (Nat.ltb_lt _ _) Hi). by eapply store_some.
Qed.

(** The first [i] elements of the array [out] are copies, which live apart from
    [out]. *)
Definition filled (t : shape) (h0 : heap) (out : loc) (xs : list tree) (i : nat) (h : heap) : Prop :=
  h0 ⊆ h /\ exists ys, h !! out = Some (Array ys) /\ length ys = length xs /\
    Forall2 (fun y x => read (delete out (h ∖ h0)) t y = Some x) (take i ys) (take i xs).

Lemma filled_next t h0 out xs i h h1 y x :
  h0 !! out = None -> filled t h0 out xs i h -> h ⊆ h1 -> xs !! i = Some x -> read (h1 ∖ h) t y = Some x ->
  exists h2, set_index out i y h1 = Some (tt, h2) /\ filled t h0 out xs (S i) h2.
Proof.
  intros Hout (Hs & ys & Ey & Hl & F) Hs1 Hx Hy.
  assert (Hi : (i < length ys)%nat) by (rewrite Hl; by eapply lookup_lt_Some).
  eexists. split; [apply (set_index_some _ _ ys); [by eapply lookup_weaken|done]|].
  split; [apply extend_insert; [done|by transitivity h]|].
  exists (<[i := y]> ys). split_and!; [apply lookup_insert_eq|by rewrite length_insert|].
  assert (Ed : delete out (<[out := Array (<[i := y]> ys)]> h1 ∖ h0) = delete out (h1 ∖ h0)).
  { apply map_eq. intros l. destruct (decide (l = out)) as [->|Hne]; [by rewrite !lookup_delete_eq|].
    rewrite !lookup_delete_ne, !lookup_difference, lookup_insert_ne by done. done. }
  rewrite Ed, (take_S_r _ _ x) by done.
  rewrite (take_S_r _ _ y) by by rewrite list_lookup_insert_eq.
  rewrite take_insert_ge by done. apply Forall2_app; [|constructor; [|constructor]].
  - eapply Forall2_impl; [exact F|]. intros y' x'. apply read_mono, delete_mono, diff_grows, Hs1.
  - eapply read_mono; [|exact Hy]. apply map_subseteq_spec. intros l c [E En]%lookup_difference_Some.
    rewrite lookup_delete_ne by congruence. apply lookup_difference_Some. split; [done|]. by eapply lookup_weaken_None.
Qed.

Lemma each_copies t c (h0 : heap) l off vs ws xs out :
  Copies t c -> h0 !! l = Some (Array vs) -> window off (length xs) vs = Some ws ->
  mapM (read h0 t) ws = Some xs -> h0 !! out = None ->
  forall n i h, (i + n = length xs)%nat -> filled t h0 out xs i h ->
  exists h', each c (VSlice l off (length xs)) out i n h = Some (tt, h') /\ filled t h0 out xs (length xs) h'.
Proof.
  intros Hc El Ew Er%mapM_Some Hout n. induction n as [|n IH]; intros i h Hn Hfill.
  - exists h. split; [done|]. by replace (length xs) with i by lia.
  - destruct (lookup_lt_is_Some_2 xs i) as [x Hx]; [lia|].
    destruct (Forall2_lookup_r _ _ _ _ _ Er Hx) as (w & Hw & Rw).
    assert (Hs := proj1 Hfill).
    destruct (Hc w h x (read_mono _ _ _ _ _ Hs Rw)) as (y & h1 & E1 & Hs1 & Ry).
    destruct (filled_next _ _ _ _ _ _ _ _ _ Hout Hfill Hs1 Hx Ry) as (h2 & E2 & Hfill2).
    destruct (IH (S i) h2) as (h' & E & Hf); [lia|done|]. exists h'. split; [|done].
    cbn [each]. rewrite (bind_some _ _ _ _ _ (index_window _ _ _ _ _ _ _ _ (lookup_weaken _ _ _ _ El Hs) Ew Hw)).
    rewrite (bind_some _ _ _ _ _ E1). by rewrite (bind_some _ _ _ _ _ E2).
Qed.

#[export] Instance make_each_copies t c : Copies t c -> CopiesSome (Slice t) (make_each t c).
Proof.
  intros Hc v Hn h x. cbn [read]. destruct v as [| | |l off len| |]; try done.
  destruct (h !! l) as [[|vs|]|] eqn:El; try done.
  destruct (window off len vs) as [ws|] eqn:Ew; [|done]. cbn.
  destruct (mapM (read h t) ws) as [xs|] eqn:Er; [|done]. intros [= <-].
  assert (Hl : len = length xs).
  { rewrite <- (window_length _ _ _ _ Ew). by apply mapM_Some, Forall2_length in Er. }
  subst len.
  destruct (alloc_spec (Array (replicate (length xs) (zero t))) h) as (p & Ea & Ep).
  destruct (each_copies t c h l off vs ws xs p Hc El Ew Er Ep (length xs) 0 (<[p := Array (replicate (length xs) (zero t))]> h))
    as (h' & E & Hs & ys & Ey & Hly & F); [lia| |].
  { split; [by apply insert_subseteq|]. eexists. rewrite lookup_insert_eq, length_replicate.
    split_and!; [done..|]. rewrite !take_0. constructor. }
  exists (VSlice p 0 (length xs)), h'. split_and!; [|done|].
  - unfold make_each. rewrite (bind_some _ _ _ _ _ Ea). by rewrite (bind_some _ _ _ _ _ E).
  - assert (Ed : (h' ∖ h) !! p = Some (Array ys)) by by apply lookup_difference_Some.
    rewrite Ed, <- Hly, window_all. cbn. rewrite !take_ge in F by lia.
    rewrite (proj2 (mapM_Some (read (h' ∖ h) t) ys xs)); [done|].
    eapply Forall2_impl; [exact F|]. intros y x. apply read_mono, delete_subseteq.
Qed.

(** *** Field by field

    The statements come in the order of the fields; a field without a statement
    is copied by [*out = *in] and has to be flat. *)
Inductive covers : list (string * shape) -> list (string * copier) -> Prop :=
| covers_nil : covers [] []
| covers_flat f t fs l : Flat t -> covers fs l -> covers ((f, t) :: fs) l
| covers_copy f t c fs l : Copies t c -> covers fs l -> covers ((f, t) :: fs) ((f, c) :: l).

Definition read_fields (h : heap) (m : gmap string val) (fs : list (string * shape)) : option (list (string * tree)) :=
  mapM (fun f => x ← m !! f.1; pair f.1 <$> read h f.2 x) fs.

Lemma read_fields_cons h m f t fs r :
  read_fields h m ((f, t) :: fs) = Some r <->
  exists w x r', m !! f = Some w /\ read h t w = Some x /\ read_fields h m fs = Some r' /\ r = (f, x) :: r'.
Proof.
  unfold read_fields. cbn. split.
  - destruct (m !! f) as [w|]; [|done]. cbn. destruct (read h t w) as [x|] eqn:E; [|done]. cbn.
    destruct (mapM _ fs) as [r'|]; [|done]. intros [= <-]. by exists w, x, r'.
  - intros (w & x & r' & -> & E & -> & ->). cbn. by rewrite E.
Qed.

Lemma read_fields_mono h h' m fs r : h ⊆ h' -> read_fields h m fs = Some r -> read_fields h' m fs = Some r.
Proof.
  intros Hs Hr. pose proof (read_mono h h' (Struct fs) (VStruct m) (TStruct r) Hs) as H'. cbn [read] in H'.
  fold (read_fields h m fs) (read_fields h' m fs) in H'. rewrite Hr in H'. specialize (H' eq_refl).
  destruct (read_fields h' m fs) as [r'|]; [|done]. by injection H' as ->.
Qed.

Lemma statements_copies (h : heap) (m0 : gmap string val) fs l :
  covers fs l -> NoDup (map fst fs) ->
  forall m h1 r, h ⊆ h1 -> (forall f, f ∈ map fst fs -> m !! f = m0 !! f) -> read_fields h m0 fs = Some r ->
  exists m' h', statements l (VStruct m0) (VStruct m) h1 = Some (VStruct m', h') /\ h1 ⊆ h' /\
    (forall f, f ∉ map fst fs -> m' !! f = m !! f) /\ read_fields (h' ∖ h) m' fs = Some r.
Proof.
  induction 1 as [|f t fs l Hf C IH|f t c fs l Hc C IH]; intros Hnd m h1 r Hs Hm Hr.
  - exists m, h1. by injection Hr as <-.
  - apply NoDup_cons in Hnd as [Hn Hnd]. apply read_fields_cons in Hr as (w & x & r' & Ew & Ex & Er & ->).
    destruct (IH Hnd m h1 r' Hs) as (m' & h' & E & Hs' & Hk & R); [|done|].
    { intros g Hg. apply Hm. by right. }
    exists m', h'. split_and!; [done|done| |].
    + intros g [_ Hg]%not_elem_of_cons. by apply Hk.
    + apply read_fields_cons. exists w, x, r'. split_and!; [|by eapply read_flat|done|done].
      rewrite Hk, Hm by (done || by left). done.
  - apply NoDup_cons in Hnd as [Hn Hnd]. apply read_fields_cons in Hr as (w & x & r' & Ew & Ex & Er & ->).
    destruct (Hc w h1 x (read_mono _ _ _ _ _ Hs Ex)) as (y & h2 & Ec & Hs2 & Ry).
    assert (Hs' : h ⊆ h2) by by transitivity h1.
    destruct (IH Hnd (<[f := y]> m) h2 r' Hs') as (m' & h' & E & Hs3 & Hk & R); [|done|].
    { intros g Hg. rewrite lookup_insert_ne by (intros ->; done). apply Hm. by right. }
    exists m', h'. split_and!; [|by transitivity h2| |].
    + cbn [statements]. rewrite (bind_some _ _ h1 w h1) by (cbn [field]; by rewrite Ew).
      rewrite (bind_some _ _ _ _ _ Ec). done.
    + intros g [Hg Hg']%not_elem_of_cons. rewrite Hk, lookup_insert_ne by done. done.
    + apply read_fields_cons. exists y, x, r'. split_and!; [by rewrite Hk, lookup_insert_eq| |done|done].
      eapply read_mono; [|exact Ry]. transitivity (h2 ∖ h); [by apply diff_shrinks|by apply diff_grows].
Qed.

Lemma into_copies fs l : NoDup (map fst fs) -> covers fs l -> Copies (Struct fs) (into l).
Proof.
  intros Hnd C v h x. cbn [read]. destruct v as [| | | | |m]; try done. fold (read_fields h m fs).
  destruct (read_fields h m fs) as [r|] eqn:Er; [|done]. intros [= <-].
  destruct (statements_copies h m fs l C Hnd m h r) as (m' & h' & E & Hs & _ & R); [done..|].
  exists (VStruct m'), h'. split_and!; [done|done|]. fold (read_fields (h' ∖ h) m' fs). by rewrite R.
Qed.

#[export] Instance as_object_copies t c : Copies (Pointer t) c -> Copies (Pointer t) (as_object c).
Proof.
  intros Hc v h x Hr. destruct (Hc v h x Hr) as (v' & h' & E & R). exists v', h'. split; [|done].
  unfold as_object. rewrite (bind_some _ _ _ _ _ E). by destruct v'.
Qed.

(** A [DeepCopy] and a [DeepCopyObject], from the [DeepCopyInto]. *)
Lemma pointer_copies t c : Copies t c -> Copies (Pointer t) (non_nil (new_ t c)).
Proof. intros Hc. exact _. Qed.
Lemma object_copies t c : Copies t c -> Copies (Pointer t) (as_object (non_nil (new_ t c))).
Proof. intros Hc. exact _. Qed.

(** ** What a copy is good for *)

(** Neither value can tell what happens to the other: whatever is written to
    memory that has been allocated since, the original reads the same, and
    whatever is written to older memory, the copy does. *)
Lemma copies_independent t c `{!Copies t c} (h : heap) (v : val) (x : tree) :
  read h t v = Some x ->
  exists v' h', c v h = Some (v', h') /\
    (forall h'', h ⊆ h'' -> read h'' t v = Some x) /\
    (forall h'', h' ∖ h ⊆ h'' -> read h'' t v' = Some x) /\ h ⊆ h'.
Proof.
  intros Hr. destruct (copies v h x Hr) as (v' & h' & E & Hs & R). exists v', h'. split_and!; try done.
  - intros h'' Hs'. by eapply read_mono.
  - intros h'' Hs'. by eapply read_mono.
Qed.

(** ** Objects edited in place *)

Definition tree_get (f : string) (x : tree) : option tree :=
  match x with TStruct fs => snd <$> List.find (fun e => String.eqb e.1 f) fs | _ => None end.
Definition tree_set (f : string) (y x : tree) : tree :=
  match x with TStruct fs => TStruct (map (fun e => if String.eqb e.1 f then (f, y) else e) fs) | _ => x end.

Lemma tree_get_set_eq f y z x : tree_get f x = Some z -> tree_get f (tree_set f y x) = Some y.
Proof.
  destruct x as [| | | | |fs]; try done. cbn. induction fs as [|[g w] fs IH]; [done|]. cbn.
  destruct (String.eqb g f) eqn:E; cbn; [by rewrite String.eqb_refl|]. by rewrite E.
Qed.

Lemma tree_get_set_ne f g y x : f <> g -> tree_get f (tree_set g y x) = tree_get f x.
Proof.
  intros Hne. destruct x as [| | | | |fs]; try done. cbn. induction fs as [|[e w] fs IH]; [done|]. cbn.
  destruct (String.eqb_spec e g) as [->|Hn]; cbn.
  - rewrite (proj2 (String.eqb_neq g f)) by congruence. done.
  - by destruct (String.eqb e f).
Qed.

Lemma tree_set_set f y z x : tree_set f y (tree_set f z x) = tree_set f y x.
Proof.
  destruct x as [| | | | |fs]; try done. cbn. rewrite map_map. f_equal. apply map_ext. intros [e w].
  unfold fst. destruct (String.eqb e f) eqn:E; [by rewrite String.eqb_refl|by rewrite E].
Qed.

Lemma read_struct h fs m x :
  read h (Struct fs) (VStruct m) = Some x <-> exists r, read_fields h m fs = Some r /\ x = TStruct r.
Proof.
  cbn [read]. fold (read_fields h m fs). destruct (read_fields h m fs) as [r|]; cbn.
  - split; [intros [= <-]; by exists r|by intros (r' & [= ->] & ->)].
  - split; [done|by intros (? & ? & _)].
Qed.

Lemma read_get h fs m x f t :
  NoDup (map fst fs) -> (f, t) ∈ fs -> read h (Struct fs) (VStruct m) = Some x ->
  exists w y, m !! f = Some w /\ read h t w = Some y /\ tree_get f x = Some y.
Proof.
  intros Hnd Hin (r & Hr & ->)%read_struct. revert r Hr.
  induction fs as [|[g u] fs IH]; intros r Hr; [by apply elem_of_nil in Hin|].
  apply NoDup_cons in Hnd as [Hn Hnd]. apply read_fields_cons in Hr as (w & y & r' & Ew & Ey & Er & ->).
  apply elem_of_cons in Hin as [[= -> ->]|Hin].
  - exists w, y. split_and!; try done. cbn. by rewrite String.eqb_refl.
  - destruct (IH Hnd Hin r' Er) as (w' & y' & E1 & E2 & E3). exists w', y'. split_and!; try done.
    cbn in *. destruct (String.eqb_spec g f) as [->|_]; [|done].
    destruct Hn. apply map_elem. by exists (f, t).
Qed.

Lemma read_fields_other h m fs f w :
  f ∉ map fst fs -> read_fields h (<[f := w]> m) fs = read_fields h m fs.
Proof.
  unfold read_fields. induction fs as [|[g u] fs IH]; [done|]. intros [Hg Hn]%not_elem_of_cons.
  cbn. cbn in Hg. rewrite lookup_insert_ne by done. by rewrite IH.
Qed.

Lemma read_set h fs m x f t w y :
  NoDup (map fst fs) -> (f, t) ∈ fs -> read h (Struct fs) (VStruct m) = Some x -> read h t w = Some y ->
  read h (Struct fs) (VStruct (<[f := w]> m)) = Some (tree_set f y x).
Proof.
  intros Hnd Hin (r & Hr & ->)%read_struct Hy. apply read_struct.
  eexists. split; [|reflexivity]. revert r Hr.
  induction fs as [|[g u] fs IH]; intros r Hr; [by apply elem_of_nil in Hin|].
  apply NoDup_cons in Hnd as [Hn Hnd]. apply read_fields_cons in Hr as (w' & y' & r' & Ew & Ey & Er & ->).
  apply read_fields_cons. apply elem_of_cons in Hin as [[= -> ->]|Hin].
  - exists w, y, r'. rewrite lookup_insert_eq, read_fields_other by done. split_and!; try done.
    cbn. rewrite String.eqb_refl. f_equal. rewrite <- (map_id r') at 2. apply map_ext_in. intros [e z] He. cbn.
    destruct (String.eqb_spec e g) as [->|_]; [|done]. destruct Hn.
    clear -He Er. revert r' He Er. induction fs as [|[e u'] fs IH]; intros r' He Er; [by injection Er as <-|].
    apply read_fields_cons in Er as (? & ? & r'' & _ & _ & Er & ->). destruct He as [[= -> _]|He]; [by left|].
    right. by eapply IH.
  - assert (Hne : f <> g). { intros ->. apply Hn, map_elem. by exists (g, t). }
    eexists w', y', _. rewrite lookup_insert_ne by done. split_and!; [done|done|by apply (IH Hnd Hin)|].
    cbn. by rewrite (proj2 (String.eqb_neq g f)) by congruence.
Qed.

(** At [l] stands an object that reads as [x] without its own cell. *)
Definition stands_at (h : heap) (l : loc) (t : shape) (x : tree) : Prop :=
  exists v, h !! l = Some (Pointee v) /\ read (delete l h) t v = Some x.

Lemma stands_at_read h l t x : stands_at h l t x -> read h (Pointer t) (VPointer l) = Some (TPointer x).
Proof.
  intros (v & El & Er). cbn [read]. rewrite El. by rewrite (read_mono _ _ _ _ _ (delete_subseteq _ _) Er).
Qed.

Lemma stands_at_mono h h' l t x : h ⊆ h' -> stands_at h l t x -> stands_at h' l t x.
Proof.
  intros Hs (v & El & Er). exists v. split; [by eapply lookup_weaken|].
  eapply read_mono; [|exact Er]. by apply delete_mono.
Qed.

(** The effect of an assignment to a field: the object changes in that field,
    and no other memory changes. *)
Definition edits (m : mem unit) (l : loc) (t : shape) (x : tree) (h : heap) : Prop :=
  exists h', m h = Some (tt, h') /\ stands_at h' l t x /\ delete l h' = delete l h.

Lemma set_edits h l fs x f t w y :
  NoDup (map fst fs) -> (f, t) ∈ fs -> stands_at h l (Struct fs) x -> read (delete l h) t w = Some y ->
  edits (set (VPointer l) f w) l (Struct fs) (tree_set f y x) h.
Proof.
  intros Hnd Hin (v & El & Er) Hy. destruct v as [| | | | |m]; try done.
  assert (Ed : forall c, delete l (<[l := c]> h) = delete l h) by (intros c; apply delete_insert_eq).
  exists (<[l := Pointee (VStruct (<[f := w]> m))]> h). split_and!; [|eexists; split; [apply lookup_insert_eq|]|apply Ed].
  - unfold set. cbn [deref]. rewrite (bind_some _ _ _ _ _ (bind_some _ _ _ _ _ (load_some _ _ _ El))).
    cbn [with_field]. by rewrite (bind_some _ _ h (VStruct (<[f := w]> m)) h), (store_some _ _ _ _ El).
  - rewrite Ed. by eapply read_set.
Qed.

Lemma get_stands h l fs x f t :
  NoDup (map fst fs) -> (f, t) ∈ fs -> stands_at h l (Struct fs) x ->
  exists w y, get (VPointer l) f h = Some (w, h) /\ read (delete l h) t w = Some y /\ tree_get f x = Some y.
Proof.
  intros Hnd Hin (v & El & Er). destruct v as [| | | | |m]; try done.
  destruct (read_get _ _ _ _ _ _ Hnd Hin Er) as (w & y & E1 & E2 & E3). exists w, y. split_and!; try done.
  unfold get. cbn [deref]. rewrite (bind_some _ _ _ _ _ (bind_some _ _ _ _ _ (load_some _ _ _ El))). cbn. by rewrite E1.
Qed.

(** Reading a field needs no more memory than reading the object. *)
Lemma get_read (h h' : heap) p fs x f t :
  NoDup (map fst fs) -> (f, t) ∈ fs -> h ⊆ h' -> read h (Pointer (Struct fs)) p = Some (TPointer x) ->
  exists w y, get p f h' = Some (w, h') /\ read h t w = Some y /\ tree_get f x = Some y.
Proof.
  intros Hnd Hin Hs. cbn -[read]. change (read h (Pointer (Struct fs)) p) with
    (match p with VNil => Some TNil | VPointer l => match h !! l with Some (Pointee x) => TPointer <$> read h (Struct fs) x | _ => None end | _ => None end).
  destruct p as [| |l| | |]; try done. destruct (h !! l) as [[v| |]|] eqn:El; try done.
  destruct (read h (Struct fs) v) as [x'|] eqn:Ev; [|done]. intros [= ->].
  destruct v as [| | | | |m]; try done.
  destruct (read_get _ _ _ _ _ _ Hnd Hin Ev) as (w & y & E1 & E2 & E3). exists w, y. split_and!; try done.
  unfold get. cbn [deref].
  rewrite (bind_some _ _ _ _ _ (bind_some _ _ _ _ _ (load_some _ _ _ (lookup_weaken _ _ _ _ El Hs)))). cbn. by rewrite E1.
Qed.

Lemma field_read h fs v x f t (h' : heap) :
  NoDup (map fst fs) -> (f, t) ∈ fs -> read h (Struct fs) v = Some x ->
  exists w y, field f v h' = Some (w, h') /\ read h t w = Some y /\ tree_get f x = Some y.
Proof.
  intros Hnd Hin Hr. destruct v as [| | | | |m]; try done.
  destruct (read_get _ _ _ _ _ _ Hnd Hin Hr) as (w & y & E1 & E2 & E3). exists w, y. cbn. by rewrite E1.
Qed.

Lemma set_in_edits h l fs gs x f g t w y z :
  NoDup (map fst fs) -> (f, Struct gs) ∈ fs -> NoDup (map fst gs) -> (g, t) ∈ gs ->
  stands_at h l (Struct fs) x -> tree_get f x = Some z -> read (delete l h) t w = Some y ->
  edits (set_in (VPointer l) f g w) l (Struct fs) (tree_set f (tree_set g y z) x) h.
Proof.
  intros Hnd Hin Hnd' Hin' Hx Hz Hy.
  destruct (get_stands _ _ _ _ _ _ Hnd Hin Hx) as (v & z' & E1 & E2 & E3).
  assert (z' = z) as -> by congruence. destruct v as [| | | | |m]; try done.
  destruct (set_edits h l fs x f (Struct gs) (VStruct (<[g := w]> m)) (tree_set g y z) Hnd Hin Hx) as (h' & E & H').
  { by eapply read_set. }
  exists h'. split; [|done]. unfold set_in. rewrite (bind_some _ _ _ _ _ E1). cbn [with_field].
  by rewrite (bind_some _ _ h (VStruct (<[g := w]> m)) h).
Qed.

(** Assignments from an object [want] that is apart from the one edited. *)
Section assignments.
Context (h : heap) (l : loc) (want : val) (fs : list (string * shape)) (x w : tree).
Context (Hnd : NoDup (map fst fs)) (Hx : stands_at h l (Struct fs) x).
Context (Hw : read (delete l h) (Pointer (Struct fs)) want = Some (TPointer w)).

Lemma assign_field_edits f t :
  (f, t) ∈ fs ->
  exists y, tree_get f w = Some y /\ edits (assign_field (VPointer l) f want) l (Struct fs) (tree_set f y x) h.
Proof.
  intros Hin.
  destruct (get_read _ h _ _ _ _ _ Hnd Hin (delete_subseteq _ _) Hw) as (v & y & E & R & T).
  exists y. split; [done|]. destruct (set_edits _ _ _ _ _ _ _ _ Hnd Hin Hx R) as (h' & E' & H').
  exists h'. split; [|done]. unfold assign_field. by rewrite (bind_some _ _ _ _ _ E).
Qed.

Lemma assign_in_edits f g t gs z :
  (f, Struct gs) ∈ fs -> NoDup (map fst gs) -> (g, t) ∈ gs -> tree_get f x = Some z ->
  exists m y, tree_get f w = Some m /\ tree_get g m = Some y /\
    edits (assign_in (VPointer l) f g want) l (Struct fs) (tree_set f (tree_set g y z) x) h.
Proof.
  intros Hin Hnd' Hin' Hz.
  destruct (get_read _ h _ _ _ _ _ Hnd Hin (delete_subseteq _ _) Hw) as (v & m & E & R & T).
  destruct (field_read _ _ _ _ _ _ h Hnd' Hin' R) as (u & y & E' & R' & T'). exists m, y. split_and!; [done|done|].
  destruct (set_in_edits _ _ _ _ _ _ _ _ _ _ _ Hnd Hin Hnd' Hin' Hx Hz R') as (h' & E2 & H').
  exists h'. split; [|done]. unfold assign_in. rewrite (bind_some _ _ _ _ _ E). by rewrite (bind_some _ _ _ _ _ E').
Qed.
End assignments.

(** ** The reference: a deep copy by shape *)

Fixpoint deep (t : shape) : copier :=
  match t with
  | Basic _ => assign
  | Pointer t => non_nil (new_ t (deep t))
  | Slice t => non_nil (make_each t (deep t))
  | Map _ => non_nil make_map
  | Struct fs => into (map (fun f => (f.1, deep f.2)) fs)
  end.

(** The fields of every struct have names of their own. *)
Fixpoint distinct (t : shape) : bool :=
  match t with
  | Pointer t | Slice t => distinct t
  | Struct fs => bool_decide (NoDup (map fst fs)) && forallb (fun f => distinct f.2) fs
  | _ => true
  end.

Lemma deep_copies t : distinct t = true -> Copies t (deep t).
Proof.
  induction t as [k|t IH|t IH|k|fs IH] using shape_nested_ind; cbn [deep distinct]; intros Hd; try exact _.
  - specialize (IH Hd). exact _.
  - specialize (IH Hd). exact _.
  - apply andb_prop in Hd as [Hn%bool_decide_eq_true Hd]. apply into_copies; [done|]. clear Hn.
    induction IH as [|[f t] fs Hf IH IHfs]; cbn in *; [constructor|].
    apply andb_prop in Hd as [Hd1 Hd2]. apply covers_copy; [by apply Hf|by apply IHfs].
Qed.

(** ** Solving [Copies] for generated functions *)

Ltac solve_covers :=
  repeat first [apply covers_nil | apply covers_copy; [exact _|] | apply covers_flat; [exact _|]].
Ltac solve_copies := apply into_copies; [by_decision | solve_covers].
