(* ===== verification/Version.v ===== *)
(** * [internal/technitium/version.go]: Technitium versions and image tags *)

From S2P Require Import Prelude GoStrings.

Local Open Scope string_scope.
Local Open Scope Z_scope.
Local Open Scope go_scope.

(** Go's [int] components. *)
Record Version := { Major : Z; Minor : Z; Patch : Z }.

#[export] Instance Version_eq_dec : EqDecision Version.
Proof. solve_decision. Defined.

Abbreviation dot := "."%char.

(** The longest prefix of digits and dots ([s[:end]]). *)
Definition in_version (c : ascii) : bool := Ascii.eqb c dot || is_digit c.

Fixpoint version_span (s : string) : string :=
  match s with
  | "" => ""
  | String c s' => if in_version c then String c (version_span s') else ""
  end.

(** The [Atoi] loop over the parts. *)
Fixpoint parse_parts (parts : list string) : option (list Z) :=
  match parts with
  | [] => Some []
  | p :: ps =>
      match Atoi p with
      | None => None
      | Some n => match parse_parts ps with Some ns => Some (n :: ns) | None => None end
      end
  end.

(** [ParseVersion]; [None] is its error. *)
Definition ParseVersion (s0 : string) : option Version :=
  let s := TrimPrefix (TrimSpace s0) "v" in
  let num := version_span s in
  let parts := SplitChar dot (TrimChar num dot) in
  if (default "" (head parts) =s? "") || (3 <? length parts)%nat
     || HasPrefix s "." || Contains num ".."
  then None
  else match parse_parts parts with
       | None => None
       | Some nums =>
           Some {| Major := nth 0 nums 0; Minor := nth 1 nums 0; Patch := nth 2 nums 0 |}
       end.

(** [ParseImageVersion]; [None] is [ok == false]. *)
Definition ParseImageVersion (image : string) : option Version :=
  let image := match CutChar "@" image with Some (before, _) => before | None => image end in
  let name := after_last "/" image in
  match CutChar ":" name with
  | None => None
  | Some (_, tag) => ParseVersion tag
  end.

(** [Version.Compare]: the sign of the first non-zero difference. *)
Fixpoint first_sign (ds : list Z) : Z :=
  match ds with
  | [] => 0
  | d :: ds' => if d <? 0 then -1 else if 0 <? d then 1 else first_sign ds'
  end.

Definition Compare (v o : Version) : Z :=
  first_sign [Major v - Major o; Minor v - Minor o; Patch v - Patch o].

(** [Version.String]. *)
Definition version_String (v : Version) : string :=
  Itoa (Major v) +:+ "." +:+ Itoa (Minor v) +:+ "." +:+ Itoa (Patch v).

(** ** Lemmas *)

(** Components [ParseVersion] can produce. *)
Definition wf_Version (v : Version) : Prop :=
  0 <= Major v <= max_int /\ 0 <= Minor v <= max_int /\ 0 <= Patch v <= max_int.

Lemma is_digit_not_dot (c : ascii) : is_digit c = true -> Ascii.eqb dot c = false.
Proof.
  intros H. destruct (Ascii.eqb_spec dot c) as [<-|]; [by vm_compute in H|done].
Qed.

Lemma digits_no_dot (s : string) :
  str_forall is_digit s = true -> str_forall (fun c => negb (Ascii.eqb dot c)) s = true.
Proof. apply str_forall_impl. intros c H. by rewrite (is_digit_not_dot c H). Qed.

Lemma digits_no_space (s : string) :
  str_forall is_digit s = true -> str_forall (fun c => negb (is_space c)) s = true.
Proof.
  apply str_forall_impl. intros c H. unfold is_digit, is_space in *.
  apply andb_true_iff in H as [H1 H2]. apply N.leb_le in H1, H2.
  apply negb_true_iff, orb_false_iff; split.
  - apply andb_false_iff; right. apply N.leb_gt. lia.
  - apply N.eqb_neq. lia.
Qed.

Lemma version_span_all (s : string) : str_forall in_version s = true -> version_span s = s.
Proof.
  induction s as [|c s IH]; cbn; [done|]. intros H.
  apply andb_true_iff in H as [Hc Hs]. by rewrite Hc, IH.
Qed.

Lemma Contains_digits_app (d t : string) :
  str_forall is_digit d = true -> Contains (d +:+ t) ".." = Contains t "..".
Proof.
  induction d as [|c d IH]; [done|]. cbn [str_forall]. intros H.
  apply andb_true_iff in H as [Hc Hd].
  change (HasPrefix (String c (d +:+ t)) ".." || Contains (d +:+ t) ".." = Contains t "..").
  by rewrite (IH Hd), HasPrefix_cons, (is_digit_not_dot c Hc).
Qed.

Lemma Contains_dot_app (t : string) :
  Contains (String dot t) ".." = HasPrefix t "." || Contains t "..".
Proof.
  change (HasPrefix (String dot t) ".." || Contains t ".." = HasPrefix t "." || Contains t "..").
  reflexivity.
Qed.

Lemma HasPrefix_digit_dot (c : ascii) (t : string) :
  is_digit c = true -> HasPrefix (String c t) "." = false.
Proof. intros Hc. by rewrite HasPrefix_cons, (is_digit_not_dot c Hc). Qed.

Lemma TrimPrefix_digit (c : ascii) (t : string) :
  is_digit c = true -> TrimPrefix (String c t) "v" = String c t.
Proof.
  intros Hc. unfold TrimPrefix, CutPrefix.
  destruct (Ascii.eqb_spec "v" c) as [<-|]; [by vm_compute in Hc|done].
Qed.

(** A trim that finds neither end to remove. *)
Lemma trim_by_id (f : ascii -> bool) (a b : string) (c : ascii) :
  f c = false -> b <> "" -> str_forall (fun x => negb (f x)) b = true ->
  trim_by f (String c a +:+ b) = String c a +:+ b.
Proof.
  intros Hc Hb Hf. unfold trim_by.
  replace (trim_left_by f (String c a +:+ b)) with (String c a +:+ b)
    by (symmetry; by apply trim_left_by_head).
  rewrite trim_right_by_app by (by rewrite trim_right_by_none).
  by rewrite trim_right_by_none.
Qed.

Lemma parse_parts_bounds (parts : list string) : forall nums,
  Forall (fun p => str_forall is_digit p = true) parts ->
  parse_parts parts = Some nums -> Forall (fun n => 0 <= n <= max_int) nums.
Proof.
  induction parts as [|p ps IH]; cbn; intros nums Hd H; [by simplify_eq|].
  inversion Hd as [|? ? Hp Hps]; subst.
  destruct (Atoi p) as [n|] eqn:En; [|done].
  destruct (parse_parts ps) as [ns|] eqn:Ens; [|done]. simplify_eq.
  constructor; [|by eapply IH].
  unfold Atoi, in_range in En. destruct (parse_signed p) as [m|] eqn:Em; [|done].
  destruct ((min_int <=? m) && (m <=? max_int)) eqn:Er; [|done]. simplify_eq. reflect_bools.
  split; [|done].
  assert (parse_nonneg p = Some n) as Hn.
  { destruct p as [|c p]; [done|]. cbn in Hp. apply andb_true_iff in Hp as [Hc _].
    revert Em. unfold parse_signed.
    destruct c as [[] [] [] [] [] [] [] []]; cbn in Hc; try discriminate; auto. }
  unfold parse_nonneg in Hn. destruct (p =s? ""); [done|].
  destruct (parse_digits p 0); [|done]. simplify_eq. lia.
Qed.

Lemma SplitChar_forall (f : ascii -> bool) (c : ascii) (s : string) :
  str_forall (fun x => Ascii.eqb c x || f x) s = true ->
  Forall (fun p => str_forall f p = true) (SplitChar c s).
Proof.
  induction s as [|x s IH]; cbn [str_forall]; intros H; [by repeat constructor|].
  apply andb_true_iff in H as [Hx Hs]. specialize (IH Hs).
  change (Forall (fun p => str_forall f p = true)
    (if Ascii.eqb c x then "" :: SplitChar c s else
       match SplitChar c s with [] => [String x ""] | w :: ws => String x w :: ws end)).
  destruct (Ascii.eqb c x); [by constructor|]. cbn in Hx.
  destruct (SplitChar c s) as [|w ws].
  - constructor; [|done]. cbn. by rewrite Hx.
  - inversion IH; subst. constructor; [|done]. cbn. by rewrite Hx.
Qed.

Lemma trim_left_forall (f g : ascii -> bool) (s : string) :
  str_forall g s = true -> str_forall g (trim_left_by f s) = true.
Proof.
  induction s as [|c s IH]; cbn; [done|]. intros H.
  destruct (f c); [|done]. apply andb_true_iff in H as [_ H]. auto.
Qed.

Lemma trim_right_forall (f g : ascii -> bool) (s : string) :
  str_forall g s = true -> str_forall g (trim_right_by f s) = true.
Proof.
  induction s as [|c s IH]; cbn; [done|]. intros H.
  apply andb_true_iff in H as [Hc Hs]. specialize (IH Hs).
  destruct (trim_right_by f s) as [|d t]; [destruct (f c)|]; cbn in *; [done| |].
  - by rewrite Hc.
  - by rewrite Hc.
Qed.

Lemma version_span_forall (s : string) : str_forall in_version (version_span s) = true.
Proof.
  induction s as [|c s IH]; cbn; [done|].
  destruct (in_version c) eqn:E; cbn; [by rewrite E|done].
Qed.

Lemma first_sign_cases (ds : list Z) : first_sign ds = -1 \/ first_sign ds = 0 \/ first_sign ds = 1.
Proof. induction ds as [|d ds IH]; cbn; [lia|]. destruct (d <? 0), (0 <? d); auto. Qed.

(** ** Properties *)

(** Printing a version and parsing it back is the identity, for every
    version whose components fit a non-negative Go [int]. *)
Theorem ParseVersion_String (v : Version) :
  wf_Version v -> ParseVersion (version_String v) = Some v.
Proof.
  destruct v as [a b c]. intros (Ha & Hb & Hc); cbn in Ha, Hb, Hc.
  unfold version_String; cbn [Major Minor Patch].
  pose proof (Itoa_digits a) as Da. pose proof (Itoa_digits b) as Db. pose proof (Itoa_digits c) as Dc.
  destruct (Itoa_head a) as (x & sa & Ea & Dx & Dsa); [lia|].
  destruct (Itoa_head b) as (y & sb & Eb & Dy & Dsb); [lia|].
  destruct (Itoa_head c) as (z & sc & Ec & Dz & Dsc); [lia|].
  pose proof (Atoi_Itoa a Ha) as Pa. pose proof (Atoi_Itoa b Hb) as Pb. pose proof (Atoi_Itoa c Hc) as Pc.
  specialize (Da ltac:(lia)). specialize (Db ltac:(lia)). specialize (Dc ltac:(lia)).
  assert (Hne : Itoa c <> "") by (by rewrite Ec).
  set (s := Itoa a +:+ "." +:+ Itoa b +:+ "." +:+ Itoa c).
  assert (Hs : s = String x (sa +:+ "." +:+ Itoa b +:+ ".") +:+ Itoa c).
  { unfold s. rewrite Ea.
    change (String x (sa +:+ ("." +:+ Itoa b +:+ "." +:+ Itoa c))
            = String x ((sa +:+ ("." +:+ Itoa b +:+ ".")) +:+ Itoa c)).
    by rewrite !string_app_assoc. }
  assert (Hv : str_forall in_version s = true).
  { assert (Hd : forall t, str_forall is_digit t = true -> str_forall in_version t = true).
    { intros t. apply str_forall_impl. intros k Hk. unfold in_version. rewrite Hk. apply orb_true_r. }
    unfold s. rewrite !str_forall_app. rewrite (Hd (Itoa a)), (Hd (Itoa b)), (Hd (Itoa c)) by done. reflexivity. }
  assert (T1 : TrimSpace s = s).
  { rewrite Hs. unfold TrimSpace. apply trim_by_id; [|done|by apply digits_no_space].
    assert (Hsp : str_forall (fun k => negb (is_space k)) (String x "") = true)
      by (apply digits_no_space; cbn; by rewrite Dx).
    cbn in Hsp. rewrite andb_true_r in Hsp. by apply negb_true_iff. }
  assert (T2 : TrimPrefix s "v" = s) by (rewrite Hs; by apply TrimPrefix_digit).
  assert (T3 : TrimChar s dot = s).
  { rewrite Hs. unfold TrimChar. apply trim_by_id; [by apply is_digit_not_dot|done|by apply digits_no_dot]. }
  assert (T4 : SplitChar dot s = [Itoa a; Itoa b; Itoa c]).
  { unfold s. change ("." +:+ Itoa b +:+ "." +:+ Itoa c) with (String dot (Itoa b +:+ String dot (Itoa c))).
    rewrite SplitChar_app by (by apply digits_no_dot).
    rewrite SplitChar_app by (by apply digits_no_dot).
    rewrite SplitChar_none by (by apply digits_no_dot). reflexivity. }
  assert (T5 : HasPrefix s "." = false) by (rewrite Hs; by apply HasPrefix_digit_dot).
  assert (T6 : Contains s ".." = false).
  { unfold s. rewrite Contains_digits_app by done.
    change ("." +:+ Itoa b +:+ "." +:+ Itoa c) with (String dot (Itoa b +:+ String dot (Itoa c))).
    rewrite Contains_dot_app, Contains_digits_app by done.
    rewrite Contains_dot_app. rewrite <- (string_app_nil_r (Itoa c)), Contains_digits_app by done.
    rewrite string_app_nil_r, Eb, Ec.
    change (String y sb +:+ String dot (String z sc)) with (String y (sb +:+ String dot (String z sc))).
    by rewrite !HasPrefix_digit_dot. }
  unfold ParseVersion. rewrite T1, T2, version_span_all, T3, T4, T5, T6 by done. cbn [head default].
  rewrite Ea at 1. cbn -[Atoi]. by rewrite Pa, Pb, Pc.
Qed.

Lemma ParseVersion_String_witness :
  ParseVersion (version_String {| Major := 15; Minor := 6; Patch := 1 |})
  = Some {| Major := 15; Minor := 6; Patch := 1 |}.
Proof. apply ParseVersion_String. unfold wf_Version, max_int; cbn; lia. Defined.

(** every version [ParseVersion] accepts has components in [0, 2^63-1],
    so the differences [Compare] computes never overflow a Go [int]. *)
Theorem ParseVersion_bounds (s : string) (v : Version) :
  ParseVersion s = Some v -> wf_Version v.
Proof.
  unfold ParseVersion. set (num := version_span _). set (parts := SplitChar dot _).
  destruct (_ || _ || _ || _); [done|].
  destruct (parse_parts parts) as [nums|] eqn:E; [|done]. intros [= <-].
  assert (H : Forall (fun n => 0 <= n <= max_int) nums).
  { eapply parse_parts_bounds; [|exact E]. apply SplitChar_forall.
    unfold TrimChar, trim_by. apply trim_right_forall, trim_left_forall.
    assert (Hn := version_span_forall (TrimPrefix (TrimSpace s) "v")). fold num in Hn.
    revert Hn. apply str_forall_impl. intros c. unfold in_version.
    by rewrite (Ascii.eqb_sym c dot). }
  assert (Hnth : forall i, 0 <= nth i nums 0 <= max_int).
  { intros i. destruct (decide (i < length nums)%nat) as [Hi|Hi].
    - eapply List.Forall_forall in H; [exact H|]. by apply nth_In.
    - rewrite nth_overflow by lia. unfold max_int. lia. }
  unfold wf_Version; cbn. auto.
Qed.

Lemma ParseVersion_bounds_witness :
  wf_Version {| Major := 15; Minor := 6; Patch := 0 |}.
Proof. apply (ParseVersion_bounds "v15.6-alpine"). vm_compute. reflexivity. Defined.

(** [Compare] is the lexicographic order of the components: it answers 0
    exactly on equal versions, it is antisymmetric, and "older than" is
    transitive; so a refused downgrade is well defined. *)
Theorem Compare_total_order :
  (forall v o, Compare v o = -1 \/ Compare v o = 0 \/ Compare v o = 1) /\
  (forall v o, Compare v o = 0 <-> v = o) /\
  (forall v o, Compare o v = - Compare v o) /\
  (forall u v w, Compare u v <= 0 -> Compare v w <= 0 -> Compare u w <= 0) /\
  (forall v o, Compare v o = -1 <->
     Major v < Major o \/
     (Major v = Major o /\ (Minor v < Minor o \/ (Minor v = Minor o /\ Patch v < Patch o)))).
Proof.
  unfold Compare; cbn [first_sign].
  repeat split; intros;
    repeat match goal with
    | v : Version |- _ => destruct v; cbn in *
    | H : {| Major := _; Minor := _; Patch := _ |} = _ |- _ => injection H as -> -> ->
    end;
    repeat match goal with
    | |- context [ ?a <? ?b ] => destruct (Z.ltb_spec a b)
    | H : context [ ?a <? ?b ] |- _ => destruct (Z.ltb_spec a b)
    end; try lia; f_equal; lia.
Qed.

(** The version of an image reference is the one of its tag: neither the
    port of a registry host, nor a digest after the tag, nor a path component
    is mistaken for it, and a reference without a tag has no version. *)
Theorem ParseImageVersion_tag (host name tag digest : string) :
  lacks "@" host = true -> lacks "@" name = true -> lacks "@" tag = true ->
  lacks "/" name = true -> lacks "/" tag = true -> lacks ":" name = true ->
  ParseImageVersion (host +:+ "/" +:+ name +:+ ":" +:+ tag +:+ "@" +:+ digest) = ParseVersion tag /\
  ParseImageVersion (host +:+ "/" +:+ name +:+ ":" +:+ tag) = ParseVersion tag /\
  ParseImageVersion (host +:+ "/" +:+ name +:+ "@" +:+ digest) = None /\
  ParseImageVersion (host +:+ "/" +:+ name) = None.
Proof.
  intros Hh Hn Ht Hns Hts Hnc.
  assert (Htagged : after_last "/" (host +:+ String "/" (name +:+ String ":" tag)) = name +:+ String ":" tag).
  { apply after_last_app. rewrite lacks_app, Hns. change (lacks "/" tag = true). done. }
  assert (Huntagged : after_last "/" (host +:+ String "/" name) = name) by (by apply after_last_app).
  assert (Hc1 : lacks "@" (host +:+ String "/" (name +:+ String ":" tag)) = true).
  { rewrite lacks_app, Hh. change (lacks "@" (name +:+ String ":" tag) = true).
    rewrite lacks_app, Hn. done. }
  assert (Hc2 : lacks "@" (host +:+ String "/" name) = true).
  { rewrite lacks_app, Hh. done. }
  unfold ParseImageVersion. repeat split.
  - replace (host +:+ "/" +:+ name +:+ ":" +:+ tag +:+ "@" +:+ digest)
      with ((host +:+ String "/" (name +:+ String ":" tag)) +:+ String "@" digest)
      by (rewrite string_app_assoc; f_equal;
          change (String "/" ((name +:+ String ":" tag) +:+ String "@" digest)
                  = String "/" (name +:+ String ":" (tag +:+ String "@" digest)));
          by rewrite string_app_assoc).
    by rewrite CutChar_app, Htagged, CutChar_app.
  - change (host +:+ "/" +:+ name +:+ ":" +:+ tag) with (host +:+ String "/" (name +:+ String ":" tag)).
    rewrite (CutChar_none "@" _ Hc1). cbv zeta iota. by rewrite Htagged, CutChar_app.
  - replace (host +:+ "/" +:+ name +:+ "@" +:+ digest)
      with ((host +:+ String "/" name) +:+ String "@" digest) by (by rewrite string_app_assoc).
    by rewrite CutChar_app, Huntagged, CutChar_none.
  - change (host +:+ "/" +:+ name) with (host +:+ String "/" name).
    rewrite (CutChar_none "@" _ Hc2). cbv zeta iota. by rewrite Huntagged, CutChar_none.
Qed.

Lemma ParseImageVersion_tag_witness :
  ParseImageVersion ("registry.example.com:5000/tech" +:+ "/" +:+ "dns-server" +:+ ":" +:+ "15.5" +:+ "@" +:+ "sha256:ab")
  = ParseVersion "15.5".
Proof.
  apply (proj1 (ParseImageVersion_tag "registry.example.com:5000/tech" "dns-server" "15.5" "sha256:ab"
    eq_refl eq_refl eq_refl eq_refl eq_refl eq_refl)).
Defined.
