(* ===== verification/Kube.v ===== *)
(** * The Kubernetes side: objects, conditions and the client interface

    Object metadata and status conditions carry the fields the operator reads
    or writes.  The helpers the source takes from apimachinery and
    controller-runtime are an interface ([KubeLib]) with their documented laws
    ([KubeLibLaws]); [RefKubeLib] is an implementation of it, which shows the
    laws can hold and lets the examples evaluate. *)

From S2P Require Import Prelude GoStrings GoErrors Effects.

Local Open Scope string_scope.
Local Open Scope Z_scope.

(** ** Objects *)

Module OwnerReference.
Record t := mk { Kind : string; UID : string; Controller : bool }.
#[export] Instance t_eq_dec : EqDecision t.
Proof. solve_decision. Defined.
End OwnerReference.
#[export] Existing Instance OwnerReference.t_eq_dec.

Module ObjectMeta.
Record t := mk {
  Name : string;
  Namespace : string;
  UID : string;
  ResourceVersion : string;
  Generation : Z;
  Created : bool;   (** [!CreationTimestamp.IsZero()] *)
  Deleting : bool;  (** [!DeletionTimestamp.IsZero()] *)
  Finalizers : list string;
  Labels : gmap string string;
  Annotations : gmap string string;
  OwnerReferences : list OwnerReference.t
}.

(** A new object under the given key. *)
Definition named (ns name : string) : t := mk name ns "" "" 0 false false [] ∅ ∅ [].

Definition with_Finalizers (m : t) (fs : list string) : t :=
  mk (Name m) (Namespace m) (UID m) (ResourceVersion m) (Generation m) (Created m) (Deleting m)
     fs (Labels m) (Annotations m) (OwnerReferences m).
Definition with_Labels (m : t) (ls : gmap string string) : t :=
  mk (Name m) (Namespace m) (UID m) (ResourceVersion m) (Generation m) (Created m) (Deleting m)
     (Finalizers m) ls (Annotations m) (OwnerReferences m).
Definition with_Annotations (m : t) (a : gmap string string) : t :=
  mk (Name m) (Namespace m) (UID m) (ResourceVersion m) (Generation m) (Created m) (Deleting m)
     (Finalizers m) (Labels m) a (OwnerReferences m).
Definition with_OwnerReferences (m : t) (o : list OwnerReference.t) : t :=
  mk (Name m) (Namespace m) (UID m) (ResourceVersion m) (Generation m) (Created m) (Deleting m)
     (Finalizers m) (Labels m) (Annotations m) o.
End ObjectMeta.

(** [client.ObjectKey]. *)
Record ObjectKey := { KeyNamespace : string; KeyName : string }.
#[export] Instance ObjectKey_eq_dec : EqDecision ObjectKey.
Proof. solve_decision. Defined.

(** ** Conditions *)

Inductive ConditionStatus := ConditionTrue | ConditionFalse | ConditionUnknown.
#[export] Instance ConditionStatus_eq_dec : EqDecision ConditionStatus.
Proof. solve_decision. Defined.

(** [metav1.Condition], without the transition time, which the operator
    neither sets nor reads. *)
Module Condition.
Record t := mk {
  Type_ : string;
  Status : ConditionStatus;
  Reason : string;
  Message : string;
  ObservedGeneration : Z
}.
#[export] Instance t_eq_dec : EqDecision t.
Proof. solve_decision. Defined.
End Condition.
#[export] Existing Instance Condition.t_eq_dec.

(** ** The library helpers *)

Class KubeLib := {
  ContainsFinalizer : list string -> string -> bool;
  AddFinalizer : list string -> string -> list string * bool;
  RemoveFinalizer : list string -> string -> list string;
  SetStatusCondition : list Condition.t -> Condition.t -> list Condition.t * bool;
  FindStatusCondition : list Condition.t -> string -> option Condition.t
}.

(** Their documentation: finalizers form a set; [SetStatusCondition] updates
    the condition of the given type or appends it, reports whether the
    conditions changed, and leaves the other types alone. *)
Class KubeLibLaws `{KubeLib} : Prop := {
  contains_spec fs f : ContainsFinalizer fs f = true <-> f ∈ fs;
  add_elem fs f g : g ∈ (AddFinalizer fs f).1 <-> g = f \/ g ∈ fs;
  add_changed fs f : (AddFinalizer fs f).2 = negb (ContainsFinalizer fs f);
  add_unchanged fs f : (AddFinalizer fs f).2 = false -> (AddFinalizer fs f).1 = fs;
  remove_elem fs f g : g ∈ RemoveFinalizer fs f <-> g <> f /\ g ∈ fs;
  set_find_same cs c :
    FindStatusCondition (SetStatusCondition cs c).1 (Condition.Type_ c) = Some c;
  set_find_other cs c t :
    t <> Condition.Type_ c ->
    FindStatusCondition (SetStatusCondition cs c).1 t = FindStatusCondition cs t;
  set_changed cs c :
    (SetStatusCondition cs c).2 = false <-> FindStatusCondition cs (Condition.Type_ c) = Some c;
  set_unchanged cs c :
    (SetStatusCondition cs c).2 = false -> (SetStatusCondition cs c).1 = cs
}.

(** An implementation. *)
Module RefKubeLib.
Definition contains (fs : list string) (f : string) : bool := bool_decide (f ∈ fs).
Definition add (fs : list string) (f : string) : list string * bool :=
  if contains fs f then (fs, false) else ((fs ++ [f])%list, true).
Definition remove (fs : list string) (f : string) : list string := filter (fun g => g <> f) fs.
Fixpoint find (cs : list Condition.t) (t : string) : option Condition.t :=
  match cs with
  | [] => None
  | c :: cs' => if bool_decide (Condition.Type_ c = t) then Some c else find cs' t
  end.
Fixpoint set (cs : list Condition.t) (n : Condition.t) : list Condition.t * bool :=
  match cs with
  | [] => ([n], true)
  | c :: cs' =>
      if bool_decide (Condition.Type_ c = Condition.Type_ n)
      then (n :: cs', negb (bool_decide (c = n)))
      else let '(r, ch) := set cs' n in (c :: r, ch)
  end.

#[export] Instance lib : KubeLib := {|
  ContainsFinalizer := contains; AddFinalizer := add; RemoveFinalizer := remove;
  SetStatusCondition := set; FindStatusCondition := find |}.

#[export] Instance laws : KubeLibLaws.
Proof.
  constructor; cbn.
  - intros fs f. unfold contains. apply bool_decide_eq_true.
  - intros fs f g. unfold add, contains. case_bool_decide; cbn; set_solver.
  - intros fs f. unfold add. by destruct (contains fs f).
  - intros fs f. unfold add. by destruct (contains fs f).
  - intros fs f g. unfold remove. by rewrite list_elem_of_filter.
  - intros cs c. induction cs as [|d cs IH]; cbn; [by rewrite bool_decide_true|].
    case_bool_decide; [by cbn; rewrite bool_decide_true|].
    destruct (set cs c) as [r ch]. cbn in *. by rewrite bool_decide_false.
  - intros cs c t Ht. induction cs as [|d cs IH]; cbn.
    + by rewrite bool_decide_false by congruence.
    + case_bool_decide as Hd; cbn.
      * by rewrite !bool_decide_false by congruence.
      * destruct (set cs c) as [r ch]. cbn in *. by rewrite IH.
  - intros cs c. induction cs as [|d cs IH]; cbn; [done|].
    case_bool_decide; cbn.
    + case_bool_decide; cbn; split; congruence.
    + by destruct (set cs c).
  - intros cs c. induction cs as [|d cs IH]; cbn; [done|].
    case_bool_decide; cbn.
    + case_bool_decide; cbn; [by intros _; subst|done].
    + destruct (set cs c); cbn in *. intros Hb. by rewrite IH.
Qed.
End RefKubeLib.

(** ** The client interface

    [T] is the custom resource of the controller. *)
Inductive kubeE (T : Type) : Type :=
| KGet (key : ObjectKey)
| KUpdate (o : T)
| KStatusUpdate (o : T).
Arguments KGet {T} key.
Arguments KUpdate {T} o.
Arguments KStatusUpdate {T} o.

(** [Update] overwrites the object in place with what the server stored. *)
#[export] Instance kubeE_Effect (T : Type) : Effect (kubeE T) :=
  fun c => match c with
  | KGet _ => fallible T
  | KUpdate _ => fallible T
  | KStatusUpdate _ => option error
  end.
