(* ===== verification/Client.v ===== *)
(** * [internal/technitium/client.go]: the HTTP client

    Every Technitium call is one form POST.  The transport is an interface
    ([httpE]); a response body is the JSON tree it parses to, or [None] when it
    is not JSON.  [decoder]s follow [encoding/json] on the struct types of the
    package: null leaves the zero value, keys match up to case, a value of the
    wrong type is an error. *)

From S2P Require Import Prelude GoStrings GoErrors Effects.

Local Open Scope string_scope.
Local Open Scope Z_scope.
Local Open Scope go_scope.
Local Open Scope prog_scope.

(** ** JSON *)

Inductive json :=
| JNull
| JBool (b : bool)
| JNum (n : option Z)  (** [None]: a number literal that is not an integer *)
| JStr (s : string)
| JArr (l : list json)
| JObj (kvs : list (string * json)).

(** The value of the last key that names the field. *)
Fixpoint field (name : string) (kvs : list (string * json)) : option json :=
  match kvs with
  | [] => None
  | (k, v) :: kvs' =>
      match field name kvs' with
      | Some w => Some w
      | None => if EqualFold k name then Some v else None
      end
  end.

Definition decoder (X : Type) : Type := json -> option X.

Definition dec_string : decoder string :=
  fun j => match j with JStr s => Some s | JNull => Some "" | _ => None end.
Definition dec_bool : decoder bool :=
  fun j => match j with JBool b => Some b | JNull => Some false | _ => None end.
Definition dec_int (lo hi : Z) : decoder Z :=
  fun j => match j with
  | JNum (Some n) => if (lo <=? n) && (n <=? hi) then Some n else None
  | JNull => Some 0
  | _ => None
  end.
Definition dec_int32 : decoder Z := dec_int (- 2 ^ 31) max_int32.
Definition dec_int64 : decoder Z := dec_int min_int max_int.
Definition dec_uint32 : decoder Z := dec_int 0 (2 ^ 32 - 1).

Definition dec_list {X : Type} (d : decoder X) : decoder (list X) :=
  fun j => match j with JArr l => mapM d l | JNull => Some [] | _ => None end.

(** A struct decoder reads its fields from the object; null is the zero value. *)
Definition dec_struct {X : Type} (fields : list (string * json) -> option X) : decoder X :=
  fun j => match j with JObj kvs => fields kvs | JNull => fields [] | _ => None end.

(** One field of a struct: absent means null. *)
Definition get_field {X : Type} (d : decoder X) (name : string) (kvs : list (string * json)) : option X :=
  match field name kvs with Some v => d v | None => d JNull end.

Lemma dec_int_in (lo hi n : Z) : lo <= n <= hi -> dec_int lo hi (JNum (Some n)) = Some n.
Proof.
  intros Hn. unfold dec_int. destruct (Z.leb_spec lo n); [|lia].
  destruct (Z.leb_spec n hi); [done|lia].
Qed.

(** Evaluates the key comparisons of a decoder on an explicit object. *)
Ltac eval_fields := repeat (cbn [field map] in *; match goal with
  | |- context [EqualFold ?a ?b] =>
      let v := eval vm_compute in (EqualFold a b) in change (EqualFold a b) with v
  end; cbn beta iota).

(** ** The transport *)

(** [url.Values]; the package only uses [Set]. *)
Abbreviation Values := (gmap string string).

Inductive http_result :=
| BadRequest (cause : error)        (** [http.NewRequestWithContext] failed *)
| TransportFailed (cause : error)   (** [httpClient.Do] failed *)
| ReadFailed (cause : error)        (** [io.ReadAll] failed *)
| Response (StatusCode : Z) (body : option json).

Inductive httpE : Type := Post (url : string) (authorization : option string) (form : Values).
#[export] Instance httpE_Effect : Effect httpE := fun _ => http_result.

(** ** [Client] *)

Module Client.
Record t := mk {
  baseURL : string;
  httpClient : bool;  (** a client was supplied by [WithHTTPClient] *)
  token : string;
  username : string;
  password : string;
  timeout : Z;
  insecureSkipVerify : bool
}.

Definition with_token (c : t) (tok : string) : t :=
  mk (baseURL c) (httpClient c) tok (username c) (password c) (timeout c) (insecureSkipVerify c).
End Client.

Definition defaultTimeout : Z := 30 * 1000000000.

Definition ClientOption : Type := Client.t -> Client.t.

Definition WithToken (token : string) : ClientOption := fun c => Client.with_token c token.

Definition WithCredentials (username password : string) : ClientOption := fun c =>
  Client.mk (Client.baseURL c) (Client.httpClient c) (Client.token c) username password
    (Client.timeout c) (Client.insecureSkipVerify c).

Definition WithTimeout (d : Z) : ClientOption := fun c =>
  Client.mk (Client.baseURL c) (Client.httpClient c) (Client.token c) (Client.username c)
    (Client.password c) d (Client.insecureSkipVerify c).

Definition WithInsecureSkipVerify (skip : bool) : ClientOption := fun c =>
  Client.mk (Client.baseURL c) (Client.httpClient c) (Client.token c) (Client.username c)
    (Client.password c) (Client.timeout c) skip.

Definition WithHTTPClient : ClientOption := fun c =>
  Client.mk (Client.baseURL c) true (Client.token c) (Client.username c) (Client.password c)
    (Client.timeout c) (Client.insecureSkipVerify c).

Definition NewClient (baseURL : string) (opts : list ClientOption) : fallible Client.t :=
  if baseURL =s? "" then inl (EText "technitium: baseURL is required")
  else
    let c := Client.mk (TrimRightChar baseURL "/"%char) false "" "" "" defaultTimeout false in
    let c := fold_left (fun c opt => opt c) opts c in
    inr (Client.mk (Client.baseURL c) true (Client.token c) (Client.username c) (Client.password c)
           (Client.timeout c) (Client.insecureSkipVerify c)).

Definition Token (c : Client.t) : string := Client.token c.

(** The [status] and [errorMessage] of the response envelope. *)
Definition dec_envelope : decoder (string * string) :=
  dec_struct (fun kvs =>
    s ← get_field dec_string "status" kvs;
    m ← get_field dec_string "errorMessage" kvs;
    Some (s, m)).

Definition doRaw (c : Client.t) (path : string) (params : Values) : prog httpE (fallible json) :=
  r <- call (Post (Client.baseURL c +:+ path)
              (if Client.token c =s? "" then None else Some ("Bearer " +:+ Client.token c)) params) ;;
  match (r : http_result) with
  | BadRequest err => fail (wrapf ("technitium: building request for " +:+ path +:+ " failed") err)
  | TransportFailed err => fail (wrapf ("technitium: request to " +:+ path +:+ " failed") err)
  | ReadFailed err => fail (wrapf ("technitium: reading response from " +:+ path +:+ " failed") err)
  | Response code None => fail (EAPI (APIError.mk "" "" code))
  | Response code (Some body) =>
      match dec_envelope body with
      | None => fail (EAPI (APIError.mk "" "" code))
      | Some (status, message) =>
          match classifyStatus status message with
          | Some err => fail err
          | None => ok body
          end
      end
  end.

(** The decoding error of [encoding/json]. *)
Definition decode_error (prefix path : string) : error :=
  wrapf (prefix +:+ path +:+ " failed") (EText "json: cannot unmarshal").

Definition do {X : Type} (c : Client.t) (path : string) (params : Values) (d : decoder X)
  : prog httpE (fallible X) :=
  r <- doRaw c path params ;;
  match r with
  | inl err => fail err
  | inr body =>
      let payload := match body with
                     | JObj kvs => Some (field "response" kvs)
                     | JNull => Some None
                     | _ => None
                     end in
      match payload with
      | None => fail (decode_error "technitium: decoding response from " path)
      | Some resp =>
          match d (default JNull resp) with
          | Some v => ok v
          | None => fail (decode_error "technitium: decoding response payload from " path)
          end
      end
  end.

(** [do] with a nil [out]. *)
Definition do_ (c : Client.t) (path : string) (params : Values) : prog httpE (option error) :=
  r <- doRaw c path params ;;
  match r with inl err => Ret (Some err) | inr _ => Ret None end.

(** [Login] stores the token it obtains in the client. *)
Definition Login (c : Client.t) : prog httpE (fallible string * Client.t) :=
  if Client.username c =s? "" then
    Ret (inl (EText "technitium: username is required to log in"), c)
  else
    let params := <["pass" := Client.password c]> (<["user" := Client.username c]> (∅ : Values)) in
    r <- doRaw c "/api/user/login" params ;;
    match r with
    | inl err => Ret (inl err, c)
    | inr body =>
        match dec_struct (get_field dec_string "token") body with
        | None => Ret (inl (wrapf "technitium: decoding login response failed"
                              (EText "json: cannot unmarshal")), c)
        | Some tok =>
            if tok =s? "" then Ret (inl (EText "technitium: login response contained no token"), c)
            else Ret (inr tok, Client.with_token c tok)
        end
    end.

(** ** Lemmas *)

(** A call succeeds only on a response whose envelope says ["ok"]. *)
Definition ok_envelope (body : json) : Prop := exists m, dec_envelope body = Some ("ok", m).

Lemma doRaw_ok (c : Client.t) (path : string) (params : Values) :
  always (doRaw c path params) (fun tr r =>
    exists auth form res, tr = [ev (Post (Client.baseURL c +:+ path) auth form) res] /\
      form = params /\ (auth = None <-> Client.token c = "") /\
      match r with
      | inr body => exists code, res = Response code (Some body) /\ ok_envelope body
      | inl _ => True
      end).
Proof.
  unfold always, doRaw. intros res. cbn. destruct res as [err|err|err|code [body|]]; cbn.
  all: try (eexists _, _, _; split; [reflexivity|]; split; [reflexivity|]; split; [|done];
    destruct (String.eqb_spec (Client.token c) ""); by split).
  assert (Ha : (if Client.token c =s? "" then None else Some ("Bearer " +:+ Client.token c)) = None
               <-> Client.token c = "") by (destruct (String.eqb_spec (Client.token c) ""); by split).
  destruct (dec_envelope body) as [[st m]|] eqn:E; cbn.
  - destruct (classifyStatus st m) eqn:Ec; cbn; eexists _, _, _; split_and!; try done.
    apply classifyStatus_nil in Ec. subst. exists code. split; [done|]. by exists m.
  - eexists _, _, _; split_and!; done.
Qed.

(** ** What a call sends: one request, to its path, with the client's token *)

Definition url (c : Client.t) (path : string) : string := Client.baseURL c +:+ path.
Definition bearer (c : Client.t) : option string := Some ("Bearer " +:+ Client.token c).
Definition auth_of (c : Client.t) : option string := if Client.token c =s? "" then None else bearer c.

Lemma doRaw_avoids (P : httpE -> Prop) c path form :
  ~ P (Post (url c path) (auth_of c) form) -> avoids P (doRaw c path form).
Proof.
  intros Hp. unfold doRaw. cbn. split; [exact Hp|]. intros x.
  destruct x as [| | |code [body|]]; cbn; try exact I.
  destruct (dec_envelope body) as [[st m]|]; cbn; [|exact I]. by destruct (classifyStatus st m).
Qed.

Lemma do__avoids (P : httpE -> Prop) c path form :
  ~ P (Post (url c path) (auth_of c) form) -> avoids P (do_ c path form).
Proof. intros Hp. apply avoids_bind; [by apply doRaw_avoids|]. by intros [e|b]. Qed.

Lemma do_avoids {X : Type} (P : httpE -> Prop) c path form (d : decoder X) :
  ~ P (Post (url c path) (auth_of c) form) -> avoids P (do c path form d).
Proof.
  intros Hp. apply avoids_bind; [by apply doRaw_avoids|]. intros [e|[| | | | |kvs]]; cbn; try exact I.
  all: by destruct (d _).
Qed.

Lemma doRaw_at_most (f : httpE -> bool) c path form :
  at_most (if f (Post (url c path) (auth_of c) form) then 1 else 0) f (doRaw c path form).
Proof.
  assert (Hk : forall n (res : http_result), at_most n f (match res with
    | BadRequest err => fail (wrapf ("technitium: building request for " +:+ path +:+ " failed") err)
    | TransportFailed err => fail (wrapf ("technitium: request to " +:+ path +:+ " failed") err)
    | ReadFailed err => fail (wrapf ("technitium: reading response from " +:+ path +:+ " failed") err)
    | Response code None => fail (EAPI (APIError.mk "" "" code))
    | Response code (Some body) =>
        match dec_envelope body with
        | None => fail (EAPI (APIError.mk "" "" code))
        | Some (status, message) =>
            match classifyStatus status message with Some err => fail err | None => ok body end
        end
    end)) by (intros n res; repeat (dmatch; try exact I)).
  unfold doRaw. cbn [bind call at_most]. fold (url c path) (bearer c) (auth_of c).
  destruct (f _); intros x; apply Hk.
Qed.

Lemma do__at_most (f : httpE -> bool) c path form :
  at_most (if f (Post (url c path) (auth_of c) form) then 1 else 0) f (do_ c path form).
Proof.
  apply at_most_bind_quiet; [apply doRaw_at_most|]. by intros [e|b].
Qed.

Lemma do_at_most {X : Type} (f : httpE -> bool) c path form (d : decoder X) :
  at_most (if f (Post (url c path) (auth_of c) form) then 1 else 0) f (do c path form d).
Proof.
  apply at_most_bind_quiet; [apply doRaw_at_most|].
  intros [e|[| | | | |kvs]]; cbn; try exact I. all: by destruct (d _).
Qed.

Lemma url_inj c p q : url c p = url c q -> p = q.
Proof. unfold url. induction (Client.baseURL c) as [|a s IH]; cbn; [done|]. intros [= E]. auto. Qed.

Lemma url_eqb c p q : (url c p =s? url c q) = (p =s? q).
Proof.
  destruct (String.eqb_spec p q) as [->|Hn]; [apply String.eqb_refl|]. apply String.eqb_neq.
  intros E. by apply Hn, (url_inj c).
Qed.
