(* ===== verification/ZonesAPI.v ===== *)
(** * [internal/technitium/zones.go] and [dnssec.go]: zone requests *)

From S2P Require Import Prelude GoStrings GoErrors Effects Client.

Local Open Scope string_scope.
Local Open Scope Z_scope.
Local Open Scope go_scope.
Local Open Scope prog_scope.

(** A parameter set only when the string is not empty, or the pointer not nil. *)
Definition set_nonempty (key v : string) (params : Values) : Values :=
  if v =s? "" then params else <[key := v]> params.
Definition set_opt {X : Type} (key : string) (f : X -> string) (v : option X) (params : Values) : Values :=
  match v with Some x => <[key := f x]> params | None => params end.

Definition listPageSize : Z := 250.

Module CreateZoneOptions.
Record t := mk {
  Zone : string;
  Type_ : string;
  Catalog : string;
  Forwarder : string;
  Protocol : string;
  PrimaryNameServerAddresses : list string;
  DNSSECValidation : option bool;
  ProxyType : string;
  ProxyAddress : string;
  ProxyPort : option Z;
  ProxyUsername : string;
  ProxyPassword : string
}.
#[export] Instance t_eq_dec : EqDecision t.
Proof. solve_decision. Defined.
End CreateZoneOptions.
#[export] Existing Instance CreateZoneOptions.t_eq_dec.

Module ZoneOptionsUpdate.
Record t := mk { Catalog : option string; Disabled : option bool; DNSSECValidation : option bool }.
#[export] Instance t_eq_dec : EqDecision t.
Proof. solve_decision. Defined.
End ZoneOptionsUpdate.
#[export] Existing Instance ZoneOptionsUpdate.t_eq_dec.

(** [LastModified] is the Unix time of the parsed timestamp. *)
Module ZoneInfo.
Record t := mk {
  Name : string;
  Type_ : string;
  Internal : bool;
  DNSSECStatus : string;
  SOASerial : Z;
  LastModified : Z;
  Disabled : bool
}.
End ZoneInfo.

Module ZoneOptions.
Record t := mk {
  Name : string;
  Type_ : string;
  Internal : bool;
  DNSSECStatus : string;
  Disabled : bool;
  Catalog : string;
  DnssecValidation : bool
}.
#[export] Instance t_eq_dec : EqDecision t.
Proof. solve_decision. Defined.

Definition decode : decoder t := dec_struct (fun kvs =>
  name ← get_field dec_string "name" kvs;
  type ← get_field dec_string "type" kvs;
  internal ← get_field dec_bool "internal" kvs;
  dnssec ← get_field dec_string "dnssecStatus" kvs;
  disabled ← get_field dec_bool "disabled" kvs;
  catalog ← get_field dec_string "catalog" kvs;
  validation ← get_field dec_bool "dnssecValidation" kvs;
  Some (mk name type internal dnssec disabled catalog validation)).
End ZoneOptions.
#[export] Existing Instance ZoneOptions.t_eq_dec.

Definition zoneParams (zone : string) : fallible Values :=
  if zone =s? "" then inl (EText "technitium: zone name is required")
  else inr (<["zone" := zone]> ∅).

Definition CreateZone (c : Client.t) (opts : CreateZoneOptions.t) : prog httpE (option error) :=
  match zoneParams (CreateZoneOptions.Zone opts) with
  | inl err => Ret (Some err)
  | inr params =>
      let params := set_nonempty "type" (CreateZoneOptions.Type_ opts) params in
      let params := set_nonempty "catalog" (CreateZoneOptions.Catalog opts) params in
      let params := set_nonempty "forwarder" (CreateZoneOptions.Forwarder opts) params in
      let params := set_nonempty "protocol" (CreateZoneOptions.Protocol opts) params in
      let params := match CreateZoneOptions.PrimaryNameServerAddresses opts with
                    | [] => params
                    | l => <["primaryNameServerAddresses" := Join l ","]> params
                    end in
      let params := set_opt "dnssecValidation" FormatBool (CreateZoneOptions.DNSSECValidation opts) params in
      let params := set_nonempty "proxyType" (CreateZoneOptions.ProxyType opts) params in
      let params := set_nonempty "proxyAddress" (CreateZoneOptions.ProxyAddress opts) params in
      let params := set_opt "proxyPort" Itoa (CreateZoneOptions.ProxyPort opts) params in
      let params := set_nonempty "proxyUsername" (CreateZoneOptions.ProxyUsername opts) params in
      let params := set_nonempty "proxyPassword" (CreateZoneOptions.ProxyPassword opts) params in
      do_ c "/api/zones/create" params
  end.

Definition DeleteZone (c : Client.t) (zone : string) : prog httpE (option error) :=
  match zoneParams zone with
  | inl err => Ret (Some err)
  | inr params => do_ c "/api/zones/delete" params
  end.

Definition GetZoneOptions (c : Client.t) (zone : string) : prog httpE (fallible ZoneOptions.t) :=
  match zoneParams zone with
  | inl err => fail err
  | inr params => do c "/api/zones/options/get" params ZoneOptions.decode
  end.

Definition SetZoneOptions (c : Client.t) (zone : string) (opts : ZoneOptionsUpdate.t)
  : prog httpE (option error) :=
  match zoneParams zone with
  | inl err => Ret (Some err)
  | inr params =>
      let params := set_opt "catalog" id (ZoneOptionsUpdate.Catalog opts) params in
      let params := set_opt "disabled" FormatBool (ZoneOptionsUpdate.Disabled opts) params in
      let params := set_opt "dnssecValidation" FormatBool (ZoneOptionsUpdate.DNSSECValidation opts) params in
      do_ c "/api/zones/options/set" params
  end.

(** ** DNSSEC *)

Module SignZoneOptions.
Record t := mk {
  Zone : string;
  Algorithm : string;
  HashAlgorithm : option string;
  KSKKeySize : option Z;
  ZSKKeySize : option Z;
  Curve : option string;
  NxProof : option string;
  Iterations : option Z;
  SaltLength : option Z;
  DNSKeyTTL : option Z;
  ZSKRolloverDays : option Z
}.
#[export] Instance t_eq_dec : EqDecision t.
Proof. solve_decision. Defined.
End SignZoneOptions.
#[export] Existing Instance SignZoneOptions.t_eq_dec.

Module DNSSECProperties.
Record t := mk { Name : string; DNSSECStatus : string; DNSKeyTTL : Z }.
Definition decode : decoder t := dec_struct (fun kvs =>
  name ← get_field dec_string "name" kvs;
  status ← get_field dec_string "dnssecStatus" kvs;
  ttl ← get_field dec_int32 "dnsKeyTtl" kvs;
  Some (mk name status ttl)).
End DNSSECProperties.

Definition DNSSECStatusUnsigned : string := "Unsigned".
Definition DNSSECStatusSignedWithNSEC : string := "SignedWithNSEC".
Definition DNSSECStatusSignedWithNSEC3 : string := "SignedWithNSEC3".

Definition SignZone (c : Client.t) (opts : SignZoneOptions.t) : prog httpE (option error) :=
  match zoneParams (SignZoneOptions.Zone opts) with
  | inl err => Ret (Some err)
  | inr params =>
      if SignZoneOptions.Algorithm opts =s? "" then Ret (Some (EText "technitium: algorithm is required"))
      else
        let params := <["algorithm" := SignZoneOptions.Algorithm opts]> params in
        let params := set_opt "hashAlgorithm" id (SignZoneOptions.HashAlgorithm opts) params in
        let params := set_opt "kskKeySize" Itoa (SignZoneOptions.KSKKeySize opts) params in
        let params := set_opt "zskKeySize" Itoa (SignZoneOptions.ZSKKeySize opts) params in
        let params := set_opt "curve" id (SignZoneOptions.Curve opts) params in
        let params := set_opt "nxProof" id (SignZoneOptions.NxProof opts) params in
        let params := set_opt "iterations" Itoa (SignZoneOptions.Iterations opts) params in
        let params := set_opt "saltLength" Itoa (SignZoneOptions.SaltLength opts) params in
        let params := set_opt "dnsKeyTtl" Itoa (SignZoneOptions.DNSKeyTTL opts) params in
        let params := set_opt "zskRolloverDays" Itoa (SignZoneOptions.ZSKRolloverDays opts) params in
        do_ c "/api/zones/dnssec/sign" params
  end.

Definition UnsignZone (c : Client.t) (zone : string) : prog httpE (option error) :=
  match zoneParams zone with
  | inl err => Ret (Some err)
  | inr params => do_ c "/api/zones/dnssec/unsign" params
  end.

Definition GetDNSSECProperties (c : Client.t) (zone : string) : prog httpE (fallible DNSSECProperties.t) :=
  match zoneParams zone with
  | inl err => fail err
  | inr params => do c "/api/zones/dnssec/properties/get" params DNSSECProperties.decode
  end.

(** ** Zone listing

    [parse_time] is [time.Time]'s [UnmarshalJSON]. *)
Section listing.
Context (parse_time : decoder Z).

Definition dec_ZoneInfo : decoder ZoneInfo.t := dec_struct (fun kvs =>
  name ← get_field dec_string "name" kvs;
  type ← get_field dec_string "type" kvs;
  internal ← get_field dec_bool "internal" kvs;
  dnssec ← get_field dec_string "dnssecStatus" kvs;
  serial ← get_field dec_uint32 "soaSerial" kvs;
  modified ← get_field parse_time "lastModified" kvs;
  disabled ← get_field dec_bool "disabled" kvs;
  Some (ZoneInfo.mk name type internal dnssec serial modified disabled)).

(** [PageNumber], [TotalPages] and [Zones] of one page. *)
Definition dec_page : decoder (Z * Z * list ZoneInfo.t) := dec_struct (fun kvs =>
  page ← get_field dec_int64 "pageNumber" kvs;
  total ← get_field dec_int64 "totalPages" kvs;
  _ ← get_field dec_int64 "totalZones" kvs;
  zones ← get_field (dec_list dec_ZoneInfo) "zones" kvs;
  Some (page, total, zones)).

Definition page_params (page : Z) : Values :=
  <["zonesPerPage" := Itoa listPageSize]> (<["pageNumber" := Itoa page]> (∅ : Values)).

(** The loop; [None] when [fuel] pages were not enough. *)
Fixpoint ListZones_loop (c : Client.t) (fuel : nat) (page : Z) (all : list ZoneInfo.t)
  : prog httpE (option (fallible (list ZoneInfo.t))) :=
  match fuel with
  | O => Ret None
  | S fuel =>
      r <- do c "/api/zones/list" (page_params page) dec_page ;;
      match r with
      | inl err => Ret (Some (inl err))
      | inr (pageNumber, totalPages, zones) =>
          let all := (all ++ zones)%list in
          if (length zones =? 0)%nat || (totalPages <=? pageNumber) then Ret (Some (inr all))
          else ListZones_loop c fuel (page + 1) all
      end
  end.

Definition ListZones (c : Client.t) (fuel : nat) : prog httpE (option (fallible (list ZoneInfo.t))) :=
  ListZones_loop c fuel 1 [].
End listing.

(** ** Listing against a server that paginates

    [render_time] is how the server writes a timestamp. *)
Section paginated.
Context (parse_time : decoder Z) (render_time : Z -> json).
Context (parse_render : forall t, parse_time (render_time t) = Some t).

Definition render_zone (z : ZoneInfo.t) : json := JObj [
  ("name", JStr (ZoneInfo.Name z)); ("type", JStr (ZoneInfo.Type_ z));
  ("internal", JBool (ZoneInfo.Internal z)); ("dnssecStatus", JStr (ZoneInfo.DNSSECStatus z));
  ("soaSerial", JNum (Some (ZoneInfo.SOASerial z))); ("lastModified", render_time (ZoneInfo.LastModified z));
  ("disabled", JBool (ZoneInfo.Disabled z))].

Definition total_pages (zones : list ZoneInfo.t) : nat :=
  (length zones + Z.to_nat listPageSize - 1) / Z.to_nat listPageSize.

Definition page_of (zones : list ZoneInfo.t) (page : nat) : list ZoneInfo.t :=
  take (Z.to_nat listPageSize) (drop ((page - 1) * Z.to_nat listPageSize) zones).

Definition render_page (zones : list ZoneInfo.t) (page : nat) : json := JObj [
  ("status", JStr "ok");
  ("response", JObj [
    ("pageNumber", JNum (Some (Z.of_nat page)));
    ("totalPages", JNum (Some (Z.of_nat (total_pages zones))));
    ("totalZones", JNum (Some (Z.of_nat (length zones))));
    ("zones", JArr (map render_zone (page_of zones page)))])].

(** [h] answers the list endpoint with the requested page of [zones]. *)
Definition serves {S : Type} (h : forall a : httpE, S -> answer a * S) (c : Client.t)
    (zones : list ZoneInfo.t) : Prop :=
  forall auth page s, (1 <= page <= total_pages zones + 1)%nat ->
    exists code s', h (Post (Client.baseURL c +:+ "/api/zones/list") auth (page_params (Z.of_nat page))) s
      = (Response code (Some (render_page zones page)), s').

Definition zone_wf (z : ZoneInfo.t) : Prop := 0 <= ZoneInfo.SOASerial z <= 2 ^ 32 - 1.

Lemma dec_render_zone (z : ZoneInfo.t) : zone_wf z -> dec_ZoneInfo parse_time (render_zone z) = Some z.
Proof.
  intros Hz. destruct z as [n t i d so lm dis]. unfold zone_wf in Hz. cbn in Hz.
  unfold dec_ZoneInfo, render_zone, dec_struct, get_field, dec_uint32. eval_fields. cbn -[dec_int].
  rewrite parse_render.
  rewrite dec_int_in; [done|exact Hz].
Qed.

Lemma dec_render_zones (zs : list ZoneInfo.t) :
  Forall zone_wf zs -> mapM (dec_ZoneInfo parse_time) (map render_zone zs) = Some zs.
Proof.
  intros Hwf. apply mapM_Some. induction Hwf; constructor; [by apply dec_render_zone|done].
Qed.

Lemma dec_render_page (zones : list ZoneInfo.t) (page : nat) :
  Forall zone_wf zones -> Z.of_nat page <= max_int -> Z.of_nat (total_pages zones) <= max_int ->
  Z.of_nat (length zones) <= max_int ->
  dec_envelope (render_page zones page) = Some ("ok", "") /\
  exists resp, render_page zones page = JObj [("status", JStr "ok"); ("response", resp)] /\
    dec_page parse_time resp
    = Some (Z.of_nat page, Z.of_nat (total_pages zones), page_of zones page).
Proof.
  intros Hwf Hp Ht Hl. split; [done|]. eexists. split; [reflexivity|].
  assert (Hint : forall n, 0 <= n -> n <= max_int -> dec_int64 (JNum (Some n)) = Some n).
  { intros n H1 H2. apply dec_int_in. unfold min_int. lia. }
  unfold dec_page, dec_struct, get_field. eval_fields. cbn -[dec_int64 mapM].
  rewrite !Hint by lia. cbn -[mapM]. rewrite dec_render_zones; [done|].
  unfold page_of. apply Forall_take, Forall_drop, Hwf.
Qed.

Lemma do_page {S : Type} (h : forall a : httpE, S -> answer a * S) (c : Client.t)
    (zones : list ZoneInfo.t) (page : nat) (s : S) :
  serves h c zones -> (1 <= page <= total_pages zones + 1)%nat -> Forall zone_wf zones ->
  Z.of_nat page <= max_int -> Z.of_nat (total_pages zones) <= max_int ->
  Z.of_nat (length zones) <= max_int ->
  exists s', run h (do c "/api/zones/list" (page_params (Z.of_nat page)) (dec_page parse_time)) s
    = (inr (Z.of_nat page, Z.of_nat (total_pages zones), page_of zones page), s').
Proof.
  intros Hs Hp Hwf H1 H2 H3.
  destruct (dec_render_page zones page Hwf H1 H2 H3) as (He & resp & Hr & Hd).
  unfold do, doRaw. cbn [bind call run].
  destruct (Hs (if Client.token c =s? "" then None else Some ("Bearer " +:+ Client.token c)) page s Hp)
    as (code & s' & Hh).
  exists s'. rewrite Hr in Hh, He. cbn [run call bind]. rewrite Hh, He. cbn.
  eval_fields. cbn. by rewrite Hd.
Qed.

Lemma page_of_nil (zones : list ZoneInfo.t) (page : nat) :
  (1 <= page)%nat -> (total_pages zones <= page)%nat ->
  drop (page * Z.to_nat listPageSize) zones = [].
Proof.
  unfold total_pages, listPageSize. intros Hp Ht. apply drop_ge.
  change (Z.to_nat 250) with 250%nat in *.
  pose proof (Nat.div_mod (length zones + 250 - 1) 250 ltac:(lia)).
  pose proof (Nat.mod_upper_bound (length zones + 250 - 1) 250 ltac:(lia)). nia.
Qed.

Lemma page_of_full (zones : list ZoneInfo.t) (page : nat) :
  (1 <= page)%nat -> (page < total_pages zones)%nat -> page_of zones page <> [].
Proof.
  unfold total_pages, page_of, listPageSize. intros Hp Ht Hn.
  change (Z.to_nat 250) with 250%nat in *.
  apply (f_equal length) in Hn. rewrite length_take, length_drop in Hn.
  change (length []) with 0%nat in Hn.
  pose proof (Nat.div_mod (length zones + 250 - 1) 250 ltac:(lia)).
  pose proof (Nat.mod_upper_bound (length zones + 250 - 1) 250 ltac:(lia)). nia.
Qed.

Lemma ListZones_loop_collects {S : Type} (h : forall a : httpE, S -> answer a * S) (c : Client.t)
    (zones : list ZoneInfo.t) :
  serves h c zones -> Forall zone_wf zones ->
  Z.of_nat (total_pages zones) < max_int -> Z.of_nat (length zones) <= max_int ->
  forall fuel page s, (1 <= page)%nat -> (page <= total_pages zones + 1)%nat ->
    (total_pages zones + 1 < fuel + page)%nat ->
    (run h (ListZones_loop parse_time c fuel (Z.of_nat page)
             (take ((page - 1) * Z.to_nat listPageSize) zones)) s).1 = Some (inr zones).
Proof.
  intros Hs Hwf Ht Hl. induction fuel as [|fuel IH]; intros page s Hp Hle Hf; [lia|].
  cbn [ListZones_loop]. rewrite run_bind.
  destruct (do_page h c zones page s Hs (conj Hp Hle) Hwf ltac:(lia) ltac:(lia) Hl) as [s' Hd].
  rewrite Hd. cbn [fst snd].
  assert (Happ : (take ((page - 1) * Z.to_nat listPageSize) zones ++ page_of zones page)%list
                 = take (page * Z.to_nat listPageSize) zones).
  { unfold page_of. rewrite take_take_drop. f_equal. nia. }
  rewrite Happ.
  destruct (decide (page < total_pages zones)%nat) as [Hlt|Hge].
  - replace ((length (page_of zones page) =? 0)%nat
             || (Z.of_nat (total_pages zones) <=? Z.of_nat page)) with false.
    2:{ symmetry. apply orb_false_iff. split; [|lia].
        apply Nat.eqb_neq. intros H0. by apply (page_of_full zones page Hp Hlt), length_zero_iff_nil. }
    specialize (IH (page + 1)%nat s' ltac:(lia) ltac:(lia) ltac:(lia)).
    replace (page + 1 - 1)%nat with page in IH by lia.
    rewrite Nat2Z.inj_add in IH. exact IH.
  - replace ((length (page_of zones page) =? 0)%nat
             || (Z.of_nat (total_pages zones) <=? Z.of_nat page)) with true.
    2:{ symmetry. apply orb_true_iff. right. lia. }
    cbn. do 2 f_equal.
    rewrite <- (take_drop (page * Z.to_nat listPageSize) zones) at 2.
    rewrite page_of_nil by lia. by rewrite app_nil_r.
Qed.
End paginated.

(** C37: Listing zones collects every zone.  Against a server that answers page
    [p] of the list endpoint with the [p]-th chunk of its zones, [ListZones]
    terminates (one request more than the number of pages is fuel enough) and
    returns exactly the server's zones, in order, whatever their number. *)
Theorem ListZones_complete {S : Type} (parse_time : decoder Z) (render_time : Z -> json)
    (h : forall a : httpE, S -> answer a * S) (c : Client.t) (zones : list ZoneInfo.t)
    (fuel : nat) (s : S) :
  (forall t, parse_time (render_time t) = Some t) ->
  serves render_time h c zones ->
  Forall zone_wf zones ->
  Z.of_nat (total_pages zones) < max_int -> Z.of_nat (length zones) <= max_int ->
  (total_pages zones < fuel)%nat ->
  (run h (ListZones parse_time c fuel) s).1 = Some (inr zones).
Proof.
  intros Hpr Hs Hwf Ht Hl Hf.
  exact (ListZones_loop_collects parse_time render_time Hpr h c zones Hs Hwf Ht Hl fuel 1 s
           ltac:(lia) ltac:(lia) ltac:(lia)).
Qed.

Definition example_time : decoder Z := fun j => match j with JNum (Some n) => Some n | _ => None end.
Definition example_client : Client.t := Client.mk "http://dns" true "tok" "" "" defaultTimeout false.
Definition example_zones : list ZoneInfo.t :=
  map (fun i => ZoneInfo.mk ("z" +:+ Itoa (Z.of_nat i)) "Primary" false "Unsigned" 1 0 false) (seq 0 251).
(** A server with those zones. *)
Definition example_server (a : httpE) (s : unit) : http_result * unit :=
  match a with
  | Post _ _ form =>
      (Response 200 (Some (render_page (fun t => JNum (Some t)) example_zones
         (Z.to_nat (default 1 (form !! "pageNumber" ≫= Atoi))))), s)
  end.

Example ListZones_complete_witness :
  (run example_server (ListZones example_time example_client 3) tt).1 = Some (inr example_zones).
Proof.
  apply (ListZones_complete example_time (fun t => JNum (Some t))).
  - reflexivity.
  - intros auth page s Hp. exists 200, s. unfold example_server. cbv beta iota.
    replace (page_params (Z.of_nat page) !! "pageNumber" ≫= Atoi) with (Some (Z.of_nat page)).
    + change (default 1 (Some (Z.of_nat page))) with (Z.of_nat page). by rewrite Nat2Z.id.
    + unfold page_params. rewrite lookup_insert_ne by done. rewrite lookup_insert_eq. cbn [mbind option_bind].
      rewrite Atoi_Itoa; [done|]. assert (Hn : total_pages example_zones = 2%nat) by (vm_compute; reflexivity).
      rewrite Hn in Hp. unfold max_int. lia.
  - apply Forall_fmap, Forall_true. intros i. unfold zone_wf. cbn. lia.
  - vm_compute. reflexivity.
  - vm_compute. discriminate.
  - vm_compute. lia.
Defined.
