(* ===== verification/RecordsAPI.v ===== *)
(** * [internal/technitium/records.go]: record requests *)

From S2P Require Import Prelude GoStrings GoErrors Effects Client ZonesAPI.

Local Open Scope string_scope.
Local Open Scope Z_scope.
Local Open Scope go_scope.
Local Open Scope prog_scope.

Module RecordValue.
Record t := mk {
  IPAddress : string;
  CName : string;
  Text : string;
  NameServer : string;
  PtrName : string;
  Exchange : string;
  Preference : option Z
}.
#[export] Instance t_eq_dec : EqDecision t.
Proof. solve_decision. Defined.
Definition empty : t := mk "" "" "" "" "" "" None.
End RecordValue.
#[export] Existing Instance RecordValue.t_eq_dec.

Module AddRecordOptions.
Record t := mk { Zone : string; Domain : string; Type_ : string; TTL : option Z; Value : RecordValue.t }.
#[export] Instance t_eq_dec : EqDecision t.
Proof. solve_decision. Defined.
End AddRecordOptions.
#[export] Existing Instance AddRecordOptions.t_eq_dec.

Module UpdateRecordOptions.
Record t := mk { Zone : string; Domain : string; Type_ : string; TTL : Z; Value : RecordValue.t }.
#[export] Instance t_eq_dec : EqDecision t.
Proof. solve_decision. Defined.
End UpdateRecordOptions.
#[export] Existing Instance UpdateRecordOptions.t_eq_dec.

Module DeleteRecordOptions.
Record t := mk { Zone : string; Domain : string; Type_ : string; Value : RecordValue.t }.
#[export] Instance t_eq_dec : EqDecision t.
Proof. solve_decision. Defined.
End DeleteRecordOptions.
#[export] Existing Instance DeleteRecordOptions.t_eq_dec.

Module RecordData.
Record t := mk {
  IPAddress : string;
  CName : string;
  Text : string;
  NameServer : string;
  PtrName : string;
  Exchange : string;
  Preference : Z
}.
#[export] Instance t_eq_dec : EqDecision t.
Proof. solve_decision. Defined.

Definition decode : decoder t := dec_struct (fun kvs =>
  ip ← get_field dec_string "ipAddress" kvs;
  cname ← get_field dec_string "cname" kvs;
  text ← get_field dec_string "text" kvs;
  ns ← get_field dec_string "nameServer" kvs;
  ptr ← get_field dec_string "ptrName" kvs;
  exchange ← get_field dec_string "exchange" kvs;
  preference ← get_field dec_int32 "preference" kvs;
  Some (mk ip cname text ns ptr exchange preference)).
End RecordData.
#[export] Existing Instance RecordData.t_eq_dec.

Module Record_.
Record t := mk { Name : string; Type_ : string; TTL : Z; Disabled : bool; RData : RecordData.t }.
#[export] Instance t_eq_dec : EqDecision t.
Proof. solve_decision. Defined.

Definition decode : decoder t := dec_struct (fun kvs =>
  name ← get_field dec_string "name" kvs;
  type ← get_field dec_string "type" kvs;
  ttl ← get_field dec_int32 "ttl" kvs;
  disabled ← get_field dec_bool "disabled" kvs;
  rdata ← get_field RecordData.decode "rData" kvs;
  Some (mk name type ttl disabled rdata)).
End Record_.
#[export] Existing Instance Record_.t_eq_dec.

Definition setRecordValueParams (params : Values) (recordType : string) (v : RecordValue.t)
  : fallible Values :=
  let need (field key value : string) : fallible Values :=
    if value =s? "" then
      inl (EText ("technitium: " +:+ field +:+ " is required for " +:+ recordType +:+ " records"))
    else inr (<[key := value]> params) in
  if (recordType =s? "A") || (recordType =s? "AAAA") then
    need "ipAddress" "ipAddress" (RecordValue.IPAddress v)
  else if recordType =s? "CNAME" then need "cname" "cname" (RecordValue.CName v)
  else if recordType =s? "TXT" then need "text" "text" (RecordValue.Text v)
  else if recordType =s? "NS" then need "nameServer" "nameServer" (RecordValue.NameServer v)
  else if recordType =s? "PTR" then need "ptrName" "ptrName" (RecordValue.PtrName v)
  else if recordType =s? "MX" then
    match need "exchange" "exchange" (RecordValue.Exchange v) with
    | inl err => inl err
    | inr params => inr (set_opt "preference" Itoa (RecordValue.Preference v) params)
    end
  else inl (EText ("technitium: unsupported record type " +:+ quoted recordType)).

Definition recordParams (zone domain recordType : string) : fallible Values :=
  if domain =s? "" then inl (EText "technitium: domain is required")
  else if recordType =s? "" then inl (EText "technitium: type is required")
  else
    let params := set_nonempty "zone" zone ∅ in
    inr (<["type" := recordType]> (<["domain" := domain]> params)).

Definition AddRecord (c : Client.t) (opts : AddRecordOptions.t) : prog httpE (option error) :=
  match recordParams (AddRecordOptions.Zone opts) (AddRecordOptions.Domain opts) (AddRecordOptions.Type_ opts) with
  | inl err => Ret (Some err)
  | inr params =>
      let params := set_opt "ttl" Itoa (AddRecordOptions.TTL opts) params in
      match setRecordValueParams params (AddRecordOptions.Type_ opts) (AddRecordOptions.Value opts) with
      | inl err => Ret (Some err)
      | inr params => do_ c "/api/zones/records/add" params
      end
  end.

Definition GetRecords (c : Client.t) (zone domain : string) : prog httpE (fallible (list Record_.t)) :=
  if domain =s? "" then fail (EText "technitium: domain is required")
  else
    let params := set_nonempty "zone" zone ∅ in
    let params := <["domain" := domain]> params in
    let params := <["listZone" := "false"]> params in
    do c "/api/zones/records/get" params
      (dec_struct (get_field (dec_list Record_.decode) "records")).

Definition UpdateRecord (c : Client.t) (opts : UpdateRecordOptions.t) : prog httpE (option error) :=
  match recordParams (UpdateRecordOptions.Zone opts) (UpdateRecordOptions.Domain opts) (UpdateRecordOptions.Type_ opts) with
  | inl err => Ret (Some err)
  | inr params =>
      let params := <["ttl" := Itoa (UpdateRecordOptions.TTL opts)]> params in
      match setRecordValueParams params (UpdateRecordOptions.Type_ opts) (UpdateRecordOptions.Value opts) with
      | inl err => Ret (Some err)
      | inr params => do_ c "/api/zones/records/update" params
      end
  end.

Definition DeleteRecord (c : Client.t) (opts : DeleteRecordOptions.t) : prog httpE (option error) :=
  match recordParams (DeleteRecordOptions.Zone opts) (DeleteRecordOptions.Domain opts) (DeleteRecordOptions.Type_ opts) with
  | inl err => Ret (Some err)
  | inr params =>
      match setRecordValueParams params (DeleteRecordOptions.Type_ opts) (DeleteRecordOptions.Value opts) with
      | inl err => Ret (Some err)
      | inr params => do_ c "/api/zones/records/delete" params
      end
  end.
