(* ===== verification/ServerAPI.v ===== *)
(** * The other requests of [internal/technitium]

    [settings.go], [blocklist.go], [apps.go], [user.go] and [stats.go]. *)

From S2P Require Import Prelude GoStrings GoErrors Effects Client ZonesAPI.

Local Open Scope string_scope.
Local Open Scope Z_scope.
Local Open Scope go_scope.
Local Open Scope prog_scope.

(** ** Settings *)

Module DNSSettings.
Record t := mk {
  Forwarders : list string;
  ForwarderProtocol : string;
  Recursion : string;
  RecursionNetworkACL : list string;
  ServeStale : bool;
  ServeStaleTTL : Z;
  CacheMaximumRecordTTL : Z;
  CacheMinimumRecordTTL : Z;
  EnableLogging : bool;
  LogQueries : bool;
  UseLocalTime : bool;
  MaxLogFileDays : Z;
  EnableBlocking : bool;
  BlockingType : string;
  BlockListURLs : list string;
  BlockListUpdateIntervalHours : Z
}.
#[export] Instance t_eq_dec : EqDecision t.
Proof. solve_decision. Defined.

Definition decode : decoder t := dec_struct (fun kvs =>
  forwarders ← get_field (dec_list dec_string) "forwarders" kvs;
  protocol ← get_field dec_string "forwarderProtocol" kvs;
  recursion ← get_field dec_string "recursion" kvs;
  acl ← get_field (dec_list dec_string) "recursionNetworkACL" kvs;
  stale ← get_field dec_bool "serveStale" kvs;
  staleTtl ← get_field dec_int32 "serveStaleTtl" kvs;
  maxTtl ← get_field dec_int32 "cacheMaximumRecordTtl" kvs;
  minTtl ← get_field dec_int32 "cacheMinimumRecordTtl" kvs;
  logging ← get_field dec_bool "enableLogging" kvs;
  queries ← get_field dec_bool "logQueries" kvs;
  localTime ← get_field dec_bool "useLocalTime" kvs;
  days ← get_field dec_int32 "maxLogFileDays" kvs;
  blocking ← get_field dec_bool "enableBlocking" kvs;
  blockingType ← get_field dec_string "blockingType" kvs;
  urls ← get_field (dec_list dec_string) "blockListUrls" kvs;
  hours ← get_field dec_int32 "blockListUpdateIntervalHours" kvs;
  Some (mk forwarders protocol recursion acl stale staleTtl maxTtl minTtl logging queries
           localTime days blocking blockingType urls hours)).
End DNSSettings.
#[export] Existing Instance DNSSettings.t_eq_dec.

Module SetDNSSettingsOptions.
Record t := mk {
  Forwarders : option (list string);
  ForwarderProtocol : option string;
  Recursion : option string;
  RecursionNetworkACL : option (list string);
  ServeStale : option bool;
  ServeStaleTTL : option Z;
  CacheMaximumRecordTTL : option Z;
  CacheMinimumRecordTTL : option Z;
  EnableLogging : option bool;
  LogQueries : option bool;
  UseLocalTime : option bool;
  MaxLogFileDays : option Z;
  EnableBlocking : option bool;
  BlockingType : option string;
  BlockListURLs : option (list string);
  BlockListUpdateIntervalHours : option Z
}.
#[export] Instance t_eq_dec : EqDecision t.
Proof. solve_decision. Defined.
Definition empty : t :=
  mk None None None None None None None None None None None None None None None None.
End SetDNSSettingsOptions.
#[export] Existing Instance SetDNSSettingsOptions.t_eq_dec.

Definition GetDNSSettings (c : Client.t) : prog httpE (fallible DNSSettings.t) :=
  do c "/api/settings/get" ∅ DNSSettings.decode.

(** The parameters [SetDNSSettings] sends; an empty list is cleared with
    "false". *)
Definition settings_params (opts : SetDNSSettingsOptions.t) : Values :=
  let setList (key : string) (v : option (list string)) (params : Values) :=
    match v with
    | None => params
    | Some [] => <[key := "false"]> params
    | Some l => <[key := Join l ","]> params
    end in
  let params : Values := ∅ in
  let params := setList "forwarders" (SetDNSSettingsOptions.Forwarders opts) params in
  let params := set_opt "forwarderProtocol" id (SetDNSSettingsOptions.ForwarderProtocol opts) params in
  let params := set_opt "recursion" id (SetDNSSettingsOptions.Recursion opts) params in
  let params := setList "recursionNetworkACL" (SetDNSSettingsOptions.RecursionNetworkACL opts) params in
  let params := set_opt "serveStale" FormatBool (SetDNSSettingsOptions.ServeStale opts) params in
  let params := set_opt "serveStaleTtl" Itoa (SetDNSSettingsOptions.ServeStaleTTL opts) params in
  let params := set_opt "cacheMaximumRecordTtl" Itoa (SetDNSSettingsOptions.CacheMaximumRecordTTL opts) params in
  let params := set_opt "cacheMinimumRecordTtl" Itoa (SetDNSSettingsOptions.CacheMinimumRecordTTL opts) params in
  let params := set_opt "enableLogging" FormatBool (SetDNSSettingsOptions.EnableLogging opts) params in
  let params := set_opt "logQueries" FormatBool (SetDNSSettingsOptions.LogQueries opts) params in
  let params := set_opt "useLocalTime" FormatBool (SetDNSSettingsOptions.UseLocalTime opts) params in
  let params := set_opt "maxLogFileDays" Itoa (SetDNSSettingsOptions.MaxLogFileDays opts) params in
  let params := set_opt "enableBlocking" FormatBool (SetDNSSettingsOptions.EnableBlocking opts) params in
  let params := set_opt "blockingType" id (SetDNSSettingsOptions.BlockingType opts) params in
  let params := setList "blockListUrls" (SetDNSSettingsOptions.BlockListURLs opts) params in
  set_opt "blockListUpdateIntervalHours" Itoa (SetDNSSettingsOptions.BlockListUpdateIntervalHours opts) params.

Definition SetDNSSettings (c : Client.t) (opts : SetDNSSettingsOptions.t) : prog httpE (option error) :=
  do_ c "/api/settings/set" (settings_params opts).

Definition ForceUpdateBlockLists (c : Client.t) : prog httpE (option error) :=
  do_ c "/api/settings/forceUpdateBlockLists" ∅.

(** ** Allowed and blocked zones *)

Definition domainParams (domain : string) : fallible Values :=
  if domain =s? "" then inl (EText "technitium: domain is required")
  else inr (<["domain" := domain]> ∅).

Definition AddAllowedZone (c : Client.t) (domain : string) : prog httpE (option error) :=
  match domainParams domain with
  | inl err => Ret (Some err)
  | inr params => do_ c "/api/allowed/add" params
  end.

Definition DeleteAllowedZone (c : Client.t) (domain : string) : prog httpE (option error) :=
  match domainParams domain with
  | inl err => Ret (Some err)
  | inr params => do_ c "/api/allowed/delete" params
  end.

Definition AddBlockedZone (c : Client.t) (domain : string) : prog httpE (option error) :=
  match domainParams domain with
  | inl err => Ret (Some err)
  | inr params => do_ c "/api/blocked/add" params
  end.

Definition DeleteBlockedZone (c : Client.t) (domain : string) : prog httpE (option error) :=
  match domainParams domain with
  | inl err => Ret (Some err)
  | inr params => do_ c "/api/blocked/delete" params
  end.

(** ** DNS apps *)

Module DNSAppInfo.
Record t := mk { Name : string; Version : string }.
#[export] Instance t_eq_dec : EqDecision t.
Proof. solve_decision. Defined.
Definition decode : decoder t := dec_struct (fun kvs =>
  name ← get_field dec_string "name" kvs;
  version ← get_field dec_string "version" kvs;
  Some (mk name version)).
End DNSAppInfo.
#[export] Existing Instance DNSAppInfo.t_eq_dec.

Definition appNameParams (name : string) : fallible Values :=
  if name =s? "" then inl (EText "technitium: app name is required")
  else inr (<["name" := name]> ∅).

Definition ListApps (c : Client.t) : prog httpE (fallible (list DNSAppInfo.t)) :=
  do c "/api/apps/list" ∅ (dec_struct (get_field (dec_list DNSAppInfo.decode) "apps")).

Definition DownloadAndInstallApp (c : Client.t) (name downloadURL : string) : prog httpE (option error) :=
  match appNameParams name with
  | inl err => Ret (Some err)
  | inr params =>
      if downloadURL =s? "" then Ret (Some (EText "technitium: url is required"))
      else do_ c "/api/apps/downloadAndInstall" (<["url" := downloadURL]> params)
  end.

Definition DownloadAndUpdateApp (c : Client.t) (name downloadURL : string) : prog httpE (option error) :=
  match appNameParams name with
  | inl err => Ret (Some err)
  | inr params =>
      if downloadURL =s? "" then Ret (Some (EText "technitium: url is required"))
      else do_ c "/api/apps/downloadAndUpdate" (<["url" := downloadURL]> params)
  end.

Definition UninstallApp (c : Client.t) (name : string) : prog httpE (option error) :=
  match appNameParams name with
  | inl err => Ret (Some err)
  | inr params => do_ c "/api/apps/uninstall" params
  end.

Definition GetAppConfig (c : Client.t) (name : string) : prog httpE (fallible string) :=
  match appNameParams name with
  | inl err => fail err
  | inr params => do c "/api/apps/config/get" params (dec_struct (get_field dec_string "config"))
  end.

Definition SetAppConfig (c : Client.t) (name config : string) : prog httpE (option error) :=
  match appNameParams name with
  | inl err => Ret (Some err)
  | inr params => do_ c "/api/apps/config/set" (<["config" := config]> params)
  end.

(** ** The API user *)

(** [CreateToken] mints a non-expiring token with the stored credentials. *)
Definition CreateToken (c : Client.t) (tokenName : string) : prog httpE (fallible string) :=
  if Client.username c =s? "" then fail (EText "technitium: username is required to create a token")
  else
    let params := <["tokenName" := tokenName]> (<["pass" := Client.password c]>
                    (<["user" := Client.username c]> (∅ : Values))) in
    try body <- doRaw c "/api/user/createToken" params ;;
    match dec_struct (get_field dec_string "token") body with
    | None => fail (wrapf "technitium: decoding createToken response failed"
                      (EText "json: cannot unmarshal"))
    | Some tok =>
        if tok =s? "" then fail (EText "technitium: createToken response contained no token")
        else ok tok
    end.

Definition ChangePassword (c : Client.t) (newPassword : string) : prog httpE (option error) :=
  do_ c "/api/user/changePassword" (<["pass" := newPassword]> ∅).

(** ** Dashboard statistics *)

Module DashboardStats.
Record t := mk {
  TotalQueries : Z;
  TotalNoError : Z;
  TotalServerFailure : Z;
  TotalNxDomain : Z;
  TotalRefused : Z;
  TotalAuthoritative : Z;
  TotalRecursive : Z;
  TotalCached : Z;
  TotalBlocked : Z;
  TotalDropped : Z;
  TotalClients : Z;
  Zones : Z;
  CachedEntries : Z;
  AllowedZones : Z;
  BlockedZones : Z;
  AllowListZones : Z;
  BlockListZones : Z
}.

Definition decode : decoder t := dec_struct (fun kvs =>
  queries ← get_field dec_int64 "totalQueries" kvs;
  noError ← get_field dec_int64 "totalNoError" kvs;
  failure ← get_field dec_int64 "totalServerFailure" kvs;
  nx ← get_field dec_int64 "totalNxDomain" kvs;
  refused ← get_field dec_int64 "totalRefused" kvs;
  auth ← get_field dec_int64 "totalAuthoritative" kvs;
  recursive ← get_field dec_int64 "totalRecursive" kvs;
  cached ← get_field dec_int64 "totalCached" kvs;
  blocked ← get_field dec_int64 "totalBlocked" kvs;
  dropped ← get_field dec_int64 "totalDropped" kvs;
  clients ← get_field dec_int64 "totalClients" kvs;
  zones ← get_field dec_int64 "zones" kvs;
  entries ← get_field dec_int64 "cachedEntries" kvs;
  allowed ← get_field dec_int64 "allowedZones" kvs;
  blockedZ ← get_field dec_int64 "blockedZones" kvs;
  allowList ← get_field dec_int64 "allowListZones" kvs;
  blockList ← get_field dec_int64 "blockListZones" kvs;
  Some (mk queries noError failure nx refused auth recursive cached blocked dropped clients
           zones entries allowed blockedZ allowList blockList)).
End DashboardStats.

Definition GetDashboardStats (c : Client.t) : prog httpE (fallible DashboardStats.t) :=
  do c "/api/dashboard/stats/get" (<["type" := "LastHour"]> ∅)
    (dec_struct (get_field DashboardStats.decode "stats")).
