(* ===== verification/DhcpAPI.v ===== *)
(** * [internal/technitium/dhcp.go]: DHCP scope requests *)

From S2P Require Import Prelude GoStrings GoErrors Effects Client ZonesAPI.

Local Open Scope string_scope.
Local Open Scope Z_scope.
Local Open Scope go_scope.
Local Open Scope prog_scope.

Module DHCPScopeInfo.
Record t := mk {
  Name : string; Enabled : bool; StartingAddress : string; EndingAddress : string; SubnetMask : string }.
#[export] Instance t_eq_dec : EqDecision t.
Proof. solve_decision. Defined.
Definition decode : decoder t := dec_struct (fun kvs =>
  name ← get_field dec_string "name" kvs;
  enabled ← get_field dec_bool "enabled" kvs;
  lo ← get_field dec_string "startingAddress" kvs;
  hi ← get_field dec_string "endingAddress" kvs;
  mask ← get_field dec_string "subnetMask" kvs;
  Some (mk name enabled lo hi mask)).
End DHCPScopeInfo.
#[export] Existing Instance DHCPScopeInfo.t_eq_dec.

Module DHCPReservedLease.
Record t := mk { HardwareAddress : string; Address : string; HostName : string; Comments : string }.
#[export] Instance t_eq_dec : EqDecision t.
Proof. solve_decision. Defined.
Definition decode : decoder t := dec_struct (fun kvs =>
  mac ← get_field dec_string "hardwareAddress" kvs;
  addr ← get_field dec_string "address" kvs;
  host ← get_field dec_string "hostName" kvs;
  comments ← get_field dec_string "comments" kvs;
  Some (mk mac addr host comments)).
End DHCPReservedLease.
#[export] Existing Instance DHCPReservedLease.t_eq_dec.

Module DHCPScopeDetails.
Record t := mk {
  Name : string;
  Enabled : bool;
  StartingAddress : string;
  EndingAddress : string;
  SubnetMask : string;
  RouterAddress : string;
  DNSServers : list string;
  ReservedLeases : list DHCPReservedLease.t
}.
#[export] Instance t_eq_dec : EqDecision t.
Proof. solve_decision. Defined.
Definition decode : decoder t := dec_struct (fun kvs =>
  name ← get_field dec_string "name" kvs;
  enabled ← get_field dec_bool "enabled" kvs;
  lo ← get_field dec_string "startingAddress" kvs;
  hi ← get_field dec_string "endingAddress" kvs;
  mask ← get_field dec_string "subnetMask" kvs;
  router ← get_field dec_string "routerAddress" kvs;
  dns ← get_field (dec_list dec_string) "dnsServers" kvs;
  leases ← get_field (dec_list DHCPReservedLease.decode) "reservedLeases" kvs;
  Some (mk name enabled lo hi mask router dns leases)).
End DHCPScopeDetails.
#[export] Existing Instance DHCPScopeDetails.t_eq_dec.

Module SetDHCPScopeOptions.
Record t := mk {
  Name : string;
  StartingAddress : string;
  EndingAddress : string;
  SubnetMask : string;
  RouterAddress : option string;
  DNSServers : option (list string);
  LeaseTimeDays : option Z;
  LeaseTimeHours : option Z;
  LeaseTimeMinutes : option Z;
  DomainName : option string
}.
#[export] Instance t_eq_dec : EqDecision t.
Proof. solve_decision. Defined.
End SetDHCPScopeOptions.
#[export] Existing Instance SetDHCPScopeOptions.t_eq_dec.

Module AddReservedLeaseOptions.
Record t := mk {
  ScopeName : string;
  HardwareAddress : string;
  IPAddress : string;
  HostName : option string;
  Comments : option string
}.
#[export] Instance t_eq_dec : EqDecision t.
Proof. solve_decision. Defined.
End AddReservedLeaseOptions.
#[export] Existing Instance AddReservedLeaseOptions.t_eq_dec.

Definition dhcpScopeNameParam (name : string) : fallible Values :=
  if name =s? "" then inl (EText "technitium: dhcp scope name is required")
  else inr (<["name" := name]> ∅).

Definition ListDHCPScopes (c : Client.t) : prog httpE (fallible (list DHCPScopeInfo.t)) :=
  do c "/api/dhcp/scopes/list" ∅ (dec_struct (get_field (dec_list DHCPScopeInfo.decode) "scopes")).

Definition GetDHCPScope (c : Client.t) (name : string) : prog httpE (fallible DHCPScopeDetails.t) :=
  match dhcpScopeNameParam name with
  | inl err => fail err
  | inr params => do c "/api/dhcp/scopes/get" params DHCPScopeDetails.decode
  end.

Definition SetDHCPScope (c : Client.t) (opts : SetDHCPScopeOptions.t) : prog httpE (option error) :=
  if SetDHCPScopeOptions.Name opts =s? "" then
    Ret (Some (EText "technitium: dhcp scope name is required"))
  else if (SetDHCPScopeOptions.StartingAddress opts =s? "") || (SetDHCPScopeOptions.EndingAddress opts =s? "")
       || (SetDHCPScopeOptions.SubnetMask opts =s? "") then
    Ret (Some (EText "technitium: dhcp scope startingAddress, endingAddress, and subnetMask are required"))
  else
    let params : Values := <["name" := SetDHCPScopeOptions.Name opts]> ∅ in
    let params := <["startingAddress" := SetDHCPScopeOptions.StartingAddress opts]> params in
    let params := <["endingAddress" := SetDHCPScopeOptions.EndingAddress opts]> params in
    let params := <["subnetMask" := SetDHCPScopeOptions.SubnetMask opts]> params in
    let params := set_opt "routerAddress" id (SetDHCPScopeOptions.RouterAddress opts) params in
    let params := set_opt "dnsServers" (fun l => Join l ",") (SetDHCPScopeOptions.DNSServers opts) params in
    let params := set_opt "leaseTimeDays" Itoa (SetDHCPScopeOptions.LeaseTimeDays opts) params in
    let params := set_opt "leaseTimeHours" Itoa (SetDHCPScopeOptions.LeaseTimeHours opts) params in
    let params := set_opt "leaseTimeMinutes" Itoa (SetDHCPScopeOptions.LeaseTimeMinutes opts) params in
    let params := set_opt "domainName" id (SetDHCPScopeOptions.DomainName opts) params in
    do_ c "/api/dhcp/scopes/set" params.

Definition EnableDHCPScope (c : Client.t) (name : string) : prog httpE (option error) :=
  match dhcpScopeNameParam name with
  | inl err => Ret (Some err)
  | inr params => do_ c "/api/dhcp/scopes/enable" params
  end.

Definition DisableDHCPScope (c : Client.t) (name : string) : prog httpE (option error) :=
  match dhcpScopeNameParam name with
  | inl err => Ret (Some err)
  | inr params => do_ c "/api/dhcp/scopes/disable" params
  end.

Definition DeleteDHCPScope (c : Client.t) (name : string) : prog httpE (option error) :=
  match dhcpScopeNameParam name with
  | inl err => Ret (Some err)
  | inr params => do_ c "/api/dhcp/scopes/delete" params
  end.

Definition AddReservedLease (c : Client.t) (opts : AddReservedLeaseOptions.t) : prog httpE (option error) :=
  if AddReservedLeaseOptions.ScopeName opts =s? "" then
    Ret (Some (EText "technitium: dhcp scope name is required"))
  else if AddReservedLeaseOptions.HardwareAddress opts =s? "" then
    Ret (Some (EText "technitium: hardwareAddress is required"))
  else if AddReservedLeaseOptions.IPAddress opts =s? "" then
    Ret (Some (EText "technitium: ipAddress is required"))
  else
    let params : Values := <["name" := AddReservedLeaseOptions.ScopeName opts]> ∅ in
    let params := <["hardwareAddress" := AddReservedLeaseOptions.HardwareAddress opts]> params in
    let params := <["ipAddress" := AddReservedLeaseOptions.IPAddress opts]> params in
    let params := set_opt "hostName" id (AddReservedLeaseOptions.HostName opts) params in
    let params := set_opt "comments" id (AddReservedLeaseOptions.Comments opts) params in
    do_ c "/api/dhcp/scopes/addReservedLease" params.

Definition RemoveReservedLease (c : Client.t) (scopeName hardwareAddress : string)
  : prog httpE (option error) :=
  if scopeName =s? "" then Ret (Some (EText "technitium: dhcp scope name is required"))
  else if hardwareAddress =s? "" then Ret (Some (EText "technitium: hardwareAddress is required"))
  else
    do_ c "/api/dhcp/scopes/removeReservedLease"
      (<["hardwareAddress" := hardwareAddress]> (<["name" := scopeName]> ∅)).
