(* ===== verification/ClusterAPI.v ===== *)
(** * [internal/technitium/cluster.go]: cluster administration requests *)

From S2P Require Import Prelude GoStrings GoErrors Effects Client ZonesAPI.

Local Open Scope string_scope.
Local Open Scope Z_scope.
Local Open Scope go_scope.
Local Open Scope prog_scope.

(** Times are Unix times; a pointer to one is an option. *)
Module ClusterNode.
Record t := mk {
  ID : Z;
  Name : string;
  URL : string;
  IPAddresses : list string;
  Type_ : string;
  State : string;
  Version : string;
  UpSince : option Z;
  LastSeen : option Z;
  ConfigLastSynced : option Z
}.
#[export] Instance t_eq_dec : EqDecision t.
Proof. solve_decision. Defined.
End ClusterNode.
#[export] Existing Instance ClusterNode.t_eq_dec.

Module ClusterState.
Record t := mk {
  Version : string;
  DNSServerDomain : string;
  ClusterInitialized : bool;
  ClusterDomain : string;
  Nodes : list ClusterNode.t
}.
#[export] Instance t_eq_dec : EqDecision t.
Proof. solve_decision. Defined.
Definition empty : t := mk "" "" false "" [].
End ClusterState.
#[export] Existing Instance ClusterState.t_eq_dec.

Module InitClusterOptions.
Record t := mk { ClusterDomain : string; PrimaryNodeIPAddresses : list string }.
#[export] Instance t_eq_dec : EqDecision t.
Proof. solve_decision. Defined.
End InitClusterOptions.
#[export] Existing Instance InitClusterOptions.t_eq_dec.

Module InitJoinOptions.
Record t := mk {
  SecondaryNodeIPAddresses : list string;
  PrimaryNodeURL : string;
  PrimaryNodeUsername : string;
  PrimaryNodePassword : string;
  PrimaryNodeIPAddress : string;
  IgnoreCertificateErrors : bool
}.
#[export] Instance t_eq_dec : EqDecision t.
Proof. solve_decision. Defined.
End InitJoinOptions.
#[export] Existing Instance InitJoinOptions.t_eq_dec.

(** [parse_time] is [time.Time]'s [UnmarshalJSON]. *)
Section cluster.
Context (parse_time : decoder Z).

(** A nil pointer for null or an absent field. *)
Definition dec_time_ptr : decoder (option Z) :=
  fun j => match j with JNull => Some None | _ => Some <$> parse_time j end.

Definition dec_ClusterNode : decoder ClusterNode.t := dec_struct (fun kvs =>
  id ← get_field dec_int64 "id" kvs;
  name ← get_field dec_string "name" kvs;
  url ← get_field dec_string "url" kvs;
  ips ← get_field (dec_list dec_string) "ipAddresses" kvs;
  type ← get_field dec_string "type" kvs;
  state ← get_field dec_string "state" kvs;
  version ← get_field dec_string "version" kvs;
  up ← get_field dec_time_ptr "upSince" kvs;
  seen ← get_field dec_time_ptr "lastSeen" kvs;
  synced ← get_field dec_time_ptr "configLastSynced" kvs;
  Some (ClusterNode.mk id name url ips type state version up seen synced)).

Definition dec_ClusterState : decoder ClusterState.t := dec_struct (fun kvs =>
  version ← get_field dec_string "version" kvs;
  domain ← get_field dec_string "dnsServerDomain" kvs;
  initialized ← get_field dec_bool "clusterInitialized" kvs;
  cdomain ← get_field dec_string "clusterDomain" kvs;
  nodes ← get_field (dec_list dec_ClusterNode) "clusterNodes" kvs;
  Some (ClusterState.mk version domain initialized cdomain nodes)).

Definition RemoveSecondary (c : Client.t) (secondaryNodeID : Z) : prog httpE (option error) :=
  do_ c "/api/admin/cluster/primary/removeSecondary" (<["secondaryNodeId" := Itoa secondaryNodeID]> ∅).

Definition DeleteSecondary (c : Client.t) (secondaryNodeID : Z) : prog httpE (option error) :=
  do_ c "/api/admin/cluster/primary/deleteSecondary" (<["secondaryNodeId" := Itoa secondaryNodeID]> ∅).

Definition DeletePrimaryCluster (c : Client.t) (force : bool) : prog httpE (option error) :=
  do_ c "/api/admin/cluster/primary/delete" (<["forceDelete" := FormatBool force]> ∅).

Definition LeaveCluster (c : Client.t) (force : bool) : prog httpE (option error) :=
  do_ c "/api/admin/cluster/secondary/leave" (<["forceLeave" := FormatBool force]> ∅).

Definition GetClusterState (c : Client.t) : prog httpE (fallible ClusterState.t) :=
  do c "/api/admin/cluster/state" ∅ dec_ClusterState.

Definition InitCluster (c : Client.t) (opts : InitClusterOptions.t) : prog httpE (fallible ClusterState.t) :=
  do c "/api/admin/cluster/init"
    (<["primaryNodeIpAddresses" := Join (InitClusterOptions.PrimaryNodeIPAddresses opts) ","]>
      (<["clusterDomain" := InitClusterOptions.ClusterDomain opts]> ∅))
    dec_ClusterState.

Definition InitJoinCluster (c : Client.t) (opts : InitJoinOptions.t) : prog httpE (fallible ClusterState.t) :=
  let params : Values := <["secondaryNodeIpAddresses" :=
                            Join (InitJoinOptions.SecondaryNodeIPAddresses opts) ","]> ∅ in
  let params := <["primaryNodeUrl" := InitJoinOptions.PrimaryNodeURL opts]> params in
  let params := <["primaryNodeUsername" := InitJoinOptions.PrimaryNodeUsername opts]> params in
  let params := <["primaryNodePassword" := InitJoinOptions.PrimaryNodePassword opts]> params in
  let params := <["primaryNodeIpAddress" := InitJoinOptions.PrimaryNodeIPAddress opts]> params in
  let params := <["ignoreCertificateErrors" := FormatBool (InitJoinOptions.IgnoreCertificateErrors opts)]> params in
  do c "/api/admin/cluster/initJoin" params dec_ClusterState.

Definition UpdateNodeIPAddresses (c : Client.t) (ipAddresses : list string)
  : prog httpE (fallible ClusterState.t) :=
  do c "/api/admin/cluster/updateIpAddress" (<["ipAddresses" := Join ipAddresses ","]> ∅) dec_ClusterState.
End cluster.
