(* ===== verification/Lifecycle.v ===== *)
(** * The reconcile skeleton the resource controllers share

    [zone_controller.go], [record_controller.go], [blocklist_controller.go],
    [dhcpscope_controller.go], [dnssec_controller.go], [dnsapp_controller.go]
    and [serversettings_controller.go] each spell out the same life cycle:
    fetch, tear down or register the finalizer, do the work, record the outcome
    on a re-fetched object.  It is written once here, over the custom resource
    [T] (class [Resource]) and the interface [API] of the Technitium client the
    controller depends on, and instantiated by each controller's file. *)

From S2P Require Import Prelude GoStrings GoErrors Effects Kube.

Local Open Scope string_scope.
Local Open Scope Z_scope.
Local Open Scope prog_scope.

(** [dnsv1alpha1.SecretReference]. *)
Module SecretReference.
Record t := mk { Name : string; Namespace : string }.
#[export] Instance t_eq_dec : EqDecision t.
Proof. solve_decision. Defined.
End SecretReference.
#[export] Existing Instance SecretReference.t_eq_dec.

(** [dnsv1alpha1.DeletionPolicy] values. *)
Definition DeletionPolicyDelete : string := "Delete".
Definition DeletionPolicyOrphan : string := "Orphan".

Definition second : Z := 1000000000.
Definition minute : Z := 60 * second.

Definition driftReconcileInterval : Z := 5 * minute.

Definition conditionReady : string := "Ready".
Definition conditionProgressing : string := "Progressing".
Definition conditionDegraded : string := "Degraded".

(** What the skeleton needs of a custom resource. *)
Class Resource (T : Type) := {
  meta : T -> ObjectMeta.t;
  with_meta : T -> ObjectMeta.t -> T;
  conditions : T -> list Condition.t;
  with_conditions : T -> list Condition.t -> T;
  observedGeneration : T -> Z;
  with_observedGeneration : T -> Z -> T;
  spec_type : Type;
  spec_of : T -> spec_type
}.

(** Getters and setters agree. *)
Class ResourceLaws (T : Type) `{Resource T} : Prop := {
  meta_with_meta (o : T) m : meta (with_meta o m) = m;
  meta_with_conditions (o : T) cs : meta (with_conditions o cs) = meta o;
  meta_with_observed (o : T) g : meta (with_observedGeneration o g) = meta o;
  conditions_with_conditions (o : T) cs : conditions (with_conditions o cs) = cs;
  conditions_with_observed (o : T) g : conditions (with_observedGeneration o g) = conditions o;
  observed_with_observed (o : T) g : observedGeneration (with_observedGeneration o g) = g;
  observed_with_conditions (o : T) cs : observedGeneration (with_conditions o cs) = observedGeneration o;
  conditions_with_meta (o : T) m : conditions (with_meta o m) = conditions o;
  with_conditions_id (o : T) : with_conditions o (conditions o) = o;
  with_meta_id (o : T) : with_meta o (meta o) = o;
  spec_with_meta (o : T) m : spec_of (with_meta o m) = spec_of o;
  spec_with_conditions (o : T) cs : spec_of (with_conditions o cs) = spec_of o;
  spec_with_observed (o : T) g : spec_of (with_observedGeneration o g) = spec_of o
}.

(** [serverClientFor]: resolving a [serverRef] to a client. *)
Inductive resolveE : Type := ResolveServer (ref : SecretReference.t).
#[export] Instance resolveE_Effect : Effect resolveE := fun _ => option error.

Section skeleton.
Context `{KubeLib} {T : Type} `{Resource T} {API : Type} `{Effect API}.

Definition calls : Type := kubeE T + (resolveE + API).

#[local] Instance calls_Effect : Effect calls := sum_Effect.

Definition kget (key : ObjectKey) : prog calls (fallible T) := call (inl (KGet key) : calls).
Definition kupdate (o : T) : prog calls (fallible T) := call (inl (KUpdate o) : calls).
Definition kstatus (o : T) : prog calls (option error) := call (inl (KStatusUpdate o) : calls).
Definition resolve (ref : SecretReference.t) : prog calls (option error) :=
  call (inr (inl (ResolveServer ref)) : calls).
Definition api (a : API) : prog calls (answer a) := call (inr (inr a) : calls).

(** A program over the server's client alone. *)
Fixpoint lift {R : Type} (p : prog API R) : prog calls R :=
  match p with
  | Ret r => Ret r
  | Call a k => Call (inr (inr a) : calls) (fun x => lift (k x))
  end.

(** [api, err := r.serverClientFor(ctx, ref); if err != nil { return err }]. *)
Definition with_server {W : Type} (ref : SecretReference.t) (body : prog API (fallible W))
  : prog calls (fallible W) :=
  r <- resolve ref ;;
  match r with
  | Some e => fail e
  | None => lift body
  end.

(** [controllerutil.AddFinalizer] and [RemoveFinalizer] on an object. *)
Definition add_finalizer (o : T) (f : string) : T * bool :=
  let '(fs, added) := AddFinalizer (ObjectMeta.Finalizers (meta o)) f in
  (with_meta o (ObjectMeta.with_Finalizers (meta o) fs), added).

Definition remove_finalizer (o : T) (f : string) : T :=
  with_meta o (ObjectMeta.with_Finalizers (meta o)
                 (RemoveFinalizer (ObjectMeta.Finalizers (meta o)) f)).

Definition has_finalizer (o : T) (f : string) : bool :=
  ContainsFinalizer (ObjectMeta.Finalizers (meta o)) f.

(** [setCondition]: upsert a condition stamped with the object's generation;
    reports whether anything changed. *)
Definition setCondition (o : T) (condType : string) (status : ConditionStatus)
    (reason message : string) : T * bool :=
  let '(cs, changed) := SetStatusCondition (conditions o)
    (Condition.mk condType status reason message (ObjectMeta.Generation (meta o))) in
  (with_conditions o cs, changed).

(** [Reconcile]. *)
Definition reconcile {W : Type} (finalizer : string)
    (finalize : T -> prog calls (option error))
    (work : T -> prog calls (fallible W))
    (degraded : ObjectKey -> error -> prog calls (option error))
    (ready : ObjectKey -> T -> W -> prog calls (option error))
    (key : ObjectKey) : prog calls (Z * option error) :=
  r <- kget key ;;
  match r with
  | inl e => Ret (0, IgnoreNotFound e)
  | inr o =>
      if ObjectMeta.Deleting (meta o) then
        e <- finalize o ;; Ret (0, e)
      else
        let '(o, added) := add_finalizer o finalizer in
        u <- (if added then kupdate o else Ret (inr o)) ;;
        match u with
        | inl e => Ret (0, Some e)
        | inr o =>
            w <- work o ;;
            match w with
            | inl e => degraded key e ;; Ret (0, Some e)
            | inr v =>
                s <- ready key o v ;;
                match s with
                | Some e => Ret (0, Some e)
                | None => Ret (driftReconcileInterval, None)
                end
            end
        end
  end.

(** The [finalizeX] pattern: clean up on the server unless orphaned, skip
    when the cluster itself is gone, then clear the finalizer. *)
Definition finalize_with (finalizer : string) (orphan : T -> bool) (ref : T -> SecretReference.t)
    (cleanup : T -> prog calls (option error)) (o : T) : prog calls (option error) :=
  if negb (has_finalizer o finalizer) then Ret None
  else
    c <- (if orphan o then Ret None
          else
            r <- resolve (ref o) ;;
            match r with
            | None => cleanup o
            | Some e => if IsNotFound e then Ret None else Ret (Some e)
            end) ;;
    match c with
    | Some e => Ret (Some e)
    | None =>
        u <- kupdate (remove_finalizer o finalizer) ;;
        match u with inl e => Ret (Some e) | inr _ => Ret None end
    end.

(** The object [markReady] computes, and whether it differs from the fetched
    one; [record] is the resource-specific part of the status. *)
Definition readyStatus (reason message : string) (record : T -> T * bool) (o : T) : T * bool :=
  let '(o, c1) := setCondition o conditionReady ConditionTrue reason message in
  let '(o, c2) := setCondition o conditionProgressing ConditionFalse reason message in
  let '(o, c3) := setCondition o conditionDegraded ConditionFalse reason message in
  let gen := ObjectMeta.Generation (meta o) in
  let c4 := negb (observedGeneration o =? gen) in
  let o := if c4 then with_observedGeneration o gen else o in
  let '(o, c5) := record o in
  (o, c1 || c2 || c3 || c4 || c5).

(** [markReady]. *)
Definition markReady (reason message : string) (record : T -> T * bool) (key : ObjectKey)
  : prog calls (option error) :=
  r <- kget key ;;
  match r with
  | inl e => Ret (IgnoreNotFound e)
  | inr o =>
      let '(o, changed) := readyStatus reason message record o in
      if changed then kstatus o else Ret None
  end.

(** The object [markDegraded] writes. *)
Definition degradedStatus (cause : error) (o : T) : T :=
  let '(o, _) := setCondition o conditionReady ConditionFalse "ReconcileFailed" (Error cause) in
  let '(o, _) := setCondition o conditionProgressing ConditionFalse "ReconcileFailed" (Error cause) in
  let '(o, _) := setCondition o conditionDegraded ConditionTrue "ReconcileFailed" (Error cause) in
  o.

(** [markDegraded]. *)
Definition markDegraded (key : ObjectKey) (cause : error) : prog calls (option error) :=
  r <- kget key ;;
  match r with
  | inl e => Ret (IgnoreNotFound e)
  | inr o => kstatus (degradedStatus cause o)
  end.

(** ** Observations on histories *)

(** The calls of a history, without their answers. *)
Definition requests (tr : list (event calls)) : list calls := map projT1 tr.

(** The Technitium calls of a history, in order. *)
Definition api_requests (tr : list (event calls)) : list API :=
  omap (fun c : calls => match c with inr (inr a) => Some a | _ => None end) (requests tr).

Definition is_api (c : calls) : bool := match c with inr (inr _) => true | _ => false end.

(** The object was written back without [finalizer]. *)
Definition released (finalizer : string) (tr : list (event calls)) : Prop :=
  exists o, In (inl (KUpdate o) : calls) (requests tr) /\ has_finalizer o finalizer = false.

(** [serverRef] resolved to "the cluster does not exist". *)
Definition server_gone (ref : SecretReference.t) (tr : list (event calls)) : Prop :=
  exists e, In (ev (inr (inl (ResolveServer ref)) : calls) (Some e)) tr /\ IsNotFound e = true.

(** The Technitium call [a] was answered with [x]. *)
Definition answered (a : API) (x : answer a) (tr : list (event calls)) : Prop :=
  In (ev (inr (inr a) : calls) x) tr.

(** A monitor over histories: no Technitium call may precede the evidence
    that the finalizer is registered (the object was fetched with it, fetched
    while being deleted, or an update that carries it was accepted). *)
Definition registers (finalizer : string) (e : event calls) : bool :=
  match e with
  | existT (inl (KGet _)) (inr o) => ObjectMeta.Deleting (meta o) || has_finalizer o finalizer
  | existT (inl (KUpdate o)) (inr _) => has_finalizer o finalizer
  | _ => false
  end.

Fixpoint guarded (finalizer : string) (registered : bool) (tr : list (event calls)) : bool :=
  match tr with
  | [] => true
  | e :: tr' =>
      (negb (is_api (projT1 e)) || registered) &&
      guarded finalizer (registered || registers finalizer e) tr'
  end.

(** ** Laws of the skeleton *)

Context `{!KubeLibLaws} `{!ResourceLaws T}.

Lemma has_finalizer_remove (o : T) (f : string) : has_finalizer (remove_finalizer o f) f = false.
Proof.
  unfold has_finalizer, remove_finalizer. rewrite meta_with_meta. cbn.
  apply not_true_is_false. rewrite contains_spec, remove_elem. by intros [? _].
Qed.

Lemma has_finalizer_add (o : T) (f : string) : has_finalizer (add_finalizer o f).1 f = true.
Proof.
  unfold has_finalizer, add_finalizer.
  destruct (AddFinalizer _ f) as [fs added] eqn:E. cbn. rewrite meta_with_meta. cbn.
  apply contains_spec. change fs with (fs, added).1. rewrite <- E. apply add_elem. by left.
Qed.

Lemma add_finalizer_changed (o : T) (f : string) :
  (add_finalizer o f).2 = negb (has_finalizer o f).
Proof.
  unfold has_finalizer, add_finalizer.
  pose proof (add_changed (ObjectMeta.Finalizers (meta o)) f) as Ha.
  destruct (AddFinalizer _ f) as [fs added]. exact Ha.
Qed.

Lemma add_finalizer_same (o : T) (f : string) :
  has_finalizer o f = true -> add_finalizer o f = (o, false).
Proof.
  unfold has_finalizer, add_finalizer. intros Hf.
  pose proof (add_changed (ObjectMeta.Finalizers (meta o)) f) as Ha. rewrite Hf in Ha.
  pose proof (add_unchanged _ _ Ha) as Hu.
  destruct (AddFinalizer _ f) as [fs added]. cbn in *. subst. f_equal.
  transitivity (with_meta o (meta o)); [|apply with_meta_id].
  f_equal. by destruct (meta o).
Qed.

Lemma add_finalizer_unchanged (o : T) (f : string) :
  (add_finalizer o f).2 = false -> (add_finalizer o f).1 = o.
Proof.
  rewrite add_finalizer_changed. intros Hf. apply negb_false_iff in Hf.
  by rewrite add_finalizer_same.
Qed.

Lemma setCondition_find (o : T) ty st rs m :
  FindStatusCondition (conditions (setCondition o ty st rs m).1) ty
  = Some (Condition.mk ty st rs m (ObjectMeta.Generation (meta o))).
Proof.
  unfold setCondition. pose proof (set_find_same (conditions o)
    (Condition.mk ty st rs m (ObjectMeta.Generation (meta o)))) as Hf.
  destruct (SetStatusCondition _ _) as [cs ch]. cbn in *. by rewrite conditions_with_conditions.
Qed.

Lemma setCondition_find_other (o : T) ty st rs m ty' :
  ty' <> ty ->
  FindStatusCondition (conditions (setCondition o ty st rs m).1) ty'
  = FindStatusCondition (conditions o) ty'.
Proof.
  intros Hne. unfold setCondition. pose proof (set_find_other (conditions o)
    (Condition.mk ty st rs m (ObjectMeta.Generation (meta o))) ty' Hne) as Hf.
  destruct (SetStatusCondition _ _) as [cs ch]. cbn in *. by rewrite conditions_with_conditions.
Qed.

Lemma setCondition_meta (o : T) ty st rs m : meta (setCondition o ty st rs m).1 = meta o.
Proof. unfold setCondition. destruct (SetStatusCondition _ _). apply meta_with_conditions. Qed.

Lemma setCondition_observed (o : T) ty st rs m :
  observedGeneration (setCondition o ty st rs m).1 = observedGeneration o.
Proof. unfold setCondition. destruct (SetStatusCondition _ _). apply observed_with_conditions. Qed.

(** Setting a condition that is already there changes nothing. *)
Lemma setCondition_same (o : T) ty st rs m :
  FindStatusCondition (conditions o) ty
    = Some (Condition.mk ty st rs m (ObjectMeta.Generation (meta o))) ->
  setCondition o ty st rs m = (o, false).
Proof.
  intros Hf. unfold setCondition.
  set (c := Condition.mk ty st rs m (ObjectMeta.Generation (meta o))) in *.
  assert (Hc : (SetStatusCondition (conditions o) c).2 = false) by (by apply set_changed).
  pose proof (set_unchanged _ _ Hc) as Hu.
  destruct (SetStatusCondition (conditions o) c) as [cs ch]. cbn in *. subst.
  by rewrite with_conditions_id.
Qed.

(** [record] writes only resource-specific status fields, and a second pass
    over its own result changes nothing. *)
Record status_only (record : T -> T * bool) : Prop := {
  record_spec o : spec_of (record o).1 = spec_of o;
  record_meta o : meta (record o).1 = meta o;
  record_conditions o : conditions (record o).1 = conditions o;
  record_observed o : observedGeneration (record o).1 = observedGeneration o;
  record_settles o : record (record o).1 = ((record o).1, false);
  record_unchanged o : (record o).2 = false -> (record o).1 = o
}.

(** The status of an object after a successful reconcile. *)
Record is_ready (reason message : string) (o : T) : Prop := {
  ready_true : FindStatusCondition (conditions o) conditionReady
    = Some (Condition.mk conditionReady ConditionTrue reason message (ObjectMeta.Generation (meta o)));
  ready_progressing : FindStatusCondition (conditions o) conditionProgressing
    = Some (Condition.mk conditionProgressing ConditionFalse reason message (ObjectMeta.Generation (meta o)));
  ready_degraded : FindStatusCondition (conditions o) conditionDegraded
    = Some (Condition.mk conditionDegraded ConditionFalse reason message (ObjectMeta.Generation (meta o)));
  ready_observed : observedGeneration o = ObjectMeta.Generation (meta o)
}.

Lemma readyStatus_ready (reason message : string) (record : T -> T * bool) (o : T) :
  status_only record ->
  is_ready reason message (readyStatus reason message record o).1 /\
  record (readyStatus reason message record o).1 = ((readyStatus reason message record o).1, false) /\
  meta (readyStatus reason message record o).1 = meta o.
Proof.
  intros Hr. unfold readyStatus.
  pose proof (setCondition_find o conditionReady ConditionTrue reason message) as F1.
  pose proof (setCondition_meta o conditionReady ConditionTrue reason message) as M1.
  destruct (setCondition o conditionReady _ _ _) as [o1 c1]; cbn in F1, M1.
  pose proof (setCondition_find o1 conditionProgressing ConditionFalse reason message) as F2.
  pose proof (setCondition_find_other o1 conditionProgressing ConditionFalse reason message
    conditionReady ltac:(done)) as F21.
  pose proof (setCondition_meta o1 conditionProgressing ConditionFalse reason message) as M2.
  destruct (setCondition o1 conditionProgressing _ _ _) as [o2 c2]; cbn in F2, F21, M2.
  pose proof (setCondition_find o2 conditionDegraded ConditionFalse reason message) as F3.
  pose proof (setCondition_find_other o2 conditionDegraded ConditionFalse reason message
    conditionReady ltac:(done)) as F31.
  pose proof (setCondition_find_other o2 conditionDegraded ConditionFalse reason message
    conditionProgressing ltac:(done)) as F32.
  pose proof (setCondition_meta o2 conditionDegraded ConditionFalse reason message) as M3.
  destruct (setCondition o2 conditionDegraded _ _ _) as [o3 c3]; cbn in F3, F31, F32, M3.
  set (gen := ObjectMeta.Generation (meta o3)).
  set (o4 := if negb (observedGeneration o3 =? gen) then with_observedGeneration o3 gen else o3).
  assert (M4 : meta o4 = meta o3) by (unfold o4; dmatch; [apply meta_with_observed|done]).
  assert (C4 : conditions o4 = conditions o3) by (unfold o4; dmatch; [apply conditions_with_observed|done]).
  assert (G4 : observedGeneration o4 = gen).
  { unfold o4. dmatch; [apply observed_with_observed|]. by reflect_bools. }
  pose proof (record_meta _ Hr o4) as M5. pose proof (record_conditions _ Hr o4) as C5.
  pose proof (record_observed _ Hr o4) as G5. pose proof (record_settles _ Hr o4) as S5.
  destruct (record o4) as [o5 c5]; cbn in *.
  assert (Hm : meta o5 = meta o) by congruence.
  split; [|split; [done|done]].
  constructor; rewrite ?C5, ?C4; [congruence..|]. unfold gen in G4. congruence.
Qed.

(** A status that is already up to date is not written again. *)
Lemma readyStatus_settled (reason message : string) (record : T -> T * bool) (o : T) :
  is_ready reason message o -> record o = (o, false) ->
  readyStatus reason message record o = (o, false).
Proof.
  intros [R1 R2 R3 R4] Hrec. unfold readyStatus.
  rewrite (setCondition_same _ _ _ _ _ R1), (setCondition_same _ _ _ _ _ R2),
    (setCondition_same _ _ _ _ _ R3).
  rewrite R4, Z.eqb_refl. cbn. by rewrite Hrec.
Qed.

Lemma readyStatus_idempotent (reason message : string) (record : T -> T * bool) (o : T) :
  status_only record ->
  readyStatus reason message record (readyStatus reason message record o).1
  = ((readyStatus reason message record o).1, false).
Proof.
  intros Hr. destruct (readyStatus_ready reason message record o Hr) as (R1 & R2 & _).
  by apply readyStatus_settled.
Qed.

(** What a failed reconcile leaves on the object. *)
Lemma degradedStatus_spec (cause : error) (o : T) :
  let o' := degradedStatus cause o in
  let gen := ObjectMeta.Generation (meta o) in
  FindStatusCondition (conditions o') conditionReady
    = Some (Condition.mk conditionReady ConditionFalse "ReconcileFailed" (Error cause) gen) /\
  FindStatusCondition (conditions o') conditionDegraded
    = Some (Condition.mk conditionDegraded ConditionTrue "ReconcileFailed" (Error cause) gen).
Proof.
  cbn. unfold degradedStatus.
  pose proof (setCondition_find o conditionReady ConditionFalse "ReconcileFailed" (Error cause)) as F1.
  pose proof (setCondition_meta o conditionReady ConditionFalse "ReconcileFailed" (Error cause)) as M1.
  destruct (setCondition o conditionReady _ _ _) as [o1 c1]; cbn in F1, M1.
  pose proof (setCondition_find_other o1 conditionProgressing ConditionFalse "ReconcileFailed"
    (Error cause) conditionReady ltac:(done)) as F2.
  pose proof (setCondition_meta o1 conditionProgressing ConditionFalse "ReconcileFailed" (Error cause)) as M2.
  destruct (setCondition o1 conditionProgressing _ _ _) as [o2 c2]; cbn in F2, M2.
  pose proof (setCondition_find o2 conditionDegraded ConditionTrue "ReconcileFailed" (Error cause)) as F3.
  pose proof (setCondition_find_other o2 conditionDegraded ConditionTrue "ReconcileFailed"
    (Error cause) conditionReady ltac:(done)) as F4.
  destruct (setCondition o2 conditionDegraded _ _ _) as [o3 c3]; cbn in F3, F4.
  split; [|rewrite F3]; congruence.
Qed.

Lemma guarded_app (f : string) (tr tr' : list (event calls)) : forall b,
  guarded f b (tr ++ tr')%list = guarded f b tr && guarded f (b || existsb (registers f) tr) tr'.
Proof.
  induction tr as [|e tr IH]; intros b; cbn; [by rewrite orb_false_r|].
  by rewrite IH, orb_assoc, andb_assoc.
Qed.

(** Once the finalizer is registered, whatever follows is guarded. *)
Lemma holds_registered {R : Type} (f : string) (p : prog calls R) : forall past,
  guarded f false past = true -> existsb (registers f) past = true ->
  holds p past (fun tr _ => guarded f false tr = true).
Proof.
  induction p as [r|c k IH]; intros past Hg He; cbn; [done|]. intros x. apply IH.
  - rewrite guarded_app, Hg, He. cbn. by rewrite orb_true_r.
  - by rewrite existsb_app, He.
Qed.

Lemma reconcile_guarded {W : Type} (f : string) finalize (work : T -> prog calls (fallible W))
    degraded ready key :
  always (reconcile f finalize work degraded ready key) (fun tr _ => guarded f false tr = true).
Proof.
  unfold always, reconcile. cbn. intros [e|o]; cbn; [done|].
  destruct (ObjectMeta.Deleting (meta o)) eqn:Hd.
  - apply holds_registered; cbn; by rewrite ?Hd.
  - pose proof (has_finalizer_add o f) as Ha. pose proof (add_finalizer_changed o f) as Hc.
    destruct (add_finalizer o f) as [o' added] eqn:Eo. cbn in Ha, Hc.
    destruct added; cbn.
    + intros [e|u]; cbn; [done|].
      apply holds_registered; cbn; [done|]. by rewrite Ha, orb_true_r.
    + apply holds_registered; cbn; [done|].
      symmetry in Hc. apply negb_false_iff in Hc. by rewrite Hc, orb_true_r.
Qed.

(** *** The finalizer is released only after cleanup *)

Definition is_update (c : calls) : Prop := match c with inl (KUpdate _) => True | _ => False end.

Lemma lift_avoids {R : Type} (p : prog API R) : avoids is_update (lift p).
Proof. induction p; cbn; [done|]. split; [by intros []|auto]. Qed.

Lemma holds_lift_bind {R V : Type} (p : prog API R) (f : R -> prog API V) Q : forall past,
  holds (lift (bind p f)) past Q <-> holds (lift p) past (fun tr r => holds (lift (f r)) tr Q).
Proof. induction p as [r|a k IH]; cbn; intros past; [done|]. split; intros Hp x; by apply IH. Qed.

Lemma with_server_avoids {W : Type} ref (body : prog API (fallible W)) :
  avoids is_update (with_server ref body).
Proof. split; [by intros []|]. intros [e|]; cbn; [done|]. apply lift_avoids. Qed.

Lemma markReady_avoids reason message record key : avoids is_update (markReady reason message record key).
Proof.
  split; [by intros []|]. intros [e|o]; [done|]. cbn -[readyStatus].
  destruct (readyStatus _ _ _ _) as [o' []]; [|done]. by split; [intros []|].
Qed.

Lemma markDegraded_avoids key cause : avoids is_update (markDegraded key cause).
Proof. split; [by intros []|]. intros [e|o]; [done|]. by split; [intros []|]. Qed.

(** The updates of a history. *)
Definition updates (tr : list (event calls)) : list T :=
  omap (fun c : calls => match c with inl (KUpdate o) => Some o | _ => None end) (requests tr).

Lemma updates_app (tr tr' : list (event calls)) : updates (tr ++ tr') = (updates tr ++ updates tr')%list.
Proof. unfold updates, requests. by rewrite map_app, omap_app. Qed.

Lemma updates_avoid (tr : list (event calls)) :
  Forall (fun e => ~ is_update (projT1 e)) tr -> updates tr = [].
Proof.
  intros Htr. induction Htr as [|[c x] tr He _ IH]; [done|].
  change (existT c x :: tr) with ([existT c x] ++ tr)%list.
  rewrite updates_app, IH, app_nil_r. destruct c as [[k|o|o]|c]; done.
Qed.

Lemma released_updates (f : string) (tr : list (event calls)) :
  released f tr <-> exists o, In o (updates tr) /\ has_finalizer o f = false.
Proof.
  unfold released. split; intros (o & Hin & Hf); exists o; (split; [|done]).
  - unfold updates. apply list_elem_of_In, list_elem_of_omap.
    exists (inl (KUpdate o)). split; [by apply list_elem_of_In|done].
  - unfold updates in Hin. apply list_elem_of_In, list_elem_of_omap in Hin as ([[]|] & Hc & E);
      inversion E; subst. by apply list_elem_of_In.
Qed.

Lemma avoids_updates {R : Type} (p : prog calls R) (past : list (event calls)) :
  avoids is_update p -> holds p past (fun tr _ => updates tr = updates past).
Proof.
  intros Hp. eapply holds_mono; [|by apply avoids_holds].
  intros tr r (ext & -> & Hext). by rewrite updates_app, (updates_avoid ext Hext), app_nil_r.
Qed.

(** The evidence that the server side of [o] was dealt with. *)
Definition cleaned (orphan : T -> bool) (ref : T -> SecretReference.t)
    (confirmed : T -> list (event calls) -> Prop) (o : T) (tr : list (event calls)) : Prop :=
  orphan o = true \/ server_gone (ref o) tr \/ confirmed o tr.

Context (confirmed : T -> list (event calls) -> Prop).
Context (confirmed_app : forall o tr ext, confirmed o tr -> confirmed o (tr ++ ext)%list).

Lemma cleaned_app orphan ref o tr ext :
  cleaned orphan ref confirmed o tr -> cleaned orphan ref confirmed o (tr ++ ext)%list.
Proof.
  intros [Ho|[(e & He & Hn)|Hc]]; [by left| |right; right; auto].
  right; left. exists e. split; [apply in_or_app; by left|done].
Qed.

Lemma finalize_with_released f orphan ref (cleanup : T -> prog API (option error)) (o : T) past :
  (forall past, holds (lift (cleanup o)) past (fun tr r => r = None -> confirmed o tr)) ->
  holds (finalize_with f orphan ref (fun o => lift (cleanup o)) o) past (fun tr _ =>
    updates tr = updates past \/ cleaned orphan ref confirmed o tr).
Proof.
  intros Hc. unfold finalize_with.
  destruct (negb (has_finalizer o f)); [by left|].
  apply holds_bind.
  apply (holds_mono _ (fun tr r => updates tr = updates past /\
    (r = None -> cleaned orphan ref confirmed o tr))).
  { intros tr [e|] [Hu Hcl]; cbn; [by left|]. intros ans.
    assert (Hd : cleaned orphan ref confirmed o (tr ++ [ev (inl (KUpdate (remove_finalizer o f)) : calls) ans])%list)
      by (apply cleaned_app; auto).
    destruct ans; cbn; by right. }
  destruct (orphan o) eqn:Ho; cbn; [split; [done|by left]|].
  intros [e|]; cbn.
  - destruct (IsNotFound e) eqn:He; cbn; (split; [by rewrite updates_app, app_nil_r|]); [|done].
    intros _. right; left. exists e. split; [|done]. apply in_or_app. right. by left.
  - eapply holds_mono; [|apply holds_conj; [|apply Hc]].
    2:{ apply avoids_updates, lift_avoids. }
    intros tr r [Hu Hcl]. split.
    + etransitivity; [exact Hu|]. by rewrite updates_app, app_nil_r.
    + intros E. right; right. by apply Hcl.
Qed.

Lemma reconcile_released {W : Type} f orphan ref (cleanup : T -> prog API (option error))
    (work : T -> prog calls (fallible W)) degraded ready key :
  (forall o past, holds (lift (cleanup o)) past (fun tr r => r = None -> confirmed o tr)) ->
  (forall o, avoids is_update (work o)) ->
  (forall k e, avoids is_update (degraded k e)) ->
  (forall k o v, avoids is_update (ready k o v)) ->
  always (reconcile f (finalize_with f orphan ref (fun o => lift (cleanup o))) work degraded ready key)
    (fun tr _ => released f tr ->
      exists o, In (ev (inl (KGet key) : calls) (inr o)) tr /\ ObjectMeta.Deleting (meta o) = true /\
        cleaned orphan ref confirmed o tr).
Proof.
  intros Hc Hw Hd Hr. unfold always, reconcile. cbn. intros [e|o]; cbn.
  { intros (o & [?|[]] & _); discriminate. }
  destruct (ObjectMeta.Deleting (meta o)) eqn:Hdel.
  - apply holds_bind. eapply holds_mono; [|apply holds_conj; [apply holds_extends|
      apply (finalize_with_released f orphan ref cleanup o); apply Hc]].
    intros tr r [(ext & ->) Hu] Hrel. exists o. split; [by left|]. split; [done|].
    destruct Hu as [Hu|Hu]; [|done].
    apply released_updates in Hrel as (o' & Hin & _). rewrite Hu in Hin. by destruct Hin.
  - pose proof (has_finalizer_add o f) as Ha.
    destruct (add_finalizer o f) as [o' added] eqn:Eo. cbn in Ha.
    assert (Hrest : forall o1 past, updates past = [] \/ updates past = [o'] ->
      holds (w <- work o1 ;;
             match w with
             | inl e => degraded key e ;; Ret (0, Some e)
             | inr v => s <- ready key o1 v ;;
                 match s with Some e => Ret (0, Some e) | None => Ret (driftReconcileInterval, None) end
             end) past (fun tr _ => ~ released f tr)).
    { intros o1 past Hpast. eapply holds_mono; [|apply avoids_updates].
      - intros tr r Hu Hrel. apply released_updates in Hrel as (o2 & Hin & Hf). rewrite Hu in Hin.
        destruct Hpast as [E|E]; rewrite E in Hin; [by destruct Hin|].
        destruct Hin as [->|[]]. congruence.
      - apply avoids_bind; [apply Hw|]. intros [e|v]; apply avoids_bind; auto.
        + cbn; auto.
        + intros [e|]; cbn; auto. }
    destruct added; cbn.
    + intros [e|u]; cbn.
      * intros Hrel. apply released_updates in Hrel as (o2 & [<-|[]] & Hf). congruence.
      * eapply holds_mono; [|apply Hrest; by right]. intros tr r Hn Hrel. by destruct Hn.
    + eapply holds_mono; [|apply Hrest; by left]. intros tr r Hn Hrel. by destruct Hn.
Qed.
End skeleton.

Arguments calls T API : clear implicits.
Arguments spec_of {T _} o.
#[export] Existing Instance calls_Effect.

(** ** Executions against a cooperative cluster

    [W] is the state of the world, with the custom resource and the Technitium
    server in it.  The laws say what a Kubernetes API server without conflicts
    does: a get returns the stored object, an update stores it; a [serverRef]
    resolves; a Technitium call acts on the server alone. *)
Class Cooperative (T : Type) (API : Type) `{Effect API} (W S : Type) := {
  step : forall c : calls T API, W -> answer c * W;
  object : W -> option T;
  server : W -> S;
  server_step : forall a : API, S -> answer a * S
}.

Class CooperativeLaws (T API : Type) `{Effect API} (W S : Type) `{!Cooperative T API W S} : Prop := {
  coop_get k w o : object w = Some o ->
    (step (inl (KGet k)) w).1 = inr o /\ object (step (inl (KGet k)) w).2 = Some o /\
    server (step (inl (KGet k)) w).2 = server w;
  coop_update o w :
    (step (inl (KUpdate o)) w).1 = inr o /\ object (step (inl (KUpdate o)) w).2 = Some o /\
    server (step (inl (KUpdate o)) w).2 = server w;
  coop_status o w :
    (step (inl (KStatusUpdate o)) w).1 = None /\ object (step (inl (KStatusUpdate o)) w).2 = Some o /\
    server (step (inl (KStatusUpdate o)) w).2 = server w;
  coop_resolve ref w :
    (step (inr (inl (ResolveServer ref))) w).1 = None /\
    object (step (inr (inl (ResolveServer ref))) w).2 = object w /\
    server (step (inr (inl (ResolveServer ref))) w).2 = server w;
  coop_api a w :
    (step (inr (inr a)) w).1 = (server_step a (server w)).1 /\
    object (step (inr (inr a)) w).2 = object w /\
    server (step (inr (inr a)) w).2 = (server_step a (server w)).2
}.

(** A cooperative world over any server: the object and the server side by side. *)
Definition plain_step {T API S : Type} `{Effect API} (srv : forall a : API, S -> answer a * S)
    (c : calls T API) : option T * S -> answer c * (option T * S) :=
  match c with
  | inl (KGet _) => fun w =>
      (match w.1 with Some o => inr o | None => inl (EKube NotFound "not found") end, w)
  | inl (KUpdate o) => fun w => (inr o, (Some o, w.2))
  | inl (KStatusUpdate o) => fun w => (None, (Some o, w.2))
  | inr (inl _) => fun w => (None, w)
  | inr (inr a) => fun w => ((srv a w.2).1, (w.1, (srv a w.2).2))
  end.

Definition plain_world {T API S : Type} `{Effect API} (srv : forall a : API, S -> answer a * S)
  : Cooperative T API (option T * S) S :=
  {| step := plain_step srv; object := fst; server := snd; server_step := srv |}.

Lemma plain_laws {T API S : Type} `{Effect API} (srv : forall a : API, S -> answer a * S) :
  @CooperativeLaws T API _ (option T * S) S (plain_world srv).
Proof. constructor; cbn; try done. intros k w o E. by rewrite E. Qed.

Section cooperative.
Context `{KubeLib} `{!KubeLibLaws} {T : Type} `{Resource T} `{!ResourceLaws T}.
Context {API : Type} `{Effect API} {W S : Type} `{!Cooperative T API W S} `{!CooperativeLaws T API W S}.

Lemma run_lift {R : Type} (p : prog API R) : forall w : W,
  (run step (lift (T:=T) p) w).1 = (run server_step p (server w)).1 /\
  object (run step (lift p) w).2 = object w /\
  server (run step (lift p) w).2 = (run server_step p (server w)).2.
Proof.
  induction p as [r|a k IH]; cbn; intros w; [done|].
  destruct (coop_api a w) as (E1 & E2 & E3).
  destruct (step (inr (inr a)) w) as [x w']. cbn in *. subst x.
  destruct (IH (server_step a (server w)).1 w') as (I1 & I2 & I3).
  rewrite E3 in I1, I3. rewrite I1, I2, I3, E2.
  by destruct (server_step a (server w)).
Qed.

(** Decomposes an execution at a call whose law is known. *)
Ltac step_with L := 
  let E1 := fresh "E" in let E2 := fresh "E" in let E3 := fresh "E" in
  destruct L as (E1 & E2 & E3);
  match type of E1 with
  | (step ?c ?w).1 = _ =>
      let x := fresh "x" in let w' := fresh "w" in
      destruct (step c w) as [x w']; cbn [fst snd] in E1, E2, E3; subst x; cbn beta iota
  end.

Lemma run_with_server {V : Type} ref (body : prog API (fallible V)) (w : W) :
  (run step (with_server (T:=T) ref body) w).1 = (run server_step body (server w)).1 /\
  object (run step (with_server ref body) w).2 = object w /\
  server (run step (with_server ref body) w).2 = (run server_step body (server w)).2.
Proof.
  unfold with_server, resolve. cbn [bind call run].
  step_with (coop_resolve ref w). destruct (run_lift body w0) as (I1 & I2 & I3).
  rewrite E1 in I1, I3. rewrite I1, I2, I3. by split.
Qed.

Lemma setCondition_unchanged (o : T) ty st rs m :
  (setCondition o ty st rs m).2 = false -> (setCondition o ty st rs m).1 = o.
Proof.
  unfold setCondition. intros Hc.
  pose proof (set_unchanged (conditions o) (Condition.mk ty st rs m (ObjectMeta.Generation (meta o)))) as Hu.
  destruct (SetStatusCondition _ _) as [cs ch]. cbn in *. rewrite Hu by done. apply with_conditions_id.
Qed.

Lemma readyStatus_unchanged (reason message : string) (record : T -> T * bool) (o : T) :
  status_only record -> (readyStatus reason message record o).2 = false ->
  (readyStatus reason message record o).1 = o.
Proof.
  intros Hr. unfold readyStatus.
  pose proof (setCondition_unchanged o conditionReady ConditionTrue reason message) as U1.
  destruct (setCondition o conditionReady _ _ _) as [o1 c1].
  pose proof (setCondition_unchanged o1 conditionProgressing ConditionFalse reason message) as U2.
  destruct (setCondition o1 conditionProgressing _ _ _) as [o2 c2].
  pose proof (setCondition_unchanged o2 conditionDegraded ConditionFalse reason message) as U3.
  destruct (setCondition o2 conditionDegraded _ _ _) as [o3 c3].
  pose proof (record_unchanged _ Hr
    (if negb (observedGeneration o3 =? ObjectMeta.Generation (meta o3))
     then with_observedGeneration o3 (ObjectMeta.Generation (meta o3)) else o3)) as U5.
  cbn [fst snd] in U1, U2, U3.
  destruct (negb (observedGeneration o3 =? ObjectMeta.Generation (meta o3))).
  - destruct (record _) as [o5 c5]. cbn. by rewrite orb_true_r.
  - destruct (record o3) as [o5 c5]. cbn in *. intros Hc.
    apply orb_false_iff in Hc as [Hc ->]. rewrite orb_false_r in Hc.
    apply orb_false_iff in Hc as [Hc ->]. apply orb_false_iff in Hc as [-> ->].
    rewrite U5, U3, U2, U1; done.
Qed.

(** The object a successful reconcile leaves behind. *)
Definition reconciled (f reason message : string) (record : T -> T * bool) (o : T) : T :=
  (readyStatus reason message record (add_finalizer o f).1).1.

Lemma run_markReady reason message record key (o : T) (w : W) :
  status_only record -> object w = Some o ->
  (run step (markReady reason message record key) w).1 = None /\
  object (run step (markReady reason message record key) w).2
    = Some (readyStatus reason message record o).1 /\
  server (run step (markReady reason message record key) w).2 = server w.
Proof.
  intros Hr Ho. unfold markReady, kget, kstatus. cbn [bind call run].
  step_with (coop_get key w o Ho).
  pose proof (readyStatus_unchanged reason message record o Hr) as Hu.
  destruct (readyStatus reason message record o) as [o' ch]. cbn [fst snd] in Hu.
  destruct ch; cbn [run call].
  - step_with (coop_status o' w0). cbn. split; [done|]. split; congruence.
  - cbn. rewrite Hu by done. done.
Qed.

(** A reconcile whose work succeeds against the server leaves the finalizer
    registered, the object ready and the server as the work left it. *)
Lemma run_reconcile {V : Type} f finalize degraded reason message
    (ref : T -> SecretReference.t) (body : T -> prog API (fallible V))
    (record : T -> V -> T -> T * bool) key (o : T) (w : W) (v : V) (s' : S) :
  let o1 := (add_finalizer o f).1 in
  object w = Some o -> ObjectMeta.Deleting (meta o) = false ->
  (forall v, status_only (record o1 v)) ->
  run server_step (body o1) (server w) = (inr v, s') ->
  let p := reconcile f finalize (fun o => with_server (ref o) (body o)) degraded
             (fun key o v => markReady reason message (record o v) key) key in
  (run step p w).1 = (driftReconcileInterval, None) /\
  object (run step p w).2 = Some (reconciled f reason message (record o1 v) o) /\
  server (run step p w).2 = s'.
Proof.
  cbn zeta. intros Ho Hdel Hr Hb. unfold reconcile, reconciled, kget, kupdate. cbn [bind call run].
  step_with (coop_get key w o Ho). rewrite Hdel.
  assert (Hrest : forall o1 w1, o1 = (add_finalizer o f).1 -> object w1 = Some o1 -> server w1 = server w ->
    let p1 := (x <- with_server (ref o1) (body o1) ;;
        match x with
        | inl e => degraded key e ;; Ret (0, Some e)
        | inr v => s <- markReady reason message (record o1 v) key ;;
            match s with Some e => Ret (0, Some e) | None => Ret (driftReconcileInterval, None) end
        end) in
    (run step p1 w1).1 = (driftReconcileInterval, None) /\
    object (run step p1 w1).2 = Some (readyStatus reason message (record o1 v) o1).1 /\
    server (run step p1 w1).2 = s').
  { cbn zeta. intros o1 w1 -> Ho1 Hs1. rewrite run_bind.
    destruct (run_with_server (ref (add_finalizer o f).1) (body (add_finalizer o f).1) w1) as (I1 & I2 & I3).
    rewrite Hs1, Hb in I1, I3. cbn [fst snd] in I1, I3. rewrite I1. rewrite run_bind.
    rewrite Ho1 in I2.
    destruct (run_markReady reason message _ key _ _ (Hr v) I2) as (J1 & J2 & J3).
    rewrite J1. cbn [run fst snd]. rewrite J2, J3. done. }
  pose proof (add_finalizer_unchanged o f) as Hu.
  destruct (add_finalizer o f) as [o1 added] eqn:Ea. cbn [fst snd] in *.
  destruct added; cbn [bind call run].
  - step_with (coop_update o1 w0). apply Hrest; [done..|congruence].
  - rewrite Hu in Hrest |- * by done. by apply Hrest.
Qed.

Lemma add_finalizer_spec (o : T) f : spec_of (add_finalizer o f).1 = spec_of o.
Proof. unfold add_finalizer. destruct (AddFinalizer _ _). apply spec_with_meta. Qed.

Lemma setCondition_spec (o : T) ty st rs m : spec_of (setCondition o ty st rs m).1 = spec_of o.
Proof. unfold setCondition. destruct (SetStatusCondition _ _). apply spec_with_conditions. Qed.

Lemma readyStatus_spec reason message record (o : T) :
  status_only record -> spec_of (readyStatus reason message record o).1 = spec_of o.
Proof.
  intros Hr. unfold readyStatus.
  pose proof (setCondition_spec o conditionReady ConditionTrue reason message) as U1.
  destruct (setCondition o conditionReady _ _ _) as [o1 c1].
  pose proof (setCondition_spec o1 conditionProgressing ConditionFalse reason message) as U2.
  destruct (setCondition o1 conditionProgressing _ _ _) as [o2 c2].
  pose proof (setCondition_spec o2 conditionDegraded ConditionFalse reason message) as U3.
  destruct (setCondition o2 conditionDegraded _ _ _) as [o3 c3]. cbn [fst] in *.
  match goal with |- context [record ?x] =>
    pose proof (record_spec _ Hr x) as U4; destruct (record x) as [o4 c4] end.
  cbn [fst] in *. rewrite U4. dmatch; rewrite ?spec_with_observed; congruence.
Qed.

Lemma reconciled_spec f reason message record (o : T) :
  status_only record -> spec_of (reconciled f reason message record o) = spec_of o.
Proof. intros Hr. unfold reconciled. by rewrite readyStatus_spec, add_finalizer_spec. Qed.

Lemma reconciled_meta f reason message record (o : T) :
  status_only record ->
  ObjectMeta.Deleting (meta (reconciled f reason message record o)) = ObjectMeta.Deleting (meta o).
Proof.
  intros Hr. unfold reconciled.
  destruct (readyStatus_ready reason message record (add_finalizer o f).1 Hr) as (_ & _ & ->).
  unfold add_finalizer. destruct (AddFinalizer _ _). cbn. by rewrite meta_with_meta.
Qed.

Lemma reconciled_settled f reason message record (o : T) :
  status_only record ->
  record (reconciled f reason message record o) = (reconciled f reason message record o, false).
Proof. intros Hr. unfold reconciled. by apply readyStatus_ready. Qed.

Lemma reconciled_ready f reason message record (o : T) :
  status_only record ->
  is_ready reason message (reconciled f reason message record o) /\
  has_finalizer (reconciled f reason message record o) f = true.
Proof.
  intros Hr. unfold reconciled.
  destruct (readyStatus_ready reason message record (add_finalizer o f).1 Hr) as (R1 & _ & R3).
  split; [done|]. unfold has_finalizer. rewrite R3. apply has_finalizer_add.
Qed.

(** A reconcile whose work fails reports the error and marks the object. *)
Lemma run_reconcile_failed {V : Type} f finalize
    (ref : T -> SecretReference.t) (body : T -> prog API (fallible V))
    ready key (o : T) (w : W) (e : error) (s' : S) :
  let o1 := (add_finalizer o f).1 in
  object w = Some o -> ObjectMeta.Deleting (meta o) = false ->
  run server_step (body o1) (server w) = (inl e, s') ->
  let p := reconcile f finalize (fun o => with_server (ref o) (body o)) markDegraded ready key in
  (run step p w).1 = (0, Some e) /\
  object (run step p w).2 = Some (degradedStatus e o1) /\
  server (run step p w).2 = s'.
Proof.
  cbn zeta. intros Ho Hdel Hb. unfold reconcile, kget, kupdate. cbn [bind call run].
  step_with (coop_get key w o Ho). rewrite Hdel.
  assert (Hrest : forall o1 w1, o1 = (add_finalizer o f).1 -> object w1 = Some o1 -> server w1 = server w ->
    let p1 := (x <- with_server (ref o1) (body o1) ;;
        match x with
        | inl e => markDegraded key e ;; Ret (0, Some e)
        | inr v => s <- ready key o1 v ;;
            match s with Some e => Ret (0, Some e) | None => Ret (driftReconcileInterval, None) end
        end) in
    (run step p1 w1).1 = (0, Some e) /\
    object (run step p1 w1).2 = Some (degradedStatus e o1) /\
    server (run step p1 w1).2 = s').
  { cbn zeta. intros o1 w1 -> Ho1 Hs1. rewrite run_bind.
    destruct (run_with_server (ref (add_finalizer o f).1) (body (add_finalizer o f).1) w1) as (I1 & I2 & I3).
    rewrite Hs1, Hb in I1, I3. cbn [fst snd] in I1, I3. rewrite I1.
    rewrite Ho1 in I2. unfold markDegraded, kget, kstatus. cbn [bind call run].
    destruct (run step (with_server _ _) w1) as [r2 w2]. cbn [fst snd] in *.
    step_with (coop_get key w2 _ I2). cbn [bind call run].
    step_with (coop_status (degradedStatus e (add_finalizer o f).1) w3).
    cbn. split; [done|]. split; congruence. }
  pose proof (add_finalizer_unchanged o f) as Hu.
  destruct (add_finalizer o f) as [o1 added] eqn:Ea. cbn [fst snd] in *.
  destruct added; cbn [bind call run].
  - step_with (coop_update o1 w0). apply Hrest; [done..|congruence].
  - rewrite Hu in Hrest |- * by done. by apply Hrest.
Qed.

Definition on_server (a : API) : calls T API := inr (inr a).

Lemma requests_app (tr tr' : list (event (calls T API))) :
  requests (tr ++ tr') = (requests tr ++ requests tr')%list.
Proof. apply map_app. Qed.

Lemma requests_cons (e : event (calls T API)) (tr : list (event (calls T API))) :
  requests (e :: tr) = projT1 e :: requests tr.
Proof. reflexivity. Qed.

Lemma history_lift {R : Type} (p : prog API R) : forall w : W,
  requests (history step (lift (T:=T) p) w)
  = map on_server (map projT1 (history server_step p (server w))).
Proof.
  induction p as [r|a k IH]; intros w; [done|]. cbn [lift history].
  destruct (coop_api a w) as (E1 & E2 & E3).
  destruct (step (inr (inr a)) w) as [x w']. cbn [fst snd] in *. subst x.
  rewrite requests_cons, IH, E3.
  by destruct (server_step a (server w)).
Qed.

(** A reconcile of an object that is already in its final state writes nothing
    to Kubernetes. *)
Lemma history_reconcile_settled {V : Type} f finalize degraded reason message
    (ref : T -> SecretReference.t) (body : T -> prog API (fallible V))
    (record : T -> V -> T -> T * bool) key (o : T) (w : W) (v : V) (s' : S) :
  object w = Some o -> ObjectMeta.Deleting (meta o) = false ->
  has_finalizer o f = true -> is_ready reason message o -> record o v o = (o, false) ->
  run server_step (body o) (server w) = (inr v, s') ->
  requests (history step (reconcile f finalize (fun o => with_server (ref o) (body o)) degraded
             (fun key o v => markReady reason message (record o v) key) key) w)
  = ([inl (KGet key); inr (inl (ResolveServer (ref o)))]
     ++ map on_server (map projT1 (history server_step (body o) (server w)))
     ++ [inl (KGet key)])%list.
Proof.
  intros Ho Hdel Hf Hready Hrec Hb. unfold reconcile, kget. cbn [bind call history].
  step_with (coop_get key w o Ho). rewrite Hdel, (add_finalizer_same o f Hf). cbn [bind].
  unfold with_server, resolve. cbn [bind call history].
  step_with (coop_resolve (ref o) w0). cbn [bind].
  rewrite !requests_cons, history_bind, requests_app. cbn [projT1 app]. do 2 f_equal.
  destruct (run_lift (body o) w1) as (I1 & I2 & I3).
  f_equal.
  { rewrite history_lift. by rewrite E3, E1. }
  rewrite E3, E1, Hb in I1. rewrite I1. cbn [fst].
  rewrite E2 in I2.
  unfold markReady, kget. cbn [bind call history].
  step_with (coop_get key _ o ltac:(rewrite I2; exact E0)). cbn [bind].
  rewrite readyStatus_settled by done. reflexivity.
Qed.

(** Calls that write nothing: Kubernetes reads, [serverRef] lookups and the
    server calls in [reads]. *)
Definition reads_only (reads : API -> bool) (c : calls T API) : bool :=
  match c with
  | inl (KGet _) => true
  | inl _ => false
  | inr (inl _) => true
  | inr (inr a) => reads a
  end.

(** What a first successful reconcile leaves, and that a second one only reads. *)
Lemma reconcile_settles {V : Type} f finalize degraded reason message
    (ref : T -> SecretReference.t) (body : T -> prog API (fallible V))
    (record : T -> V -> T -> T * bool) reads key (o : T) (w : W) (v v' : V) (s' s'' : S) :
  let o1 := (add_finalizer o f).1 in
  let o' := reconciled f reason message (record o1 v) o in
  let p := reconcile f finalize (fun o => with_server (ref o) (body o)) degraded
             (fun key o v => markReady reason message (record o v) key) key in
  object w = Some o -> ObjectMeta.Deleting (meta o) = false ->
  (forall v, status_only (record o1 v)) ->
  run server_step (body o1) (server w) = (inr v, s') ->
  run server_step (body o') s' = (inr v', s'') ->
  record o' v' = record o1 v ->
  Forall (fun a => reads a = true) (map projT1 (history server_step (body o') s')) ->
  let w1 := (run step p w).2 in
  (run step p w).1 = (driftReconcileInterval, None) /\
  server w1 = s' /\ object w1 = Some o' /\
  has_finalizer o' f = true /\ is_ready reason message o' /\ record o1 v o' = (o', false) /\
  spec_of o' = spec_of o /\
  Forall (fun c => reads_only reads c = true) (requests (history step p w1)).
Proof.
  cbn zeta. intros Ho Hdel Hso Hb Hb' Hrec Hreads.
  destruct (run_reconcile f finalize degraded reason message ref body record key o w v s' Ho Hdel Hso Hb)
    as (E1 & E2 & E3).
  destruct (reconciled_ready f reason message _ o (Hso v)) as [Hr Hf].
  pose proof (reconciled_settled f reason message _ o (Hso v)) as Hset.
  pose proof (reconciled_spec f reason message _ o (Hso v)) as Hspec.
  pose proof (reconciled_meta f reason message _ o (Hso v)) as Hm.
  set (o1 := (add_finalizer o f).1) in *.
  set (o' := reconciled f reason message (record o1 v) o) in *.
  split_and!; try done.
  rewrite (history_reconcile_settled f finalize degraded reason message ref body record key o' _ v' s'' E2);
    try congruence.
  rewrite !Forall_app. split; [by repeat constructor|]. split; [|by repeat constructor].
  rewrite E3. apply Forall_fmap. exact Hreads.
Qed.
End cooperative.
