(* ===== verification/ClusterTypes.v ===== *)
(** * [api/v1alpha1/technitiumcluster_types.go]

    The [TechnitiumCluster] resource.  The values the operator only copies into
    the pod template (resources, affinity, topology spread constraints,
    tolerations) are kept as their JSON text; times are Unix times. *)

From S2P Require Import Prelude GoStrings GoErrors Effects Kube Lifecycle.

Local Open Scope string_scope.
Local Open Scope Z_scope.

(** [intstr.IntOrString]. *)
Inductive IntOrString := IsInt (n : Z) | IsString (s : string).
#[export] Instance IntOrString_eq_dec : EqDecision IntOrString.
Proof. solve_decision. Defined.

Module PodDisruptionBudgetSpec.
Record t := mk { Enabled : option bool; MaxUnavailable : option IntOrString }.
End PodDisruptionBudgetSpec.

Definition TechnitiumClusterPhasePending : string := "Pending".
Definition TechnitiumClusterPhaseProvisioning : string := "Provisioning".
Definition TechnitiumClusterPhaseBootstrapping : string := "Bootstrapping".
Definition TechnitiumClusterPhaseClustering : string := "Clustering".
Definition TechnitiumClusterPhaseReady : string := "Ready".

Definition TechnitiumClusterConditionAvailable : string := "Available".
Definition TechnitiumClusterConditionProgressing : string := "Progressing".
Definition TechnitiumClusterConditionDegraded : string := "Degraded".
Definition TechnitiumClusterConditionUpgrading : string := "Upgrading".
Definition AllowDowngradeAnnotation : string := "dns.packet.fail/allow-downgrade".

Definition PVCRetentionPolicyRetain : string := "Retain".
Definition PVCRetentionPolicyDelete : string := "Delete".

Module StorageSpec.
Record t := mk { Size : string; StorageClassName : option string; RetentionPolicy : string }.
End StorageSpec.

Module ReplicaServiceOverride.
Record t := mk { Ordinal : Z; Annotations : gmap string string }.
End ReplicaServiceOverride.

Module PerReplicaServiceSpec.
Record t := mk {
  Type_ : string;
  ExternalTrafficPolicy : string;
  Annotations : gmap string string;
  Ordinals : list ReplicaServiceOverride.t
}.
End PerReplicaServiceSpec.

Module PrimaryServiceSpec.
Record t := mk {
  Enabled : bool;
  Type_ : string;
  ExternalTrafficPolicy : string;
  Annotations : gmap string string
}.
End PrimaryServiceSpec.

Module ServiceSpec_.
Record t := mk {
  Type_ : string;
  Annotations : gmap string string;
  ExternalTrafficPolicy : string;
  ExposeAPI : option bool;
  PerReplica : option PerReplicaServiceSpec.t;
  Primary : option PrimaryServiceSpec.t
}.
End ServiceSpec_.

Module TechnitiumClusterSpec.
Record t := mk {
  Image : string;
  Replicas : option Z;
  Storage : StorageSpec.t;
  Resources : string;
  Affinity : option string;
  TopologySpreadConstraints : string;
  Tolerations : string;
  NodeSelector : gmap string string;
  PriorityClassName : string;
  Service : ServiceSpec_.t;
  PodDisruptionBudget : PodDisruptionBudgetSpec.t;
  AdminSecretRef : option SecretReference.t;
  DNSServerDomain : string;
  ClusterDomain : string;
  DeletionPolicy : string
}.
(** A spec with another image. *)
Definition with_Image (s : t) (image : string) : t :=
  mk image (Replicas s) (Storage s) (Resources s) (Affinity s) (TopologySpreadConstraints s) (Tolerations s)
     (NodeSelector s) (PriorityClassName s) (Service s) (PodDisruptionBudget s) (AdminSecretRef s)
     (DNSServerDomain s) (ClusterDomain s) (DeletionPolicy s).
End TechnitiumClusterSpec.

Module NodeStatus.
Record t := mk {
  Name : string;
  Role : string;
  State : string;
  Version : string;
  LastSynced : option Z;
  Message : string
}.
#[export] Instance t_eq_dec : EqDecision t.
Proof. solve_decision. Defined.
End NodeStatus.
#[export] Existing Instance NodeStatus.t_eq_dec.

Module RolloutStatus.
Record t := mk { Node : string; NodeStartedTime : Z }.
#[export] Instance t_eq_dec : EqDecision t.
Proof. solve_decision. Defined.
End RolloutStatus.
#[export] Existing Instance RolloutStatus.t_eq_dec.

Module TechnitiumClusterStatus.
Record t := mk {
  Conditions : list Condition.t;
  Phase : string;
  ReadyReplicas : Z;
  Endpoint : string;
  PrimaryEndpoint : string;
  PrimaryService : string;
  ObservedGeneration : Z;
  Nodes : list NodeStatus.t;
  Version : string;
  Members : string;
  Rollout : option RolloutStatus.t
}.
#[export] Instance t_eq_dec : EqDecision t.
Proof. solve_decision. Defined.
Definition empty : t := mk [] "" 0 "" "" "" 0 [] "" "" None.
Definition with_Rollout (s : t) (r : option RolloutStatus.t) : t :=
  mk (Conditions s) (Phase s) (ReadyReplicas s) (Endpoint s) (PrimaryEndpoint s) (PrimaryService s)
     (ObservedGeneration s) (Nodes s) (Version s) (Members s) r.
End TechnitiumClusterStatus.
#[export] Existing Instance TechnitiumClusterStatus.t_eq_dec.

Module TechnitiumCluster.
Record t := mk {
  Meta : ObjectMeta.t;
  Spec : TechnitiumClusterSpec.t;
  Status : TechnitiumClusterStatus.t
}.
Definition Name (tc : t) : string := ObjectMeta.Name (Meta tc).
Definition with_Status (tc : t) (s : TechnitiumClusterStatus.t) : t := mk (Meta tc) (Spec tc) s.
Definition with_Meta (tc : t) (m : ObjectMeta.t) : t := mk m (Spec tc) (Status tc).
Definition with_Spec (tc : t) (s : TechnitiumClusterSpec.t) : t := mk (Meta tc) s (Status tc).
End TechnitiumCluster.

#[export] Instance TechnitiumCluster_Resource : Resource TechnitiumCluster.t := {|
  meta := TechnitiumCluster.Meta;
  with_meta := TechnitiumCluster.with_Meta;
  conditions tc := TechnitiumClusterStatus.Conditions (TechnitiumCluster.Status tc);
  with_conditions tc cs :=
    let s := TechnitiumCluster.Status tc in
    TechnitiumCluster.with_Status tc (TechnitiumClusterStatus.mk cs
      (TechnitiumClusterStatus.Phase s) (TechnitiumClusterStatus.ReadyReplicas s)
      (TechnitiumClusterStatus.Endpoint s) (TechnitiumClusterStatus.PrimaryEndpoint s)
      (TechnitiumClusterStatus.PrimaryService s) (TechnitiumClusterStatus.ObservedGeneration s)
      (TechnitiumClusterStatus.Nodes s) (TechnitiumClusterStatus.Version s)
      (TechnitiumClusterStatus.Members s) (TechnitiumClusterStatus.Rollout s));
  observedGeneration tc := TechnitiumClusterStatus.ObservedGeneration (TechnitiumCluster.Status tc);
  with_observedGeneration tc g :=
    let s := TechnitiumCluster.Status tc in
    TechnitiumCluster.with_Status tc (TechnitiumClusterStatus.mk (TechnitiumClusterStatus.Conditions s)
      (TechnitiumClusterStatus.Phase s) (TechnitiumClusterStatus.ReadyReplicas s)
      (TechnitiumClusterStatus.Endpoint s) (TechnitiumClusterStatus.PrimaryEndpoint s)
      (TechnitiumClusterStatus.PrimaryService s) g
      (TechnitiumClusterStatus.Nodes s) (TechnitiumClusterStatus.Version s)
      (TechnitiumClusterStatus.Members s) (TechnitiumClusterStatus.Rollout s));
  spec_of := TechnitiumCluster.Spec
|}.

#[export] Instance TechnitiumCluster_ResourceLaws : ResourceLaws TechnitiumCluster.t.
Proof. constructor; intros [m sp []]; reflexivity. Qed.

(** [clusterDomainFor] ([internal/controller/technitiumcluster_controller.go]). *)
Definition clusterDomainFor (tc : TechnitiumCluster.t) : string :=
  let spec := TechnitiumCluster.Spec tc in
  if negb (String.eqb (TechnitiumClusterSpec.ClusterDomain spec) "") then TechnitiumClusterSpec.ClusterDomain spec
  else if negb (String.eqb (TechnitiumClusterSpec.DNSServerDomain spec) "") then TechnitiumClusterSpec.DNSServerDomain spec
  else TechnitiumCluster.Name tc +:+ ".local".
