(* ===== verification/Zone.v ===== *)
(** * The Zone resource

    [api/v1alpha1/zone_types.go] and [internal/controller/zone_controller.go]. *)

From S2P Require Import Prelude GoStrings GoErrors Effects Kube Lifecycle ClusterTypes ZonesAPI.

Local Open Scope string_scope.
Local Open Scope Z_scope.
Local Open Scope go_scope.
Local Open Scope prog_scope.

(** ** The resource *)

Definition ZoneTypePrimary : string := "Primary".
Definition ZoneTypeSecondary : string := "Secondary".
Definition ZoneTypeStub : string := "Stub".
Definition ZoneTypeForwarder : string := "Forwarder".
Definition ZoneTypeCatalog : string := "Catalog".

Module ForwarderProxy.
Record t := mk {
  Type_ : string;
  Address : option string;
  Port : option Z;
  Username : option string;
  Password : option string
}.
End ForwarderProxy.

Module ZoneSpec.
Record t := mk {
  ZoneName : string;
  ServerRef : SecretReference.t;
  Type_ : string;
  PrimaryNameServerAddresses : list string;
  Forwarder : option string;
  ForwarderProtocol : option string;
  Catalog : option string;
  DNSSECValidation : option bool;
  ForwarderProxy : option ForwarderProxy.t;
  DeletionPolicy : string
}.
End ZoneSpec.

Module ZoneStatus.
Record t := mk { Conditions : list Condition.t; ObservedGeneration : Z; ZoneCreated : bool }.
End ZoneStatus.

Module Zone.
Record t := mk { Meta : ObjectMeta.t; Spec : ZoneSpec.t; Status : ZoneStatus.t }.
End Zone.

#[export] Instance Zone_Resource : Resource Zone.t := {|
  meta := Zone.Meta;
  with_meta z m := Zone.mk m (Zone.Spec z) (Zone.Status z);
  conditions z := ZoneStatus.Conditions (Zone.Status z);
  with_conditions z cs := Zone.mk (Zone.Meta z) (Zone.Spec z)
    (ZoneStatus.mk cs (ZoneStatus.ObservedGeneration (Zone.Status z)) (ZoneStatus.ZoneCreated (Zone.Status z)));
  observedGeneration z := ZoneStatus.ObservedGeneration (Zone.Status z);
  with_observedGeneration z g := Zone.mk (Zone.Meta z) (Zone.Spec z)
    (ZoneStatus.mk (ZoneStatus.Conditions (Zone.Status z)) g (ZoneStatus.ZoneCreated (Zone.Status z)));
  spec_of := Zone.Spec
|}.

#[export] Instance Zone_ResourceLaws : ResourceLaws Zone.t.
Proof. constructor; intros [m sp []]; reflexivity. Qed.

(** ** The controller *)

Definition zoneFinalizer : string := "dns.packet.fail/zone-cleanup".

(** [ZoneAPI], and the lookup of the referenced TechnitiumCluster. *)
Inductive zoneE : Type :=
| ZoneCreate (opts : CreateZoneOptions.t)
| ZoneGetOptions (zone : string)
| ZoneSetOptions (zone : string) (opts : ZoneOptionsUpdate.t)
| ZoneDelete (zone : string)
| GetCluster (name : string).
#[export] Instance zoneE_Effect : Effect zoneE := fun c => match c with
| ZoneCreate _ | ZoneSetOptions _ _ | ZoneDelete _ => option error
| ZoneGetOptions _ => fallible ZoneOptions.t
| GetCluster _ => fallible TechnitiumCluster.t
end.

Definition clusterCatalogZone (tc : TechnitiumCluster.t) : string :=
  "cluster-catalog." +:+ clusterDomainFor tc.

(** The zone types that can join a catalog. *)
Definition joins_catalog (type : string) : bool :=
  (type =s? "") || (type =s? ZoneTypePrimary) || (type =s? ZoneTypeSecondary)
  || (type =s? ZoneTypeStub) || (type =s? ZoneTypeForwarder).

Definition desiredCatalog (zone : Zone.t) : prog zoneE (fallible (option string)) :=
  let spec := Zone.Spec zone in
  match ZoneSpec.Catalog spec with
  | Some c => ok (Some c)
  | None =>
      if negb (joins_catalog (ZoneSpec.Type_ spec)) then ok None
      else
        r <- call (GetCluster (SecretReference.Name (ZoneSpec.ServerRef spec))) ;;
        match (r : fallible TechnitiumCluster.t) with
        | inl err => match IgnoreNotFound err with Some err => fail err | None => ok None end
        | inr tc =>
            match TechnitiumClusterSpec.Replicas (TechnitiumCluster.Spec tc) with
            | None => ok None
            | Some n => if n <=? 1 then ok None else ok (Some (clusterCatalogZone tc))
            end
        end
  end.

Definition createOptionsFromSpec (zone : Zone.t) (catalog : option string) : CreateZoneOptions.t :=
  let spec := Zone.Spec zone in
  let proxy := ZoneSpec.ForwarderProxy spec in
  CreateZoneOptions.mk
    (ZoneSpec.ZoneName spec)
    (ZoneSpec.Type_ spec)
    (default "" catalog)
    (default "" (ZoneSpec.Forwarder spec))
    (default "" (ZoneSpec.ForwarderProtocol spec))
    (ZoneSpec.PrimaryNameServerAddresses spec)
    (ZoneSpec.DNSSECValidation spec)
    (default "" (ForwarderProxy.Type_ <$> proxy))
    (default "" (proxy ≫= ForwarderProxy.Address))
    (proxy ≫= ForwarderProxy.Port)
    (default "" (proxy ≫= ForwarderProxy.Username))
    (default "" (proxy ≫= ForwarderProxy.Password)).

(** The update [reconcileOptions] computes. *)
Definition optionsUpdate (zone : Zone.t) (current : ZoneOptions.t) (catalog : option string)
  : ZoneOptionsUpdate.t :=
  ZoneOptionsUpdate.mk
    (match catalog with
     | Some c => if negb (ZoneOptions.Catalog current =s? c) then Some c else None
     | None => None
     end)
    None
    (match ZoneSpec.DNSSECValidation (Zone.Spec zone) with
     | Some v => if negb (Bool.eqb (ZoneOptions.DnssecValidation current) v) then Some v else None
     | None => None
     end).

Definition reconcileOptions (zone : Zone.t) (current : ZoneOptions.t) (catalog : option string)
  : prog zoneE (option error) :=
  let update := optionsUpdate zone current catalog in
  if bool_decide (update = ZoneOptionsUpdate.mk None None None) then Ret None
  else call (ZoneSetOptions (ZoneSpec.ZoneName (Zone.Spec zone)) update).

(** [reconcileZone], once the client is resolved. *)
Definition reconcileZone_body (zone : Zone.t) : prog zoneE (fallible unit) :=
  let name := ZoneSpec.ZoneName (Zone.Spec zone) in
  try catalog <- desiredCatalog zone ;;
  r <- call (ZoneGetOptions name) ;;
  match (r : fallible ZoneOptions.t) with
  | inr current => checkV reconcileOptions zone current catalog ;; ok tt
  | inl err =>
      if negb (Is err ErrZoneNotFound) then fail err
      else
        c <- call (ZoneCreate (createOptionsFromSpec zone catalog)) ;;
        match (c : option error) with
        | Some err => if negb (Is err ErrZoneAlreadyExists) then fail err else ok tt
        | None => ok tt
        end
  end.

(** The server-side part of [finalizeZone]. *)
Definition deleteZone_body (zone : Zone.t) : prog zoneE (option error) :=
  r <- call (ZoneDelete (ZoneSpec.ZoneName (Zone.Spec zone))) ;;
  match (r : option error) with
  | Some err => if negb (Is err ErrZoneNotFound) then Ret (Some err) else Ret None
  | None => Ret None
  end.

Definition recordZoneCreated (zone : Zone.t) : Zone.t * bool :=
  if ZoneStatus.ZoneCreated (Zone.Status zone) then (zone, false)
  else (Zone.mk (Zone.Meta zone) (Zone.Spec zone)
          (ZoneStatus.mk (ZoneStatus.Conditions (Zone.Status zone))
             (ZoneStatus.ObservedGeneration (Zone.Status zone)) true), true).

Definition zone_orphan (zone : Zone.t) : bool :=
  ZoneSpec.DeletionPolicy (Zone.Spec zone) =s? DeletionPolicyOrphan.
Definition zone_ref (zone : Zone.t) : SecretReference.t := ZoneSpec.ServerRef (Zone.Spec zone).

Section controller.
Context `{KubeLib}.

Definition finalizeZone (zone : Zone.t) : prog (calls Zone.t zoneE) (option error) :=
  finalize_with zoneFinalizer zone_orphan zone_ref (fun z => lift (deleteZone_body z)) zone.

Definition reconcileZone (zone : Zone.t) : prog (calls Zone.t zoneE) (fallible unit) :=
  with_server (zone_ref zone) (reconcileZone_body zone).

Definition zoneMarkReady (key : ObjectKey) : prog (calls Zone.t zoneE) (option error) :=
  markReady "ZoneReady" "Zone reconciled on the Technitium server" recordZoneCreated key.

Definition zoneReconcile (key : ObjectKey) : prog (calls Zone.t zoneE) (Z * option error) :=
  reconcile zoneFinalizer finalizeZone reconcileZone markDegraded (fun key _ _ => zoneMarkReady key) key.
End controller.

(** [zonesForCluster], over the listed Zones. *)
Definition zonesForCluster (cluster : string) (zones : list Zone.t) : list ObjectKey :=
  omap (fun z => if SecretReference.Name (zone_ref z) =s? cluster
                 then Some {| KeyNamespace := ObjectMeta.Namespace (Zone.Meta z);
                              KeyName := ObjectMeta.Name (Zone.Meta z) |}
                 else None) zones.

(** ** A Technitium server, as the controller relies on it

    [zones] is what the server hosts, [cluster_named] what the Kubernetes API
    holds under a TechnitiumCluster name.  Reads change nothing; a missing zone
    is reported as [ErrZoneNotFound]; create and set store what they are given. *)
Class ZoneServer (S : Type) := {
  zone_step : forall a : zoneE, S -> answer a * S;
  zones : S -> gmap string ZoneOptions.t;
  cluster_named : S -> string -> fallible TechnitiumCluster.t
}.

Definition apply_update (u : ZoneOptionsUpdate.t) (z : ZoneOptions.t) : ZoneOptions.t :=
  ZoneOptions.mk (ZoneOptions.Name z) (ZoneOptions.Type_ z) (ZoneOptions.Internal z)
    (ZoneOptions.DNSSECStatus z) (default (ZoneOptions.Disabled z) (ZoneOptionsUpdate.Disabled u))
    (default (ZoneOptions.Catalog z) (ZoneOptionsUpdate.Catalog u))
    (default (ZoneOptions.DnssecValidation z) (ZoneOptionsUpdate.DNSSECValidation u)).

Class ZoneServerLaws (S : Type) `{!ZoneServer S} : Prop := {
  zs_cluster n s : zone_step (GetCluster n) s = (cluster_named s n, s);
  zs_get n s z : zones s !! n = Some z -> zone_step (ZoneGetOptions n) s = (inr z, s);
  zs_get_none n s : zones s !! n = None ->
    exists e, zone_step (ZoneGetOptions n) s = (inl e, s) /\ Is e ErrZoneNotFound = true;
  zs_create opts s : zones s !! CreateZoneOptions.Zone opts = None ->
    exists z s', zone_step (ZoneCreate opts) s = (None, s') /\
      zones s' = <[CreateZoneOptions.Zone opts := z]> (zones s) /\
      ZoneOptions.Catalog z = CreateZoneOptions.Catalog opts /\
      (forall v, CreateZoneOptions.DNSSECValidation opts = Some v -> ZoneOptions.DnssecValidation z = v) /\
      cluster_named s' = cluster_named s;
  zs_set n u s z : zones s !! n = Some z ->
    exists s', zone_step (ZoneSetOptions n u) s = (None, s') /\
      zones s' = <[n := apply_update u z]> (zones s) /\ cluster_named s' = cluster_named s
}.

(** The zone on the server agrees with what the spec asks for. *)
Record zone_in_sync (zone : Zone.t) (catalog : option string) (z : ZoneOptions.t) : Prop := {
  sync_catalog c : catalog = Some c -> ZoneOptions.Catalog z = c;
  sync_dnssec v : ZoneSpec.DNSSECValidation (Zone.Spec zone) = Some v -> ZoneOptions.DnssecValidation z = v
}.

Definition zone_reads (a : zoneE) : bool :=
  match a with ZoneGetOptions _ | GetCluster _ => true | _ => false end.

Lemma optionsUpdate_in_sync (zone : Zone.t) (catalog : option string) (z : ZoneOptions.t) :
  optionsUpdate zone z catalog = ZoneOptionsUpdate.mk None None None <-> zone_in_sync zone catalog z.
Proof.
  unfold optionsUpdate. split.
  - intros E. injection E as Ec Ev. constructor.
    + intros c ->. by destruct (String.eqb_spec (ZoneOptions.Catalog z) c).
    + intros v Hv. rewrite Hv in Ev. by destruct (Bool.eqb_spec (ZoneOptions.DnssecValidation z) v).
  - intros [Hc Hv]. f_equal.
    + destruct catalog as [c|]; [|done]. by rewrite (Hc c eq_refl), String.eqb_refl.
    + destruct (ZoneSpec.DNSSECValidation _) as [v|] eqn:E; [|done].
      by rewrite (Hv v eq_refl), Bool.eqb_reflx.
Qed.

Lemma apply_update_in_sync (zone : Zone.t) (catalog : option string) (z : ZoneOptions.t) :
  zone_in_sync zone catalog (apply_update (optionsUpdate zone z catalog) z).
Proof.
  constructor; unfold apply_update, optionsUpdate; cbn.
  - intros c ->. by destruct (String.eqb_spec (ZoneOptions.Catalog z) c).
  - intros v ->. by destruct (Bool.eqb_spec (ZoneOptions.DnssecValidation z) v).
Qed.

Section server_proofs.
Context {S : Type} `{!ZoneServer S} `{!ZoneServerLaws S}.

Lemma run_desiredCatalog (zone : Zone.t) (s : S) :
  (run zone_step (desiredCatalog zone) s).2 = s.
Proof.
  unfold desiredCatalog. repeat (dmatch; [done|]); cbn; repeat dmatch; try done.
  all: rewrite zs_cluster in *; simplify_eq; by repeat dmatch.
Qed.

Lemma desiredCatalog_congr (zone : Zone.t) (s s' : S) :
  cluster_named s' = cluster_named s ->
  (run zone_step (desiredCatalog zone) s').1 = (run zone_step (desiredCatalog zone) s).1.
Proof.
  intros E. unfold desiredCatalog. repeat (dmatch; [done|]); cbn.
  destruct (ZoneSpec.Catalog _); [done|]. destruct (negb _); [done|]. cbn.
  rewrite !zs_cluster, E. by repeat dmatch.
Qed.

(** The catalog [desiredCatalog] resolves to. *)
Definition desired (zone : Zone.t) (s : S) : fallible (option string) :=
  (run zone_step (desiredCatalog zone) s).1.

Lemma run_desired (zone : Zone.t) (s : S) catalog :
  desired zone s = inr catalog -> run zone_step (desiredCatalog zone) s = (inr catalog, s).
Proof.
  unfold desired. intros E. pose proof (run_desiredCatalog zone s) as E2.
  destruct (run _ _ _). cbn in *. by subst.
Qed.

Lemma history_desiredCatalog (zone : Zone.t) (s : S) :
  Forall (fun a => zone_reads a = true) (map projT1 (history zone_step (desiredCatalog zone) s)).
Proof.
  unfold desiredCatalog. destruct (ZoneSpec.Catalog _); [constructor|].
  destruct (negb _); [constructor|]. cbn. rewrite zs_cluster. cbn.
  repeat constructor. repeat (dmatch; try constructor).
Qed.

Abbreviation zone_name zone := (ZoneSpec.ZoneName (Zone.Spec zone)).

Lemma reconcileZone_converges (zone : Zone.t) (s : S) catalog :
  desired zone s = inr catalog ->
  exists z s', run zone_step (reconcileZone_body zone) s = (inr tt, s') /\
    zones s' = <[zone_name zone := z]> (zones s) /\ zone_in_sync zone catalog z /\
    cluster_named s' = cluster_named s.
Proof.
  intros Hd. unfold reconcileZone_body. rewrite run_bind, (run_desired _ _ _ Hd). cbn [fst snd].
  cbn [bind call run]. destruct (zones s !! zone_name zone) as [z|] eqn:Ez.
  - rewrite (zs_get _ _ _ Ez). rewrite run_bind. unfold reconcileOptions. case_bool_decide as Hu.
    + exists z, s. cbn. rewrite insert_id by done. split_and!; try done. by apply optionsUpdate_in_sync.
    + destruct (zs_set _ (optionsUpdate zone z catalog) s z Ez) as (s' & E1 & E2 & E3).
      exists (apply_update (optionsUpdate zone z catalog) z), s'. cbn. rewrite E1. cbn.
      split_and!; try done. apply apply_update_in_sync.
  - destruct (zs_get_none _ _ Ez) as (e & E1 & E2). rewrite E1, E2. cbn.
    destruct (zs_create (createOptionsFromSpec zone catalog) s Ez) as (z & s' & F1 & F2 & F3 & F4 & F5).
    rewrite F1. cbn. exists z, s'. split_and!; try done. constructor; [|exact F4].
    intros c ->. exact F3.
Qed.

Lemma reconcileZone_settled (zone : Zone.t) (s : S) catalog z :
  desired zone s = inr catalog -> zones s !! zone_name zone = Some z -> zone_in_sync zone catalog z ->
  run zone_step (reconcileZone_body zone) s = (inr tt, s) /\
  Forall (fun a => zone_reads a = true) (map projT1 (history zone_step (reconcileZone_body zone) s)).
Proof.
  intros Hd Ez Hs. apply optionsUpdate_in_sync in Hs.
  unfold reconcileZone_body. rewrite run_bind, history_bind, (run_desired _ _ _ Hd). cbn [fst snd].
  cbn [bind call run history]. rewrite (zs_get _ _ _ Ez), run_bind. cbn [history].
  unfold reconcileOptions. rewrite Hs, bool_decide_true by done. cbn. split; [done|].
  rewrite map_app. apply Forall_app. split; [apply history_desiredCatalog|by repeat constructor].
Qed.
End server_proofs.

Lemma recordZoneCreated_status_only : status_only recordZoneCreated.
Proof.
  constructor; intros [m sp [cs g []]]; reflexivity || discriminate.
Qed.

(** Everything the body reads is in the spec. *)
Lemma reconcileZone_body_spec (z z' : Zone.t) :
  Zone.Spec z = Zone.Spec z' -> reconcileZone_body z = reconcileZone_body z'.
Proof.
  intros E. unfold reconcileZone_body, desiredCatalog, reconcileOptions, createOptionsFromSpec, optionsUpdate.
  by rewrite E.
Qed.


(** *** The finalizer *)

(** The zone is gone from the server: the delete succeeded, or there was no
    such zone. *)
Definition zone_deleted (zone : Zone.t) (tr : list (event (calls Zone.t zoneE))) : Prop :=
  exists x, answered (ZoneDelete (ZoneSpec.ZoneName (Zone.Spec zone))) x tr /\
    (x = None \/ exists e, x = Some e /\ Is e ErrZoneNotFound = true).

Lemma deleteZone_confirms (zone : Zone.t) (past : list (event (calls Zone.t zoneE))) :
  holds (lift (deleteZone_body zone)) past (fun tr r => r = None -> zone_deleted zone tr).
Proof.
  cbn. intros [e|]; cbn.
  - destruct (Is e ErrZoneNotFound) eqn:E; cbn; [|done]. intros _. exists (Some e). split.
    + apply in_or_app. right. by left.
    + right. by exists e.
  - intros _. exists None. split; [|by left]. apply in_or_app. right. by left.
Qed.

(** A Zone's finalizer brackets its life on the server.  Whatever the API
    server and the Technitium server answer, no Technitium call is made before
    the finalizer is registered; and the finalizer is only removed from a Zone
    that is being deleted and that is orphaned, or whose TechnitiumCluster is
    gone, or whose zone the server confirmed deleted (or never had). *)
Theorem zoneReconcile_finalizer `{KubeLibLaws} (key : ObjectKey) :
  always (zoneReconcile key) (fun tr _ =>
    guarded zoneFinalizer false tr = true /\
    (released zoneFinalizer tr -> exists zone,
       In (ev (inl (KGet key) : calls Zone.t zoneE) (inr zone)) tr /\
       ObjectMeta.Deleting (meta zone) = true /\
       (zone_orphan zone = true \/ server_gone (zone_ref zone) tr \/ zone_deleted zone tr))).
Proof.
  apply holds_conj; [apply reconcile_guarded|].
  apply (reconcile_released zone_deleted).
  - intros o tr ext (x & Hx & Hd). exists x. split; [apply in_or_app; by left|done].
  - apply deleteZone_confirms.
  - intros o. apply with_server_avoids.
  - intros k e. apply markDegraded_avoids.
  - intros k _ _. apply markReady_avoids.
Qed.

(** *** Zone names and error classification *)

(** What the server says of a zone it does not have. *)
Definition missing_zone_message (name : string) : string := "No such zone was found: " +:+ name.

(** A zone is never created when its name spells another resource.  The
    server reports a missing zone by a message that quotes the zone's name; if
    the name contains "app" or "record", [classifyStatus] takes the message for
    a missing app or record, so against any server that answers so
    [reconcileZone] fails and never sends the create request, although the zone
    is absent. *)
Theorem zone_name_misclassified {S : Type} (srv : forall a : zoneE, S -> answer a * S)
    (zone : Zone.t) (e : error) (s : S) :
  let name := ZoneSpec.ZoneName (Zone.Spec zone) in
  Contains (ToLower name) "app" = true \/ Contains (ToLower name) "record" = true ->
  classifyStatus "error" (missing_zone_message name) = Some e ->
  (forall s, (srv (ZoneGetOptions name) s).1 = inl e) ->
  (exists e', (run srv (reconcileZone_body zone) s).1 = inl e') /\
  (forall opts, ~ In (ZoneCreate opts) (map projT1 (history srv (reconcileZone_body zone) s))).
Proof.
  cbn zeta. intros Hname He Hsrv.
  destruct (classifyStatus_not_zone "error" (missing_zone_message (ZoneSpec.ZoneName (Zone.Spec zone))) e)
    as [Hne _]; [|exact He|].
  { unfold missing_zone_message. rewrite ToLower_app.
    destruct Hname as [Hn|Hn]; [right|left]; by apply Contains_app_r. }
  unfold reconcileZone_body. rewrite run_bind, history_bind.
  assert (Hcat : forall opts, ~ In (ZoneCreate opts) (map projT1 (history srv (desiredCatalog zone) s))).
  { intros opts. unfold desiredCatalog. destruct (ZoneSpec.Catalog _); [intros []|].
    destruct (negb _); [intros []|]. cbn. destruct (srv (GetCluster _) s) as [[er|tc] s']; cbn.
    - destruct (IgnoreNotFound er); cbn; intros [?|[]]; discriminate.
    - repeat dmatch; cbn; intros [?|[]]; discriminate. }
  destruct (run srv (desiredCatalog zone) s).1 as [e'|catalog]; cbn [bind call run history].
  { split; [by exists e'|]. intros opts. rewrite map_app. intros Hin.
    apply in_app_or in Hin as [Hin|[]]. by apply (Hcat opts). }
  specialize (Hsrv (run srv (desiredCatalog zone) s).2).
  destruct (srv (ZoneGetOptions _) _) as [r s']. cbn in Hsrv. subst r. rewrite Hne. cbn.
  split; [by exists e|]. intros opts. rewrite map_app. intros Hin.
  apply in_app_or in Hin as [Hin|[Hin|[]]]; [by apply (Hcat opts)|discriminate].
Qed.

(** ** Examples *)

Definition example_zone (name : string) : Zone.t :=
  Zone.mk (ObjectMeta.named "" "zone")
    (ZoneSpec.mk name (SecretReference.mk "dns" "") "" [] None None None (Some true) None "")
    (ZoneStatus.mk [] 0 false).

Definition example_cluster : TechnitiumCluster.t :=
  TechnitiumCluster.mk (ObjectMeta.named "" "dns")
    (TechnitiumClusterSpec.mk "" (Some 3) (StorageSpec.mk "1Gi" None "") "" None "" "" ∅ ""
       (ServiceSpec_.mk "" ∅ "" None None None) (PodDisruptionBudgetSpec.mk None None) None "" "" "")
    TechnitiumClusterStatus.empty.

(** A server that keeps its zones in a map, next to one three-replica cluster. *)
Definition map_server (a : zoneE) : gmap string ZoneOptions.t -> answer a * gmap string ZoneOptions.t :=
  match a with
  | ZoneCreate opts => fun s =>
      let n := CreateZoneOptions.Zone opts in
      match s !! n with
      | Some _ => (Some (ESentinel ErrZoneAlreadyExists), s)
      | None => (None, <[n := ZoneOptions.mk n (CreateZoneOptions.Type_ opts) false "Unsigned" false
                   (CreateZoneOptions.Catalog opts) (default false (CreateZoneOptions.DNSSECValidation opts))]> s)
      end
  | ZoneGetOptions n => fun s =>
      match s !! n with
      | Some z => (inr z, s)
      | None => (inl (wrap_sentinel ErrZoneNotFound (missing_zone_message n)), s)
      end
  | ZoneSetOptions n u => fun s =>
      match s !! n with
      | Some z => (None, <[n := apply_update u z]> s)
      | None => (Some (ESentinel ErrZoneNotFound), s)
      end
  | ZoneDelete n => fun s => (None, delete n s)
  | GetCluster n => fun s =>
      (if n =s? "dns" then inr example_cluster else inl (EKube NotFound ""), s)
  end.

#[local] Instance map_zones : ZoneServer (gmap string ZoneOptions.t) :=
  {| zone_step := map_server; zones := id;
     cluster_named _ n := if n =s? "dns" then inr example_cluster else inl (EKube NotFound "") |}.

#[local] Instance map_zones_laws : ZoneServerLaws (gmap string ZoneOptions.t).
Proof.
  constructor; cbn; unfold id; intros *.
  - done.
  - intros E. by rewrite E.
  - intros E. rewrite E. by eexists.
  - intros E. rewrite E. eexists _, _. split_and!; try done. by intros v ->.
  - intros E. rewrite E. by eexists.
Qed.

#[local] Existing Instance RefKubeLib.lib.
#[local] Existing Instance RefKubeLib.laws.
#[local] Instance map_world :
  Cooperative Zone.t zoneE (option Zone.t * gmap string ZoneOptions.t) (gmap string ZoneOptions.t) :=
  plain_world map_server.
#[local] Instance map_world_laws :
  CooperativeLaws Zone.t zoneE (option Zone.t * gmap string ZoneOptions.t) (gmap string ZoneOptions.t) :=
  plain_laws map_server.

Definition example_key : ObjectKey := {| KeyNamespace := ""; KeyName := "zone" |}.
Definition example_world (name : string) : option Zone.t * gmap string ZoneOptions.t :=
  (Some (example_zone name), ∅).


Example zoneReconcile_finalizer_witness :
  always (zoneReconcile example_key) (fun tr _ => guarded zoneFinalizer false tr = true).
Proof.
  eapply holds_mono; [|apply (zoneReconcile_finalizer example_key)].
  intros tr r [Hg _]. exact Hg.
Defined.

(** The zone [app.example.com] on a server without it. *)
Definition app_error : error :=
  wrap_sentinel ErrAppNotInstalled (missing_zone_message "app.example.com").
Definition empty_server (a : zoneE) : unit -> answer a * unit :=
  match a with
  | ZoneGetOptions _ => fun s => (inl app_error, s)
  | GetCluster _ => fun s => (inl (EKube NotFound ""), s)
  | ZoneCreate _ | ZoneSetOptions _ _ | ZoneDelete _ => fun s => (None, s)
  end.

Example zone_name_misclassified_witness :
  exists e', (run empty_server (reconcileZone_body (example_zone "app.example.com")) tt).1 = inl e'.
Proof.
  apply (zone_name_misclassified empty_server (example_zone "app.example.com") app_error tt).
  - left. vm_compute. reflexivity.
  - vm_compute. reflexivity.
  - reflexivity.
Defined.
