(* ===== verification/Record.v ===== *)
(** * The Record resource

    [api/v1alpha1/record_types.go] and [internal/controller/record_controller.go]. *)

From S2P Require Import Prelude GoStrings GoErrors Effects Kube Lifecycle ZonesAPI RecordsAPI.

Local Open Scope string_scope.
Local Open Scope Z_scope.
Local Open Scope go_scope.
Local Open Scope prog_scope.

(** ** The resource *)

Definition RecordTypeA : string := "A".
Definition RecordTypeAAAA : string := "AAAA".
Definition RecordTypeCNAME : string := "CNAME".
Definition RecordTypeTXT : string := "TXT".
Definition RecordTypeNS : string := "NS".
Definition RecordTypePTR : string := "PTR".
Definition RecordTypeMX : string := "MX".

Module RecordSpec.
Record t := mk {
  ServerRef : SecretReference.t;
  Zone : string;
  Name : string;
  Type_ : string;
  TTL : option Z;
  Data : string;
  Priority : option Z;
  DeletionPolicy : string
}.
#[export] Instance t_eq_dec : EqDecision t.
Proof. solve_decision. Defined.

Definition with_rdata (s : t) (data : string) (priority : option Z) : t :=
  mk (ServerRef s) (Zone s) (Name s) (Type_ s) (TTL s) data priority (DeletionPolicy s).
End RecordSpec.
#[export] Existing Instance RecordSpec.t_eq_dec.

Module RecordStatus.
Record t := mk {
  Conditions : list Condition.t;
  ObservedGeneration : Z;
  RecordCreated : bool;
  AppliedData : string;
  AppliedPriority : option Z
}.
End RecordStatus.

Module RecordObj.
Record t := mk { Meta : ObjectMeta.t; Spec : RecordSpec.t; Status : RecordStatus.t }.
End RecordObj.

#[export] Instance Record_Resource : Resource RecordObj.t := {|
  meta := RecordObj.Meta;
  with_meta r m := RecordObj.mk m (RecordObj.Spec r) (RecordObj.Status r);
  conditions r := RecordStatus.Conditions (RecordObj.Status r);
  with_conditions r cs :=
    let s := RecordObj.Status r in
    RecordObj.mk (RecordObj.Meta r) (RecordObj.Spec r)
      (RecordStatus.mk cs (RecordStatus.ObservedGeneration s) (RecordStatus.RecordCreated s)
         (RecordStatus.AppliedData s) (RecordStatus.AppliedPriority s));
  observedGeneration r := RecordStatus.ObservedGeneration (RecordObj.Status r);
  with_observedGeneration r g :=
    let s := RecordObj.Status r in
    RecordObj.mk (RecordObj.Meta r) (RecordObj.Spec r)
      (RecordStatus.mk (RecordStatus.Conditions s) g (RecordStatus.RecordCreated s)
         (RecordStatus.AppliedData s) (RecordStatus.AppliedPriority s));
  spec_of := RecordObj.Spec
|}.

#[export] Instance Record_ResourceLaws : ResourceLaws RecordObj.t.
Proof. constructor; intros [m sp []]; reflexivity. Qed.

(** ** The controller *)

Definition recordFinalizer : string := "dns.packet.fail/record-cleanup".
Definition defaultRecordTTL : Z := 3600.

(** [RecordAPI]. *)
Inductive recordE : Type :=
| RecordAdd (opts : AddRecordOptions.t)
| RecordsGet (zone domain : string)
| RecordUpdate (opts : UpdateRecordOptions.t)
| RecordDelete (opts : DeleteRecordOptions.t).
#[export] Instance recordE_Effect : Effect recordE := fun c => match c with
| RecordsGet _ _ => fallible (list Record_.t)
| _ => option error
end.

Definition recordDataMatches (spec : RecordSpec.t) (current : Record_.t) : bool :=
  let ty := RecordSpec.Type_ spec in
  let rd := Record_.RData current in
  if (ty =s? RecordTypeA) || (ty =s? RecordTypeAAAA) then RecordData.IPAddress rd =s? RecordSpec.Data spec
  else if ty =s? RecordTypeCNAME then RecordData.CName rd =s? RecordSpec.Data spec
  else if ty =s? RecordTypeTXT then RecordData.Text rd =s? RecordSpec.Data spec
  else if ty =s? RecordTypeNS then RecordData.NameServer rd =s? RecordSpec.Data spec
  else if ty =s? RecordTypePTR then RecordData.PtrName rd =s? RecordSpec.Data spec
  else if ty =s? RecordTypeMX then
    if negb (RecordData.Exchange rd =s? RecordSpec.Data spec) then false
    else match RecordSpec.Priority spec with
         | None => true
         | Some p => RecordData.Preference rd =? p
         end
  else false.

(** [findRecord] returns a pointer into the slice: the index identifies it. *)
Fixpoint findRecord_from (i : nat) (records : list Record_.t) (spec : RecordSpec.t) : option (nat * Record_.t) :=
  match records with
  | [] => None
  | r :: records' =>
      if negb (Record_.Type_ r =s? RecordSpec.Type_ spec) then findRecord_from (S i) records' spec
      else if (RecordSpec.Type_ spec =s? RecordTypeCNAME) || recordDataMatches spec r then Some (i, r)
      else findRecord_from (S i) records' spec
  end.
Definition findRecord (records : list Record_.t) (spec : RecordSpec.t) : option (nat * Record_.t) :=
  findRecord_from 0 records spec.

Definition appliedSpec (record : RecordObj.t) : RecordSpec.t :=
  let spec := RecordObj.Spec record in
  let status := RecordObj.Status record in
  if negb (RecordStatus.AppliedData status =s? "") then
    RecordSpec.with_rdata spec (RecordStatus.AppliedData status) (RecordStatus.AppliedPriority status)
  else spec.

Definition recordTTLFromSpec (spec : RecordSpec.t) : Z := default defaultRecordTTL (RecordSpec.TTL spec).

Definition setRecordValue (v : RecordValue.t) (spec : RecordSpec.t) : RecordValue.t :=
  let ty := RecordSpec.Type_ spec in
  let d := RecordSpec.Data spec in
  let '(RecordValue.mk ip cname text ns ptr ex pref) := v in
  if (ty =s? RecordTypeA) || (ty =s? RecordTypeAAAA) then RecordValue.mk d cname text ns ptr ex pref
  else if ty =s? RecordTypeCNAME then RecordValue.mk ip d text ns ptr ex pref
  else if ty =s? RecordTypeTXT then RecordValue.mk ip cname d ns ptr ex pref
  else if ty =s? RecordTypeNS then RecordValue.mk ip cname text d ptr ex pref
  else if ty =s? RecordTypePTR then RecordValue.mk ip cname text ns d ex pref
  else if ty =s? RecordTypeMX then RecordValue.mk ip cname text ns ptr d (RecordSpec.Priority spec)
  else v.

Definition addOptionsFromSpec (spec : RecordSpec.t) : AddRecordOptions.t :=
  AddRecordOptions.mk (RecordSpec.Zone spec) (RecordSpec.Name spec) (RecordSpec.Type_ spec)
    (RecordSpec.TTL spec) (setRecordValue RecordValue.empty spec).

Definition deleteOptionsFromSpec (spec : RecordSpec.t) : DeleteRecordOptions.t :=
  DeleteRecordOptions.mk (RecordSpec.Zone spec) (RecordSpec.Name spec) (RecordSpec.Type_ spec)
    (setRecordValue RecordValue.empty spec).

Definition deleteOptionsFromCurrent (spec : RecordSpec.t) (current : Record_.t) : DeleteRecordOptions.t :=
  let rd := Record_.RData current in
  DeleteRecordOptions.mk (RecordSpec.Zone spec) (RecordSpec.Name spec) (RecordSpec.Type_ spec)
    (RecordValue.mk (RecordData.IPAddress rd) (RecordData.CName rd) (RecordData.Text rd)
       (RecordData.NameServer rd) (RecordData.PtrName rd) (RecordData.Exchange rd)
       (if negb (RecordData.Preference rd =? 0) then Some (RecordData.Preference rd) else None)).

(** [err != nil && !errors.Is(err, s)]. *)
Definition real_error (r : option error) (s : sentinel) : option error :=
  match r with
  | Some e => if Is e s then None else Some e
  | None => None
  end.

Definition deleteStaleRecord (record : RecordObj.t) (records : list Record_.t) (current : option nat)
  : prog recordE (fallible unit) :=
  let spec := RecordObj.Spec record in
  let status := RecordObj.Status record in
  if (RecordSpec.Type_ spec =s? RecordTypeCNAME) || (RecordStatus.AppliedData status =s? "") then ok tt
  else if (RecordStatus.AppliedData status =s? RecordSpec.Data spec)
       && bool_decide (RecordStatus.AppliedPriority status = RecordSpec.Priority spec) then ok tt
  else
    match findRecord records (appliedSpec record) with
    | None => ok tt
    | Some (i, stale) =>
        if bool_decide (current = Some i) then ok tt
        else
          r <- call (RecordDelete (deleteOptionsFromCurrent spec stale)) ;;
          match real_error r ErrRecordNotFound with
          | Some err => fail err
          | None => ok tt
          end
    end.

(** [reconcileRecord], once the client is resolved. *)
Definition reconcileRecord_body (record : RecordObj.t) : prog recordE (fallible unit) :=
  let spec := RecordObj.Spec record in
  g <- call (RecordsGet (RecordSpec.Zone spec) (RecordSpec.Name spec)) ;;
  match (g : fallible (list Record_.t)) with
  | inl err => fail err
  | inr records =>
      match findRecord records spec with
      | None =>
          a <- call (RecordAdd (addOptionsFromSpec spec)) ;;
          match real_error a ErrRecordAlreadyExists with
          | Some err => fail err
          | None => deleteStaleRecord record records None
          end
      | Some (i, current) =>
          if negb (recordDataMatches spec current) then
            d <- call (RecordDelete (deleteOptionsFromCurrent spec current)) ;;
            match real_error d ErrRecordNotFound with
            | Some err => fail err
            | None =>
                a <- call (RecordAdd (addOptionsFromSpec spec)) ;;
                match real_error a ErrRecordAlreadyExists with
                | Some err => fail err
                | None => ok tt
                end
            end
          else if negb (Record_.TTL current =? recordTTLFromSpec spec) then
            u <- call (RecordUpdate (UpdateRecordOptions.mk (RecordSpec.Zone spec) (RecordSpec.Name spec)
                         (RecordSpec.Type_ spec) (recordTTLFromSpec spec)
                         (setRecordValue RecordValue.empty spec))) ;;
            match (u : option error) with
            | Some err => fail err
            | None => deleteStaleRecord record records (Some i)
            end
          else deleteStaleRecord record records (Some i)
      end
  end.

(** The server-side part of [finalizeRecord]. *)
Definition deleteRecord_body (record : RecordObj.t) : prog recordE (option error) :=
  r <- call (RecordDelete (deleteOptionsFromSpec (appliedSpec record))) ;;
  Ret (real_error r ErrRecordNotFound).

(** The part of [markReady] that records what was applied. *)
Definition recordApplied (applied : RecordSpec.t) (record : RecordObj.t) : RecordObj.t * bool :=
  let s := RecordObj.Status record in
  let c1 := negb (RecordStatus.RecordCreated s) in
  let c2 := negb (RecordStatus.AppliedData s =s? RecordSpec.Data applied)
            || negb (bool_decide (RecordStatus.AppliedPriority s = RecordSpec.Priority applied)) in
  (RecordObj.mk (RecordObj.Meta record) (RecordObj.Spec record)
     (RecordStatus.mk (RecordStatus.Conditions s) (RecordStatus.ObservedGeneration s) true
        (if c2 then RecordSpec.Data applied else RecordStatus.AppliedData s)
        (if c2 then RecordSpec.Priority applied else RecordStatus.AppliedPriority s)), c1 || c2).

Definition record_orphan (record : RecordObj.t) : bool :=
  RecordSpec.DeletionPolicy (RecordObj.Spec record) =s? DeletionPolicyOrphan.
Definition record_ref (record : RecordObj.t) : SecretReference.t :=
  RecordSpec.ServerRef (RecordObj.Spec record).

Section controller.
Context `{KubeLib}.

Definition finalizeRecord (record : RecordObj.t) : prog (calls RecordObj.t recordE) (option error) :=
  finalize_with recordFinalizer record_orphan record_ref (fun r => lift (deleteRecord_body r)) record.

Definition reconcileRecord (record : RecordObj.t) : prog (calls RecordObj.t recordE) (fallible unit) :=
  with_server (record_ref record) (reconcileRecord_body record).

Definition recordMarkReady (key : ObjectKey) (applied : RecordSpec.t)
  : prog (calls RecordObj.t recordE) (option error) :=
  markReady "RecordReady" "Record reconciled on the Technitium server" (recordApplied applied) key.

Definition recordMarkDegraded : ObjectKey -> error -> prog (calls RecordObj.t recordE) (option error) := markDegraded.

Definition recordReconcile (key : ObjectKey) : prog (calls RecordObj.t recordE) (Z * option error) :=
  reconcile recordFinalizer finalizeRecord reconcileRecord recordMarkDegraded
    (fun key record _ => recordMarkReady key (RecordObj.Spec record)) key.
End controller.

(** ** Finding records *)

(** The record a spec manages. *)
Definition manages (spec : RecordSpec.t) (r : Record_.t) : bool :=
  (Record_.Type_ r =s? RecordSpec.Type_ spec)
  && ((RecordSpec.Type_ spec =s? RecordTypeCNAME) || recordDataMatches spec r).

Lemma findRecord_from_spec (spec : RecordSpec.t) (rs : list Record_.t) : forall i,
  match findRecord_from i rs spec with
  | Some (j, r) => (i <= j)%nat /\ rs !! (j - i)%nat = Some r /\ manages spec r = true /\
      forall k r', (k < j - i)%nat -> rs !! k = Some r' -> manages spec r' = false
  | None => Forall (fun r => manages spec r = false) rs
  end.
Proof.
  induction rs as [|r rs IH]; intros i; cbn [findRecord_from]; [constructor|].
  assert (Hskip : manages spec r = false ->
    match findRecord_from (S i) rs spec with
    | Some (j, r0) => (i <= j)%nat /\ (r :: rs) !! (j - i)%nat = Some r0 /\ manages spec r0 = true /\
        forall k r', (k < j - i)%nat -> (r :: rs) !! k = Some r' -> manages spec r' = false
    | None => Forall (fun r => manages spec r = false) (r :: rs)
    end).
  { intros Hr. specialize (IH (S i)). destruct (findRecord_from (S i) rs spec) as [[j r0]|].
    - destruct IH as (Hle & Hl & Hm & Hf). split; [lia|].
      replace (j - i)%nat with (S (j - S i)) by lia. split; [done|]. split; [done|].
      intros [|k] r' Hk Hr'; cbn in Hr'; [by injection Hr' as <-|]. apply (Hf k); [lia|done].
    - by constructor. }
  destruct (Record_.Type_ r =s? RecordSpec.Type_ spec) eqn:Et; cbn [negb].
  - destruct ((RecordSpec.Type_ spec =s? RecordTypeCNAME) || recordDataMatches spec r) eqn:Ed.
    + rewrite Nat.sub_diag. split; [lia|]. split; [done|]. split; [by unfold manages; rewrite Et, Ed|]. lia.
    + apply Hskip. unfold manages. by rewrite Et, Ed.
  - apply Hskip. unfold manages. by rewrite Et.
Qed.

Lemma findRecord_Some (spec : RecordSpec.t) (rs : list Record_.t) (i : nat) (r : Record_.t) :
  findRecord rs spec = Some (i, r) ->
  rs !! i = Some r /\ manages spec r = true /\
  forall k r', (k < i)%nat -> rs !! k = Some r' -> manages spec r' = false.
Proof.
  intros E. pose proof (findRecord_from_spec spec rs 0) as Hs. unfold findRecord in E.
  rewrite E in Hs. rewrite Nat.sub_0_r in Hs. tauto.
Qed.

Lemma findRecord_None (spec : RecordSpec.t) (rs : list Record_.t) :
  findRecord rs spec = None <-> Forall (fun r => manages spec r = false) rs.
Proof.
  pose proof (findRecord_from_spec spec rs 0) as Hs. unfold findRecord.
  destruct (findRecord_from 0 rs spec) as [[i r]|]; [|done].
  split; [done|]. intros Hf. rewrite Nat.sub_0_r in Hs. destruct Hs as (_ & Hl & Hm & _).
  eapply Forall_lookup_1 in Hl; [|exact Hf]. cbn in Hl. congruence.
Qed.

(** ** What is deleted

    [deleted opts records spec current]: [opts] deletes one of the [records]
    the server reported at the spec's name: a CNAME whose value drifted, or a
    record that carries what this Record applied earlier and not what the spec
    asks for now. *)
Definition may_delete (record : RecordObj.t) (records : list Record_.t) (opts : DeleteRecordOptions.t) : Prop :=
  let spec := RecordObj.Spec record in
  let status := RecordObj.Status record in
  exists i r, records !! i = Some r /\ opts = deleteOptionsFromCurrent spec r /\
    Record_.Type_ r = RecordSpec.Type_ spec /\
    ((RecordSpec.Type_ spec = RecordTypeCNAME /\ recordDataMatches spec r = false) \/
     (RecordSpec.Type_ spec <> RecordTypeCNAME /\ RecordStatus.AppliedData status <> "" /\
      recordDataMatches (appliedSpec record) r = true /\
      (RecordStatus.AppliedData status <> RecordSpec.Data spec \/
       RecordStatus.AppliedPriority status <> RecordSpec.Priority spec) /\
      forall j, fst <$> findRecord records spec = Some j -> j <> i)).

(** The requests of a pass, given the records the server reported. *)
Definition is_delete (a : recordE) : bool := match a with RecordDelete _ => true | _ => false end.

Lemma appliedSpec_type (record : RecordObj.t) :
  RecordSpec.Type_ (appliedSpec record) = RecordSpec.Type_ (RecordObj.Spec record).
Proof. unfold appliedSpec. by dmatch. Qed.

Section requests.
Context {S : Type} (srv : forall a : recordE, S -> answer a * S).

(** [deleteStaleRecord] sends at most one request, a permitted delete. *)
Lemma deleteStaleRecord_requests (record : RecordObj.t) (records : list Record_.t) (s : S) (current : option nat) :
  (current = None -> findRecord records (RecordObj.Spec record) = None) ->
  (forall j, current = Some j -> fst <$> findRecord records (RecordObj.Spec record) = Some j) ->
  let reqs := map projT1 (history srv (deleteStaleRecord record records current) s) in
  reqs = [] \/ exists opts, reqs = [RecordDelete opts] /\ may_delete record records opts.
Proof.
  cbn zeta. intros Hnone Hsome. unfold deleteStaleRecord.
  destruct (_ =s? RecordTypeCNAME) eqn:Ec; [by left|].
  destruct (RecordStatus.AppliedData _ =s? "") eqn:Ea; [by left|]. cbn [orb].
  destruct (_ && _) eqn:Esame; [by left|].
  destruct (findRecord records (appliedSpec record)) as [[i r]|] eqn:Ef; [|by left].
  destruct (bool_decide (current = Some i)) eqn:Hi; [by left|]. apply bool_decide_eq_false in Hi. right.
  apply findRecord_Some in Ef as (Hl & Hm & _). unfold manages in Hm. rewrite appliedSpec_type, Ec in Hm.
  apply andb_true_iff in Hm as [Ht Hm]. apply String.eqb_eq in Ht. apply String.eqb_neq in Ec, Ea.
  exists (deleteOptionsFromCurrent (RecordObj.Spec record) r). split.
  { cbn. destruct (srv _ s) as [x s']. cbn. by repeat dmatch. }
  exists i, r. split; [done|]. split; [done|]. split; [done|]. right. split; [done|]. split; [done|].
  split; [done|]. split.
  - apply andb_false_iff in Esame as [E|E]; [left; by apply String.eqb_neq|right].
    by apply bool_decide_eq_false in E.
  - intros j Hj ->. destruct current as [c|].
    + rewrite (Hsome c eq_refl) in Hj. congruence.
    + by rewrite (Hnone eq_refl) in Hj.
Qed.
End requests.


(** ** A Technitium server, as the controller relies on it

    [records_at] is the content of a name.  A request selects the records of
    its type whose value is the given one ([names]); add appends a record that
    is not there yet, delete removes the selected records, update sets their
    TTL; other names are left alone. *)

Definition names (ty : string) (v : RecordValue.t) (r : Record_.t) : bool :=
  let rd := Record_.RData r in
  (Record_.Type_ r =s? ty) &&
  (if (ty =s? RecordTypeA) || (ty =s? RecordTypeAAAA) then RecordData.IPAddress rd =s? RecordValue.IPAddress v
   else if ty =s? RecordTypeCNAME then RecordData.CName rd =s? RecordValue.CName v
   else if ty =s? RecordTypeTXT then RecordData.Text rd =s? RecordValue.Text v
   else if ty =s? RecordTypeNS then RecordData.NameServer rd =s? RecordValue.NameServer v
   else if ty =s? RecordTypePTR then RecordData.PtrName rd =s? RecordValue.PtrName v
   else if ty =s? RecordTypeMX then
     (RecordData.Exchange rd =s? RecordValue.Exchange v)
     && match RecordValue.Preference v with Some p => RecordData.Preference rd =? p | None => true end
   else false).

(** The supported types, and what they need for a value to select records:
    an MX value without a preference leaves it to the server. *)
Definition known_type (ty : string) : bool :=
  (ty =s? RecordTypeA) || (ty =s? RecordTypeAAAA) || (ty =s? RecordTypeCNAME) || (ty =s? RecordTypeTXT)
  || (ty =s? RecordTypeNS) || (ty =s? RecordTypePTR) || (ty =s? RecordTypeMX).
Definition selective (ty : string) (v : RecordValue.t) : Prop :=
  ty = RecordTypeMX -> RecordValue.Preference v <> None.

(** The text a request of type [ty] carries, and the requests a server
    accepts: a name, a supported type, a text, and for MX a 16-bit
    preference. *)
Definition value_text (ty : string) (v : RecordValue.t) : string :=
  if (ty =s? RecordTypeA) || (ty =s? RecordTypeAAAA) then RecordValue.IPAddress v
  else if ty =s? RecordTypeCNAME then RecordValue.CName v
  else if ty =s? RecordTypeTXT then RecordValue.Text v
  else if ty =s? RecordTypeNS then RecordValue.NameServer v
  else if ty =s? RecordTypePTR then RecordValue.PtrName v
  else RecordValue.Exchange v.
Definition sendable (d ty : string) (v : RecordValue.t) : Prop :=
  d <> "" /\ known_type ty = true /\ value_text ty v <> "" /\
  (ty = RecordTypeMX -> forall p, RecordValue.Preference v = Some p -> 0 <= p <= 65535).
Definition ttl_ok (t : Z) : Prop := 0 <= t <= max_int32.

Definition with_ttl (r : Record_.t) (ttl : Z) : Record_.t :=
  Record_.mk (Record_.Name r) (Record_.Type_ r) ttl (Record_.Disabled r) (Record_.RData r).

Class RecordServer (S : Type) := {
  record_step : forall a : recordE, S -> answer a * S;
  records_at : S -> string -> string -> list Record_.t
}.

(** Only the name [d] of zone [z] changed. *)
Definition only_at {S : Type} `{!RecordServer S} (s s' : S) (z d : string) : Prop :=
  forall z' d', (z', d') <> (z, d) -> records_at s' z' d' = records_at s z' d'.

Class RecordServerLaws (S : Type) `{!RecordServer S} : Prop := {
  rs_get z d s : d <> "" -> record_step (RecordsGet z d) s = (inr (records_at s z d), s);
  rs_add z d ty ttl v s :
    sendable d ty v -> (forall t, ttl = Some t -> ttl_ok t) ->
    Forall (fun r => names ty v r = false) (records_at s z d) ->
    (ty = RecordTypeCNAME -> Forall (fun r => Record_.Type_ r <> ty) (records_at s z d)) ->
    exists r s', record_step (RecordAdd (AddRecordOptions.mk z d ty ttl v)) s = (None, s') /\
      names ty v r = true /\ (forall t, ttl = Some t -> Record_.TTL r = t) /\
      records_at s' z d = (records_at s z d ++ [r])%list /\ only_at s s' z d;
  rs_delete z d ty v s :
    sendable d ty v -> selective ty v ->
    exists x s', record_step (RecordDelete (DeleteRecordOptions.mk z d ty v)) s = (x, s') /\
      real_error x ErrRecordNotFound = None /\
      records_at s' z d = filter (fun r => names ty v r = false) (records_at s z d) /\ only_at s s' z d;
  rs_update z d ty ttl v s :
    sendable d ty v -> selective ty v -> ttl_ok ttl ->
    Exists (fun r => names ty v r = true) (records_at s z d) ->
    exists s', record_step (RecordUpdate (UpdateRecordOptions.mk z d ty ttl v)) s = (None, s') /\
      records_at s' z d = map (fun r => if names ty v r then with_ttl r ttl else r) (records_at s z d) /\
      only_at s s' z d
}.

(** A spec whose value selects a record: the fields the CRD schema requires,
    and for MX a preference the delete request can carry. *)
Definition definite (spec : RecordSpec.t) : Prop :=
  known_type (RecordSpec.Type_ spec) = true /\
  (RecordSpec.Type_ spec = RecordTypeMX -> exists p, RecordSpec.Priority spec = Some p /\ 0 < p <= 65535) /\
  RecordSpec.Name spec <> "" /\ RecordSpec.Data spec <> "" /\
  (forall t, RecordSpec.TTL spec = Some t -> ttl_ok t).

Lemma names_spec (spec : RecordSpec.t) (r : Record_.t) :
  names (RecordSpec.Type_ spec) (setRecordValue RecordValue.empty spec) r
  = (Record_.Type_ r =s? RecordSpec.Type_ spec) && recordDataMatches spec r.
Proof.
  unfold names, recordDataMatches, setRecordValue. cbn. f_equal.
  repeat (dmatch; cbn); try done;
    by destruct (RecordData.Exchange (Record_.RData r) =s? RecordSpec.Data spec).
Qed.

Lemma names_manages (spec : RecordSpec.t) (r : Record_.t) :
  RecordSpec.Type_ spec <> RecordTypeCNAME ->
  names (RecordSpec.Type_ spec) (setRecordValue RecordValue.empty spec) r = manages spec r.
Proof.
  intros Hc. rewrite names_spec. unfold manages.
  by rewrite (proj2 (String.eqb_neq _ _) Hc).
Qed.

Lemma definite_selective (spec : RecordSpec.t) :
  definite spec -> selective (RecordSpec.Type_ spec) (setRecordValue RecordValue.empty spec).
Proof.
  intros (_ & Hd & _) Hm. destruct (Hd Hm) as (p & Hp & _). unfold setRecordValue. rewrite Hm. cbn.
  by rewrite Hp.
Qed.

Lemma definite_sendable (spec : RecordSpec.t) :
  definite spec ->
  sendable (RecordSpec.Name spec) (RecordSpec.Type_ spec) (setRecordValue RecordValue.empty spec).
Proof.
  intros (Hk & Hmx & Hn & Hd & _). split; [done|]. split; [done|]. unfold value_text, setRecordValue. cbn.
  split; [unfold known_type in Hk; repeat (dmatch; cbn in *); done|]. intros E. rewrite E. cbn. intros p Hp. destruct (Hmx E) as (p' & Hp' & ?).
  rewrite Hp' in Hp. injection Hp as <-. lia.
Qed.

Lemma definite_ttl (spec : RecordSpec.t) : definite spec -> ttl_ok (recordTTLFromSpec spec).
Proof.
  intros (_ & _ & _ & _ & Ht). unfold recordTTLFromSpec. destruct (RecordSpec.TTL spec) as [t|]; [by apply Ht|].
  by split.
Qed.

(** The delete request built from a record selects what the record's spec manages. *)
Lemma names_current (spec spec' : RecordSpec.t) (r r' : Record_.t) :
  RecordSpec.Type_ spec <> RecordTypeCNAME -> RecordSpec.Type_ spec' = RecordSpec.Type_ spec ->
  definite spec' -> manages spec' r = true ->
  names (RecordSpec.Type_ spec) (DeleteRecordOptions.Value (deleteOptionsFromCurrent spec r)) r'
  = manages spec' r'.
Proof.
  intros Hc Ht (Hk & Hd & _) Hm. unfold manages, recordDataMatches in *. unfold names. cbn.
  rewrite Ht in *. rewrite (proj2 (String.eqb_neq _ _) Hc) in *. cbn in *.
  apply andb_true_iff in Hm as [_ Hm]. f_equal.
  repeat (dmatch_in Hm; cbn in *); try discriminate; try (apply String.eqb_eq in Hm; by rewrite Hm).
  - apply String.eqb_eq in E3. destruct (Hd E3) as (p & Hp & Hp0).
    simplify_eq. apply negb_false_iff, String.eqb_eq in E4. rewrite E4.
    apply Z.eqb_eq in Hm. rewrite Hm. rewrite (proj2 (Z.eqb_neq p 0)) by lia. cbn.
    by destruct (RecordData.Exchange (Record_.RData r') =s? RecordSpec.Data spec').
  - apply String.eqb_eq in E3. destruct (Hd E3) as (p & Hp & Hp0). congruence.
Qed.

(** Two definite specs that manage one record manage the same records. *)
Lemma manages_agree (spec spec' : RecordSpec.t) (r r' : Record_.t) :
  RecordSpec.Type_ spec' = RecordSpec.Type_ spec -> definite spec -> definite spec' ->
  manages spec r = true -> manages spec' r = true -> manages spec r' = manages spec' r'.
Proof.
  intros Ht Hd Hd' Hm Hm'. destruct (decide (RecordSpec.Type_ spec = RecordTypeCNAME)) as [Hc|Hc].
  { unfold manages. by rewrite Ht, Hc. }
  rewrite <- (names_current spec spec r r') by done.
  by rewrite <- (names_current spec spec' r r').
Qed.

Lemma current_selective (spec spec' : RecordSpec.t) (r : Record_.t) :
  RecordSpec.Type_ spec' = RecordSpec.Type_ spec -> definite spec' -> manages spec' r = true ->
  selective (RecordSpec.Type_ spec) (DeleteRecordOptions.Value (deleteOptionsFromCurrent spec r)).
Proof.
  intros Ht (_ & Hd & _) Hm Hmx. rewrite Ht in Hd. destruct (Hd Hmx) as (p & Hp & Hp0).
  unfold manages, recordDataMatches in Hm. rewrite Ht, Hmx in Hm. cbn in Hm. rewrite Hp in Hm.
  cbn. apply andb_true_iff in Hm as [_ Hm]. destruct (_ =s? _); [|done]. cbn in Hm.
  apply Z.eqb_eq in Hm. rewrite Hm. by rewrite (proj2 (Z.eqb_neq p 0)) by lia.
Qed.

(** A record a definite spec matches can be named in a request. *)
Lemma current_sendable (spec spec' : RecordSpec.t) (r : Record_.t) :
  RecordSpec.Type_ spec' = RecordSpec.Type_ spec -> RecordSpec.Name spec <> "" -> definite spec' ->
  recordDataMatches spec' r = true ->
  sendable (RecordSpec.Name spec) (RecordSpec.Type_ spec)
    (DeleteRecordOptions.Value (deleteOptionsFromCurrent spec r)).
Proof.
  intros Ht Hn (Hk & Hmx & _ & Hd & _) Hm. rewrite <- Ht. split; [done|]. split; [done|].
  unfold recordDataMatches in Hm. unfold value_text. cbn. split.
  - repeat dmatch_in Hm; try discriminate; try (apply String.eqb_eq in Hm); try congruence;
      repeat match goal with E : negb _ = false |- _ => apply negb_false_iff, String.eqb_eq in E end; congruence.
  - intros E. destruct (Hmx E) as (p & Hp & Hr). rewrite E, Hp in Hm. cbn in Hm.
    destruct (_ =s? _); [|done]. apply Z.eqb_eq in Hm. rewrite Hm.
    rewrite (proj2 (Z.eqb_neq p 0)) by lia. intros q [= <-]. lia.
Qed.

(** ** Convergence *)

(** The records at the name that are not this Record's. *)
Definition foreign (record : RecordObj.t) (l : list Record_.t) : list Record_.t :=
  filter (fun r => manages (RecordObj.Spec record) r || manages (appliedSpec record) r = false) l.

(** At most one CNAME. *)
Definition unique_cname (l : list Record_.t) : Prop :=
  forall r r', r ∈ l -> r' ∈ l -> Record_.Type_ r = RecordTypeCNAME -> Record_.Type_ r' = RecordTypeCNAME -> r = r'.

(** The name after a pass: the spec's record is there with its TTL, nothing
    the Record applied earlier is left, other records are untouched, and there
    is no second CNAME. *)
Record record_synced (record : RecordObj.t) (before after : list Record_.t) : Prop := {
  synced_present : exists r, r ∈ after /\ manages (RecordObj.Spec record) r = true;
  synced_value r : r ∈ after -> manages (RecordObj.Spec record) r = true ->
    recordDataMatches (RecordObj.Spec record) r = true /\
    Record_.TTL r = recordTTLFromSpec (RecordObj.Spec record);
  synced_stale r : r ∈ after -> manages (appliedSpec record) r = true ->
    manages (RecordObj.Spec record) r = true;
  synced_foreign : foreign record after = foreign record before;
  synced_cname : unique_cname before -> unique_cname after
}.

Lemma manages_type (spec : RecordSpec.t) (r : Record_.t) :
  manages spec r = true -> Record_.Type_ r = RecordSpec.Type_ spec.
Proof. unfold manages. intros Hm. apply andb_true_iff in Hm as [Ht _]. by apply String.eqb_eq. Qed.

Lemma manages_data (spec : RecordSpec.t) (r : Record_.t) :
  RecordSpec.Type_ spec <> RecordTypeCNAME -> manages spec r = true -> recordDataMatches spec r = true.
Proof.
  unfold manages. intros Hc Hm. rewrite (proj2 (String.eqb_neq _ _) Hc) in Hm.
  by apply andb_true_iff in Hm as [_ Hm].
Qed.

Lemma manages_with_ttl (spec : RecordSpec.t) (r : Record_.t) t : manages spec (with_ttl r t) = manages spec r.
Proof. reflexivity. Qed.

Lemma findRecord_congr (spec spec' : RecordSpec.t) (l : list Record_.t) :
  (forall r, r ∈ l -> manages spec r = manages spec' r) -> findRecord l spec = findRecord l spec'.
Proof.
  unfold findRecord. generalize 0%nat. induction l as [|r l IH]; intros i Hm; [done|].
  pose proof (Hm r ltac:(set_solver)) as Hr. unfold manages in Hr.
  specialize (IH (S i) ltac:(intros; apply Hm; set_solver)).
  cbn. rewrite IH.
  destruct (Record_.Type_ r =s? RecordSpec.Type_ spec), (Record_.Type_ r =s? RecordSpec.Type_ spec'); cbn in *;
    rewrite ?Hr; try done.
  all: by rewrite <- Hr.
Qed.

(** Deleting what the applied spec manages leaves other records alone. *)
Lemma foreign_delete (record : RecordObj.t) (l : list Record_.t) (f : Record_.t -> bool) :
  (forall r, f r = true -> manages (RecordObj.Spec record) r || manages (appliedSpec record) r = true) ->
  foreign record (filter (fun r => f r = false) l) = foreign record l.
Proof.
  intros Hf. unfold foreign. apply list_filter_filter_l. intros r Hr.
  apply not_true_is_false. intros Ht. apply Hf in Ht. congruence.
Qed.

Lemma foreign_add (record : RecordObj.t) (l : list Record_.t) (r : Record_.t) :
  manages (RecordObj.Spec record) r = true -> foreign record (l ++ [r])%list = foreign record l.
Proof.
  intros Hr. unfold foreign. rewrite filter_app, filter_cons_False, filter_nil, app_nil_r; [done|].
  by rewrite Hr.
Qed.

Lemma foreign_map (record : RecordObj.t) (l : list Record_.t) (f : Record_.t -> bool) t :
  (forall r, f r = true -> manages (RecordObj.Spec record) r = true) ->
  foreign record (map (fun r => if f r then with_ttl r t else r) l) = foreign record l.
Proof.
  intros Hf. unfold foreign. induction l as [|r l IH]; [done|]. cbn [map].
  destruct (f r) eqn:E.
  - rewrite !filter_cons_False; [done|by rewrite Hf|]. by rewrite manages_with_ttl, Hf.
  - rewrite !filter_cons. by case_decide; rewrite IH.
Qed.

Section convergence.
Context {S : Type} `{!RecordServer S} `{!RecordServerLaws S}.
Context (record : RecordObj.t).
Let spec := RecordObj.Spec record.
Let zone := RecordSpec.Zone spec.
Let name := RecordSpec.Name spec.
Context (Hspec : definite spec) (Happlied : definite (appliedSpec record)).

Lemma applied_same_type : RecordSpec.Type_ (appliedSpec record) = RecordSpec.Type_ spec.
Proof. apply appliedSpec_type. Qed.

(** When nothing needs deleting, what was applied is what the spec asks for. *)
Lemma applied_agrees (l : list Record_.t) :
  RecordSpec.Type_ spec = RecordTypeCNAME \/ RecordStatus.AppliedData (RecordObj.Status record) = "" \/
  (RecordStatus.AppliedData (RecordObj.Status record) = RecordSpec.Data spec /\
   RecordStatus.AppliedPriority (RecordObj.Status record) = RecordSpec.Priority spec) ->
  forall r, manages (appliedSpec record) r = true -> manages spec r = true.
Proof.
  intros [Hc|[Ha|[Ha Hp]]] r Hm.
  - unfold manages in *. rewrite applied_same_type, Hc in *. by destruct (Record_.Type_ r =s? _).
  - unfold appliedSpec in Hm. by rewrite Ha in Hm.
  - unfold appliedSpec in Hm. destruct (negb _); [|done]. rewrite Ha, Hp in Hm.
    unfold spec in *. by destruct (RecordObj.Spec record).
Qed.

(** What the second half of a pass does to a name that held [l]: nothing, when
    the spec manages all that was applied, or delete what was applied. *)
Definition cleaned_up (l : list Record_.t) (s s' : S) : Prop :=
  only_at s s' zone name /\
  ((records_at s' zone name = records_at s zone name /\
    forall r, r ∈ l -> manages (appliedSpec record) r = true -> manages spec r = true) \/
   (records_at s' zone name
      = filter (fun r => manages (appliedSpec record) r = false) (records_at s zone name) /\
    exists r, r ∈ l /\ manages (appliedSpec record) r = true /\ manages spec r = false)).

Lemma run_deleteStale (l : list Record_.t) (current : option nat) (s : S) :
  current = fst <$> findRecord l spec ->
  exists s', run record_step (deleteStaleRecord record l current) s = (inr tt, s') /\ cleaned_up l s s'.
Proof.
  intros Hcur. unfold deleteStaleRecord. fold spec.
  assert (Hnop : (forall r, r ∈ l -> manages (appliedSpec record) r = true -> manages spec r = true) ->
    exists s', run record_step (ok tt : prog recordE (fallible unit)) s = (inr tt, s') /\ cleaned_up l s s').
  { intros Ha. exists s. split; [done|]. split; [by intros ???|]. by left. }
  destruct (RecordSpec.Type_ spec =s? RecordTypeCNAME) eqn:Ec; cbn [orb].
  { apply String.eqb_eq in Ec. apply Hnop. intros r _. apply (applied_agrees l). by left. }
  destruct (RecordStatus.AppliedData _ =s? "") eqn:Ea.
  { apply String.eqb_eq in Ea. apply Hnop. intros r _. apply (applied_agrees l). right. by left. }
  destruct (_ && _) eqn:Es.
  { apply andb_true_iff in Es as [E1 E2]. apply String.eqb_eq in E1. apply bool_decide_eq_true in E2.
    apply Hnop. intros r _. apply (applied_agrees l). right. by right. }
  apply String.eqb_neq in Ec.
  destruct (findRecord l (appliedSpec record)) as [[i r]|] eqn:Ef.
  2:{ apply Hnop. intros r Hr Hm. apply findRecord_None in Ef.
      rewrite Forall_forall in Ef. specialize (Ef r Hr). cbn in Ef. congruence. }
  destruct (findRecord_Some _ _ _ _ Ef) as (Hl & Hm & _).
  apply list_elem_of_lookup_2 in Hl.
  destruct (manages spec r) eqn:Hms.
  { (* the record that carries the applied value is the current one *)
    assert (Hagree : forall r', manages spec r' = manages (appliedSpec record) r').
    { intros r'. by apply (manages_agree _ _ r); [apply applied_same_type|..]. }
    rewrite (findRecord_congr spec (appliedSpec record)) in Hcur by (intros ? _; apply Hagree).
    rewrite Ef in Hcur. rewrite bool_decide_true by done. apply Hnop. intros r' _. by rewrite Hagree. }
  rewrite bool_decide_false.
  2:{ intros ->. destruct (findRecord l spec) as [[j r']|] eqn:Ef'; [|done]. cbn in Hcur. injection Hcur as <-.
      apply findRecord_Some in Ef, Ef'. destruct Ef as [E1 _], Ef' as (E2 & E3 & _). congruence. }
  destruct (rs_delete zone name (RecordSpec.Type_ spec)
    (DeleteRecordOptions.Value (deleteOptionsFromCurrent spec r)) s) as (x & s' & D1 & D2 & D3 & D4).
  { apply (current_sendable spec (appliedSpec record)); [apply applied_same_type|apply Hspec|done|].
    by apply manages_data; [rewrite applied_same_type|]. }
  { by apply (current_selective spec (appliedSpec record)); [apply applied_same_type|..]. }
  exists s'. cbn [bind call run].
  change (deleteOptionsFromCurrent spec r) with
    (DeleteRecordOptions.mk zone name (RecordSpec.Type_ spec)
       (DeleteRecordOptions.Value (deleteOptionsFromCurrent spec r))).
  rewrite D1, D2. split; [done|]. split; [done|]. right. split; [|by exists r].
  rewrite D3. apply list_filter_iff. intros r'.
  by rewrite (names_current spec (appliedSpec record)) by (done || apply applied_same_type).
Qed.

(** What the clean-up leaves of a name where the spec's record is in place. *)
Lemma stale_synced (l l1 l' : list Record_.t) :
  (exists r, r ∈ l1 /\ manages spec r = true) ->
  (forall r, r ∈ l1 -> manages spec r = true ->
    recordDataMatches spec r = true /\ Record_.TTL r = recordTTLFromSpec spec) ->
  (forall r, r ∈ l1 -> manages spec r = false -> r ∈ l) ->
  foreign record l1 = foreign record l -> (unique_cname l -> unique_cname l1) ->
  ((l' = l1 /\ forall r, r ∈ l -> manages (appliedSpec record) r = true -> manages spec r = true) \/
   (l' = filter (fun r => manages (appliedSpec record) r = false) l1 /\
    exists r, r ∈ l /\ manages (appliedSpec record) r = true /\ manages spec r = false)) ->
  record_synced record l l'.
Proof.
  intros (r0 & Hr0 & Hm0) Hval Hin Hfor Hcn [[-> Hst]|[-> (rs & Hrs & Ha & Hn)]].
  - constructor; fold spec; [by exists r0|done| |done|done].
    intros r Hr Hm. destruct (manages spec r) eqn:E; [done|].
    rewrite <- E. apply Hst; [by apply Hin|done].
  - constructor; fold spec.
    + exists r0. split; [|done]. apply list_elem_of_filter. split; [|done].
      destruct (manages (appliedSpec record) r0) eqn:E; [|done].
      rewrite (manages_agree spec (appliedSpec record) r0 rs) in Hn; [congruence|apply applied_same_type|done..].
    + intros r Hr. apply list_elem_of_filter in Hr as [_ Hr]. by apply Hval.
    + intros r Hr Hm. apply list_elem_of_filter in Hr as [E _]. congruence.
    + rewrite <- Hfor. apply foreign_delete. intros r ->. apply orb_true_r.
    + intros Hu r r' Hr Hr'. apply list_elem_of_filter in Hr as [_ Hr], Hr' as [_ Hr']. by apply Hcn.
Qed.

Lemma only_at_trans (s1 s2 s3 : S) : only_at s1 s2 zone name -> only_at s2 s3 zone name -> only_at s1 s3 zone name.
Proof. intros E1 E2 z d Hne. rewrite E2, E1; done. Qed.

Lemma unique_cname_add (l : list Record_.t) r :
  unique_cname l ->
  (Record_.Type_ r = RecordTypeCNAME -> forall r', r' ∈ l -> Record_.Type_ r' <> RecordTypeCNAME) ->
  unique_cname (l ++ [r])%list.
Proof.
  intros Hu Hr r1 r2 H1 H2 T1 T2. rewrite elem_of_app, list_elem_of_singleton in H1, H2.
  destruct H1 as [H1| ->], H2 as [H2| ->]; [by apply Hu| | |done].
  - by destruct (Hr T2 r1).
  - by destruct (Hr T1 r2).
Qed.

Lemma unique_cname_map (l : list Record_.t) (f : Record_.t -> Record_.t) :
  (forall r, Record_.Type_ (f r) = Record_.Type_ r) -> unique_cname l -> unique_cname (map f l).
Proof.
  intros Hf Hu r r' Hr Hr' T T'. apply list_elem_of_fmap in Hr as (r0 & -> & Hr), Hr' as (r0' & -> & Hr').
  rewrite Hf in T, T'. by rewrite (Hu r0 r0').
Qed.

(** A pass over a name where no record of the spec exists. *)
Lemma converges_absent (s : S) (l : list Record_.t) :
  records_at s zone name = l -> findRecord l spec = None -> RecordSpec.TTL spec <> None ->
  exists s', run record_step (reconcileRecord_body record) s = (inr tt, s') /\
    only_at s s' zone name /\ record_synced record l (records_at s' zone name).
Proof.
  intros Hl Hf Httl. unfold reconcileRecord_body. cbn [bind call run]. rewrite rs_get by apply Hspec.
  fold spec zone name. rewrite Hl, Hf. cbn [bind call run].
  pose proof (proj1 (findRecord_None spec l) Hf) as Hnone. rewrite Forall_forall in Hnone.
  destruct (rs_add zone name (RecordSpec.Type_ spec) (RecordSpec.TTL spec)
    (setRecordValue RecordValue.empty spec) s (definite_sendable _ Hspec)) as (r & s1 & A1 & A2 & A3 & A4 & A5).
  { apply Hspec. }
  { rewrite Hl. apply Forall_forall. intros r Hr. rewrite names_spec. specialize (Hnone r Hr).
    unfold manages in Hnone. destruct (_ =s? _); [|done]. cbn in *. by apply orb_false_iff in Hnone as [_ ->]. }
  { intros Hc. rewrite Hl. apply Forall_forall. intros r Hr Ht. specialize (Hnone r Hr).
    unfold manages in Hnone. by rewrite Ht, Hc, String.eqb_refl in Hnone. }
  unfold addOptionsFromSpec. fold zone name. rewrite A1. cbn [real_error].
  destruct (run_deleteStale l None s1) as (s' & D1 & D2 & D3); [by fold spec; rewrite Hf|].
  exists s'. split; [exact D1|]. split; [by apply (only_at_trans s s1)|].
  rewrite names_spec in A2. apply andb_true_iff in A2 as [At Ad].
  assert (Hm : manages spec r = true) by (unfold manages; by rewrite At, Ad, orb_true_r).
  apply (stale_synced l (records_at s1 zone name)); try exact D3; fold spec.
  - exists r. rewrite A4. split; [apply elem_of_app; right; by apply list_elem_of_singleton|done].
  - intros r' Hr' Hm'. rewrite A4, Hl in Hr'. apply elem_of_app in Hr' as [Hr'|Hr'].
    { by rewrite (Hnone r' Hr') in Hm'. }
    apply list_elem_of_singleton in Hr' as ->. split; [done|].
    unfold recordTTLFromSpec. destruct (RecordSpec.TTL spec) as [t|]; [|done]. by apply A3.
  - intros r' Hr' Hm'. rewrite A4, Hl in Hr'. apply elem_of_app in Hr' as [?|Hr']; [done|].
    apply list_elem_of_singleton in Hr' as ->. congruence.
  - rewrite A4, Hl. by apply foreign_add.
  - rewrite A4, Hl. intros Hu. apply String.eqb_eq in At. apply unique_cname_add; [exact Hu|].
    rewrite At. intros Hc r' Hr' Ht.
    specialize (Hnone r' Hr'). unfold manages in Hnone. by rewrite Ht, Hc, String.eqb_refl in Hnone.
Qed.

(** A pass over a name where the spec's record exists with the right value. *)
Lemma converges_present (s : S) (l : list Record_.t) i r :
  records_at s zone name = l -> findRecord l spec = Some (i, r) -> recordDataMatches spec r = true ->
  (forall r', r' ∈ l -> manages spec r' = true -> recordDataMatches spec r' = true) ->
  (Record_.TTL r = recordTTLFromSpec spec ->
   forall r', r' ∈ l -> manages spec r' = true -> Record_.TTL r' = recordTTLFromSpec spec) ->
  exists s', run record_step (reconcileRecord_body record) s = (inr tt, s') /\
    only_at s s' zone name /\ record_synced record l (records_at s' zone name).
Proof.
  intros Hl Hf Hd Hdata Httl. unfold reconcileRecord_body. cbn [bind call run]. rewrite rs_get by apply Hspec.
  fold spec zone name. rewrite Hl, Hf, Hd. cbn [negb].
  destruct (findRecord_Some _ _ _ _ Hf) as (Hi & Hm & _). apply list_elem_of_lookup_2 in Hi.
  destruct (Record_.TTL r =? recordTTLFromSpec spec) eqn:Et; cbn [negb].
  - apply Z.eqb_eq in Et.
    destruct (run_deleteStale l (Some i) s) as (s' & D1 & D2 & D3); [by fold spec; rewrite Hf|].
    exists s'. split; [exact D1|]. split; [done|].
    apply (stale_synced l (records_at s zone name)); try exact D3; fold spec; rewrite ?Hl; try done.
    + by exists r.
    + intros r' Hr' Hm'. split; [by apply Hdata|]. by apply Httl.
  - cbn [bind call run].
    destruct (rs_update zone name (RecordSpec.Type_ spec) (recordTTLFromSpec spec)
      (setRecordValue RecordValue.empty spec) s (definite_sendable _ Hspec)) as (s1 & U1 & U2 & U3).
    { by apply definite_selective. }
    { by apply definite_ttl. }
    { apply Exists_exists. exists r. rewrite Hl. split; [done|]. rewrite names_spec, Hd, andb_true_r.
      apply String.eqb_eq. by apply manages_type. }
    rewrite U1.
    destruct (run_deleteStale l (Some i) s1) as (s' & D1 & D2 & D3); [by fold spec; rewrite Hf|].
    exists s'. split; [exact D1|]. split; [by apply (only_at_trans s s1)|].
    assert (Hn : forall r', r' ∈ l -> names (RecordSpec.Type_ spec) (setRecordValue RecordValue.empty spec) r'
      = manages spec r').
    { intros r' Hr'. rewrite names_spec. unfold manages. destruct (Record_.Type_ r' =s? _) eqn:E; [|done]. cbn.
      destruct (recordDataMatches spec r') eqn:E'; [by rewrite orb_true_r|].
      destruct (RecordSpec.Type_ spec =s? RecordTypeCNAME) eqn:Ec; [|done].
      rewrite <- E'. apply Hdata; [done|]. unfold manages. by rewrite E, Ec. }
    assert (Hl1 : forall r', r' ∈ records_at s1 zone name -> exists r0, r0 ∈ l /\
      r' = if manages spec r0 then with_ttl r0 (recordTTLFromSpec spec) else r0).
    { intros r' Hr'. rewrite U2, Hl in Hr'. apply list_elem_of_fmap in Hr' as (r0 & -> & Hr0).
      exists r0. split; [done|]. by rewrite Hn. }
    apply (stale_synced l (records_at s1 zone name)); try exact D3; fold spec.
    + exists (with_ttl r (recordTTLFromSpec spec)). split; [|by rewrite manages_with_ttl].
      rewrite U2, Hl. apply list_elem_of_fmap. exists r. split; [|done]. by rewrite Hn, Hm.
    + intros r' Hr' Hm'. destruct (Hl1 r' Hr') as (r0 & Hr0 & ->).
      destruct (manages spec r0) eqn:E; [|congruence]. split; [|done]. exact (Hdata r0 Hr0 E).
    + intros r' Hr' Hm'. destruct (Hl1 r' Hr') as (r0 & Hr0 & ->).
      destruct (manages spec r0) eqn:E; [|done]. rewrite manages_with_ttl in Hm'. congruence.
    + rewrite U2, Hl. apply foreign_map. intros r' Hr'. rewrite names_spec in Hr'. fold spec.
      apply andb_true_iff in Hr' as [T D]. unfold manages. by rewrite T, D, orb_true_r.
    + rewrite U2, Hl. apply unique_cname_map. intros r'. by destruct (names _ _ _).
Qed.

(** A pass over a name whose CNAME has another value. *)
Lemma converges_cname (s : S) (l : list Record_.t) i r :
  records_at s zone name = l -> findRecord l spec = Some (i, r) -> recordDataMatches spec r = false ->
  (forall r', r' ∈ l -> Record_.Type_ r' = RecordTypeCNAME -> r' = r) ->
  RecordData.CName (Record_.RData r) <> "" -> RecordSpec.TTL spec <> None ->
  exists s', run record_step (reconcileRecord_body record) s = (inr tt, s') /\
    only_at s s' zone name /\ record_synced record l (records_at s' zone name).
Proof.
  intros Hl Hf Hd Huniq Hcn Httl. unfold reconcileRecord_body. cbn [bind call run]. rewrite rs_get by apply Hspec.
  fold spec zone name. rewrite Hl, Hf, Hd. cbn [negb bind call run].
  destruct (findRecord_Some _ _ _ _ Hf) as (Hi & Hm & _). apply list_elem_of_lookup_2 in Hi.
  assert (Hc : RecordSpec.Type_ spec = RecordTypeCNAME).
  { destruct (decide (RecordSpec.Type_ spec = RecordTypeCNAME)); [done|].
    rewrite (manages_data spec r) in Hd; done. }
  pose proof (manages_type _ _ Hm) as Ht.
  set (v := DeleteRecordOptions.Value (deleteOptionsFromCurrent spec r)).
  assert (Hnr : forall r', r' ∈ l -> names (RecordSpec.Type_ spec) v r' = bool_decide (r' = r)).
  { intros r' Hr'. unfold names. rewrite Hc. cbn.
    destruct (Record_.Type_ r' =s? RecordTypeCNAME) eqn:E; cbn.
    - apply String.eqb_eq in E. rewrite (Huniq r' Hr' E), String.eqb_refl. by rewrite bool_decide_true.
    - apply String.eqb_neq in E. rewrite bool_decide_false; [done|]. intros ->. congruence. }
  destruct (rs_delete zone name (RecordSpec.Type_ spec) v s) as (x & s1 & D1 & D2 & D3 & D4).
  { rewrite Hc. split; [apply Hspec|]. by split_and!. }
  { intros Hmx. exfalso. rewrite Hmx in Hc. discriminate. }
  change (deleteOptionsFromCurrent spec r) with (DeleteRecordOptions.mk zone name (RecordSpec.Type_ spec) v).
  rewrite D1, D2. cbn [bind call run].
  assert (Hl1 : forall r', r' ∈ records_at s1 zone name -> r' ∈ l /\ Record_.Type_ r' <> RecordTypeCNAME).
  { intros r' Hr'. rewrite D3, Hl in Hr'. apply list_elem_of_filter in Hr' as [Hn Hr']. split; [done|].
    intros E. rewrite (Hnr r' Hr') in Hn. apply bool_decide_eq_false in Hn. by apply Hn, Huniq. }
  destruct (rs_add zone name (RecordSpec.Type_ spec) (RecordSpec.TTL spec)
    (setRecordValue RecordValue.empty spec) s1 (definite_sendable _ Hspec)) as (r1 & s' & A1 & A2 & A3 & A4 & A5).
  { apply Hspec. }
  { apply Forall_forall. intros r' Hr'. destruct (Hl1 r' Hr') as [_ Hn]. rewrite names_spec.
    apply andb_false_iff. left. apply String.eqb_neq. congruence. }
  { intros _. apply Forall_forall. intros r' Hr'. rewrite Hc. by apply Hl1. }
  unfold addOptionsFromSpec. fold zone name. rewrite A1. cbn [real_error].
  exists s'. split; [done|]. split; [by apply (only_at_trans s s1)|].
  rewrite names_spec in A2. apply andb_true_iff in A2 as [At Ad].
  assert (Hm1 : manages spec r1 = true) by (unfold manages; by rewrite At, Ad, orb_true_r).
  constructor; fold spec.
  - exists r1. rewrite A4. split; [apply elem_of_app; right; by apply list_elem_of_singleton|done].
  - intros r' Hr' Hm'. rewrite A4 in Hr'. apply elem_of_app in Hr' as [Hr'|Hr'].
    { destruct (Hl1 r' Hr') as [_ Hn]. destruct Hn. rewrite <- Hc. by apply manages_type. }
    apply list_elem_of_singleton in Hr' as ->. split; [done|].
    unfold recordTTLFromSpec. destruct (RecordSpec.TTL spec) as [t|]; [|done]. by apply A3.
  - intros r' _. apply (applied_agrees l). by left.
  - rewrite A4, D3, Hl, foreign_add by done. apply foreign_delete. intros r' Hr'. fold spec.
    unfold names in Hr'. apply andb_true_iff in Hr' as [T _]. unfold manages. by rewrite T, Hc.
  - intros _. rewrite A4. apply unique_cname_add.
    + intros r2 r3 H2 _ T2 _. by destruct (Hl1 r2 H2).
    + intros _ r2 H2. by apply Hl1.
Qed.
End convergence.

(** What the server keeps of a name: one CNAME at most, with a target, and records with the
    same value have the same TTL (they are one entry of an RRset). *)
Definition rrset_wf (l : list Record_.t) : Prop :=
  unique_cname l /\
  (forall r, r ∈ l -> Record_.Type_ r = RecordTypeCNAME -> RecordData.CName (Record_.RData r) <> "") /\
  (forall spec r r', r ∈ l -> r' ∈ l -> RecordSpec.Type_ spec <> RecordTypeCNAME -> definite spec ->
     manages spec r = true -> manages spec r' = true -> Record_.TTL r = Record_.TTL r').

Lemma reconcileRecord_converges {S : Type} `{!RecordServer S} `{!RecordServerLaws S}
    (record : RecordObj.t) (s : S) :
  let spec := RecordObj.Spec record in
  let l := records_at s (RecordSpec.Zone spec) (RecordSpec.Name spec) in
  definite spec -> definite (appliedSpec record) -> RecordSpec.TTL spec <> None -> rrset_wf l ->
  exists s', run record_step (reconcileRecord_body record) s = (inr tt, s') /\
    only_at s s' (RecordSpec.Zone spec) (RecordSpec.Name spec) /\
    record_synced record l (records_at s' (RecordSpec.Zone spec) (RecordSpec.Name spec)).
Proof.
  cbn zeta. intros Hs Ha Ht (Hc & Hcv & Hu).
  set (l := records_at s _ _) in *.
  destruct (findRecord l (RecordObj.Spec record)) as [[i r]|] eqn:Ef.
  2:{ by apply converges_absent. }
  destruct (findRecord_Some _ _ _ _ Ef) as (Hi & Hm & _). apply list_elem_of_lookup_2 in Hi.
  destruct (decide (RecordSpec.Type_ (RecordObj.Spec record) = RecordTypeCNAME)) as [Hcn|Hcn].
  - assert (Huniq : forall r', r' ∈ l -> Record_.Type_ r' = RecordTypeCNAME -> r' = r).
    { intros r' Hr' E. apply Hc; try done. rewrite <- Hcn. by apply manages_type. }
    assert (Hman : forall r', r' ∈ l -> manages (RecordObj.Spec record) r' = true -> r' = r).
    { intros r' Hr' Hm'. apply Huniq; [done|]. rewrite <- Hcn. by apply manages_type. }
    destruct (recordDataMatches (RecordObj.Spec record) r) eqn:Ed.
    + apply (converges_present record Hs Ha s l i r eq_refl Ef Ed).
      * intros r' Hr' Hm'. by rewrite (Hman r' Hr' Hm').
      * intros E r' Hr' Hm'. by rewrite (Hman r' Hr' Hm').
    + apply (converges_cname record Hs s l i r eq_refl Ef Ed Huniq); [|done].
      apply Hcv; [done|]. rewrite <- Hcn. by apply manages_type.
  - apply (converges_present record Hs Ha s l i r eq_refl Ef).
    + by apply manages_data.
    + intros r' _. by apply manages_data.
    + intros <- r' Hr' Hm'. by apply (Hu (RecordObj.Spec record)).
Qed.

Lemma recordApplied_status_only (applied : RecordSpec.t) : status_only (recordApplied applied).
Proof.
  constructor; intros [m sp [cs g cr d p]]; unfold recordApplied; cbn; try reflexivity.
  - destruct (d =s? RecordSpec.Data applied) eqn:Ed; cbn.
    + case_bool_decide as Hp; cbn; [by rewrite Ed, bool_decide_true|].
      by rewrite String.eqb_refl, bool_decide_true.
    + by rewrite String.eqb_refl, bool_decide_true.
  - intros Hc. apply orb_false_iff in Hc as [Hc Hd]. rewrite Hd. by apply negb_false_iff in Hc as ->.
Qed.

Lemma recordApplied_applied (applied : RecordSpec.t) (record : RecordObj.t) :
  recordApplied applied record = (record, false) ->
  RecordStatus.AppliedData (RecordObj.Status record) = RecordSpec.Data applied /\
  RecordStatus.AppliedPriority (RecordObj.Status record) = RecordSpec.Priority applied.
Proof.
  destruct record as [m sp [cs g cr d p]]. unfold recordApplied. cbn. intros E.
  apply (f_equal snd) in E. cbn in E. apply orb_false_iff in E as [_ E].
  apply orb_false_iff in E as [E1 E2]. apply negb_false_iff in E1, E2.
  apply String.eqb_eq in E1. by apply bool_decide_eq_true in E2.
Qed.

Definition record_reads (a : recordE) : bool := match a with RecordsGet _ _ => true | _ => false end.

(** A pass over a name that is in sync only reads. *)
Lemma reconcileRecord_settled {S : Type} `{!RecordServer S} `{!RecordServerLaws S}
    (record : RecordObj.t) (s : S) :
  let spec := RecordObj.Spec record in
  let l := records_at s (RecordSpec.Zone spec) (RecordSpec.Name spec) in
  (exists r, r ∈ l /\ manages spec r = true) ->
  (forall r, r ∈ l -> manages spec r = true ->
     recordDataMatches spec r = true /\ Record_.TTL r = recordTTLFromSpec spec) ->
  RecordStatus.AppliedData (RecordObj.Status record) = RecordSpec.Data spec ->
  RecordStatus.AppliedPriority (RecordObj.Status record) = RecordSpec.Priority spec ->
  RecordSpec.Name spec <> "" ->
  run record_step (reconcileRecord_body record) s = (inr tt, s) /\
  Forall (fun a => record_reads a = true) (map projT1 (history record_step (reconcileRecord_body record) s)).
Proof.
  cbn zeta. intros (r0 & Hr0 & Hm0) Hval Hd Hp Hn.
  assert (Hstale : forall l c, deleteStaleRecord record l c = ok tt).
  { intros l c. unfold deleteStaleRecord. destruct (_ || _); [done|].
    by rewrite Hd, Hp, String.eqb_refl, bool_decide_true. }
  unfold reconcileRecord_body. cbn [bind call run history]. rewrite rs_get by done.
  destruct (findRecord _ _) as [[i r]|] eqn:Ef.
  - destruct (findRecord_Some _ _ _ _ Ef) as (Hi & Hm & _). apply list_elem_of_lookup_2 in Hi.
    destruct (Hval r Hi Hm) as [-> ->]. rewrite Z.eqb_refl. cbn. rewrite Hstale.
    split; [done|]. by repeat constructor.
  - apply findRecord_None in Ef. rewrite Forall_forall in Ef. specialize (Ef r0 Hr0). cbn in Ef. congruence.
Qed.

(** The body reads the spec and what was applied. *)
Lemma reconcileRecord_body_finalizer `{KubeLib} (record : RecordObj.t) f :
  reconcileRecord_body (add_finalizer record f).1 = reconcileRecord_body record.
Proof. unfold add_finalizer. by destruct (AddFinalizer _ _). Qed.

(** C3: A Record converges.  In a cluster without conflicts, one [Reconcile] of
    a Record (valid for the CRD schema, with a TTL, and for MX a preference from
    1 to 65535) succeeds; the name then holds the record the spec asks for with its TTL,
    holds nothing the Record applied before and no longer asks for, and every
    other record of the name, and every other name, is as it was.  The Record is
    Ready, remembers what it applied, and a second [Reconcile] only reads. *)
Theorem recordReconcile_converges `{KubeLibLaws} {W S : Type} `{!RecordServer S} `{!RecordServerLaws S}
    `{!Cooperative RecordObj.t recordE W S} `{!CooperativeLaws RecordObj.t recordE W S}
    (key : ObjectKey) (record : RecordObj.t) (w : W) :
  let spec := RecordObj.Spec record in
  let at_name := fun s => records_at s (RecordSpec.Zone spec) (RecordSpec.Name spec) in
  server_step = record_step ->
  object w = Some record -> ObjectMeta.Deleting (meta record) = false ->
  definite spec -> definite (appliedSpec record) -> RecordSpec.TTL spec <> None ->
  rrset_wf (at_name (server w)) ->
  let w1 := (run step (recordReconcile key) w).2 in
  (run step (recordReconcile key) w).1 = (driftReconcileInterval, None) /\
  record_synced record (at_name (server w)) (at_name (server w1)) /\
  only_at (server w) (server w1) (RecordSpec.Zone spec) (RecordSpec.Name spec) /\
  (exists record', object w1 = Some record' /\ RecordObj.Spec record' = spec /\
     has_finalizer record' recordFinalizer = true /\
     is_ready "RecordReady" "Record reconciled on the Technitium server" record' /\
     RecordStatus.AppliedData (RecordObj.Status record') = RecordSpec.Data spec /\
     RecordStatus.AppliedPriority (RecordObj.Status record') = RecordSpec.Priority spec) /\
  Forall (fun c => reads_only record_reads c = true) (requests (history step (recordReconcile key) w1)).
Proof.
  cbn zeta. intros Hstep Ho Hdel Hs Ha Ht Hwf. unfold recordReconcile, recordMarkDegraded, reconcileRecord, recordMarkReady.
  pose proof (add_finalizer_spec record recordFinalizer : RecordObj.Spec _ = RecordObj.Spec _) as Hspec1.
  pose proof (recordApplied_status_only (RecordObj.Spec record)) as Hso.
  destruct (reconcileRecord_converges record (server w) Hs Ha Ht Hwf) as (s' & R1 & R2 & R3).
  set (o' := reconciled recordFinalizer "RecordReady" "Record reconciled on the Technitium server"
    (recordApplied (RecordObj.Spec (add_finalizer record recordFinalizer).1)) record).
  assert (Hspec2 : RecordObj.Spec o' = RecordObj.Spec record)
    by exact (reconciled_spec _ _ _ _ record (recordApplied_status_only _)).
  assert (Hset : recordApplied (RecordObj.Spec (add_finalizer record recordFinalizer).1) o' = (o', false))
    by exact (reconciled_settled _ _ _ _ record (recordApplied_status_only _)).
  rewrite Hspec1 in Hset. destruct (recordApplied_applied _ _ Hset) as [Hd Hp].
  destruct (reconcileRecord_settled o' s') as [F1 F2]; rewrite ?Hspec2; try done.
  { exact (synced_present _ _ _ R3). }
  { exact (synced_value _ _ _ R3). }
  { apply Hs. }
  destruct (reconcile_settles recordFinalizer finalizeRecord markDegraded "RecordReady"
    "Record reconciled on the Technitium server" record_ref reconcileRecord_body
    (fun o _ => recordApplied (RecordObj.Spec o)) record_reads key record w tt tt s' s' Ho Hdel
    (fun _ => recordApplied_status_only _)) as (E1 & E2 & E3 & E4 & E5 & E6 & E7 & E8); fold o'.
  { by rewrite Hstep, reconcileRecord_body_finalizer. }
  { by rewrite Hstep. }
  { by rewrite Hspec1, Hspec2. }
  { by rewrite Hstep. }
  split; [exact E1|]. split; [by rewrite E2|]. split; [by rewrite E2|]. split; [|exact E8].
  exists o'. split; [exact E3|]. by split_and!.
Qed.

(** *** The finalizer *)

(** What was applied is gone from the server. *)
Definition record_deleted (record : RecordObj.t) (tr : list (event (calls RecordObj.t recordE))) : Prop :=
  exists x, answered (RecordDelete (deleteOptionsFromSpec (appliedSpec record))) x tr /\
    real_error x ErrRecordNotFound = None.

Lemma deleteRecord_confirms (record : RecordObj.t) (past : list (event (calls RecordObj.t recordE))) :
  holds (lift (deleteRecord_body record)) past (fun tr r => r = None -> record_deleted record tr).
Proof.
  cbn. intros x Hx. exists x. split; [|exact Hx]. apply in_or_app. right. by left.
Qed.

(** A Record's finalizer brackets its life on the server: no Technitium call
    is made before it is registered, and it is only removed from a Record that
    is being deleted and that is orphaned, or whose TechnitiumCluster is gone,
    or for which the server confirmed that the value last applied (not the one
    the spec asks for now) is deleted. *)
Theorem recordReconcile_finalizer `{KubeLibLaws} (key : ObjectKey) :
  always (recordReconcile key) (fun tr _ =>
    guarded recordFinalizer false tr = true /\
    (released recordFinalizer tr -> exists record,
       In (ev (inl (KGet key) : calls RecordObj.t recordE) (inr record)) tr /\
       ObjectMeta.Deleting (meta record) = true /\
       (record_orphan record = true \/ server_gone (record_ref record) tr \/ record_deleted record tr))).
Proof.
  apply holds_conj; [apply reconcile_guarded|].
  apply (reconcile_released record_deleted).
  - intros o tr ext (x & Hx & Hd). exists x. split; [apply in_or_app; by left|done].
  - apply deleteRecord_confirms.
  - intros o. apply with_server_avoids.
  - intros k e. apply markDegraded_avoids.
  - intros k r _. apply markReady_avoids.
Qed.

(** ** Examples

    A server that keeps a list of records per name. *)

Abbreviation rr_state := (gmap (string * string) (list Record_.t)).
Definition rr_at (s : rr_state) (z d : string) : list Record_.t := default [] (s !! (z, d)).

(** The record a value denotes. *)
Definition rr_new (name ty : string) (ttl : option Z) (v : RecordValue.t) : Record_.t :=
  Record_.mk name ty (default 3600 ttl) false
    (RecordData.mk (RecordValue.IPAddress v) (RecordValue.CName v) (RecordValue.Text v)
       (RecordValue.NameServer v) (RecordValue.PtrName v) (RecordValue.Exchange v)
       (default 1 (RecordValue.Preference v))).

Definition rr_step (a : recordE) : rr_state -> answer a * rr_state :=
  match a with
  | RecordsGet z d => fun s => (inr (rr_at s z d), s)
  | RecordAdd (AddRecordOptions.mk z d ty ttl v) => fun s =>
      if existsb (names ty v) (rr_at s z d) then (Some (ESentinel ErrRecordAlreadyExists), s)
      else (None, <[(z, d) := (rr_at s z d ++ [rr_new d ty ttl v])%list]> s)
  | RecordDelete (DeleteRecordOptions.mk z d ty v) => fun s =>
      ((if existsb (names ty v) (rr_at s z d) then None else Some (ESentinel ErrRecordNotFound)),
       <[(z, d) := filter (fun r => names ty v r = false) (rr_at s z d)]> s)
  | RecordUpdate (UpdateRecordOptions.mk z d ty ttl v) => fun s =>
      (None, <[(z, d) := map (fun r => if names ty v r then with_ttl r ttl else r) (rr_at s z d)]> s)
  end.

#[local] Instance rr_server : RecordServer rr_state := {| record_step := rr_step; records_at := rr_at |}.

Lemma rr_at_insert (s : rr_state) z d l : rr_at (<[(z, d) := l]> s) z d = l.
Proof. unfold rr_at. by rewrite lookup_insert_eq. Qed.

Lemma rr_only_at (s : rr_state) z d l : only_at s (<[(z, d) := l]> s : rr_state) z d.
Proof. intros z' d' Hne. cbn. unfold rr_at. by rewrite lookup_insert_ne by congruence. Qed.

#[local] Instance rr_server_laws : RecordServerLaws rr_state.
Proof.
  constructor; cbn.
  - done.
  - intros z d ty ttl v s (_ & Hk & _) _ Hf _. rewrite existsb_none.
    2:{ intros r Hr. rewrite Forall_forall in Hf. apply Hf. by apply list_elem_of_In. }
    exists (rr_new d ty ttl v), (<[(z, d) := (rr_at s z d ++ [rr_new d ty ttl v])%list]> s).
    split; [done|]. split.
    + unfold names, rr_new, known_type in *. cbn. rewrite String.eqb_refl. cbn.
      rewrite !String.eqb_refl. repeat dmatch; try done; cbn in *; try by rewrite Z.eqb_refl.
    + split; [by intros t ->|]. split; [apply rr_at_insert|apply rr_only_at].
  - intros z d ty v s _ _. eexists _, _. split; [done|]. split; [by destruct (existsb _ _)|].
    split; [apply rr_at_insert|apply rr_only_at].
  - intros z d ty ttl v s _ _ _ _. eexists. split; [done|]. split; [apply rr_at_insert|apply rr_only_at].
Qed.

#[local] Existing Instance RefKubeLib.lib.
#[local] Existing Instance RefKubeLib.laws.
#[local] Instance rr_world : Cooperative RecordObj.t recordE (option RecordObj.t * rr_state) rr_state :=
  plain_world rr_step.
#[local] Instance rr_world_laws : CooperativeLaws RecordObj.t recordE (option RecordObj.t * rr_state) rr_state :=
  plain_laws rr_step.

(** [www.example.com A], once applied as 10.0.0.1 and now 10.0.0.2, next to a
    record of somebody else. *)
Definition example_record : RecordObj.t :=
  RecordObj.mk (ObjectMeta.named "" "www")
    (RecordSpec.mk (SecretReference.mk "dns" "") "example.com" "www.example.com" "A" (Some 60) "10.0.0.2" None "")
    (RecordStatus.mk [] 1 true "10.0.0.1" None).
Definition example_a (ip : string) : Record_.t :=
  Record_.mk "www.example.com" "A" 60 false (RecordData.mk ip "" "" "" "" "" 0).
Definition example_records : rr_state :=
  {[ ("example.com", "www.example.com") := [example_a "10.0.0.1"; example_a "10.0.0.9"] ]}.
Definition www_key : ObjectKey := {| KeyNamespace := ""; KeyName := "www" |}.

Example example_record_pass :
  rr_at (run step (recordReconcile www_key) (Some example_record, example_records)).2.2
    "example.com" "www.example.com" = [example_a "10.0.0.9"; rr_new "www.example.com" "A" (Some 60)
    (RecordValue.mk "10.0.0.2" "" "" "" "" "" None)].
Proof. vm_compute. reflexivity. Qed.

Ltac example_definite :=
  unfold definite; split_and!; try discriminate; try reflexivity;
  let t := fresh in intros t; intros [= <-]; split; discriminate.

Lemma example_rrset : rrset_wf [example_a "10.0.0.1"; example_a "10.0.0.9"].
Proof.
  assert (E : forall r, r ∈ [example_a "10.0.0.1"; example_a "10.0.0.9"] -> Record_.TTL r = 60 /\ Record_.Type_ r = "A").
  { intros r Hr. rewrite !elem_of_cons, elem_of_nil in Hr.
    destruct Hr as [->|[->|[]]]; split; reflexivity. }
  split.
  - intros r r' Hr _ Ht. destruct (E r Hr) as [_ E']. by rewrite E' in Ht.
  - split; [intros r Hr Ht; destruct (E r Hr) as [_ E']; by rewrite E' in Ht|].
    intros sp r r' Hr Hr' _ _ _ _. destruct (E r Hr) as [-> _]. by destruct (E r' Hr') as [-> _].
Qed.

Example recordReconcile_converges_witness :
  (run step (recordReconcile www_key) (Some example_record, example_records)).1 = (driftReconcileInterval, None).
Proof.
  apply (recordReconcile_converges www_key example_record (Some example_record, example_records)).
  - reflexivity.
  - reflexivity.
  - reflexivity.
  - by example_definite.
  - by example_definite.
  - discriminate.
  - exact example_rrset.
Defined.


Example recordReconcile_finalizer_witness :
  always (recordReconcile www_key) (fun tr _ => guarded recordFinalizer false tr = true).
Proof.
  eapply holds_mono; [|apply (recordReconcile_finalizer www_key)].
  intros tr r [Hg _]. exact Hg.
Defined.
