(* ===== verification/RecordWire.v ===== *)
(** * Records over HTTP

    The Record controller is proved against an abstract server
    ([Record.RecordServer]), and the client's record calls are programs over
    the HTTP transport ([RecordsAPI]).  Here the two are put together: a
    documented records endpoint behind the client is a [RecordServer], so the
    controller's theorems hold of the requests that leave the operator; and the
    requests of a pass are bounded whatever the endpoint answers. *)

From S2P Require Import Prelude GoStrings GoErrors Effects Client ZonesAPI RecordsAPI Kube Lifecycle Record.

Local Open Scope string_scope.
Local Open Scope Z_scope.
Local Open Scope go_scope.
Local Open Scope prog_scope.

(** [*technitium.Client] as the controller's [RecordAPI]. *)
Definition recordClient (c : Client.t) (a : recordE) : prog httpE (answer a) :=
  match a with
  | RecordAdd opts => AddRecord c opts
  | RecordsGet zone domain => GetRecords c zone domain
  | RecordUpdate opts => UpdateRecord c opts
  | RecordDelete opts => DeleteRecord c opts
  end.

(** ** The endpoint

    What Technitium documents of [/api/zones/records/*]: it reads a form,
    changes what it hosts, and answers an envelope. *)

(** *** Reading a form *)
Definition form_get (k : string) (form : Values) : string := default "" (form !! k).
Definition form_value (form : Values) : RecordValue.t :=
  RecordValue.mk (form_get "ipAddress" form) (form_get "cname" form) (form_get "text" form)
    (form_get "nameServer" form) (form_get "ptrName" form) (form_get "exchange" form)
    (form !! "preference" ≫= Atoi).
Definition form_ttl (form : Values) : option Z := form !! "ttl" ≫= Atoi.

(** *** Writing a response: members of a JSON object, where absent and null
    stand for the zero value. *)
Definition unset (k : string) (kvs : list (string * json)) : Prop :=
  field k kvs = None \/ field k kvs = Some JNull.
Definition str_member (k v : string) (kvs : list (string * json)) : Prop :=
  field k kvs = Some (JStr v) \/ (v = "" /\ unset k kvs).
Definition bool_member (k : string) (b : bool) (kvs : list (string * json)) : Prop :=
  field k kvs = Some (JBool b) \/ (b = false /\ unset k kvs).
Definition int_member (k : string) (n : Z) (kvs : list (string * json)) : Prop :=
  (field k kvs = Some (JNum (Some n)) /\ - 2 ^ 31 <= n <= max_int32) \/ (n = 0 /\ unset k kvs).

Definition rdata_body (j : json) (rd : RecordData.t) : Prop := exists kvs, j = JObj kvs /\
  str_member "ipAddress" (RecordData.IPAddress rd) kvs /\ str_member "cname" (RecordData.CName rd) kvs /\
  str_member "text" (RecordData.Text rd) kvs /\ str_member "nameServer" (RecordData.NameServer rd) kvs /\
  str_member "ptrName" (RecordData.PtrName rd) kvs /\ str_member "exchange" (RecordData.Exchange rd) kvs /\
  int_member "preference" (RecordData.Preference rd) kvs.
Definition record_body (j : json) (r : Record_.t) : Prop := exists kvs jd, j = JObj kvs /\
  str_member "name" (Record_.Name r) kvs /\ str_member "type" (Record_.Type_ r) kvs /\
  int_member "ttl" (Record_.TTL r) kvs /\ bool_member "disabled" (Record_.Disabled r) kvs /\
  field "rData" kvs = Some jd /\ rdata_body jd (Record_.RData r).

(** The envelope: status, and the message of a refusal. *)
Definition replies (status message : string) (kvs : list (string * json)) : Prop :=
  str_member "status" status kvs /\ str_member "errorMessage" message kvs.
Definition accepts (kvs : list (string * json)) : Prop := exists m, replies "ok" m kvs.

(** A refusal that says the record is not there, in words of its own. *)
Definition no_such_record (message : string) : bool :=
  let lower := ToLower message in
  Contains lower "record"
  && existsb (Contains lower) ["no such record"; "not found"; "does not exist"]
  && negb (existsb (Contains lower) ["already initialized"; "already exists"; "already installed";
                                            "invalid username or password"]).
Definition refuses_missing (kvs : list (string * json)) : Prop :=
  exists m, replies "error" m kvs /\ no_such_record m = true.

Class RecordEndpoint (W : Type) := {
  http : forall a : httpE, W -> answer a * W;
  hosted : W -> string -> string -> list Record_.t
}.

(** The name a form addresses, and what changed of what is hosted. *)
Definition hosted_form {W : Type} `{!RecordEndpoint W} (s : W) (form : Values) : list Record_.t :=
  hosted s (form_get "zone" form) (form_get "domain" form).
Definition changes_only {W : Type} `{!RecordEndpoint W} (s s' : W) (form : Values) : Prop :=
  forall z d, (z, d) <> (form_get "zone" form, form_get "domain" form) -> hosted s' z d = hosted s z d.

(** The documented behaviour, for requests that carry the client's token. *)
Class RecordEndpointLaws (c : Client.t) (W : Type) `{!RecordEndpoint W} : Prop := {
  ep_get form s :
    form_get "domain" form <> "" -> form_get "listZone" form = "false" ->
    exists code kvs rs js,
      http (Post (url c "/api/zones/records/get") (bearer c) form) s = (Response code (Some (JObj kvs)), s) /\
      accepts kvs /\ field "response" kvs = Some (JObj rs) /\ field "records" rs = Some (JArr js) /\
      Forall2 record_body js (hosted_form s form);
  ep_add form s :
    let ty := form_get "type" form in
    let v := form_value form in
    sendable (form_get "domain" form) ty v -> (forall t, form_ttl form = Some t -> ttl_ok t) ->
    Forall (fun r => names ty v r = false) (hosted_form s form) ->
    (ty = RecordTypeCNAME -> Forall (fun r => Record_.Type_ r <> ty) (hosted_form s form)) ->
    exists code kvs r s',
      http (Post (url c "/api/zones/records/add") (bearer c) form) s = (Response code (Some (JObj kvs)), s') /\
      accepts kvs /\ names ty v r = true /\ (forall t, form_ttl form = Some t -> Record_.TTL r = t) /\
      hosted_form s' form = (hosted_form s form ++ [r])%list /\ changes_only s s' form;
  ep_delete form s :
    let ty := form_get "type" form in
    let v := form_value form in
    sendable (form_get "domain" form) ty v -> selective ty v ->
    exists code kvs s',
      http (Post (url c "/api/zones/records/delete") (bearer c) form) s = (Response code (Some (JObj kvs)), s') /\
      (accepts kvs \/ refuses_missing kvs) /\
      hosted_form s' form = filter (fun r => names ty v r = false) (hosted_form s form) /\
      changes_only s s' form;
  ep_update form s t :
    let ty := form_get "type" form in
    let v := form_value form in
    sendable (form_get "domain" form) ty v -> selective ty v -> form_ttl form = Some t -> ttl_ok t ->
    Exists (fun r => names ty v r = true) (hosted_form s form) ->
    exists code kvs s',
      http (Post (url c "/api/zones/records/update") (bearer c) form) s = (Response code (Some (JObj kvs)), s') /\
      accepts kvs /\
      hosted_form s' form = map (fun r => if names ty v r then with_ttl r t else r) (hosted_form s form) /\
      changes_only s s' form
}.

(** ** The client reads what the endpoint writes *)

Lemma get_str_member k v kvs : str_member k v kvs -> get_field dec_string k kvs = Some v.
Proof. unfold get_field. intros [->|(-> & [->| ->])]; done. Qed.

Lemma get_bool_member k b kvs : bool_member k b kvs -> get_field dec_bool k kvs = Some b.
Proof. unfold get_field. intros [->|(-> & [->| ->])]; done. Qed.

Lemma get_int_member k n kvs : int_member k n kvs -> get_field dec_int32 k kvs = Some n.
Proof. unfold get_field. intros [[-> Hn]|(-> & [->| ->])]; [by apply dec_int_in|done..]. Qed.

Lemma decode_rdata j rd : rdata_body j rd -> RecordData.decode j = Some rd.
Proof.
  intros (kvs & -> & H1 & H2 & H3 & H4 & H5 & H6 & H7). unfold RecordData.decode. cbn [dec_struct].
  rewrite (get_str_member _ _ _ H1), (get_str_member _ _ _ H2), (get_str_member _ _ _ H3),
    (get_str_member _ _ _ H4), (get_str_member _ _ _ H5), (get_str_member _ _ _ H6), (get_int_member _ _ _ H7).
  by destruct rd.
Qed.

Lemma decode_record j r : record_body j r -> Record_.decode j = Some r.
Proof.
  intros (kvs & jd & -> & H1 & H2 & H3 & H4 & H5 & H6). unfold Record_.decode. cbn [dec_struct].
  rewrite (get_str_member _ _ _ H1), (get_str_member _ _ _ H2), (get_int_member _ _ _ H3), (get_bool_member _ _ _ H4).
  unfold get_field at 1. rewrite H5, (decode_rdata _ _ H6). by destruct r.
Qed.

Lemma decode_records js rs : Forall2 record_body js rs -> mapM Record_.decode js = Some rs.
Proof.
  induction 1 as [|j r js rs Hj _ IH]; [done|].
  change (mapM Record_.decode (j :: js)) with (y ← Record_.decode j; k ← mapM Record_.decode js; Some (y :: k)).
  by rewrite (decode_record _ _ Hj), IH.
Qed.

Lemma replies_envelope st m kvs : replies st m kvs -> dec_envelope (JObj kvs) = Some (st, m).
Proof.
  intros [H1 H2]. unfold dec_envelope. cbn [dec_struct].
  by rewrite (get_str_member _ _ _ H1), (get_str_member _ _ _ H2).
Qed.

Lemma missing_not_found m :
  no_such_record m = true ->
  exists e, classifyStatus "error" m = Some e /\ Is e ErrRecordNotFound = true.
Proof.
  unfold no_such_record, classifyStatus. set (lower := ToLower m). cbn -[Contains wrap_sentinel].
  intros Hm. apply andb_true_iff in Hm as [Hm Hno]. apply andb_true_iff in Hm as [-> Hf].
  apply negb_true_iff in Hno. repeat (apply orb_false_iff in Hno as [-> Hno]). cbn [orb].
  assert (Hgone : Contains lower "no such zone" || Contains lower "no such record" || Contains lower "no such app"
    || Contains lower "no such scope" || Contains lower "no reservation" || Contains lower "not installed"
    || Contains lower "not found" || Contains lower "does not exist" = true).
  { rewrite !orb_false_r in Hf. repeat (apply orb_true_iff in Hf as [->|Hf]; [by rewrite ?orb_true_r|]).
    by rewrite Hf, ?orb_true_r. }
  rewrite Hgone. by eexists.
Qed.

(** ** The endpoint reads what the client writes *)

Definition value_keys : list string :=
  ["ipAddress"; "cname"; "text"; "nameServer"; "ptrName"; "exchange"; "preference"].

(** Two values that name the same records in a request. *)
Definition same_request (ty : string) (v v' : RecordValue.t) : Prop :=
  value_text ty v = value_text ty v' /\
  (ty = RecordTypeMX -> RecordValue.Preference v = RecordValue.Preference v').

(** The seven types, one after the other. *)
Ltac each_type ty Hk :=
  unfold known_type in Hk; repeat apply orb_true_iff in Hk as [Hk|Hk]; apply String.eqb_eq in Hk; subst ty.

Lemma names_request ty v v' r : known_type ty = true -> same_request ty v v' -> names ty v r = names ty v' r.
Proof.
  intros Hk [Ht Hp]. each_type ty Hk; unfold names, value_text in *; cbn in *; rewrite Ht; try done.
  by rewrite Hp.
Qed.

Lemma sendable_request d ty v v' : same_request ty v v' -> sendable d ty v -> sendable d ty v'.
Proof.
  intros [Ht Hp] (Hd & Hk & Hv & Hr). split_and!; [done|done|by rewrite <- Ht|].
  intros E. rewrite <- (Hp E). by apply Hr.
Qed.

Lemma selective_request ty v v' : same_request ty v v' -> selective ty v -> selective ty v'.
Proof. intros [_ Hp] Hs E. rewrite <- (Hp E). by apply Hs. Qed.

Lemma value_params params d ty v :
  sendable d ty v -> params !! "preference" = None ->
  exists form, setRecordValueParams params ty v = inr form /\ same_request ty v (form_value form) /\
    forall k, k ∉ value_keys -> form !! k = params !! k.
Proof.
  intros (_ & Hk & Hv & Hr) Hpref.
  each_type ty Hk; unfold setRecordValueParams, value_text in *; cbn -[form_value] in *;
    rewrite (proj2 (String.eqb_neq _ _) Hv); eexists; (split; [reflexivity|]).
  7: { destruct (RecordValue.Preference v) as [p|] eqn:Ep; cbn [set_opt]; split.
    all: try (intros k Hk; rewrite !lookup_insert_ne by (intros <-; apply Hk; by_decision); done).
    all: unfold same_request, value_text, form_value, form_get; cbn -[Atoi].
    - split; [by rewrite lookup_insert_ne, lookup_insert_eq|]. intros _. rewrite Ep, lookup_insert_eq. cbn -[Atoi].
      specialize (Hr eq_refl p eq_refl). rewrite Atoi_Itoa; [done|]. unfold max_int. lia.
    - split; [by rewrite lookup_insert_eq|]. intros _. by rewrite Ep, lookup_insert_ne, Hpref. }
  all: split; [|intros k Hk; rewrite lookup_insert_ne by (intros <-; apply Hk; by_decision); done].
  all: split; [|discriminate]; unfold value_text, form_value, form_get; cbn; by rewrite lookup_insert_eq.
Qed.

(** What the endpoint reads in the form of a request. *)
Record form_of (z d ty : string) (ttl : option Z) (v : RecordValue.t) (form : Values) : Prop := {
  of_zone : form_get "zone" form = z;
  of_domain : form_get "domain" form = d;
  of_type : form_get "type" form = ty;
  of_ttl : form_ttl form = ttl;
  of_value : same_request ty v (form_value form)
}.

Lemma recordParams_form z d ty :
  d <> "" -> known_type ty = true ->
  exists p, recordParams z d ty = inr p /\ form_get "zone" p = z /\ form_get "domain" p = d /\
    form_get "type" p = ty /\ p !! "ttl" = None /\ p !! "preference" = None.
Proof.
  intros Hd Hk. unfold recordParams. rewrite (proj2 (String.eqb_neq _ _) Hd).
  destruct (String.eqb_spec ty "") as [->|_]; [done|]. eexists. split; [reflexivity|].
  unfold form_get, set_nonempty. destruct (String.eqb_spec z "") as [->|_]; split_and!; by simplify_map_eq.
Qed.

Lemma request_params z d ty ttl v :
  sendable d ty v -> (forall t, ttl = Some t -> ttl_ok t) ->
  exists p form, recordParams z d ty = inr p /\
    setRecordValueParams (set_opt "ttl" Itoa ttl p) ty v = inr form /\ form_of z d ty ttl v form.
Proof.
  intros Hs Hrange. destruct Hs as (Hd & Hk & Hs). 
  destruct (recordParams_form z d ty Hd Hk) as (p & E & Hz & Hdom & Hty & Httl & Hpref).
  destruct (value_params (set_opt "ttl" Itoa ttl p) d ty v) as (form & F & Hv & Hkeep).
  { by split. }
  { destruct ttl; cbn; [by rewrite lookup_insert_ne|done]. }
  exists p, form. split; [done|]. split; [done|].
  assert (Hget : forall k, k ∉ value_keys -> k <> "ttl" -> form_get k form = form_get k p).
  { intros k Hk1 Hk2. unfold form_get. rewrite Hkeep by done. destruct ttl; cbn; [by rewrite lookup_insert_ne|done]. }
  split; [rewrite Hget; [done|by_decision|done]..| |done].
  unfold form_ttl. rewrite Hkeep by by_decision. destruct ttl as [t|]; cbn -[Atoi]; [|by rewrite Httl].
  rewrite lookup_insert_eq. cbn -[Atoi]. apply Atoi_Itoa.
  destruct (Hrange t eq_refl). unfold max_int, max_int32 in *. lia.
Qed.

(** ** The endpoint behind the client is a record server *)

Section refinement.
Context (c : Client.t) (Htoken : Client.token c <> "").
Context {W : Type} `{!RecordEndpoint W} `{!RecordEndpointLaws c W}.

#[local] Instance wire_server : RecordServer W :=
  {| record_step := fun a => run http (recordClient c a); records_at := hosted |}.

Lemma run_doRaw path form s code kvs st m s' :
  http (Post (url c path) (bearer c) form) s = (Response code (Some (JObj kvs)), s') -> replies st m kvs ->
  run http (doRaw c path form) s
  = (match classifyStatus st m with Some err => inl err | None => inr (JObj kvs) end, s').
Proof.
  intros E Hr. unfold doRaw. rewrite (proj2 (String.eqb_neq _ _) Htoken). cbn [bind call run].
  fold (url c path) (bearer c). rewrite E, (replies_envelope _ _ _ Hr). cbn [bind call run].
  by destruct (classifyStatus st m).
Qed.

Lemma run_do_ path form s code kvs st m s' :
  http (Post (url c path) (bearer c) form) s = (Response code (Some (JObj kvs)), s') -> replies st m kvs ->
  run http (do_ c path form) s = (classifyStatus st m, s').
Proof.
  intros E Hr. unfold do_. rewrite run_bind, (run_doRaw _ _ _ _ _ _ _ _ E Hr). cbn.
  by destruct (classifyStatus st m).
Qed.

Lemma run_do_accepted path form s code kvs s' :
  http (Post (url c path) (bearer c) form) s = (Response code (Some (JObj kvs)), s') -> accepts kvs ->
  run http (do_ c path form) s = (None, s').
Proof. intros E [m Hr]. by rewrite (run_do_ _ _ _ _ _ _ _ _ E Hr). Qed.

(** The endpoint's account of a form is the server's of the request. *)
Lemma hosted_form_of z d ty ttl v form (s : W) : form_of z d ty ttl v form -> hosted_form s form = records_at s z d.
Proof. intros []. by subst. Qed.

Lemma changes_only_of z d ty ttl v form (s s' : W) :
  form_of z d ty ttl v form -> changes_only s s' form -> only_at s s' z d.
Proof. intros [] Hc. by subst. Qed.

Lemma wire_get z d (s : W) : d <> "" -> run http (GetRecords c z d) s = (inr (hosted s z d), s).
Proof.
  intros Hd. unfold GetRecords. rewrite (proj2 (String.eqb_neq _ _) Hd). cbv zeta.
  set (form := <["listZone" := "false"]> _).
  assert (Hz : form_get "zone" form = z).
  { unfold form, form_get, set_nonempty. destruct (String.eqb_spec z "") as [->|_]; by simplify_map_eq. }
  assert (Hdom : form_get "domain" form = d) by (unfold form, form_get; by simplify_map_eq).
  destruct (ep_get (c := c) form s) as (code & kvs & rs & js & E & [m Hr] & F1 & F2 & Hjs); [by rewrite Hdom|..].
  { unfold form, form_get. by simplify_map_eq. }
  unfold do. rewrite run_bind, (run_doRaw _ _ _ _ _ _ _ _ E Hr). cbn [classifyStatus String.eqb Ascii.eqb Bool.eqb fst snd run].
  rewrite F1. cbn [default id dec_struct]. unfold get_field. rewrite F2. cbn [dec_list].
  rewrite (decode_records _ _ Hjs). unfold hosted_form. by rewrite Hz, Hdom.
Qed.

(** A request the client builds, as the endpoint reads it. *)
Lemma wire_request z d ty ttl v (s : W) :
  sendable d ty v -> (forall t, ttl = Some t -> ttl_ok t) ->
  exists p form, recordParams z d ty = inr p /\
    setRecordValueParams (set_opt "ttl" Itoa ttl p) ty v = inr form /\ form_of z d ty ttl v form /\
    hosted_form s form = records_at s z d /\ sendable (form_get "domain" form) (form_get "type" form) (form_value form) /\
    (selective ty v -> selective (form_get "type" form) (form_value form)) /\
    forall r, names (form_get "type" form) (form_value form) r = names ty v r.
Proof.
  intros Hs Ht. destruct (request_params z d ty ttl v Hs Ht) as (p & form & E & F & Hf). exists p, form.
  split; [done|]. split; [done|]. split; [done|]. split; [by apply (hosted_form_of _ _ _ _ _ _ _ Hf)|].
  pose proof Hf as [_ -> -> _ Hv]. split; [by apply (sendable_request _ _ v)|].
  split; [by apply selective_request|]. intros r. symmetry. apply names_request; [apply Hs|done].
Qed.

(** A request whose form is built is that form posted. *)
Lemma run_add z d ty ttl v p form (s : W) :
  recordParams z d ty = inr p -> setRecordValueParams (set_opt "ttl" Itoa ttl p) ty v = inr form ->
  forall x, run http (do_ c "/api/zones/records/add" form) s = x ->
  run http (AddRecord c (AddRecordOptions.mk z d ty ttl v)) s = x.
Proof. intros E F x <-. unfold AddRecord. cbn -[do_]. by rewrite E, F. Qed.

Lemma run_delete z d ty v p form (s : W) :
  recordParams z d ty = inr p -> setRecordValueParams p ty v = inr form ->
  forall x, run http (do_ c "/api/zones/records/delete" form) s = x ->
  run http (DeleteRecord c (DeleteRecordOptions.mk z d ty v)) s = x.
Proof. intros E F x <-. unfold DeleteRecord. cbn -[do_]. by rewrite E, F. Qed.

Lemma run_update z d ty ttl v p form (s : W) :
  recordParams z d ty = inr p -> setRecordValueParams (set_opt "ttl" Itoa (Some ttl) p) ty v = inr form ->
  forall x, run http (do_ c "/api/zones/records/update" form) s = x ->
  run http (UpdateRecord c (UpdateRecordOptions.mk z d ty ttl v)) s = x.
Proof. intros E F x <-. unfold UpdateRecord. cbn -[do_ set_opt]. rewrite E. cbn [set_opt] in F. by rewrite F. Qed.

#[local] Instance wire_server_laws : RecordServerLaws W.
Proof.
  constructor; cbn [record_step wire_server recordClient].
  - intros z d s Hd. by apply wire_get.
  - intros z d ty ttl v s Hs Httl Hfree Hcname.
    destruct (wire_request z d ty ttl v s Hs Httl) as (p & form & E & F & Hf & Hh & Hs' & _ & Hn).
    destruct (ep_add (c := c) form s) as (code & kvs & r & s' & P & A & N & T & G & C).
    + done.
    + by rewrite (of_ttl _ _ _ _ _ _ Hf).
    + rewrite Hh. eapply Forall_impl; [exact Hfree|]. intros r. by rewrite Hn.
    + rewrite Hh, (of_type _ _ _ _ _ _ Hf). exact Hcname.
    + exists r, s'. split; [exact (run_add _ _ _ _ _ _ _ _ E F _ (run_do_accepted _ _ _ _ _ _ P A))|].
      split; [by rewrite <- Hn|]. split; [by rewrite <- (of_ttl _ _ _ _ _ _ Hf)|].
      rewrite <- Hh, <- G. split; [symmetry; by apply (hosted_form_of _ _ _ _ _ _ _ Hf)|].
      by apply (changes_only_of _ _ _ _ _ _ _ _ Hf).
  - intros z d ty v s Hs Hsel.
    destruct (wire_request z d ty None v s Hs) as (p & form & E & F & Hf & Hh & Hs' & Hsel' & Hn); [done|].
    destruct (ep_delete (c := c) form s) as (code & kvs & s' & P & A & G & C); [done|by apply Hsel'|].
    assert (Hx : exists x, run http (do_ c "/api/zones/records/delete" form) s = (x, s') /\
      real_error x ErrRecordNotFound = None).
    { destruct A as [A|(m & A & Hm)]; [exists None; by rewrite (run_do_accepted _ _ _ _ _ _ P A)|].
      destruct (missing_not_found m Hm) as (e & Hc & He). exists (Some e).
      rewrite (run_do_ _ _ _ _ _ _ _ _ P A), Hc. cbn. by rewrite He. }
    destruct Hx as (x & Hrun & Hx). exists x, s'. split; [exact (run_delete _ _ _ _ _ _ _ E F _ Hrun)|]. split; [done|].
    rewrite <- (hosted_form_of _ _ _ _ _ _ s' Hf), G, Hh.
    split; [apply list_filter_iff; intros r; by rewrite Hn|by apply (changes_only_of _ _ _ _ _ _ _ _ Hf)].
  - intros z d ty ttl v s Hs Hsel Httl Hex.
    destruct (wire_request z d ty (Some ttl) v s Hs) as (p & form & E & F & Hf & Hh & Hs' & Hsel' & Hn).
    { by intros t [= <-]. }
    destruct (ep_update (c := c) form s ttl) as (code & kvs & s' & P & A & G & C).
    + done.
    + by apply Hsel'.
    + by rewrite (of_ttl _ _ _ _ _ _ Hf).
    + done.
    + rewrite Hh. eapply Exists_impl; [exact Hex|]. intros r. by rewrite Hn.
    + exists s'. split; [exact (run_update _ _ _ _ _ _ _ _ E F _ (run_do_accepted _ _ _ _ _ _ P A))|].
      rewrite <- (hosted_form_of _ _ _ _ _ _ s' Hf), G, Hh.
      split; [|by apply (changes_only_of _ _ _ _ _ _ _ _ Hf)].
      apply map_ext. intros r. by rewrite Hn.
Qed.

(** C5: A Record pass over HTTP.  Put the client's record calls under the
    controller's pass and let them talk to an endpoint that behaves as
    documented on the forms it receives: the pass succeeds, the endpoint hosts
    the record the spec asks for with its TTL and nothing the Record applied
    before, and every other record, and every other name, is as it was.  So the
    endpoint behind the client implements the server the controller is proved
    against. *)
Theorem record_pass_over_http (record : RecordObj.t) (s : W) :
  let spec := RecordObj.Spec record in
  let at_name := fun s => hosted s (RecordSpec.Zone spec) (RecordSpec.Name spec) in
  definite spec -> definite (appliedSpec record) -> RecordSpec.TTL spec <> None -> rrset_wf (at_name s) ->
  exists s', run http (interp (recordClient c) (reconcileRecord_body record)) s = (inr tt, s') /\
    record_synced record (at_name s) (at_name s') /\
    forall z d, (z, d) <> (RecordSpec.Zone spec, RecordSpec.Name spec) -> hosted s' z d = hosted s z d.
Proof.
  cbn zeta. intros Hs Ha Ht Hwf.
  destruct (@reconcileRecord_converges W wire_server wire_server_laws record s Hs Ha Ht Hwf) as (s' & Hrun & Honly & Hsync).
  exists s'. split; [|done]. by rewrite run_interp.
Qed.
End refinement.

(** ** What leaves the operator

    The requests of a pass, whatever the transport answers. *)

Definition record_paths : list string :=
  ["/api/zones/records/add"; "/api/zones/records/get"; "/api/zones/records/update"; "/api/zones/records/delete"].
(** A request of client [c] for the name of [spec]. *)
Definition request_for (c : Client.t) (spec : RecordSpec.t) (a : httpE) : Prop :=
  let '(Post u auth form) := a in
  Exists (fun path => u = url c path) record_paths /\ auth = auth_of c /\
  form_get "zone" form = RecordSpec.Zone spec /\ form_get "domain" form = RecordSpec.Name spec /\
  (u <> url c "/api/zones/records/get" -> form_get "type" form = RecordSpec.Type_ spec).

#[local] Instance request_for_dec (c : Client.t) (spec : RecordSpec.t) (a : httpE) : Decision (request_for c spec a).
Proof. destruct a. cbn. solve_decision. Defined.

Definition is_delete_request (c : Client.t) (a : httpE) : bool :=
  let '(Post u _ _) := a in u =s? url c "/api/zones/records/delete".

(** The controller's calls concern the spec's own name. *)
Definition call_for (spec : RecordSpec.t) (a : recordE) : Prop :=
  match a with
  | RecordAdd (AddRecordOptions.mk z d ty _ _) | RecordUpdate (UpdateRecordOptions.mk z d ty _ _)
  | RecordDelete (DeleteRecordOptions.mk z d ty _) =>
      z = RecordSpec.Zone spec /\ d = RecordSpec.Name spec /\ ty = RecordSpec.Type_ spec
  | RecordsGet z d => z = RecordSpec.Zone spec /\ d = RecordSpec.Name spec
  end.
#[local] Instance call_for_dec (spec : RecordSpec.t) (a : recordE) : Decision (call_for spec a).
Proof. destruct a as [[]|z d|[]|[]]; cbn; solve_decision. Defined.

Lemma setRecordValueParams_keeps params ty v form k :
  setRecordValueParams params ty v = inr form -> k ∉ value_keys -> form !! k = params !! k.
Proof.
  unfold setRecordValueParams. cbv zeta. intros E Hk.
  repeat (dmatch_in E; cbn -[lookup insert] in E); try discriminate; injection E as <-.
  all: try (destruct (RecordValue.Preference v); cbn [set_opt]);
    rewrite ?lookup_insert_ne by (intros <-; apply Hk; by_decision); done.
Qed.

Lemma recordParams_keeps z d ty p :
  recordParams z d ty = inr p ->
  form_get "zone" p = z /\ form_get "domain" p = d /\ form_get "type" p = ty.
Proof.
  unfold recordParams. destruct (d =s? ""); [discriminate|]. destruct (ty =s? ""); [discriminate|].
  intros [= <-]. unfold form_get, set_nonempty. destruct (String.eqb_spec z "") as [->|_]; split_and!; by simplify_map_eq.
Qed.

(** Follows a program call by call. *)
Ltac walk_calls := repeat match goal with
  | |- forall _, _ => intros ?
  | |- ~ ~ _ => intuition
  | |- _ /\ _ => split
  | |- True => exact I
  | |- avoids _ (match ?x with _ => _ end) => destruct x eqn:?
  | |- at_most _ _ (match ?x with _ => _ end) => destruct x eqn:?
  | H : context [deleteStaleRecord] |- avoids _ (deleteStaleRecord _ _ _) => apply H
  | H : context [deleteStaleRecord] |- at_most 1 _ (deleteStaleRecord _ _ _) => apply H
  | H : context [deleteStaleRecord] |- at_most ?n _ (deleteStaleRecord _ _ _) => apply (at_most_mono _ _ 1 n); [lia|apply H]
  | |- _ => progress cbn -[deleteStaleRecord]
  end.

Lemma reconcileRecord_own (record : RecordObj.t) :
  avoids (fun a => ~ call_for (RecordObj.Spec record) a) (reconcileRecord_body record).
Proof.
  assert (Hstale : forall l i, avoids (fun a => ~ call_for (RecordObj.Spec record) a) (deleteStaleRecord record l i)).
  { unfold deleteStaleRecord. walk_calls. }
  unfold reconcileRecord_body. walk_calls.
Qed.

Lemma reconcileRecord_deletes (record : RecordObj.t) : at_most 1 is_delete (reconcileRecord_body record).
Proof.
  assert (Hstale : forall l i, at_most 1 is_delete (deleteStaleRecord record l i)).
  { unfold deleteStaleRecord. walk_calls. }
  unfold reconcileRecord_body. walk_calls.
Qed.

Lemma reconcileRecord_calls (record : RecordObj.t) : at_most 3 (fun _ => true) (reconcileRecord_body record).
Proof.
  assert (Hstale : forall l i, at_most 1 (fun _ => true) (deleteStaleRecord record l i)).
  { unfold deleteStaleRecord. walk_calls. }
  unfold reconcileRecord_body. walk_calls.
Qed.

(** What a call sends is its path and the form of its name. *)
Lemma recordClient_request c spec a :
  call_for spec a -> avoids (fun p => ~ request_for c spec p) (recordClient c a).
Proof.
  assert (Hwrite : forall path z d ty p extra v form,
    path ∈ record_paths -> z = RecordSpec.Zone spec /\ d = RecordSpec.Name spec /\ ty = RecordSpec.Type_ spec ->
    recordParams z d ty = inr p -> setRecordValueParams (set_opt "ttl" Itoa extra p) ty v = inr form ->
    avoids (fun p => ~ request_for c spec p) (do_ c path form)).
  { intros path z d ty p extra v form Hpath (-> & -> & ->) E F. apply do__avoids. intros Hn. apply Hn.
    destruct (recordParams_keeps _ _ _ _ E) as (Hz & Hd & Ht).
    assert (Hkeep : forall k, k ∉ value_keys -> k <> "ttl" -> form_get k form = form_get k p).
    { intros k Hk1 Hk2. unfold form_get. rewrite (setRecordValueParams_keeps _ _ _ _ _ F Hk1).
      destruct extra; cbn; [by rewrite lookup_insert_ne|done]. }
    split; [by apply Exists_exists; exists path|]. split; [done|].
    rewrite !Hkeep by (by_decision || done). by split_and!. }
  destruct a as [[z d ty ttl v]|z d|[z d ty ttl v]|[z d ty v]]; cbn [call_for recordClient]; intros Hown.
  - unfold AddRecord. cbn -[do_]. destruct (recordParams z d ty) as [e|p] eqn:E; [exact I|].
    destruct (setRecordValueParams _ _ _) as [e|form] eqn:F; [exact I|].
    by apply (Hwrite _ z d ty p ttl v); [by_decision|..].
  - unfold GetRecords. destruct (d =s? ""); [exact I|]. apply do_avoids. intros Hn. apply Hn.
    destruct Hown as [-> ->]. split; [apply Exists_exists; eexists; split; [|reflexivity]; by_decision|]. split; [done|].
    unfold form_get, set_nonempty. split_and!; [destruct (String.eqb_spec (RecordSpec.Zone spec) "") as [->|_]| |].
    all: by simplify_map_eq.
  - unfold UpdateRecord. cbn -[do_]. destruct (recordParams z d ty) as [e|p] eqn:E; [exact I|].
    destruct (setRecordValueParams _ _ _) as [e|form] eqn:F; [exact I|].
    by apply (Hwrite _ z d ty p (Some ttl) v); [by_decision|..].
  - unfold DeleteRecord. cbn -[do_]. destruct (recordParams z d ty) as [e|p] eqn:E; [exact I|].
    destruct (setRecordValueParams _ _ _) as [e|form] eqn:F; [exact I|].
    by apply (Hwrite _ z d ty p None v); [by_decision|..].
Qed.

Definition path_of (a : recordE) : string :=
  match a with
  | RecordAdd _ => "/api/zones/records/add"
  | RecordsGet _ _ => "/api/zones/records/get"
  | RecordUpdate _ => "/api/zones/records/update"
  | RecordDelete _ => "/api/zones/records/delete"
  end.

Lemma recordClient_at_most (f : httpE -> bool) c a n :
  (forall form, ((if f (Post (url c (path_of a)) (auth_of c) form) then 1 else 0) <= n)%nat) ->
  at_most n f (recordClient c a).
Proof.
  intros Hn. destruct a as [opts|z d|opts|opts]; cbn [recordClient path_of] in *;
    [unfold AddRecord|unfold GetRecords|unfold UpdateRecord|unfold DeleteRecord]; cbv zeta;
    repeat match goal with |- at_most _ _ (match ?x with _ => _ end) => destruct x; [exact I|] end.
  all: eapply at_most_mono; [|apply do__at_most || apply do_at_most]; apply Hn.
Qed.

(** C19: The requests of a Record pass, whatever the server and the network
    answer.  There are at most three, at most one of which is a delete; each
    posts to one of the client's record URLs with the client's token, and its
    form addresses the Record's own zone and name (and type, but for the
    read). *)
Theorem record_requests_bounded (c : Client.t) (record : RecordObj.t) :
  always (interp (recordClient c) (reconcileRecord_body record)) (fun tr _ =>
    (length tr <= 3)%nat /\
    (length (filter (fun e => is_delete_request c (projT1 e) = true) tr) <= 1)%nat /\
    Forall (fun e => request_for c (RecordObj.Spec record) (projT1 e)) tr).
Proof.
  apply holds_conj; [|apply holds_conj].
  - apply at_most_length, (at_most_interp _ (fun _ => true)); [apply reconcileRecord_calls|].
    intros a. by apply recordClient_at_most.
  - apply at_most_always, (at_most_interp _ is_delete); [apply reconcileRecord_deletes|].
    intros a. apply recordClient_at_most. intros form. unfold is_delete_request. rewrite url_eqb.
    by destruct a.
  - eapply holds_mono; [|apply (avoids_always (fun p => ~ request_for c (RecordObj.Spec record) p))].
    + cbn beta. intros tr r Htr. eapply Forall_impl; [exact Htr|]. intros e. apply dec_stable.
    + apply (avoids_interp _ (fun a => ~ call_for (RecordObj.Spec record) a)); [apply reconcileRecord_own|].
      intros a Ha. by apply recordClient_request, dec_stable.
Qed.

(** ** Example: an endpoint

    It hosts records that have a 16-bit preference and a 31-bit TTL, and
    answers JSON objects. *)
Module Endpoint.
Definition fits (r : Record_.t) : bool :=
  (0 <=? Record_.TTL r) && (Record_.TTL r <=? max_int32)
  && (0 <=? RecordData.Preference (Record_.RData r)) && (RecordData.Preference (Record_.RData r) <=? 65535).

Definition store : Type := { m : gmap (string * string) (list Record_.t) |
  bool_decide (map_Forall (fun _ l => forallb fits l = true) m) = true }.

Definition nothing : store := exist _ ∅ (bool_decide_eq_true_2 _ (map_Forall_empty _)).

Definition at_ (s : store) (z d : string) : list Record_.t := default [] (`s !! (z, d)).

(** Hosting records that do not fit is refused. *)
Definition put (s : store) (z d : string) (l : list Record_.t) : store :=
  match bool_dec (bool_decide (map_Forall (fun _ l => forallb fits l = true) (<[(z, d) := l]> (`s)))) true with
  | left E => exist _ (<[(z, d) := l]> (`s)) E
  | right _ => s
  end.

Definition rdata_json (rd : RecordData.t) : json := JObj
  [("ipAddress", JStr (RecordData.IPAddress rd)); ("cname", JStr (RecordData.CName rd));
   ("text", JStr (RecordData.Text rd)); ("nameServer", JStr (RecordData.NameServer rd));
   ("ptrName", JStr (RecordData.PtrName rd)); ("exchange", JStr (RecordData.Exchange rd));
   ("preference", JNum (Some (RecordData.Preference rd)))].
Definition record_json (r : Record_.t) : json := JObj
  [("name", JStr (Record_.Name r)); ("type", JStr (Record_.Type_ r)); ("ttl", JNum (Some (Record_.TTL r)));
   ("disabled", JBool (Record_.Disabled r)); ("rData", rdata_json (Record_.RData r))].

Definition ok_reply (payload : list (string * json)) : http_result :=
  Response 200 (Some (JObj [("status", JStr "ok"); ("response", JObj payload)])).
Definition error_reply (message : string) : http_result :=
  Response 200 (Some (JObj [("status", JStr "error"); ("errorMessage", JStr message)])).

(** Only an MX record has a preference. *)
Definition new_record (form : Values) : Record_.t :=
  let v := form_value form in
  rr_new (form_get "domain" form) (form_get "type" form) (form_ttl form)
    (RecordValue.mk (RecordValue.IPAddress v) (RecordValue.CName v) (RecordValue.Text v)
       (RecordValue.NameServer v) (RecordValue.PtrName v) (RecordValue.Exchange v)
       (if form_get "type" form =s? RecordTypeMX then RecordValue.Preference v else None)).

Definition serve (c : Client.t) (a : httpE) (s : store) : http_result * store :=
  let '(Post u auth form) := a in
  let z := form_get "zone" form in
  let d := form_get "domain" form in
  let ty := form_get "type" form in
  let v := form_value form in
  let l := at_ s z d in
  if negb (bool_decide (auth = bearer c)) then
    (Response 200 (Some (JObj [("status", JStr "invalid-token")])), s)
  else if u =s? url c "/api/zones/records/get" then (ok_reply [("records", JArr (map record_json l))], s)
  else if u =s? url c "/api/zones/records/add" then
    if existsb (names ty v) l then (error_reply "Cannot add record: record already exists.", s)
    else (ok_reply [], put s z d (l ++ [new_record form])%list)
  else if u =s? url c "/api/zones/records/delete" then
    if existsb (names ty v) l then (ok_reply [], put s z d (filter (fun r => names ty v r = false) l))
    else (error_reply "Cannot delete record: the record does not exist.", s)
  else if u =s? url c "/api/zones/records/update" then
    match form_ttl form with
    | Some t => (ok_reply [], put s z d (map (fun r => if names ty v r then with_ttl r t else r) l))
    | None => (error_reply "Parameter 'ttl' missing.", s)
    end
  else (Response 404 None, s).

Definition endpoint (c : Client.t) : RecordEndpoint store := {| http := serve c; hosted := at_ |}.

Lemma at_fits (s : store) z d : forallb fits (at_ s z d) = true.
Proof.
  unfold at_. destruct s as [m Hm]. cbn. destruct (m !! (z, d)) as [l|] eqn:E; [|done]. cbn.
  exact (bool_decide_eq_true_1 _ Hm _ _ E).
Qed.

Lemma put_fits (s : store) z d l : forallb fits l = true -> ` (put s z d l) = <[(z, d) := l]> (`s).
Proof.
  intros Hl. unfold put. destruct (bool_dec _ _) as [E|E]; [done|]. exfalso. apply E.
  apply bool_decide_eq_true. apply map_Forall_insert_2; [done|].
  destruct s as [m Hm]. exact (bool_decide_eq_true_1 _ Hm).
Qed.

Lemma at_put (s : store) z d l : forallb fits l = true -> at_ (put s z d l) z d = l.
Proof. intros Hl. unfold at_. by rewrite put_fits, lookup_insert_eq by done. Qed.

Lemma put_elsewhere (s : store) z d l z' d' :
  forallb fits l = true -> (z', d') <> (z, d) -> at_ (put s z d l) z' d' = at_ s z' d'.
Proof. intros Hl Hn. unfold at_. rewrite put_fits by done. by rewrite lookup_insert_ne by congruence. Qed.

(** Evaluates a member of an explicit object. *)
Ltac member := unfold str_member, int_member, bool_member; eval_fields; left;
  first [reflexivity | split; [reflexivity|unfold max_int32 in *; lia]].

Lemma rdata_json_body rd : 0 <= RecordData.Preference rd <= 65535 -> rdata_body (rdata_json rd) rd.
Proof. intros Hp. eexists. split; [reflexivity|]. split_and!; member. Qed.

Lemma record_json_body r : fits r = true -> record_body (record_json r) r.
Proof.
  intros Hf. unfold fits in Hf. reflect_bools. eexists _, _. split; [reflexivity|].
  do 4 (split; [member|]). split; [by eval_fields|]. by apply rdata_json_body.
Qed.

Lemma records_json_body l : forallb fits l = true -> Forall2 record_body (map record_json l) l.
Proof.
  induction l as [|r l IH]; cbn; [constructor|]. intros Hf. apply andb_true_iff in Hf as [Hr Hl].
  constructor; [by apply record_json_body|by apply IH].
Qed.

Lemma ok_accepts payload : accepts [("status", JStr "ok"); ("response", JObj payload)].
Proof. exists "". split; [member|]. right. split; [done|]. left. by eval_fields. Qed.

Lemma error_replies m : replies "error" m [("status", JStr "error"); ("errorMessage", JStr m)].
Proof. split; member. Qed.

Lemma new_record_names form d :
  sendable d (form_get "type" form) (form_value form) ->
  names (form_get "type" form) (form_value form) (new_record form) = true.
Proof.
  intros (_ & Hk & _). unfold new_record. generalize dependent (form_get "type" form). intros ty Hk.
  each_type ty Hk; unfold names, rr_new; cbn -[form_value]; rewrite ?String.eqb_refl; try done.
  destruct (RecordValue.Preference (form_value form)); [by rewrite Z.eqb_refl|done].
Qed.

Lemma new_record_fits form d :
  sendable d (form_get "type" form) (form_value form) -> (forall t, form_ttl form = Some t -> ttl_ok t) ->
  fits (new_record form) = true.
Proof.
  intros (_ & _ & _ & Hp) Ht. unfold new_record, fits, rr_new. cbn -[form_value form_ttl].
  assert (Hdef : 0 <= default 3600 (form_ttl form) <= max_int32).
  { destruct (form_ttl form) as [t|]; [exact (Ht t eq_refl)|by split]. }
  assert (Hpref : 0 <= default 1 (if form_get "type" form =s? RecordTypeMX
    then RecordValue.Preference (form_value form) else None) <= 65535).
  { destruct (String.eqb_spec (form_get "type" form) RecordTypeMX) as [E|]; [|cbn; lia].
    destruct (RecordValue.Preference (form_value form)) as [p|]; [exact (Hp E p eq_refl)|cbn; lia]. }
  rewrite !andb_true_iff, !Z.leb_le. lia.
Qed.

Lemma filter_fits f l : forallb fits l = true -> forallb fits (filter (fun r => f r = false) l) = true.
Proof.
  rewrite !forallb_forall. intros Hl r Hr. apply Hl. apply list_elem_of_In in Hr. apply list_elem_of_In.
  by apply list_elem_of_filter in Hr as [_ ?].
Qed.

Lemma filter_absent (f : Record_.t -> bool) l : existsb f l = false -> filter (fun r => f r = false) l = l.
Proof.
  induction l as [|r l IH]; [done|]. cbn [existsb]. intros E. apply orb_false_iff in E as [E1 E2].
  by rewrite filter_cons_True, IH.
Qed.

Lemma with_ttl_fits f t l :
  ttl_ok t -> forallb fits l = true -> forallb fits (map (fun r : Record_.t => if f r : bool then with_ttl r t else r) l) = true.
Proof.
  intros [H1 H2] Hl. rewrite forallb_forall in *. intros r Hr. apply in_map_iff in Hr as (r0 & <- & Hr0).
  specialize (Hl r0 Hr0). destruct (f r0); [|done]. unfold fits in *. cbn. reflect_bools.
  rewrite !andb_true_iff, !Z.leb_le. lia.
Qed.

Lemma changes_only_put c (s : store) form l :
  forallb fits l = true ->
  @changes_only store (endpoint c) s (put s (form_get "zone" form) (form_get "domain" form) l) form.
Proof. intros Hl z d Hn. cbn. by apply put_elsewhere. Qed.

(** Follows a request to its path. *)
Ltac serve_path :=
  unfold serve; cbv zeta; rewrite bool_decide_true by done; rewrite ?url_eqb; cbn [negb];
  repeat match goal with |- context [?p =s? "/api/zones/records/get"] =>
      change (p =s? "/api/zones/records/get") with false
  | |- context ["/api/zones/records/add" =s? "/api/zones/records/add"] => rewrite String.eqb_refl
  | |- context ["/api/zones/records/delete" =s? "/api/zones/records/delete"] => rewrite String.eqb_refl
  | |- context ["/api/zones/records/update" =s? "/api/zones/records/update"] => rewrite String.eqb_refl
  | |- context [?p =s? "/api/zones/records/add"] => change (p =s? "/api/zones/records/add") with false
  | |- context [?p =s? "/api/zones/records/delete"] => change (p =s? "/api/zones/records/delete") with false
  end; cbn iota.

Lemma laws (c : Client.t) : @RecordEndpointLaws c store (endpoint c).
Proof.
  constructor; cbn [http hosted endpoint]; unfold hosted_form; cbn [hosted endpoint].
  - intros form s _ _. eexists _, _, _, _. unfold serve. rewrite bool_decide_true by done. cbn [negb].
    rewrite String.eqb_refl. split; [reflexivity|]. split; [apply ok_accepts|].
    split; [by eval_fields|]. split; [by eval_fields|]. apply records_json_body, at_fits.
  - intros form s Hs Ht Hfree _. serve_path.
    assert (Hnone : existsb (names (form_get "type" form) (form_value form))
      (at_ s (form_get "zone" form) (form_get "domain" form)) = false).
    { apply existsb_none. intros r Hr. rewrite Forall_forall in Hfree. apply Hfree. by apply list_elem_of_In. }
    rewrite Hnone.
    assert (Hf : forallb fits (at_ s (form_get "zone" form) (form_get "domain" form) ++ [new_record form])%list = true).
    { rewrite forallb_app, at_fits. cbn. by rewrite (new_record_fits form _ Hs Ht). }
    eexists _, _, (new_record form), _. split; [reflexivity|]. split; [apply ok_accepts|].
    split; [exact (new_record_names _ _ Hs)|]. split; [by intros t E; unfold new_record, rr_new; rewrite E|].
    split; [by apply at_put|by apply changes_only_put].
  - intros form s Hs _. serve_path.
    assert (Hf : forallb fits (filter (fun r => names (form_get "type" form) (form_value form) r = false)
      (at_ s (form_get "zone" form) (form_get "domain" form))) = true) by apply filter_fits, at_fits.
    destruct (existsb _ _) eqn:E.
    + eexists _, _, _. split; [reflexivity|]. split; [left; apply ok_accepts|].
      split; [by apply at_put|by apply changes_only_put].
    + eexists _, _, _. split; [reflexivity|]. split; [right; eexists; split; [apply error_replies|done]|].
      split; [|by intros z d _]. symmetry. by apply filter_absent.
  - intros form s t Hs _ Et Ht _. serve_path. rewrite Et.
    eexists _, _, _. split; [reflexivity|]. split; [apply ok_accepts|].
    split; [apply at_put|apply changes_only_put]; by apply with_ttl_fits, at_fits.
Qed.
End Endpoint.

Definition example_client : Client.t :=
  Client.mk "http://dns.example:5380" true "secret-token" "" "" defaultTimeout false.
Definition example_store : Endpoint.store :=
  Endpoint.put Endpoint.nothing "example.com" "www.example.com" [example_a "10.0.0.1"; example_a "10.0.0.9"].

Example record_pass_over_http_witness : exists s',
  @run _ _ _ _ (Endpoint.serve example_client)
    (interp (recordClient example_client) (reconcileRecord_body example_record)) example_store = (inr tt, s') /\
  record_synced example_record [example_a "10.0.0.1"; example_a "10.0.0.9"]
    (Endpoint.at_ s' "example.com" "www.example.com").
Proof.
  destruct (@record_pass_over_http example_client ltac:(discriminate) _ _ (Endpoint.laws example_client)
    example_record example_store) as (s' & Hrun & Hsync & _).
  - example_definite.
  - example_definite.
  - discriminate.
  - exact example_rrset.
  - exists s'. split; [exact Hrun|exact Hsync].
Defined.

Example example_pass_requests :
  map projT1 (history (Endpoint.serve example_client)
    (interp (recordClient example_client) (reconcileRecord_body example_record)) example_store)
  = let addressed := <["zone" := "example.com"]> (<["domain" := "www.example.com"]> (∅ : Values)) in
    let typed := <["type" := "A"]> addressed in
    [Post "http://dns.example:5380/api/zones/records/get" (Some "Bearer secret-token") (<["listZone" := "false"]> addressed);
     Post "http://dns.example:5380/api/zones/records/add" (Some "Bearer secret-token")
       (<["ttl" := "60"]> (<["ipAddress" := "10.0.0.2"]> typed));
     Post "http://dns.example:5380/api/zones/records/delete" (Some "Bearer secret-token")
       (<["ipAddress" := "10.0.0.1"]> typed)].
Proof. vm_compute. reflexivity. Qed.
