(* ===== verification/Fleet.v ===== *)
(** * Many Records on one server

    The Record controller reconciles every Record of a cluster against the same
    server, in whatever order its queue decides and as often as resources change
    or resync.  [Record] shows what one pass does; here passes of several
    Records follow one another.  Records that do not claim the same server
    record can share a zone, and even a name: they converge together, whatever
    the schedule, and keep their hands off everything else. *)

From S2P Require Import Prelude GoStrings GoErrors Effects RecordsAPI Kube Lifecycle Record.

Local Open Scope string_scope.
Local Open Scope Z_scope.
Local Open Scope go_scope.

(** ** Claims

    The server records a Record has a say in: those its spec manages, and those
    what it applied before manages. *)
Definition claims (o : RecordObj.t) (r : Record_.t) : bool :=
  manages (RecordObj.Spec o) r || manages (appliedSpec o) r.

Definition place (o : RecordObj.t) : string * string :=
  (RecordSpec.Zone (RecordObj.Spec o), RecordSpec.Name (RecordObj.Spec o)).

(** Two Records that cannot meet. *)
Definition apart (o o' : RecordObj.t) : Prop :=
  place o = place o' -> forall r, claims o r = true -> claims o' r = false.

(** A Record whose requests name a record: as the API server and the webhook
    admit it, and with a TTL. *)
Definition reconcilable (o : RecordObj.t) : Prop :=
  definite (RecordObj.Spec o) /\ definite (appliedSpec o) /\ RecordSpec.TTL (RecordObj.Spec o) <> None.

(** The record [o] asks for is there, and nothing else it claims. *)
Record in_sync (o : RecordObj.t) (l : list Record_.t) : Prop := {
  sync_present : exists r, r ∈ l /\ manages (RecordObj.Spec o) r = true;
  sync_value r : r ∈ l -> manages (RecordObj.Spec o) r = true ->
    recordDataMatches (RecordObj.Spec o) r = true /\ Record_.TTL r = recordTTLFromSpec (RecordObj.Spec o);
  sync_stale r : r ∈ l -> claims o r = true -> manages (RecordObj.Spec o) r = true
}.

Lemma foreign_claims (o : RecordObj.t) (l : list Record_.t) :
  foreign o l = filter (fun r => claims o r = false) l.
Proof. reflexivity. Qed.

Lemma synced_in_sync o before after : record_synced o before after -> in_sync o after.
Proof.
  intros Hs. constructor; [apply Hs|apply Hs|]. intros r Hr Hc. unfold claims in Hc.
  destruct (manages (RecordObj.Spec o) r) eqn:E; [done|]. rewrite <- E. by apply (synced_stale _ _ _ Hs).
Qed.

(** What a Record does not claim is in the name after its pass exactly when it
    was there before. *)
Lemma synced_keeps o before after (f : Record_.t -> bool) :
  record_synced o before after -> (forall r, f r = true -> claims o r = false) ->
  filter (fun r => f r = true) after = filter (fun r => f r = true) before.
Proof.
  intros Hs Hf. pose proof (synced_foreign _ _ _ Hs) as E. rewrite !foreign_claims in E.
  rewrite <- (list_filter_filter_l _ (fun r => claims o r = false) after) by exact Hf.
  by rewrite E, list_filter_filter_l.
Qed.

(** Being in sync depends only on what is claimed. *)
Lemma in_sync_ext o l l' :
  filter (fun r => claims o r = true) l' = filter (fun r => claims o r = true) l -> in_sync o l -> in_sync o l'.
Proof.
  intros E [Hp Hv Hs].
  assert (Hin : forall r, claims o r = true -> r ∈ l' <-> r ∈ l).
  { intros r Hr. pose proof (list_elem_of_filter (fun r => claims o r = true) l r) as F.
    rewrite <- E, list_elem_of_filter in F. tauto. }
  assert (Hm : forall r, manages (RecordObj.Spec o) r = true -> claims o r = true) by (intros r Hr; unfold claims; by rewrite Hr).
  constructor.
  - destruct Hp as (r & Hr & Hr'). exists r. split; [apply Hin; auto|done].
  - intros r Hr Hr'. apply Hv; [apply Hin; auto|done].
  - intros r Hr Hr'. apply Hs; [by apply Hin|done].
Qed.

(** ** A pass keeps a name well formed *)

Lemma claims_type o r : claims o r = true -> Record_.Type_ r = RecordSpec.Type_ (RecordObj.Spec o).
Proof.
  unfold claims. intros Hc. apply orb_true_iff in Hc as [Hc|Hc]; apply manages_type in Hc; [done|].
  by rewrite Hc, appliedSpec_type.
Qed.

(** What is in the name after a pass is managed by the spec, or was there. *)
Lemma synced_cases o before after r :
  record_synced o before after -> r ∈ after ->
  manages (RecordObj.Spec o) r = true \/ (claims o r = false /\ r ∈ before).
Proof.
  intros Hs Hr. destruct (claims o r) eqn:E.
  - left. by apply (sync_stale _ _ (synced_in_sync _ _ _ Hs)).
  - right. split; [done|]. pose proof (synced_foreign _ _ _ Hs) as F. rewrite !foreign_claims in F.
    assert (Hf : r ∈ filter (fun r => claims o r = false) after) by by apply list_elem_of_filter.
    rewrite F in Hf. by apply list_elem_of_filter in Hf as [_ ?].
Qed.

Lemma synced_wf o before after :
  definite (RecordObj.Spec o) -> record_synced o before after -> rrset_wf before -> rrset_wf after.
Proof.
  intros Hd Hs (Hu & Hn & Ht). split; [by apply (synced_cname _ _ _ Hs)|]. split.
  - intros r Hr Hty. destruct (synced_cases _ _ _ _ Hs Hr) as [Hm|[_ Hb]]; [|by apply Hn].
    destruct (synced_value _ _ _ Hs r Hr Hm) as [Hv _].
    apply manages_type in Hm. rewrite Hm in Hty. unfold recordDataMatches in Hv. rewrite Hty in Hv. cbn in Hv.
    apply String.eqb_eq in Hv. rewrite Hv. apply Hd.
  - intros spec r r' Hr Hr' Hc Hds Hm Hm'.
    assert (Hagree : forall r1 r2, r1 ∈ after -> manages (RecordObj.Spec o) r1 = true ->
      manages spec r1 = true -> manages spec r2 = true -> manages (RecordObj.Spec o) r2 = true).
    { intros r1 r2 _ M1 M2 M3. rewrite <- M3. symmetry. apply (manages_agree spec (RecordObj.Spec o) r1 r2); try done.
      by rewrite <- (manages_type _ _ M1), <- (manages_type _ _ M2). }
    destruct (synced_cases _ _ _ _ Hs Hr) as [M|[_ B]], (synced_cases _ _ _ _ Hs Hr') as [M'|[_ B']].
    + destruct (synced_value _ _ _ Hs r Hr M) as [_ ->]. by destruct (synced_value _ _ _ Hs r' Hr' M') as [_ ->].
    + assert (M' := Hagree r r' Hr M Hm Hm'). destruct (synced_value _ _ _ Hs r Hr M) as [_ ->].
      by destruct (synced_value _ _ _ Hs r' Hr' M') as [_ ->].
    + assert (M := Hagree r' r Hr' M' Hm' Hm). destruct (synced_value _ _ _ Hs r Hr M) as [_ ->].
      by destruct (synced_value _ _ _ Hs r' Hr' M') as [_ ->].
    + by apply (Ht spec r r').
Qed.

(** ** Passes *)

Definition remembered (o : RecordObj.t) : RecordObj.t := (recordApplied (RecordObj.Spec o) o).1.

Lemma remembered_spec o : RecordObj.Spec (remembered o) = RecordObj.Spec o.
Proof. reflexivity. Qed.

Lemma remembered_status o :
  RecordStatus.AppliedData (RecordObj.Status (remembered o)) = RecordSpec.Data (RecordObj.Spec o) /\
  RecordStatus.AppliedPriority (RecordObj.Status (remembered o)) = RecordSpec.Priority (RecordObj.Spec o).
Proof.
  unfold remembered, recordApplied. cbn.
  destruct (String.eqb_spec (RecordStatus.AppliedData (RecordObj.Status o)) (RecordSpec.Data (RecordObj.Spec o)))
    as [E|_]; [|by split]. case_bool_decide as Hp; by split.
Qed.

Lemma applied_settled o :
  RecordStatus.AppliedData (RecordObj.Status o) = RecordSpec.Data (RecordObj.Spec o) ->
  RecordStatus.AppliedPriority (RecordObj.Status o) = RecordSpec.Priority (RecordObj.Spec o) ->
  appliedSpec o = RecordObj.Spec o.
Proof.
  intros Hd Hp. unfold appliedSpec. rewrite Hd, Hp. destruct (negb _); [|done]. by destruct (RecordObj.Spec o).
Qed.

Lemma remembered_applied o : appliedSpec (remembered o) = RecordObj.Spec o.
Proof. destruct (remembered_status o) as [Hd Hp]. exact (applied_settled (remembered o) Hd Hp). Qed.

(** A Record that has been through a pass, and what it claimed before. *)
Lemma pass_own o o' before after :
  record_synced o' before after -> RecordObj.Spec o' = RecordObj.Spec o -> (o' = o \/ in_sync o before) ->
  in_sync o after.
Proof.
  intros Hs Hspec [->|Hb]; [by apply (synced_in_sync _ before)|].
  destruct (synced_in_sync _ _ _ Hs) as [Hp Hv Hst]. rewrite Hspec in *.
  constructor; [done|done|]. intros r Hr Hc.
  destruct (synced_cases _ _ _ _ Hs Hr) as [Hm|[_ Hbr]]; [by rewrite Hspec in Hm|].
  by apply (sync_stale _ _ Hb).
Qed.

Section fleet.
Context {S : Type} `{!RecordServer S} `{!RecordServerLaws S}.

(** The Records and the server.  A pass of the [i]-th Record that succeeds
    remembers what it applied ([markReady]). *)
Definition pass (w : list RecordObj.t * S) (i : nat) : list RecordObj.t * S :=
  match w.1 !! i with
  | None => w
  | Some o =>
      let '(res, s) := run record_step (reconcileRecord_body o) w.2 in
      (match res with inr _ => <[i := remembered o]> w.1 | inl _ => w.1 end, s)
  end.
Definition passes (schedule : list nat) (w : list RecordObj.t * S) : list RecordObj.t * S := fold_left pass schedule w.

Definition content (s : S) (p : string * string) : list Record_.t := records_at s p.1 p.2.

(** Nobody claims [r] at the name [p]. *)
Definition unclaimed (os : list RecordObj.t) (p : string * string) (r : Record_.t) : bool :=
  forallb (fun o => negb (bool_decide (place o = p) && claims o r)) os.

(** After a schedule of the Records [past]. *)
Record fleet_inv (os : list RecordObj.t) (s0 : S) (past : list nat) (w : list RecordObj.t * S) : Prop := {
  inv_same i : i ∉ past -> w.1 !! i = os !! i;
  inv_done i o : i ∈ past -> os !! i = Some o ->
    exists o', w.1 !! i = Some o' /\ RecordObj.Spec o' = RecordObj.Spec o /\
      appliedSpec o' = RecordObj.Spec o /\ RecordStatus.AppliedData (RecordObj.Status o') = RecordSpec.Data (RecordObj.Spec o) /\
      RecordStatus.AppliedPriority (RecordObj.Status o') = RecordSpec.Priority (RecordObj.Spec o) /\
      in_sync o (content w.2 (place o));
  inv_end i : os !! i = None -> w.1 !! i = None;
  inv_wf p : rrset_wf (content w.2 p);
  inv_frame p : filter (fun r => unclaimed os p r = true) (content w.2 p)
                = filter (fun r => unclaimed os p r = true) (content s0 p)
}.

Context (os : list RecordObj.t).
Context (Hok : forall i o, os !! i = Some o -> reconcilable o).
Context (Hapart : forall i j o o', os !! i = Some o -> os !! j = Some o' -> i <> j -> apart o o').

(** The Record a pass reads claims no more than it did at the start. *)
Lemma current_record s0 past w i o :
  fleet_inv os s0 past w -> os !! i = Some o ->
  exists o', w.1 !! i = Some o' /\ RecordObj.Spec o' = RecordObj.Spec o /\ reconcilable o' /\
    (forall r, claims o' r = true -> claims o r = true) /\ (o' = o \/ i ∈ past).
Proof.
  intros Hinv Ho. destruct (decide (i ∈ past)) as [Hd|Hd].
  - destruct (inv_done _ _ _ _ Hinv i o Hd Ho) as (o' & Hw & Hs & Ha & _). exists o'.
    destruct (Hok i o Ho) as (Hdef & _ & Ht). split; [done|]. split; [done|]. split.
    { unfold reconcilable. by rewrite Hs, Ha. }
    split; [|by right]. intros r. unfold claims. rewrite Hs, Ha, orb_diag. by intros ->.
  - exists o. rewrite (inv_same _ _ _ _ Hinv i Hd). split_and!; try done; [by apply (Hok i)|by left].
Qed.

Lemma content_elsewhere o s s' p :
  only_at s s' (place o).1 (place o).2 -> place o <> p -> content s' p = content s p.
Proof.
  intros Honly Hp. unfold content. apply Honly. intros E. apply Hp. symmetry.
  by rewrite (surjective_pairing p), E, <- surjective_pairing.
Qed.

(** What a pass of [o] does to a name. *)
Lemma pass_content o s s' :
  only_at s s' (place o).1 (place o).2 -> record_synced o (content s (place o)) (content s' (place o)) ->
  forall p (f : Record_.t -> bool), (place o = p -> forall r, f r = true -> claims o r = false) ->
  filter (fun r => f r = true) (content s' p) = filter (fun r => f r = true) (content s p).
Proof.
  intros Honly Hs p f Hf. destruct (decide (place o = p)) as [<-|Hp].
  - eapply synced_keeps; eauto.
  - by rewrite (content_elsewhere o s s').
Qed.

Lemma pass_fleet_inv s0 past w i : fleet_inv os s0 past w -> fleet_inv os s0 (i :: past) (pass w i).
Proof.
  intros Hinv. unfold pass. destruct (os !! i) as [o|] eqn:Ho.
  2:{ rewrite (inv_end _ _ _ _ Hinv i Ho). constructor; try apply Hinv.
      - intros j Hj. apply (inv_same _ _ _ _ Hinv). set_solver.
      - intros j o Hj Hoj. apply (inv_done _ _ _ _ Hinv j o); [|done].
        apply elem_of_cons in Hj as [->|Hj]; [congruence|done]. }
  destruct (current_record _ _ _ _ _ Hinv Ho) as (o' & Hw & Hspec & (Hd & Ha & Ht) & Hcl & Hwas).
  rewrite Hw.
  destruct (reconcileRecord_converges o' w.2 Hd Ha Ht (inv_wf _ _ _ _ Hinv (place o'))) as (s' & Hrun & Honly & Hsync).
  rewrite Hrun.
  assert (Hpl : place o' = place o) by (unfold place; by rewrite Hspec).
  pose proof (pass_content o' w.2 s' Honly Hsync) as Hkeep.
  constructor; cbn [fst snd].
  - intros j Hj. rewrite list_lookup_insert_ne by set_solver. apply (inv_same _ _ _ _ Hinv). set_solver.
  - intros j oj Hj Hoj. destruct (decide (j = i)) as [->|Hji].
    + replace oj with o in * by congruence.
      exists (remembered o'). rewrite list_lookup_insert_eq by by apply lookup_lt_Some in Hw.
      destruct (remembered_status o') as [Hs1 Hs2]. rewrite Hspec in Hs1, Hs2.
      split; [done|]. split; [done|]. split; [by rewrite remembered_applied|]. split; [done|]. split; [done|].
      apply (pass_own o o' (content w.2 (place o))); [by rewrite <- Hpl|done|].
      destruct Hwas as [?|Hin]; [by left|]. right.
      by destruct (inv_done _ _ _ _ Hinv i o Hin Ho) as (? & _ & _ & _ & _ & _ & ?).
    + apply elem_of_cons in Hj as [?|Hj]; [done|].
      destruct (inv_done _ _ _ _ Hinv j oj Hj Hoj) as (oj' & Hwj & H1 & H2 & H3 & H4 & H5).
      exists oj'. rewrite list_lookup_insert_ne by done. split_and!; try done.
      apply (in_sync_ext _ (content w.2 (place oj))); [|done]. apply Hkeep. intros Hp r Hr.
      apply not_true_is_false. intros Hc. apply Hcl in Hc.
      by rewrite (Hapart j i oj o Hoj Ho Hji ltac:(congruence) r Hr) in Hc.
  - intros j Hj. rewrite list_lookup_insert_ne by congruence. by apply (inv_end _ _ _ _ Hinv).
  - intros p. destruct (decide (place o' = p)) as [<-|Hp].
    + apply (synced_wf o' (content w.2 (place o'))); [done|done|]. apply (inv_wf _ _ _ _ Hinv).
    + rewrite (content_elsewhere o' w.2 s' p Honly Hp). apply (inv_wf _ _ _ _ Hinv).
  - intros p. rewrite <- (inv_frame _ _ _ _ Hinv p). apply Hkeep. intros <- r Hr.
    unfold unclaimed in Hr. rewrite forallb_forall in Hr.
    specialize (Hr o (proj1 (list_elem_of_In _ _) (list_elem_of_lookup_2 _ _ _ Ho))).
    rewrite bool_decide_true in Hr by done. apply not_true_is_false. intros Hc. by rewrite (Hcl r Hc) in Hr.
Qed.

Lemma passes_inv s0 schedule : forall past w,
  fleet_inv os s0 past w -> fleet_inv os s0 (rev schedule ++ past)%list (passes schedule w).
Proof.
  induction schedule as [|i schedule IH]; intros past w Hinv; [done|].
  cbn [rev]. rewrite <- app_assoc. apply (IH (i :: past) (pass w i)), pass_fleet_inv, Hinv.
Qed.

Lemma start_inv s0 : (forall p, rrset_wf (content s0 p)) -> fleet_inv os s0 [] (os, s0).
Proof. intros Hwf. constructor; try done. intros i o Hi. by apply elem_of_nil in Hi. Qed.

(** C4: Records converge together.  Take Records on one server no two of which
    claim the same server record, and run their passes in any order, any number
    of times each.  Every Record that had a pass has what its spec asks for and
    nothing it applied before, its status says so, and another pass would change
    nothing; what no Record claims is as it was, under every name. *)
Theorem fleet_converges (s : S) (schedule : list nat) :
  (forall p, rrset_wf (content s p)) ->
  let w := passes schedule (os, s) in
  (forall i o, i ∈ schedule -> os !! i = Some o ->
     in_sync o (content w.2 (place o)) /\
     exists o', w.1 !! i = Some o' /\ RecordObj.Spec o' = RecordObj.Spec o /\
       appliedSpec o' = RecordObj.Spec o /\
       run record_step (reconcileRecord_body o') w.2 = (inr tt, w.2)) /\
  (forall p, filter (fun r => unclaimed os p r = true) (content w.2 p)
             = filter (fun r => unclaimed os p r = true) (content s p)).
Proof.
  cbn zeta. intros Hwf. pose proof (passes_inv s schedule [] (os, s) (start_inv s Hwf)) as Hinv.
  rewrite app_nil_r in Hinv. split; [|apply (inv_frame _ _ _ _ Hinv)].
  intros i o Hi Ho.
  destruct (inv_done _ _ _ _ Hinv i o) as (o' & Hw & Hspec & Ha & Hd & Hp & Hsync); [|done|].
  { apply list_elem_of_In, in_rev. rewrite rev_involutive. by apply list_elem_of_In. }
  split; [done|]. exists o'. split_and!; try done.
  destruct (Hok i o Ho) as ((_ & _ & Hn & _) & _).
  apply (reconcileRecord_settled o'); rewrite ?Hspec; try done; [apply Hsync|apply Hsync].
Qed.
End fleet.

(** ** Examples *)

Lemma apart_types o o' :
  RecordSpec.Type_ (RecordObj.Spec o) <> RecordSpec.Type_ (RecordObj.Spec o') -> apart o o'.
Proof.
  intros Hn _ r Hr. apply not_true_is_false. intros Hr'. apply claims_type in Hr, Hr'. congruence.
Qed.

(** Two Records for [www.example.com]: the address of [Record]'s example, and a
    text. *)
Definition example_text : RecordObj.t :=
  RecordObj.mk (ObjectMeta.named "" "www-text")
    (RecordSpec.mk (SecretReference.mk "dns" "") "example.com" "www.example.com" "TXT" (Some 60) "hello" None "")
    (RecordStatus.mk [] 1 false "" None).
Definition example_fleet : list RecordObj.t := [example_record; example_text].

Lemma example_reconcilable i o : example_fleet !! i = Some o -> reconcilable o.
Proof.
  intros Ho. destruct i as [|[|i]]; cbn in Ho; [injection Ho as <-..|discriminate].
  all: split; [by example_definite|split; [by example_definite|discriminate]].
Qed.

Lemma example_apart i j o o' :
  example_fleet !! i = Some o -> example_fleet !! j = Some o' -> i <> j -> apart o o'.
Proof.
  intros Ho Ho' Hij. apply apart_types.
  destruct i as [|[|i]], j as [|[|j]]; cbn in Ho, Ho'; try discriminate; try (by destruct Hij).
  all: injection Ho as <-; injection Ho' as <-; discriminate.
Qed.

Lemma example_contents_wf p : @rrset_wf (@content _ rr_server example_records p).
Proof.
  unfold content. cbn. unfold rr_at, example_records. destruct p as [z d]. cbn [fst snd].
  destruct (decide (("example.com", "www.example.com") = (z, d))) as [<-|Hn].
  - rewrite lookup_singleton_eq. exact example_rrset.
  - rewrite lookup_singleton_ne by done. cbn.
    split; [by intros ?? []%elem_of_nil|]. split; [by intros ? []%elem_of_nil|by intros ??? []%elem_of_nil].
Qed.

Example fleet_converges_witness :
  in_sync example_text (@content _ rr_server
    (@passes _ rr_server [1; 0; 1]%nat (example_fleet, example_records)).2 ("example.com", "www.example.com")).
Proof.
  refine (proj1 (proj1 (@fleet_converges _ rr_server rr_server_laws example_fleet example_reconcilable example_apart
    example_records [1; 0; 1]%nat example_contents_wf) 1%nat example_text _ _)); [by_decision|reflexivity].
Defined.
