(* ===== verification/ServerSettings.v ===== *)
(** * The ServerSettings resource

    [api/v1alpha1/serversettings_types.go] and
    [internal/controller/serversettings_controller.go]. *)

From S2P Require Import Prelude GoStrings GoErrors Effects Kube Lifecycle ServerAPI.

Local Open Scope string_scope.
Local Open Scope Z_scope.
Local Open Scope go_scope.
Local Open Scope prog_scope.

(** ** The resource *)

Module ForwarderSettings.
Record t := mk { Addresses : list string; Protocol : option string }.
End ForwarderSettings.

Module RecursionSettings.
Record t := mk { Policy : string; NetworkACL : list string }.
End RecursionSettings.

Module CacheSettings.
Record t := mk {
  ServeStale : option bool;
  ServeStaleTTLSeconds : option Z;
  MaximumRecordTTLSeconds : option Z;
  MinimumRecordTTLSeconds : option Z
}.
End CacheSettings.

Module LoggingSettings.
Record t := mk {
  Enabled : option bool;
  LogQueries : option bool;
  UseLocalTime : option bool;
  MaxFileDays : option Z
}.
End LoggingSettings.

Module ServerSettingsSpec.
Record t := mk {
  ServerRef : SecretReference.t;
  Forwarders : option ForwarderSettings.t;
  Recursion : option RecursionSettings.t;
  Cache : option CacheSettings.t;
  Logging : option LoggingSettings.t;
  DeletionPolicy : string
}.
End ServerSettingsSpec.

Module ObservedServerSettings.
Record t := mk {
  Forwarders : list string;
  ForwarderProtocol : string;
  Recursion : string;
  RecursionNetworkACL : list string;
  ServeStale : option bool;
  ServeStaleTTLSeconds : option Z;
  CacheMaximumRecordTTLSeconds : option Z;
  CacheMinimumRecordTTLSeconds : option Z;
  LoggingEnabled : option bool;
  LogQueries : option bool;
  UseLocalTime : option bool;
  MaxLogFileDays : option Z
}.
#[export] Instance t_eq_dec : EqDecision t.
Proof. solve_decision. Defined.
End ObservedServerSettings.
#[export] Existing Instance ObservedServerSettings.t_eq_dec.

Module ServerSettingsStatus.
Record t := mk {
  Conditions : list Condition.t;
  ObservedGeneration : Z;
  Observed : option ObservedServerSettings.t
}.
End ServerSettingsStatus.

Module ServerSettings.
Record t := mk { Meta : ObjectMeta.t; Spec : ServerSettingsSpec.t; Status : ServerSettingsStatus.t }.
End ServerSettings.

#[export] Instance ServerSettings_Resource : Resource ServerSettings.t := {|
  meta := ServerSettings.Meta;
  with_meta o m := ServerSettings.mk m (ServerSettings.Spec o) (ServerSettings.Status o);
  conditions o := ServerSettingsStatus.Conditions (ServerSettings.Status o);
  with_conditions o cs :=
    let s := ServerSettings.Status o in
    ServerSettings.mk (ServerSettings.Meta o) (ServerSettings.Spec o)
      (ServerSettingsStatus.mk cs (ServerSettingsStatus.ObservedGeneration s) (ServerSettingsStatus.Observed s));
  observedGeneration o := ServerSettingsStatus.ObservedGeneration (ServerSettings.Status o);
  with_observedGeneration o g :=
    let s := ServerSettings.Status o in
    ServerSettings.mk (ServerSettings.Meta o) (ServerSettings.Spec o)
      (ServerSettingsStatus.mk (ServerSettingsStatus.Conditions s) g (ServerSettingsStatus.Observed s));
  spec_of := ServerSettings.Spec
|}.

#[export] Instance ServerSettings_ResourceLaws : ResourceLaws ServerSettings.t.
Proof. constructor; intros [m sp []]; reflexivity. Qed.

(** ** The controller *)

Definition serverSettingsFinalizer : string := "dns.packet.fail/serversettings-cleanup".

(** [ServerSettingsAPI]. *)
Inductive settingsE : Type :=
| SettingsGet
| SettingsSet (opts : SetDNSSettingsOptions.t).
#[export] Instance settingsE_Effect : Effect settingsE := fun c => match c with
| SettingsGet => fallible DNSSettings.t
| SettingsSet _ => option error
end.

Definition setDNSSettingsOptionsFromSpec (spec : ServerSettingsSpec.t) : SetDNSSettingsOptions.t :=
  let fwd := ServerSettingsSpec.Forwarders spec in
  let rec := ServerSettingsSpec.Recursion spec in
  let cache := ServerSettingsSpec.Cache spec in
  let logging := ServerSettingsSpec.Logging spec in
  SetDNSSettingsOptions.mk
    (ForwarderSettings.Addresses <$> fwd)
    (fwd ≫= ForwarderSettings.Protocol)
    (RecursionSettings.Policy <$> rec)
    (RecursionSettings.NetworkACL <$> rec)
    (cache ≫= CacheSettings.ServeStale)
    (cache ≫= CacheSettings.ServeStaleTTLSeconds)
    (cache ≫= CacheSettings.MaximumRecordTTLSeconds)
    (cache ≫= CacheSettings.MinimumRecordTTLSeconds)
    (logging ≫= LoggingSettings.Enabled)
    (logging ≫= LoggingSettings.LogQueries)
    (logging ≫= LoggingSettings.UseLocalTime)
    (logging ≫= LoggingSettings.MaxFileDays)
    None None None None.

Fixpoint stringSlicesEqual (a b : list string) : bool :=
  match a, b with
  | [], [] => true
  | x :: a', y :: b' => (x =s? y) && stringSlicesEqual a' b'
  | _, _ => false
  end.

(** A field the spec leaves out, or that already has the desired value. *)
Definition unset_or {X : Type} (eq : X -> X -> bool) (desired : option X) (current : X) : bool :=
  match desired with Some d => eq d current | None => true end.

Definition serverSettingsInSync (desired : SetDNSSettingsOptions.t) (current : DNSSettings.t) : bool :=
  unset_or stringSlicesEqual (SetDNSSettingsOptions.Forwarders desired) (DNSSettings.Forwarders current)
  && unset_or String.eqb (SetDNSSettingsOptions.ForwarderProtocol desired) (DNSSettings.ForwarderProtocol current)
  && unset_or String.eqb (SetDNSSettingsOptions.Recursion desired) (DNSSettings.Recursion current)
  && unset_or stringSlicesEqual (SetDNSSettingsOptions.RecursionNetworkACL desired) (DNSSettings.RecursionNetworkACL current)
  && unset_or Bool.eqb (SetDNSSettingsOptions.ServeStale desired) (DNSSettings.ServeStale current)
  && unset_or Z.eqb (SetDNSSettingsOptions.ServeStaleTTL desired) (DNSSettings.ServeStaleTTL current)
  && unset_or Z.eqb (SetDNSSettingsOptions.CacheMaximumRecordTTL desired) (DNSSettings.CacheMaximumRecordTTL current)
  && unset_or Z.eqb (SetDNSSettingsOptions.CacheMinimumRecordTTL desired) (DNSSettings.CacheMinimumRecordTTL current)
  && unset_or Bool.eqb (SetDNSSettingsOptions.EnableLogging desired) (DNSSettings.EnableLogging current)
  && unset_or Bool.eqb (SetDNSSettingsOptions.LogQueries desired) (DNSSettings.LogQueries current)
  && unset_or Bool.eqb (SetDNSSettingsOptions.UseLocalTime desired) (DNSSettings.UseLocalTime current)
  && unset_or Z.eqb (SetDNSSettingsOptions.MaxLogFileDays desired) (DNSSettings.MaxLogFileDays current).

Definition reconcileServerSettings_body (settings : ServerSettings.t) : prog settingsE (fallible DNSSettings.t) :=
  g <- call SettingsGet ;;
  match (g : fallible DNSSettings.t) with
  | inl err => fail err
  | inr current =>
      let desired := setDNSSettingsOptionsFromSpec (ServerSettings.Spec settings) in
      if serverSettingsInSync desired current then ok current
      else
        s <- call (SettingsSet desired) ;;
        match (s : option error) with
        | Some err => fail err
        | None => call SettingsGet
        end
  end.

Definition observedFromDNSSettings (current : DNSSettings.t) : ObservedServerSettings.t :=
  ObservedServerSettings.mk
    (DNSSettings.Forwarders current) (DNSSettings.ForwarderProtocol current)
    (DNSSettings.Recursion current) (DNSSettings.RecursionNetworkACL current)
    (Some (DNSSettings.ServeStale current)) (Some (DNSSettings.ServeStaleTTL current))
    (Some (DNSSettings.CacheMaximumRecordTTL current)) (Some (DNSSettings.CacheMinimumRecordTTL current))
    (Some (DNSSettings.EnableLogging current)) (Some (DNSSettings.LogQueries current))
    (Some (DNSSettings.UseLocalTime current)) (Some (DNSSettings.MaxLogFileDays current)).

Definition recordObserved (current : DNSSettings.t) (o : ServerSettings.t) : ServerSettings.t * bool :=
  let s := ServerSettings.Status o in
  let observed := Some (observedFromDNSSettings current) in
  if bool_decide (ServerSettingsStatus.Observed s = observed) then (o, false)
  else (ServerSettings.mk (ServerSettings.Meta o) (ServerSettings.Spec o)
          (ServerSettingsStatus.mk (ServerSettingsStatus.Conditions s)
             (ServerSettingsStatus.ObservedGeneration s) observed), true).

Definition settings_ref (o : ServerSettings.t) : SecretReference.t :=
  ServerSettingsSpec.ServerRef (ServerSettings.Spec o).

Section controller.
Context `{KubeLib}.

(** The settings are retained: the finalizer is only cleared. *)
Definition finalizeServerSettings (o : ServerSettings.t) : prog (calls ServerSettings.t settingsE) (option error) :=
  if negb (has_finalizer o serverSettingsFinalizer) then Ret None
  else
    u <- kupdate (remove_finalizer o serverSettingsFinalizer) ;;
    match u with inl err => Ret (Some err) | inr _ => Ret None end.

Definition reconcileServerSettings (o : ServerSettings.t)
  : prog (calls ServerSettings.t settingsE) (fallible DNSSettings.t) :=
  with_server (settings_ref o) (reconcileServerSettings_body o).

Definition settingsMarkReady (key : ObjectKey) (current : DNSSettings.t)
  : prog (calls ServerSettings.t settingsE) (option error) :=
  markReady "SettingsApplied" "ServerSettings reconciled on the Technitium server" (recordObserved current) key.

Definition settingsMarkDegraded : ObjectKey -> error -> prog (calls ServerSettings.t settingsE) (option error) := markDegraded.

Definition settingsReconcile (key : ObjectKey) : prog (calls ServerSettings.t settingsE) (Z * option error) :=
  reconcile serverSettingsFinalizer finalizeServerSettings reconcileServerSettings settingsMarkDegraded
    (fun key _ current => settingsMarkReady key current) key.
End controller.

(** ** What a set does *)

(** The settings after a set: the given fields replaced, the others kept. *)
Definition apply_settings (o : SetDNSSettingsOptions.t) (c : DNSSettings.t) : DNSSettings.t :=
  DNSSettings.mk
    (default (DNSSettings.Forwarders c) (SetDNSSettingsOptions.Forwarders o))
    (default (DNSSettings.ForwarderProtocol c) (SetDNSSettingsOptions.ForwarderProtocol o))
    (default (DNSSettings.Recursion c) (SetDNSSettingsOptions.Recursion o))
    (default (DNSSettings.RecursionNetworkACL c) (SetDNSSettingsOptions.RecursionNetworkACL o))
    (default (DNSSettings.ServeStale c) (SetDNSSettingsOptions.ServeStale o))
    (default (DNSSettings.ServeStaleTTL c) (SetDNSSettingsOptions.ServeStaleTTL o))
    (default (DNSSettings.CacheMaximumRecordTTL c) (SetDNSSettingsOptions.CacheMaximumRecordTTL o))
    (default (DNSSettings.CacheMinimumRecordTTL c) (SetDNSSettingsOptions.CacheMinimumRecordTTL o))
    (default (DNSSettings.EnableLogging c) (SetDNSSettingsOptions.EnableLogging o))
    (default (DNSSettings.LogQueries c) (SetDNSSettingsOptions.LogQueries o))
    (default (DNSSettings.UseLocalTime c) (SetDNSSettingsOptions.UseLocalTime o))
    (default (DNSSettings.MaxLogFileDays c) (SetDNSSettingsOptions.MaxLogFileDays o))
    (default (DNSSettings.EnableBlocking c) (SetDNSSettingsOptions.EnableBlocking o))
    (default (DNSSettings.BlockingType c) (SetDNSSettingsOptions.BlockingType o))
    (default (DNSSettings.BlockListURLs c) (SetDNSSettingsOptions.BlockListURLs o))
    (default (DNSSettings.BlockListUpdateIntervalHours c) (SetDNSSettingsOptions.BlockListUpdateIntervalHours o)).

Lemma stringSlicesEqual_spec (a b : list string) : stringSlicesEqual a b = true <-> a = b.
Proof.
  revert b. induction a as [|x a IH]; intros [|y b]; cbn; try done.
  rewrite andb_true_iff, String.eqb_eq, IH. split; [by intros [-> ->]|by intros [= -> ->]].
Qed.

Lemma unset_or_spec {X : Type} (eq : X -> X -> bool) (d : option X) (c : X) :
  (forall x y, eq x y = true <-> x = y) -> unset_or eq d c = true <-> default c d = c.
Proof. intros He. destruct d as [d|]; cbn; [apply He|done]. Qed.

Lemma apply_settings_idem (o : SetDNSSettingsOptions.t) (c : DNSSettings.t) :
  apply_settings o (apply_settings o c) = apply_settings o c.
Proof. unfold apply_settings. cbn. by f_equal; match goal with |- default _ ?x = _ => destruct x end. Qed.

(** Nothing a ServerSettings manages is about blocking. *)
Lemma serverSettingsInSync_apply (spec : ServerSettingsSpec.t) (c : DNSSettings.t) :
  serverSettingsInSync (setDNSSettingsOptionsFromSpec spec) c = true
  <-> apply_settings (setDNSSettingsOptionsFromSpec spec) c = c.
Proof.
  set (o := setDNSSettingsOptionsFromSpec spec). unfold serverSettingsInSync. rewrite !andb_true_iff.
  rewrite !(unset_or_spec stringSlicesEqual) by apply stringSlicesEqual_spec.
  rewrite !(unset_or_spec String.eqb) by apply String.eqb_eq.
  rewrite !(unset_or_spec Bool.eqb) by apply Bool.eqb_true_iff.
  rewrite !(unset_or_spec Z.eqb) by apply Z.eqb_eq.
  destruct c. unfold apply_settings. cbn. split.
  - intros Hall. f_equal; tauto.
  - intros [=]. tauto.
Qed.

(** ** A Technitium server's settings, as the controller relies on them *)

Class SettingsServer (S : Type) := {
  settings_step : forall a : settingsE, S -> answer a * S;
  settings_of : S -> DNSSettings.t
}.

Class SettingsServerLaws (S : Type) `{!SettingsServer S} : Prop := {
  ss_get s : settings_step SettingsGet s = (inr (settings_of s), s);
  ss_set opts s : exists s', settings_step (SettingsSet opts) s = (None, s') /\
    settings_of s' = apply_settings opts (settings_of s)
}.

Definition settings_reads (a : settingsE) : bool := match a with SettingsGet => true | _ => false end.

Lemma reconcileServerSettings_run {S : Type} `{!SettingsServer S} `{!SettingsServerLaws S}
    (o : ServerSettings.t) (s : S) :
  let desired := setDNSSettingsOptionsFromSpec (ServerSettings.Spec o) in
  exists s', run settings_step (reconcileServerSettings_body o) s = (inr (settings_of s'), s') /\
    settings_of s' = apply_settings desired (settings_of s).
Proof.
  cbn zeta. unfold reconcileServerSettings_body. cbn [bind call run]. rewrite ss_get.
  destruct (serverSettingsInSync _ _) eqn:E.
  - exists s. split; [done|]. by apply serverSettingsInSync_apply in E.
  - cbn [bind call run]. destruct (ss_set (setDNSSettingsOptionsFromSpec (ServerSettings.Spec o)) s) as (s' & E1 & E2).
    exists s'. rewrite E1. cbn [run call]. by rewrite ss_get.
Qed.

Lemma reconcileServerSettings_settled {S : Type} `{!SettingsServer S} `{!SettingsServerLaws S}
    (o : ServerSettings.t) (s : S) :
  apply_settings (setDNSSettingsOptionsFromSpec (ServerSettings.Spec o)) (settings_of s) = settings_of s ->
  run settings_step (reconcileServerSettings_body o) s = (inr (settings_of s), s) /\
  Forall (fun a => settings_reads a = true)
    (map projT1 (history settings_step (reconcileServerSettings_body o) s)).
Proof.
  intros E. apply serverSettingsInSync_apply in E.
  unfold reconcileServerSettings_body. cbn [bind call run history]. rewrite ss_get, E.
  split; [done|]. by repeat constructor.
Qed.

Lemma recordObserved_status_only (c : DNSSettings.t) : status_only (recordObserved c).
Proof.
  constructor; intros [m sp [cs g ob]]; unfold recordObserved; cbn;
    repeat (case_bool_decide; cbn); try done; congruence.
Qed.


(** ** Example *)

#[local] Existing Instance RefKubeLib.lib.
#[local] Existing Instance RefKubeLib.laws.

Definition plain_settings (a : settingsE) : DNSSettings.t -> answer a * DNSSettings.t :=
  match a with
  | SettingsGet => fun s => (inr s, s)
  | SettingsSet o => fun s => (None, apply_settings o s)
  end.
#[local] Instance plain_settings_server : SettingsServer DNSSettings.t :=
  {| settings_step := plain_settings; settings_of := id |}.
#[local] Instance plain_settings_laws : SettingsServerLaws DNSSettings.t.
Proof. constructor; [done|]. intros opts s. by eexists. Qed.
#[local] Instance settings_world :
  Cooperative ServerSettings.t settingsE (option ServerSettings.t * DNSSettings.t) DNSSettings.t :=
  plain_world plain_settings.
#[local] Instance settings_world_laws :
  CooperativeLaws ServerSettings.t settingsE (option ServerSettings.t * DNSSettings.t) DNSSettings.t :=
  plain_laws plain_settings.

Definition example_settings : ServerSettings.t :=
  ServerSettings.mk (ObjectMeta.named "" "settings")
    (ServerSettingsSpec.mk (SecretReference.mk "dns" "")
       (Some (ForwarderSettings.mk ["1.1.1.1"] None)) (Some (RecursionSettings.mk "Allow" [])) None None "Retain")
    (ServerSettingsStatus.mk [] 0 None).
Definition default_settings : DNSSettings.t :=
  DNSSettings.mk [] "Udp" "Deny" ["10.0.0.0/8"] true 1 2 3 true false false 4 true "NxDomain" ["u"] 24.

