(* ===== verification/Blocklist.v ===== *)
(** * The Blocklist resource

    [api/v1alpha1/blocklist_types.go] and
    [internal/controller/blocklist_controller.go]. *)

From S2P Require Import Prelude GoStrings GoErrors Effects Kube Lifecycle ServerAPI ServerSettings.

Local Open Scope string_scope.
Local Open Scope Z_scope.
Local Open Scope go_scope.
Local Open Scope prog_scope.

(** ** The resource *)

Module BlocklistSpec.
Record t := mk {
  ServerRef : SecretReference.t;
  Enabled : option bool;
  BlockListURLs : list string;
  UpdateIntervalHours : option Z;
  BlockingType : option string;
  AllowedDomains : list string;
  BlockedDomains : list string;
  DeletionPolicy : string
}.
End BlocklistSpec.

Module BlocklistStatus.
Record t := mk {
  Conditions : list Condition.t;
  ObservedGeneration : Z;
  AppliedBlockListURLs : list string;
  AppliedAllowedDomains : list string;
  AppliedBlockedDomains : list string
}.
End BlocklistStatus.

Module Blocklist.
Record t := mk { Meta : ObjectMeta.t; Spec : BlocklistSpec.t; Status : BlocklistStatus.t }.
End Blocklist.

#[export] Instance Blocklist_Resource : Resource Blocklist.t := {|
  meta := Blocklist.Meta;
  with_meta o m := Blocklist.mk m (Blocklist.Spec o) (Blocklist.Status o);
  conditions o := BlocklistStatus.Conditions (Blocklist.Status o);
  with_conditions o cs :=
    let s := Blocklist.Status o in
    Blocklist.mk (Blocklist.Meta o) (Blocklist.Spec o)
      (BlocklistStatus.mk cs (BlocklistStatus.ObservedGeneration s) (BlocklistStatus.AppliedBlockListURLs s)
         (BlocklistStatus.AppliedAllowedDomains s) (BlocklistStatus.AppliedBlockedDomains s));
  observedGeneration o := BlocklistStatus.ObservedGeneration (Blocklist.Status o);
  with_observedGeneration o g :=
    let s := Blocklist.Status o in
    Blocklist.mk (Blocklist.Meta o) (Blocklist.Spec o)
      (BlocklistStatus.mk (BlocklistStatus.Conditions s) g (BlocklistStatus.AppliedBlockListURLs s)
         (BlocklistStatus.AppliedAllowedDomains s) (BlocklistStatus.AppliedBlockedDomains s));
  spec_of := Blocklist.Spec
|}.

#[export] Instance Blocklist_ResourceLaws : ResourceLaws Blocklist.t.
Proof. constructor; intros [m sp []]; reflexivity. Qed.

(** ** The controller *)

Definition blocklistFinalizer : string := "dns.packet.fail/blocklist-cleanup".

(** [BlocklistAPI]. *)
Inductive blocklistE : Type :=
| BlGetSettings
| BlSetSettings (opts : SetDNSSettingsOptions.t)
| BlForceUpdate
| BlAddAllowed (domain : string)
| BlDeleteAllowed (domain : string)
| BlAddBlocked (domain : string)
| BlDeleteBlocked (domain : string).
#[export] Instance blocklistE_Effect : Effect blocklistE := fun c => match c with
| BlGetSettings => fallible DNSSettings.t
| _ => option error
end.

(** [appliedBlocklist]. *)
Module appliedBlocklist.
Record t := mk { BlockListURLs : list string; AllowedDomains : list string; BlockedDomains : list string }.
End appliedBlocklist.

Definition blocklistDesired (spec : BlocklistSpec.t) : SetDNSSettingsOptions.t :=
  SetDNSSettingsOptions.mk None None None None None None None None None None None None
    (BlocklistSpec.Enabled spec) (BlocklistSpec.BlockingType spec)
    (Some (BlocklistSpec.BlockListURLs spec)) (BlocklistSpec.UpdateIntervalHours spec).

Definition blocklistSettingsInSync (desired : SetDNSSettingsOptions.t) (current : DNSSettings.t) : bool :=
  unset_or Bool.eqb (SetDNSSettingsOptions.EnableBlocking desired) (DNSSettings.EnableBlocking current)
  && unset_or String.eqb (SetDNSSettingsOptions.BlockingType desired) (DNSSettings.BlockingType current)
  && unset_or stringSlicesEqual (SetDNSSettingsOptions.BlockListURLs desired) (DNSSettings.BlockListURLs current)
  && unset_or Z.eqb (SetDNSSettingsOptions.BlockListUpdateIntervalHours desired)
       (DNSSettings.BlockListUpdateIntervalHours current).

(** Membership in a set built from a slice. *)
Definition in_slice (d : string) (l : list string) : bool := existsb (String.eqb d) l.

Definition reconcileDomainSet (applied desired : list string)
    (add del : string -> prog blocklistE (option error)) : prog blocklistE (option error) :=
  check for_each desired (fun domain => if in_slice domain applied then Ret None else add domain) ;;
  for_each applied (fun domain => if in_slice domain desired then Ret None else del domain).

Definition reconcileBlocklist_body (bl : Blocklist.t) : prog blocklistE (fallible appliedBlocklist.t) :=
  let spec := Blocklist.Spec bl in
  let status := Blocklist.Status bl in
  g <- call BlGetSettings ;;
  match (g : fallible DNSSettings.t) with
  | inl err => fail err
  | inr current =>
      let desired := blocklistDesired spec in
      let urlsNeedRefresh :=
        negb (stringSlicesEqual (BlocklistSpec.BlockListURLs spec) (BlocklistStatus.AppliedBlockListURLs status)) in
      checkV (if negb (blocklistSettingsInSync desired current) then call (BlSetSettings desired) else Ret None) ;;
      checkV (if urlsNeedRefresh then call BlForceUpdate else Ret None) ;;
      checkV reconcileDomainSet (BlocklistStatus.AppliedAllowedDomains status) (BlocklistSpec.AllowedDomains spec)
        (fun d => call (BlAddAllowed d)) (fun d => call (BlDeleteAllowed d)) ;;
      checkV reconcileDomainSet (BlocklistStatus.AppliedBlockedDomains status) (BlocklistSpec.BlockedDomains spec)
        (fun d => call (BlAddBlocked d)) (fun d => call (BlDeleteBlocked d)) ;;
      ok (appliedBlocklist.mk (BlocklistSpec.BlockListURLs spec) (BlocklistSpec.AllowedDomains spec)
            (BlocklistSpec.BlockedDomains spec))
  end.

(** The server-side part of [finalizeBlocklist]. *)
Definition cleanupBlocklist_body (bl : Blocklist.t) : prog blocklistE (option error) :=
  let status := Blocklist.Status bl in
  let empty := SetDNSSettingsOptions.mk None None None None None None None None None None None None
                 None None (Some []) None in
  check call (BlSetSettings empty) ;;
  check call BlForceUpdate ;;
  check for_each (BlocklistStatus.AppliedAllowedDomains status) (fun d => call (BlDeleteAllowed d)) ;;
  for_each (BlocklistStatus.AppliedBlockedDomains status) (fun d => call (BlDeleteBlocked d)).

Definition recordBlocklist (applied : appliedBlocklist.t) (bl : Blocklist.t) : Blocklist.t * bool :=
  let s := Blocklist.Status bl in
  let c1 := negb (bool_decide (BlocklistStatus.AppliedBlockListURLs s = appliedBlocklist.BlockListURLs applied)) in
  let c2 := negb (bool_decide (BlocklistStatus.AppliedAllowedDomains s = appliedBlocklist.AllowedDomains applied)) in
  let c3 := negb (bool_decide (BlocklistStatus.AppliedBlockedDomains s = appliedBlocklist.BlockedDomains applied)) in
  (Blocklist.mk (Blocklist.Meta bl) (Blocklist.Spec bl)
     (BlocklistStatus.mk (BlocklistStatus.Conditions s) (BlocklistStatus.ObservedGeneration s)
        (if c1 then appliedBlocklist.BlockListURLs applied else BlocklistStatus.AppliedBlockListURLs s)
        (if c2 then appliedBlocklist.AllowedDomains applied else BlocklistStatus.AppliedAllowedDomains s)
        (if c3 then appliedBlocklist.BlockedDomains applied else BlocklistStatus.AppliedBlockedDomains s)),
   c1 || c2 || c3).

Definition blocklist_orphan (bl : Blocklist.t) : bool :=
  BlocklistSpec.DeletionPolicy (Blocklist.Spec bl) =s? DeletionPolicyOrphan.
Definition blocklist_ref (bl : Blocklist.t) : SecretReference.t := BlocklistSpec.ServerRef (Blocklist.Spec bl).

Section controller.
Context `{KubeLib}.

Definition finalizeBlocklist (bl : Blocklist.t) : prog (calls Blocklist.t blocklistE) (option error) :=
  finalize_with blocklistFinalizer blocklist_orphan blocklist_ref (fun b => lift (cleanupBlocklist_body b)) bl.

Definition reconcileBlocklist (bl : Blocklist.t) : prog (calls Blocklist.t blocklistE) (fallible appliedBlocklist.t) :=
  with_server (blocklist_ref bl) (reconcileBlocklist_body bl).

Definition blocklistMarkReady (key : ObjectKey) (applied : appliedBlocklist.t)
  : prog (calls Blocklist.t blocklistE) (option error) :=
  markReady "BlocklistApplied" "Blocklist reconciled on the Technitium server" (recordBlocklist applied) key.

Definition blocklistMarkDegraded : ObjectKey -> error -> prog (calls Blocklist.t blocklistE) (option error) := markDegraded.

Definition blocklistReconcile (key : ObjectKey) : prog (calls Blocklist.t blocklistE) (Z * option error) :=
  reconcile blocklistFinalizer finalizeBlocklist reconcileBlocklist blocklistMarkDegraded
    (fun key _ applied => blocklistMarkReady key applied) key.
End controller.

(** ** A Technitium server's blocking configuration

    [allowed] and [blocked] are the manual override zones, [loaded] the block
    list URLs at the last refresh. *)
Class BlocklistServer (S : Type) := {
  bl_step : forall a : blocklistE, S -> answer a * S;
  bl_settings : S -> DNSSettings.t;
  allowed : S -> gset string;
  blocked : S -> gset string;
  loaded : S -> list string
}.

Definition bl_view {S : Type} `{!BlocklistServer S} (s : S) : DNSSettings.t * gset string * gset string * list string :=
  (bl_settings s, allowed s, blocked s, loaded s).

Class BlocklistServerLaws (S : Type) `{!BlocklistServer S} : Prop := {
  bs_get s : bl_step BlGetSettings s = (inr (bl_settings s), s);
  bs_set o s : exists s', bl_step (BlSetSettings o) s = (None, s') /\
    bl_view s' = (apply_settings o (bl_settings s), allowed s, blocked s, loaded s);
  bs_refresh s : exists s', bl_step BlForceUpdate s = (None, s') /\
    bl_view s' = (bl_settings s, allowed s, blocked s, DNSSettings.BlockListURLs (bl_settings s));
  bs_add_allowed d s : exists s', bl_step (BlAddAllowed d) s = (None, s') /\
    bl_view s' = (bl_settings s, allowed s ∪ {[d]}, blocked s, loaded s);
  bs_del_allowed d s : exists s', bl_step (BlDeleteAllowed d) s = (None, s') /\
    bl_view s' = (bl_settings s, allowed s ∖ {[d]}, blocked s, loaded s);
  bs_add_blocked d s : exists s', bl_step (BlAddBlocked d) s = (None, s') /\
    bl_view s' = (bl_settings s, allowed s, blocked s ∪ {[d]}, loaded s);
  bs_del_blocked d s : exists s', bl_step (BlDeleteBlocked d) s = (None, s') /\
    bl_view s' = (bl_settings s, allowed s, blocked s ∖ {[d]}, loaded s)
}.

(** The override set after a pass. *)
Definition converged_set (applied desired : list string) (before : gset string) : gset string :=
  (before ∪ (list_to_set desired ∖ list_to_set applied)) ∖ (list_to_set applied ∖ list_to_set desired).

Lemma in_slice_spec (d : string) (l : list string) : in_slice d l = true <-> d ∈ l.
Proof.
  unfold in_slice. rewrite existsb_exists. split.
  - intros (x & Hx & E). apply String.eqb_eq in E as <-. by apply list_elem_of_In.
  - intros Hd. exists d. split; [by apply list_elem_of_In|]. apply String.eqb_refl.
Qed.

(** A loop that adds to, or removes from, one set. *)
Lemma run_for_each_set {S : Type} (h : forall a : blocklistE, S -> answer a * S)
    (req : string -> prog blocklistE (option error)) (get : S -> gset string) (rest : S -> S -> Prop)
    (skip : string -> bool) (f : gset string -> string -> gset string) :
  (forall s, rest s s) -> (forall s1 s2 s3, rest s1 s2 -> rest s2 s3 -> rest s1 s3) ->
  (forall d s, exists s', run h (req d) s = (None, s') /\ get s' = f (get s) d /\ rest s s') ->
  forall l s, exists s', run h (for_each l (fun d => if skip d then Ret None else req d)) s = (None, s') /\
    get s' = fold_left f (filter (fun d => skip d = false) l) (get s) /\ rest s s'.
Proof.
  intros Hrefl Htrans Hreq. induction l as [|d l IH]; intros s; cbn [for_each].
  { exists s. split_and!; try done. }
  rewrite run_bind, filter_cons. destruct (skip d); cbn [run fst snd]; case_decide; try done.
  destruct (Hreq d s) as (s1 & E1 & E2 & E3). rewrite E1. cbn [fst snd].
  destruct (IH s1) as (s' & F1 & F2 & F3). exists s'. split; [exact F1|]. split; [|by eapply Htrans].
  cbn. by rewrite F2, E2.
Qed.

Lemma fold_left_union (l : list string) : forall X : gset string,
  fold_left (fun X d => X ∪ {[d]}) l X = X ∪ list_to_set l.
Proof. induction l as [|d l IH]; intros X; cbn; [set_solver|]. rewrite IH. set_solver. Qed.

Lemma fold_left_difference (l : list string) : forall X : gset string,
  fold_left (fun X d => X ∖ {[d]}) l X = X ∖ list_to_set l.
Proof. induction l as [|d l IH]; intros X; cbn; [set_solver|]. rewrite IH. set_solver. Qed.

Lemma list_to_set_skip (l l' : list string) :
  (list_to_set (filter (fun d => in_slice d l' = false) l) : gset string) = list_to_set l ∖ list_to_set l'.
Proof.
  apply leibniz_equiv. intros d.
  rewrite elem_of_difference, !elem_of_list_to_set, list_elem_of_filter, <- (in_slice_spec d l').
  destruct (in_slice d l'); naive_solver.
Qed.

Lemma run_reconcileDomainSet {S : Type} (h : forall a : blocklistE, S -> answer a * S)
    (add del : string -> prog blocklistE (option error)) (get : S -> gset string) (rest : S -> S -> Prop) :
  (forall s, rest s s) -> (forall s1 s2 s3, rest s1 s2 -> rest s2 s3 -> rest s1 s3) ->
  (forall d s, exists s', run h (add d) s = (None, s') /\ get s' = get s ∪ {[d]} /\ rest s s') ->
  (forall d s, exists s', run h (del d) s = (None, s') /\ get s' = get s ∖ {[d]} /\ rest s s') ->
  forall applied desired s, exists s',
    run h (reconcileDomainSet applied desired add del) s = (None, s') /\
    get s' = converged_set applied desired (get s) /\ rest s s'.
Proof.
  intros Hrefl Htrans Hadd Hdel applied desired s. unfold reconcileDomainSet. rewrite run_bind.
  destruct (run_for_each_set h add get rest (fun d => in_slice d applied)
    (fun X d => X ∪ {[d]}) Hrefl Htrans Hadd desired s)
    as (s1 & E1 & E2 & E3).
  rewrite E1. cbn [fst snd].
  destruct (run_for_each_set h del get rest (fun d => in_slice d desired)
    (fun X d => X ∖ {[d]}) Hrefl Htrans Hdel applied s1)
    as (s2 & F1 & F2 & F3).
  exists s2. split; [exact F1|]. split; [|by eapply Htrans].
  by rewrite F2, E2, fold_left_union, fold_left_difference, !list_to_set_skip.
Qed.

Section convergence.
Context {S : Type} `{!BlocklistServer S} `{!BlocklistServerLaws S}.

Lemma blocklist_in_sync (spec : BlocklistSpec.t) (c : DNSSettings.t) :
  blocklistSettingsInSync (blocklistDesired spec) c = true <-> apply_settings (blocklistDesired spec) c = c.
Proof.
  unfold blocklistSettingsInSync. rewrite !andb_true_iff.
  rewrite (unset_or_spec stringSlicesEqual) by apply stringSlicesEqual_spec.
  rewrite (unset_or_spec String.eqb) by apply String.eqb_eq.
  rewrite (unset_or_spec Bool.eqb) by apply Bool.eqb_true_iff.
  rewrite (unset_or_spec Z.eqb) by apply Z.eqb_eq.
  destruct c. unfold apply_settings. cbn. split.
  - intros Hall. f_equal; tauto.
  - intros [=]. tauto.
Qed.

(** What a successful pass makes of the server. *)
Definition blocklist_after (bl : Blocklist.t) (s : S) : DNSSettings.t * gset string * gset string * list string :=
  let spec := Blocklist.Spec bl in
  let status := Blocklist.Status bl in
  (apply_settings (blocklistDesired spec) (bl_settings s),
   converged_set (BlocklistStatus.AppliedAllowedDomains status) (BlocklistSpec.AllowedDomains spec) (allowed s),
   converged_set (BlocklistStatus.AppliedBlockedDomains status) (BlocklistSpec.BlockedDomains spec) (blocked s),
   if bool_decide (BlocklistSpec.BlockListURLs spec = BlocklistStatus.AppliedBlockListURLs status)
   then loaded s else BlocklistSpec.BlockListURLs spec).

Definition applied_of (bl : Blocklist.t) : appliedBlocklist.t :=
  let spec := Blocklist.Spec bl in
  appliedBlocklist.mk (BlocklistSpec.BlockListURLs spec) (BlocklistSpec.AllowedDomains spec)
    (BlocklistSpec.BlockedDomains spec).

Lemma bl_view_eq (s' : S) a b c d :
  bl_view s' = (a, b, c, d) -> bl_settings s' = a /\ allowed s' = b /\ blocked s' = c /\ loaded s' = d.
Proof. unfold bl_view. by intros [= -> -> -> ->]. Qed.

Lemma run_allowed (applied desired : list string) (s : S) : exists s',
  run bl_step (reconcileDomainSet applied desired (fun d => call (BlAddAllowed d)) (fun d => call (BlDeleteAllowed d))) s
    = (None, s') /\
  allowed s' = converged_set applied desired (allowed s) /\
  bl_settings s' = bl_settings s /\ blocked s' = blocked s /\ loaded s' = loaded s.
Proof.
  apply (run_reconcileDomainSet bl_step _ _ allowed
    (fun s s' => bl_settings s' = bl_settings s /\ blocked s' = blocked s /\ loaded s' = loaded s)).
  - done.
  - intros ??? (-> & -> & ->) (-> & -> & ->). done.
  - intros d x. destruct (bs_add_allowed d x) as (x' & F1 & F2). apply bl_view_eq in F2 as (? & ? & ? & ?).
    exists x'. cbn. by rewrite F1.
  - intros d x. destruct (bs_del_allowed d x) as (x' & F1 & F2). apply bl_view_eq in F2 as (? & ? & ? & ?).
    exists x'. cbn. by rewrite F1.
Qed.

Lemma run_blocked (applied desired : list string) (s : S) : exists s',
  run bl_step (reconcileDomainSet applied desired (fun d => call (BlAddBlocked d)) (fun d => call (BlDeleteBlocked d))) s
    = (None, s') /\
  blocked s' = converged_set applied desired (blocked s) /\
  bl_settings s' = bl_settings s /\ allowed s' = allowed s /\ loaded s' = loaded s.
Proof.
  apply (run_reconcileDomainSet bl_step _ _ blocked
    (fun s s' => bl_settings s' = bl_settings s /\ allowed s' = allowed s /\ loaded s' = loaded s)).
  - done.
  - intros ??? (-> & -> & ->) (-> & -> & ->). done.
  - intros d x. destruct (bs_add_blocked d x) as (x' & F1 & F2). apply bl_view_eq in F2 as (? & ? & ? & ?).
    exists x'. cbn. by rewrite F1.
  - intros d x. destruct (bs_del_blocked d x) as (x' & F1 & F2). apply bl_view_eq in F2 as (? & ? & ? & ?).
    exists x'. cbn. by rewrite F1.
Qed.

Lemma reconcileBlocklist_run (bl : Blocklist.t) (s : S) :
  exists s', run bl_step (reconcileBlocklist_body bl) s = (inr (applied_of bl), s') /\
    bl_view s' = blocklist_after bl s.
Proof.
  unfold reconcileBlocklist_body. cbn [bind call run]. rewrite bs_get.
  set (spec := Blocklist.Spec bl). set (status := Blocklist.Status bl).
  assert (H1 : exists s1, run bl_step (if negb (blocklistSettingsInSync (blocklistDesired spec) (bl_settings s))
      then call (BlSetSettings (blocklistDesired spec)) else Ret None) s = (None, s1) /\
    bl_view s1 = (apply_settings (blocklistDesired spec) (bl_settings s), allowed s, blocked s, loaded s)).
  { destruct (blocklistSettingsInSync _ _) eqn:E; cbn [negb].
    - exists s. split; [done|]. apply blocklist_in_sync in E. by rewrite E.
    - destruct (bs_set (blocklistDesired spec) s) as (s1 & E1 & E2). exists s1. cbn. by rewrite E1. }
  destruct H1 as (s1 & E1 & V1). apply bl_view_eq in V1 as (V1a & V1b & V1c & V1d).
  rewrite run_bind, E1. cbn [fst snd].
  assert (H2 : exists s2, run bl_step (if negb (stringSlicesEqual (BlocklistSpec.BlockListURLs spec)
      (BlocklistStatus.AppliedBlockListURLs status)) then call BlForceUpdate else Ret None) s1 = (None, s2) /\
    bl_view s2 = (bl_settings s1, allowed s1, blocked s1,
      if bool_decide (BlocklistSpec.BlockListURLs spec = BlocklistStatus.AppliedBlockListURLs status)
      then loaded s else BlocklistSpec.BlockListURLs spec)).
  { destruct (stringSlicesEqual _ _) eqn:E; cbn [negb].
    - apply stringSlicesEqual_spec in E. exists s1. split; [done|]. by rewrite bool_decide_true, <- V1d.
    - destruct (bs_refresh s1) as (s2 & F1 & F2). exists s2. split; [cbn; by rewrite F1|].
      rewrite bool_decide_false by (intros E'; apply stringSlicesEqual_spec in E'; congruence).
      rewrite F2, V1a. done. }
  destruct H2 as (s2 & E2 & V2). apply bl_view_eq in V2 as (V2a & V2b & V2c & V2d).
  rewrite run_bind, E2. cbn [fst snd].
  destruct (run_allowed (BlocklistStatus.AppliedAllowedDomains status) (BlocklistSpec.AllowedDomains spec) s2)
    as (s3 & E3 & V3 & V3a & V3b & V3c).
  rewrite run_bind, E3. cbn [fst snd].
  destruct (run_blocked (BlocklistStatus.AppliedBlockedDomains status) (BlocklistSpec.BlockedDomains spec) s3)
    as (s4 & E4 & V4 & V4a & V4b & V4c).
  rewrite run_bind, E4. cbn [fst snd run]. exists s4. split; [done|].
  unfold bl_view, blocklist_after. cbn zeta. fold spec status.
  rewrite V2b, V1b in V3. rewrite V3b, V2c, V1c in V4. congruence.
Qed.

Definition blocklist_reads (a : blocklistE) : bool := match a with BlGetSettings => true | _ => false end.

Lemma for_each_skips (l : list string) (skip : string -> bool) (req : string -> prog blocklistE (option error)) :
  (forall d, d ∈ l -> skip d = true) -> for_each l (fun d => if skip d then Ret None else req d) = Ret None.
Proof.
  induction l as [|d l IH]; intros Hs; [done|]. cbn. rewrite Hs by set_solver. cbn. apply IH. set_solver.
Qed.

Lemma reconcileDomainSet_same (l : list string) add del : reconcileDomainSet l l add del = Ret None.
Proof.
  unfold reconcileDomainSet. rewrite for_each_skips by (intros d; apply in_slice_spec). cbn.
  apply for_each_skips. intros d. apply in_slice_spec.
Qed.

Lemma reconcileBlocklist_settled (bl : Blocklist.t) (s : S) :
  let spec := Blocklist.Spec bl in
  apply_settings (blocklistDesired spec) (bl_settings s) = bl_settings s ->
  BlocklistStatus.AppliedBlockListURLs (Blocklist.Status bl) = BlocklistSpec.BlockListURLs spec ->
  BlocklistStatus.AppliedAllowedDomains (Blocklist.Status bl) = BlocklistSpec.AllowedDomains spec ->
  BlocklistStatus.AppliedBlockedDomains (Blocklist.Status bl) = BlocklistSpec.BlockedDomains spec ->
  run bl_step (reconcileBlocklist_body bl) s = (inr (applied_of bl), s) /\
  Forall (fun a => blocklist_reads a = true) (map projT1 (history bl_step (reconcileBlocklist_body bl) s)).
Proof.
  cbn zeta. intros E U A B. apply blocklist_in_sync in E. unfold reconcileBlocklist_body.
  cbn [bind call run history]. rewrite bs_get, E, U, A, B, !reconcileDomainSet_same.
  rewrite (proj2 (stringSlicesEqual_spec _ _) eq_refl). cbn. split; [done|]. by repeat constructor.
Qed.
End convergence.

Lemma recordBlocklist_status_only (a : appliedBlocklist.t) : status_only (recordBlocklist a).
Proof.
  constructor; intros [m sp [cs g u al bl]]; unfold recordBlocklist; cbn; try done.
  - repeat (case_bool_decide; cbn); subst; try done; congruence.
  - repeat (case_bool_decide; cbn); done.
Qed.

Lemma recordBlocklist_applied (a : appliedBlocklist.t) (bl : Blocklist.t) :
  recordBlocklist a bl = (bl, false) ->
  BlocklistStatus.AppliedBlockListURLs (Blocklist.Status bl) = appliedBlocklist.BlockListURLs a /\
  BlocklistStatus.AppliedAllowedDomains (Blocklist.Status bl) = appliedBlocklist.AllowedDomains a /\
  BlocklistStatus.AppliedBlockedDomains (Blocklist.Status bl) = appliedBlocklist.BlockedDomains a.
Proof.
  intros E. apply (f_equal snd) in E. unfold recordBlocklist in E. cbn in E.
  apply orb_false_iff in E as [E E3]. apply orb_false_iff in E as [E1 E2].
  apply negb_false_iff, bool_decide_eq_true in E1, E2, E3. done.
Qed.

Lemma reconcileBlocklist_body_finalizer `{KubeLib} (bl : Blocklist.t) f :
  reconcileBlocklist_body (add_finalizer bl f).1 = reconcileBlocklist_body bl.
Proof. unfold add_finalizer. by destruct (AddFinalizer _ _). Qed.


Lemma degradedStatus_blocklist `{KubeLib} (e : error) (bl : Blocklist.t) :
  BlocklistStatus.AppliedBlockListURLs (Blocklist.Status (degradedStatus e bl))
  = BlocklistStatus.AppliedBlockListURLs (Blocklist.Status bl).
Proof.
  unfold degradedStatus, setCondition. repeat (destruct (SetStatusCondition _ _); cbn). done.
Qed.

(** A pass that succeeds with changed URLs has refreshed the lists. *)
Lemma reconcileBlocklist_refreshes {S : Type} (srv : forall a : blocklistE, S -> answer a * S)
    (bl : Blocklist.t) (s : S) a :
  BlocklistSpec.BlockListURLs (Blocklist.Spec bl) <> BlocklistStatus.AppliedBlockListURLs (Blocklist.Status bl) ->
  (run srv (reconcileBlocklist_body bl) s).1 = inr a ->
  In BlForceUpdate (map projT1 (history srv (reconcileBlocklist_body bl) s)).
Proof.
  intros Hne. unfold reconcileBlocklist_body. cbn [bind call run history].
  destruct (srv BlGetSettings s) as [[e|c] s1]; [done|].
  rewrite run_bind, history_bind.
  destruct (run srv _ s1).1 as [e|]; [done|].
  assert (E : stringSlicesEqual (BlocklistSpec.BlockListURLs (Blocklist.Spec bl))
    (BlocklistStatus.AppliedBlockListURLs (Blocklist.Status bl)) = false).
  { apply not_true_is_false. by rewrite stringSlicesEqual_spec. }
  rewrite E. cbn [negb bind call history]. intros _.
  rewrite map_cons, map_app. right. apply in_or_app. right.
  destruct (srv BlForceUpdate _) as [x s2]. by left.
Qed.

(** A block list refresh is never lost.  Whatever the server answers, when
    the declared URLs differ from the URLs last applied, a [Reconcile] either
    sends the refresh request and succeeds, or fails and leaves the URLs last
    applied as they were, so that the next [Reconcile] owes the refresh again
    even if the server already lists the new URLs. *)
Theorem blocklist_refresh_owed `{KubeLibLaws} {W S : Type}
    `{!Cooperative Blocklist.t blocklistE W S} `{!CooperativeLaws Blocklist.t blocklistE W S}
    (key : ObjectKey) (bl : Blocklist.t) (w : W) :
  object w = Some bl -> ObjectMeta.Deleting (meta bl) = false ->
  BlocklistSpec.BlockListURLs (Blocklist.Spec bl) <> BlocklistStatus.AppliedBlockListURLs (Blocklist.Status bl) ->
  let w1 := (run step (blocklistReconcile key) w).2 in
  ((run step (blocklistReconcile key) w).1 = (driftReconcileInterval, None) /\
   In BlForceUpdate (map projT1 (history server_step (reconcileBlocklist_body bl) (server w)))) \/
  (exists e bl', (run step (blocklistReconcile key) w).1 = (0, Some e) /\ object w1 = Some bl' /\
     Blocklist.Spec bl' = Blocklist.Spec bl /\
     BlocklistStatus.AppliedBlockListURLs (Blocklist.Status bl')
     = BlocklistStatus.AppliedBlockListURLs (Blocklist.Status bl)).
Proof.
  cbn zeta. intros Ho Hdel Hne. unfold blocklistReconcile, blocklistMarkDegraded, reconcileBlocklist, blocklistMarkReady.
  destruct (run server_step (reconcileBlocklist_body bl) (server w)) as [[e|a] s'] eqn:Er.
  - right. rewrite <- (reconcileBlocklist_body_finalizer bl blocklistFinalizer) in Er.
    destruct (run_reconcile_failed blocklistFinalizer finalizeBlocklist blocklist_ref reconcileBlocklist_body
      (fun key _ applied => markReady "BlocklistApplied" "Blocklist reconciled on the Technitium server"
         (recordBlocklist applied) key) key bl w e s' Ho Hdel Er) as (E1 & E2 & _).
    eexists _, _. split; [exact E1|]. split; [exact E2|]. split.
    + unfold degradedStatus, setCondition, add_finalizer. by repeat (destruct (SetStatusCondition _ _) || destruct (AddFinalizer _ _)).
    + rewrite degradedStatus_blocklist. unfold add_finalizer. by destruct (AddFinalizer _ _).
  - left. assert (Er' := Er). rewrite <- (reconcileBlocklist_body_finalizer bl blocklistFinalizer) in Er.
    destruct (run_reconcile blocklistFinalizer finalizeBlocklist markDegraded "BlocklistApplied"
      "Blocklist reconciled on the Technitium server" blocklist_ref reconcileBlocklist_body
      (fun _ a => recordBlocklist a) key bl w a s' Ho Hdel recordBlocklist_status_only Er) as (E1 & _).
    split; [exact E1|]. apply (reconcileBlocklist_refreshes _ _ _ a Hne). by rewrite Er'.
Qed.

(** *** The finalizer *)

(** Everything the Blocklist applied was removed. *)
Definition blocklist_cleaned (bl : Blocklist.t) (tr : list (event (calls Blocklist.t blocklistE))) : Prop :=
  answered BlForceUpdate None tr /\
  (forall d, d ∈ BlocklistStatus.AppliedAllowedDomains (Blocklist.Status bl) -> answered (BlDeleteAllowed d) None tr) /\
  (forall d, d ∈ BlocklistStatus.AppliedBlockedDomains (Blocklist.Status bl) -> answered (BlDeleteBlocked d) None tr).

Lemma answered_app {T : Type} (a : blocklistE) x (tr ext : list (event (calls T blocklistE))) :
  answered a x tr -> answered a x (tr ++ ext)%list.
Proof. intros Ha. apply in_or_app. by left. Qed.

(** A loop of deletes that succeeds got every delete confirmed. *)
Lemma holds_delete_allowed (l : list string) : forall past : list (event (calls Blocklist.t blocklistE)),
  holds (lift (T:=Blocklist.t) (for_each l (fun d => call (BlDeleteAllowed d)))) past (fun tr r =>
    (exists ext, tr = (past ++ ext)%list) /\ (r = None -> forall d, d ∈ l -> answered (BlDeleteAllowed d) None tr)).
Proof.
  induction l as [|d l IH]; intros past; cbn.
  { split; [exists []; by rewrite app_nil_r|set_solver]. }
  intros [e|]; cbn; [by split; [eexists|]|].
  eapply holds_mono; [|apply IH]. intros tr r [(ext & ->) Hr]. split; [rewrite <- app_assoc; by eexists|].
  intros E d' Hd'. apply elem_of_cons in Hd' as [->|Hd']; [|by apply Hr].
  apply answered_app, in_or_app. right. by left.
Qed.

Lemma holds_delete_blocked (l : list string) : forall past : list (event (calls Blocklist.t blocklistE)),
  holds (lift (T:=Blocklist.t) (for_each l (fun d => call (BlDeleteBlocked d)))) past (fun tr r =>
    (exists ext, tr = (past ++ ext)%list) /\ (r = None -> forall d, d ∈ l -> answered (BlDeleteBlocked d) None tr)).
Proof.
  induction l as [|d l IH]; intros past; cbn.
  { split; [exists []; by rewrite app_nil_r|set_solver]. }
  intros [e|]; cbn; [by split; [eexists|]|].
  eapply holds_mono; [|apply IH]. intros tr r [(ext & ->) Hr]. split; [rewrite <- app_assoc; by eexists|].
  intros E d' Hd'. apply elem_of_cons in Hd' as [->|Hd']; [|by apply Hr].
  apply answered_app, in_or_app. right. by left.
Qed.

Lemma cleanupBlocklist_confirms (bl : Blocklist.t) (past : list (event (calls Blocklist.t blocklistE))) :
  holds (lift (cleanupBlocklist_body bl)) past (fun tr r => r = None -> blocklist_cleaned bl tr).
Proof.
  unfold cleanupBlocklist_body. cbn. intros [e|]; cbn; [done|]. intros [e|]; cbn; [done|].
  apply holds_lift_bind. eapply holds_mono; [|apply holds_delete_allowed].
  intros tr [e|] [(ext & ->) Ha]; cbn; [done|].
  eapply holds_mono; [|apply holds_delete_blocked].
  intros tr r [(ext' & ->) Hb] Hr. split; [|split; [|by apply Hb]].
  - apply answered_app, answered_app, in_or_app. right. by left.
  - intros d Hd. apply answered_app. by apply Ha.
Qed.

(** ** Examples *)

#[local] Existing Instance RefKubeLib.lib.
#[local] Existing Instance RefKubeLib.laws.

Record bl_state := { st_settings : DNSSettings.t; st_allowed : gset string; st_blocked : gset string; st_loaded : list string }.

(** A server; [fails d] makes adding [d] to the blocked zones fail. *)
Definition plain_blocklist (fails : string -> bool) (a : blocklistE) : bl_state -> answer a * bl_state :=
  match a with
  | BlGetSettings => fun s => (inr (st_settings s), s)
  | BlSetSettings o => fun s => (None, {| st_settings := apply_settings o (st_settings s); st_allowed := st_allowed s;
      st_blocked := st_blocked s; st_loaded := st_loaded s |})
  | BlForceUpdate => fun s => (None, {| st_settings := st_settings s; st_allowed := st_allowed s;
      st_blocked := st_blocked s; st_loaded := DNSSettings.BlockListURLs (st_settings s) |})
  | BlAddAllowed d => fun s => (None, {| st_settings := st_settings s; st_allowed := st_allowed s ∪ {[d]};
      st_blocked := st_blocked s; st_loaded := st_loaded s |})
  | BlDeleteAllowed d => fun s => (None, {| st_settings := st_settings s; st_allowed := st_allowed s ∖ {[d]};
      st_blocked := st_blocked s; st_loaded := st_loaded s |})
  | BlAddBlocked d => fun s =>
      if fails d then (Some (EText "invalid domain"), s)
      else (None, {| st_settings := st_settings s; st_allowed := st_allowed s;
                     st_blocked := st_blocked s ∪ {[d]}; st_loaded := st_loaded s |})
  | BlDeleteBlocked d => fun s => (None, {| st_settings := st_settings s; st_allowed := st_allowed s;
      st_blocked := st_blocked s ∖ {[d]}; st_loaded := st_loaded s |})
  end.

Definition healthy_blocklist (a : blocklistE) : bl_state -> answer a * bl_state := plain_blocklist (fun _ => false) a.
#[local] Instance plain_bl_server : BlocklistServer bl_state :=
  {| bl_step := healthy_blocklist; bl_settings := st_settings; allowed := st_allowed;
     blocked := st_blocked; loaded := st_loaded |}.
#[local] Instance plain_bl_laws : BlocklistServerLaws bl_state.
Proof. constructor; intros; try done; by eexists. Qed.
#[local] Instance bl_world : Cooperative Blocklist.t blocklistE (option Blocklist.t * bl_state) bl_state :=
  plain_world healthy_blocklist.
#[local] Instance bl_world_laws : CooperativeLaws Blocklist.t blocklistE (option Blocklist.t * bl_state) bl_state :=
  plain_laws healthy_blocklist.

Definition example_blocklist (allow block : list string) : Blocklist.t :=
  Blocklist.mk (ObjectMeta.named "" "bl")
    (BlocklistSpec.mk (SecretReference.mk "dns" "") (Some true) ["https://a"] None None allow block "")
    (BlocklistStatus.mk [] 0 [] [] []).
Definition empty_bl_state : bl_state :=
  {| st_settings := default_settings; st_allowed := ∅; st_blocked := ∅; st_loaded := [] |}.
Definition bl_key : ObjectKey := {| KeyNamespace := ""; KeyName := "bl" |}.


Example blocklist_refresh_owed_witness :
  BlocklistSpec.BlockListURLs (Blocklist.Spec (example_blocklist [] [])) <> [] /\
  ((run step (blocklistReconcile bl_key) (Some (example_blocklist [] []), empty_bl_state)).1
     = (driftReconcileInterval, None) \/
   exists e, (run step (blocklistReconcile bl_key) (Some (example_blocklist [] []), empty_bl_state)).1 = (0, Some e)).
Proof.
  split; [discriminate|].
  destruct (blocklist_refresh_owed bl_key (example_blocklist [] []) (Some (example_blocklist [] []), empty_bl_state))
    as [[E _]|(e & bl' & E & _)].
  - reflexivity.
  - reflexivity.
  - discriminate.
  - left. exact E.
  - right. exists e. exact E.
Defined.

(** A Blocklist declares an allowed domain and a blocked domain that the server
    refuses; the user then withdraws both. *)
Definition leak_before : Blocklist.t := example_blocklist ["good"] ["bad domain"].
Definition leak_server (a : blocklistE) : bl_state -> answer a * bl_state :=
  plain_blocklist (String.eqb "bad domain") a.
Definition leak_first := run (plain_step leak_server) (blocklistReconcile bl_key) (Some leak_before, empty_bl_state).
Definition leak_after : option Blocklist.t :=
  (fun bl => Blocklist.mk (Blocklist.Meta bl) (Blocklist.Spec (example_blocklist [] [])) (Blocklist.Status bl))
    <$> leak_first.2.1.
Definition leak_second := run (plain_step leak_server) (blocklistReconcile bl_key) (leak_after, leak_first.2.2).

(** An override can be left behind.  When a pass adds an allowed domain and
    then fails on a blocked one, the status does not remember the domain that
    was added; once the user withdraws both domains the Blocklist reconciles
    successfully and settles, while the domain stays on the server. *)
Theorem blocklist_failed_pass_leaks :
  (exists e, leak_first.1 = (0, Some e)) /\
  leak_second.1 = (driftReconcileInterval, None) /\
  "good" ∈ allowed leak_second.2.2 /\
  (exists bl, leak_second.2.1 = Some bl /\ BlocklistSpec.AllowedDomains (Blocklist.Spec bl) = [] /\
     reconcileDomainSet (BlocklistStatus.AppliedAllowedDomains (Blocklist.Status bl)) []
       (fun d => call (BlAddAllowed d)) (fun d => call (BlDeleteAllowed d)) = Ret None).
Proof.
  split; [eexists; vm_compute; reflexivity|]. split; [vm_compute; reflexivity|].
  split; [|exists (default leak_before leak_second.2.1); split_and!; vm_compute; reflexivity].
  assert (E : bool_decide ("good" ∈ allowed leak_second.2.2) = true) by (vm_compute; reflexivity).
  by apply bool_decide_eq_true in E.
Qed.
