(* ===== verification/DHCPScope.v ===== *)
(** * The DHCPScope resource

    [api/v1alpha1/dhcpscope_types.go] and
    [internal/controller/dhcpscope_controller.go]. *)

From S2P Require Import Prelude GoStrings GoErrors Effects Kube Lifecycle DhcpAPI ServerSettings Blocklist.

Local Open Scope string_scope.
Local Open Scope Z_scope.
Local Open Scope go_scope.
Local Open Scope prog_scope.

(** ** The resource *)

Module DHCPReservation.
Record t := mk {
  HardwareAddress : string;
  IPAddress : string;
  HostName : option string;
  Comments : option string
}.
#[export] Instance t_eq_dec : EqDecision t.
Proof. solve_decision. Defined.
End DHCPReservation.
#[export] Existing Instance DHCPReservation.t_eq_dec.

(** [DNSServers] is [None] for the nil slice: the controller tells it from the
    empty one. *)
Module DHCPScopeSpec.
Record t := mk {
  ServerRef : SecretReference.t;
  ScopeName : string;
  StartingAddress : string;
  EndingAddress : string;
  SubnetMask : string;
  RouterAddress : option string;
  DNSServers : option (list string);
  LeaseTimeDays : option Z;
  LeaseTimeHours : option Z;
  LeaseTimeMinutes : option Z;
  DomainName : option string;
  Enabled : option bool;
  Reservations : list DHCPReservation.t;
  DeletionPolicy : string
}.
End DHCPScopeSpec.

Module DHCPScopeStatus.
Record t := mk {
  Conditions : list Condition.t;
  ObservedGeneration : Z;
  ScopeCreated : bool;
  AppliedReservations : list string
}.
End DHCPScopeStatus.

Module DHCPScope.
Record t := mk { Meta : ObjectMeta.t; Spec : DHCPScopeSpec.t; Status : DHCPScopeStatus.t }.
End DHCPScope.

#[export] Instance DHCPScope_Resource : Resource DHCPScope.t := {|
  meta := DHCPScope.Meta;
  with_meta o m := DHCPScope.mk m (DHCPScope.Spec o) (DHCPScope.Status o);
  conditions o := DHCPScopeStatus.Conditions (DHCPScope.Status o);
  with_conditions o cs :=
    let s := DHCPScope.Status o in
    DHCPScope.mk (DHCPScope.Meta o) (DHCPScope.Spec o)
      (DHCPScopeStatus.mk cs (DHCPScopeStatus.ObservedGeneration s) (DHCPScopeStatus.ScopeCreated s)
         (DHCPScopeStatus.AppliedReservations s));
  observedGeneration o := DHCPScopeStatus.ObservedGeneration (DHCPScope.Status o);
  with_observedGeneration o g :=
    let s := DHCPScope.Status o in
    DHCPScope.mk (DHCPScope.Meta o) (DHCPScope.Spec o)
      (DHCPScopeStatus.mk (DHCPScopeStatus.Conditions s) g (DHCPScopeStatus.ScopeCreated s)
         (DHCPScopeStatus.AppliedReservations s));
  spec_of := DHCPScope.Spec
|}.

#[export] Instance DHCPScope_ResourceLaws : ResourceLaws DHCPScope.t.
Proof. constructor; intros [m sp []]; reflexivity. Qed.

(** ** The controller *)

Definition dhcpScopeFinalizer : string := "dns.packet.fail/dhcpscope-cleanup".

(** [DHCPScopeAPI]. *)
Inductive dhcpE : Type :=
| DhcpGetScope (name : string)
| DhcpSetScope (opts : SetDHCPScopeOptions.t)
| DhcpEnable (name : string)
| DhcpDisable (name : string)
| DhcpDelete (name : string)
| DhcpAddLease (opts : AddReservedLeaseOptions.t)
| DhcpRemoveLease (scopeName hardwareAddress : string).
#[export] Instance dhcpE_Effect : Effect dhcpE := fun c => match c with
| DhcpGetScope _ => fallible DHCPScopeDetails.t
| _ => option error
end.

Definition setOptionsFromSpec (spec : DHCPScopeSpec.t) : SetDHCPScopeOptions.t :=
  SetDHCPScopeOptions.mk
    (DHCPScopeSpec.ScopeName spec) (DHCPScopeSpec.StartingAddress spec) (DHCPScopeSpec.EndingAddress spec)
    (DHCPScopeSpec.SubnetMask spec) (DHCPScopeSpec.RouterAddress spec) (DHCPScopeSpec.DNSServers spec)
    (DHCPScopeSpec.LeaseTimeDays spec) (DHCPScopeSpec.LeaseTimeHours spec) (DHCPScopeSpec.LeaseTimeMinutes spec)
    (DHCPScopeSpec.DomainName spec).

Definition is_some {X : Type} (o : option X) : bool := match o with Some _ => true | None => false end.

Definition scopeCoreFieldsMatch (spec : DHCPScopeSpec.t) (current : DHCPScopeDetails.t) : bool :=
  (DHCPScopeSpec.StartingAddress spec =s? DHCPScopeDetails.StartingAddress current)
  && (DHCPScopeSpec.EndingAddress spec =s? DHCPScopeDetails.EndingAddress current)
  && (DHCPScopeSpec.SubnetMask spec =s? DHCPScopeDetails.SubnetMask current)
  && unset_or String.eqb (DHCPScopeSpec.RouterAddress spec) (DHCPScopeDetails.RouterAddress current)
  && unset_or stringSlicesEqual (DHCPScopeSpec.DNSServers spec) (DHCPScopeDetails.DNSServers current)
  && negb (is_some (DHCPScopeSpec.LeaseTimeDays spec) || is_some (DHCPScopeSpec.LeaseTimeHours spec)
           || is_some (DHCPScopeSpec.LeaseTimeMinutes spec))
  && negb (is_some (DHCPScopeSpec.DomainName spec)).

Definition leaseOptions (scopeName : string) (r : DHCPReservation.t) : AddReservedLeaseOptions.t :=
  AddReservedLeaseOptions.mk scopeName (DHCPReservation.HardwareAddress r) (DHCPReservation.IPAddress r)
    (DHCPReservation.HostName r) (DHCPReservation.Comments r).

Definition addReservation (scopeName : string) (r : DHCPReservation.t) : prog dhcpE (option error) :=
  call (DhcpAddLease (leaseOptions scopeName r)).

(** [err != nil && !errors.Is(err, s)]. *)
Definition unless_is (r : option error) (s : sentinel) : option error :=
  match r with Some e => if Is e s then None else Some e | None => None end.

Definition reconcileReservations (applied : list string) (desired : list DHCPReservation.t) (scopeName : string)
  : prog dhcpE (fallible (list string)) :=
  checkV for_each desired (fun r =>
    if in_slice (DHCPReservation.HardwareAddress r) applied then Ret None else addReservation scopeName r) ;;
  checkV for_each applied (fun mac =>
    if in_slice mac (map DHCPReservation.HardwareAddress desired) then Ret None
    else
      e <- call (DhcpRemoveLease scopeName mac) ;;
      Ret (unless_is e ErrDHCPReservationNotFound)) ;;
  ok (map DHCPReservation.HardwareAddress desired).

Definition reconcileDHCPScope_body (scope : DHCPScope.t) : prog dhcpE (fallible (list string)) :=
  let spec := DHCPScope.Spec scope in
  let name := DHCPScopeSpec.ScopeName spec in
  g <- call (DhcpGetScope name) ;;
  match (match (g : fallible DHCPScopeDetails.t) with
         | inr d => inr (Some d)
         | inl err => if Is err ErrDHCPScopeNotFound then inr None else inl err
         end : fallible (option DHCPScopeDetails.t)) with
  | inl err => fail err
  | inr current =>
      checkV (if match current with None => true | Some c => negb (scopeCoreFieldsMatch spec c) end
              then call (DhcpSetScope (setOptionsFromSpec spec)) else Ret None) ;;
      try applied <- reconcileReservations (DHCPScopeStatus.AppliedReservations (DHCPScope.Status scope))
                       (DHCPScopeSpec.Reservations spec) name ;;
      let currentlyEnabled := match current with Some c => DHCPScopeDetails.Enabled c | None => false end in
      let desiredEnabled := default true (DHCPScopeSpec.Enabled spec) in
      checkV (if desiredEnabled && negb currentlyEnabled then call (DhcpEnable name)
              else if negb desiredEnabled && (negb (is_some current) || currentlyEnabled) then call (DhcpDisable name)
              else Ret None) ;;
      ok applied
  end.

(** The server-side part of [finalizeDHCPScope]. *)
Definition deleteScope_body (scope : DHCPScope.t) : prog dhcpE (option error) :=
  let name := DHCPScopeSpec.ScopeName (DHCPScope.Spec scope) in
  d <- call (DhcpDisable name) ;;
  match unless_is d ErrDHCPScopeNotFound with
  | Some err => Ret (Some err)
  | None =>
      x <- call (DhcpDelete name) ;;
      Ret (unless_is x ErrDHCPScopeNotFound)
  end.

Definition recordScope (applied : list string) (scope : DHCPScope.t) : DHCPScope.t * bool :=
  let s := DHCPScope.Status scope in
  let c1 := negb (DHCPScopeStatus.ScopeCreated s) in
  let c2 := negb (bool_decide (DHCPScopeStatus.AppliedReservations s = applied)) in
  (DHCPScope.mk (DHCPScope.Meta scope) (DHCPScope.Spec scope)
     (DHCPScopeStatus.mk (DHCPScopeStatus.Conditions s) (DHCPScopeStatus.ObservedGeneration s) true
        (if c2 then applied else DHCPScopeStatus.AppliedReservations s)), c1 || c2).

Definition scope_orphan (scope : DHCPScope.t) : bool :=
  DHCPScopeSpec.DeletionPolicy (DHCPScope.Spec scope) =s? DeletionPolicyOrphan.
Definition scope_ref (scope : DHCPScope.t) : SecretReference.t := DHCPScopeSpec.ServerRef (DHCPScope.Spec scope).

Section controller.
Context `{KubeLib}.

Definition finalizeDHCPScope (scope : DHCPScope.t) : prog (calls DHCPScope.t dhcpE) (option error) :=
  finalize_with dhcpScopeFinalizer scope_orphan scope_ref (fun s => lift (deleteScope_body s)) scope.

Definition reconcileDHCPScope (scope : DHCPScope.t) : prog (calls DHCPScope.t dhcpE) (fallible (list string)) :=
  with_server (scope_ref scope) (reconcileDHCPScope_body scope).

Definition scopeMarkReady (key : ObjectKey) (applied : list string)
  : prog (calls DHCPScope.t dhcpE) (option error) :=
  markReady "DHCPScopeReady" "DHCPScope reconciled on the Technitium server" (recordScope applied) key.

Definition scopeMarkDegraded : ObjectKey -> error -> prog (calls DHCPScope.t dhcpE) (option error) := markDegraded.

Definition dhcpReconcile (key : ObjectKey) : prog (calls DHCPScope.t dhcpE) (Z * option error) :=
  reconcile dhcpScopeFinalizer finalizeDHCPScope reconcileDHCPScope scopeMarkDegraded
    (fun key _ applied => scopeMarkReady key applied) key.
End controller.

(** ** Reservations *)

Abbreviation mac_of := DHCPReservation.HardwareAddress.

Lemma for_each_nop {A X : Type} `{Effect A} (l : list X) (body : X -> prog A (option error)) :
  (forall x, x ∈ l -> body x = Ret None) -> for_each l body = Ret None.
Proof.
  induction l as [|x l IH]; intros Hb; [done|]. cbn. rewrite Hb by set_solver. cbn. apply IH. set_solver.
Qed.

(** An edited reservation is ignored.  When the declared reservations have
    the hardware addresses that were applied before, [reconcileReservations]
    makes no call at all, whatever address, host name or comment they now
    declare: an edit of an existing reservation never reaches the server, and
    is recorded as applied. *)
Theorem dhcp_reservation_edit_ignored (applied : list string) (desired : list DHCPReservation.t)
    (scopeName : string) :
  (forall r, r ∈ desired -> mac_of r ∈ applied) ->
  (forall mac, mac ∈ applied -> exists r, r ∈ desired /\ mac_of r = mac) ->
  reconcileReservations applied desired scopeName = ok (map mac_of desired).
Proof.
  intros Hd Ha. unfold reconcileReservations. rewrite for_each_nop.
  2:{ intros r Hr. by rewrite (proj2 (in_slice_spec _ _) (Hd r Hr)). }
  cbn. rewrite for_each_nop; [done|].
  intros mac Hm. destruct (Ha mac Hm) as (r & Hr & <-).
  rewrite (proj2 (in_slice_spec _ _)); [done|]. apply list_elem_of_fmap. by exists r.
Qed.

(** ** A Technitium server's DHCP scopes

    [scope_at] is the scope of a name as the get request reports it, [leases]
    its reservations by hardware address. *)
Class DhcpServer (S : Type) := {
  dhcp_step : forall a : dhcpE, S -> answer a * S;
  scope_at : S -> string -> option DHCPScopeDetails.t;
  leases : S -> string -> gmap string AddReservedLeaseOptions.t
}.

(** The comparable fields after a set. *)
Record scope_set (opts : SetDHCPScopeOptions.t) (before : option DHCPScopeDetails.t) (d : DHCPScopeDetails.t) : Prop := {
  set_start : DHCPScopeDetails.StartingAddress d = SetDHCPScopeOptions.StartingAddress opts;
  set_end : DHCPScopeDetails.EndingAddress d = SetDHCPScopeOptions.EndingAddress opts;
  set_mask : DHCPScopeDetails.SubnetMask d = SetDHCPScopeOptions.SubnetMask opts;
  set_router r : SetDHCPScopeOptions.RouterAddress opts = Some r -> DHCPScopeDetails.RouterAddress d = r;
  set_dns l : SetDHCPScopeOptions.DNSServers opts = Some l -> DHCPScopeDetails.DNSServers d = l;
  set_enabled b : before = Some b -> DHCPScopeDetails.Enabled d = DHCPScopeDetails.Enabled b
}.

(** Two reports of a scope that agree but for [Enabled] and the leases. *)
Definition same_core (d d' : DHCPScopeDetails.t) : Prop :=
  DHCPScopeDetails.StartingAddress d = DHCPScopeDetails.StartingAddress d' /\
  DHCPScopeDetails.EndingAddress d = DHCPScopeDetails.EndingAddress d' /\
  DHCPScopeDetails.SubnetMask d = DHCPScopeDetails.SubnetMask d' /\
  DHCPScopeDetails.RouterAddress d = DHCPScopeDetails.RouterAddress d' /\
  DHCPScopeDetails.DNSServers d = DHCPScopeDetails.DNSServers d'.

Class DhcpServerLaws (S : Type) `{!DhcpServer S} : Prop := {
  ds_get n s d : scope_at s n = Some d -> dhcp_step (DhcpGetScope n) s = (inr d, s);
  ds_get_none n s : scope_at s n = None ->
    exists e, dhcp_step (DhcpGetScope n) s = (inl e, s) /\ Is e ErrDHCPScopeNotFound = true;
  ds_set opts s : exists s' d, dhcp_step (DhcpSetScope opts) s = (None, s') /\
    scope_at s' (SetDHCPScopeOptions.Name opts) = Some d /\
    scope_set opts (scope_at s (SetDHCPScopeOptions.Name opts)) d /\
    leases s' (SetDHCPScopeOptions.Name opts) = leases s (SetDHCPScopeOptions.Name opts);
  ds_add opts s d : scope_at s (AddReservedLeaseOptions.ScopeName opts) = Some d ->
    leases s (AddReservedLeaseOptions.ScopeName opts) !! AddReservedLeaseOptions.HardwareAddress opts = None ->
    exists s' d', dhcp_step (DhcpAddLease opts) s = (None, s') /\
      scope_at s' (AddReservedLeaseOptions.ScopeName opts) = Some d' /\ same_core d' d /\
      DHCPScopeDetails.Enabled d' = DHCPScopeDetails.Enabled d /\
      leases s' (AddReservedLeaseOptions.ScopeName opts)
        = <[AddReservedLeaseOptions.HardwareAddress opts := opts]> (leases s (AddReservedLeaseOptions.ScopeName opts));
  ds_remove n mac s d : scope_at s n = Some d ->
    exists x s' d', dhcp_step (DhcpRemoveLease n mac) s = (x, s') /\ unless_is x ErrDHCPReservationNotFound = None /\
      scope_at s' n = Some d' /\ same_core d' d /\ DHCPScopeDetails.Enabled d' = DHCPScopeDetails.Enabled d /\
      leases s' n = delete mac (leases s n);
  ds_enable n s d : scope_at s n = Some d ->
    exists s' d', dhcp_step (DhcpEnable n) s = (None, s') /\ scope_at s' n = Some d' /\ same_core d' d /\
      DHCPScopeDetails.Enabled d' = true /\ leases s' n = leases s n;
  ds_disable n s d : scope_at s n = Some d ->
    exists s' d', dhcp_step (DhcpDisable n) s = (None, s') /\ scope_at s' n = Some d' /\ same_core d' d /\
      DHCPScopeDetails.Enabled d' = false /\ leases s' n = leases s n
}.

Lemma same_core_refl d : same_core d d.
Proof. by repeat split. Qed.

Lemma same_core_trans d1 d2 d3 : same_core d1 d2 -> same_core d2 d3 -> same_core d1 d3.
Proof. unfold same_core. intuition congruence. Qed.

(** The reservation a pass adds for an address. *)
Definition pending (applied : list string) (desired : list DHCPReservation.t) (mac : string) : option DHCPReservation.t :=
  List.find (fun r => (mac_of r =s? mac) && negb (in_slice mac applied)) desired.

Lemma pending_cons applied r l mac :
  pending applied (r :: l) mac
  = if (mac_of r =s? mac) && negb (in_slice mac applied) then Some r else pending applied l mac.
Proof. reflexivity. Qed.

Lemma in_slice_cons d m l : in_slice d (m :: l) = (d =s? m) || in_slice d l.
Proof. reflexivity. Qed.

(** The reservations of a scope after a pass. *)
Definition leases_after (name : string) (applied : list string) (desired : list DHCPReservation.t)
    (before : gmap string AddReservedLeaseOptions.t) (mac : string) : option AddReservedLeaseOptions.t :=
  if in_slice mac applied && negb (in_slice mac (map mac_of desired)) then None
  else match pending applied desired mac with
       | Some r => Some (leaseOptions name r)
       | None => before !! mac
       end.

Section convergence.
Context {S : Type} `{!DhcpServer S} `{!DhcpServerLaws S}.
Context (name : string).

(** The scope is still there, with the same settings. *)
Definition kept (s s' : S) (d : DHCPScopeDetails.t) : Prop :=
  exists d', scope_at s' name = Some d' /\ same_core d' d /\
    DHCPScopeDetails.Enabled d' = DHCPScopeDetails.Enabled d.

Lemma run_adds (applied : list string) (l : list DHCPReservation.t) : forall (s : S) d,
  NoDup (map mac_of l) -> scope_at s name = Some d ->
  (forall r, r ∈ l -> in_slice (mac_of r) applied = false -> leases s name !! mac_of r = None) ->
  exists s', run dhcp_step (for_each l (fun r =>
      if in_slice (mac_of r) applied then Ret None else addReservation name r)) s = (None, s') /\
    kept s s' d /\
    forall mac, leases s' name !! mac =
      match pending applied l mac with Some r => Some (leaseOptions name r) | None => leases s name !! mac end.
Proof.
  induction l as [|r l IH]; intros s d Hnd Hs Hfree; cbn [for_each].
  { exists s. split; [done|]. split; [by exists d; split_and!|done]. }
  apply NoDup_cons in Hnd as [Hni Hnd].
  assert (Hlater : forall mac, mac_of r = mac -> pending applied l mac = None).
  { intros mac E. apply find_none_iff. intros r' Hr'. apply andb_false_iff. left.
    apply String.eqb_neq. intros E'. apply Hni. rewrite E, <- E'. apply list_elem_of_fmap.
    exists r'. split; [done|]. by apply list_elem_of_In. }
  rewrite run_bind.
  destruct (in_slice (mac_of r) applied) eqn:Ea; cbn [run fst snd].
  - destruct (IH s d Hnd Hs) as (s' & E1 & E2 & E3); [intros r' Hr'; apply Hfree; set_solver|].
    exists s'. split; [exact E1|]. split; [done|]. intros mac. rewrite E3, pending_cons.
    destruct (String.eqb_spec (mac_of r) mac) as [<-|]; [|done]. rewrite Ea. by rewrite Hlater.
  - destruct (ds_add (leaseOptions name r) s d Hs) as (s1 & d1 & A1 & A2 & A3 & A4 & A5).
    { apply Hfree; [set_solver|done]. }
    cbn [leaseOptions AddReservedLeaseOptions.ScopeName AddReservedLeaseOptions.HardwareAddress] in A2, A5.
    cbn [call run addReservation]. unfold addReservation, call. cbn [run]. rewrite A1. cbn [fst snd].
    destruct (IH s1 d1 Hnd A2) as (s' & E1 & (d' & D1 & D2 & D3) & E3).
    { intros r' Hr' Ha'. rewrite A5, lookup_insert_ne; [apply Hfree; [set_solver|done]|].
      intros E. apply Hni. rewrite E. by apply list_elem_of_fmap_2. }
    exists s'. split; [exact E1|]. split; [exists d'; split_and!; [done|by eapply same_core_trans|congruence]|].
    intros mac. rewrite E3, A5, pending_cons.
    destruct (String.eqb_spec (mac_of r) mac) as [<-|Hne].
    + rewrite Ea. cbn. by rewrite Hlater, lookup_insert_eq.
    + cbn. by rewrite lookup_insert_ne.
Qed.

Lemma run_removes (desired : list DHCPReservation.t) (l : list string) : forall (s : S) d,
  scope_at s name = Some d ->
  exists s', run dhcp_step (for_each l (fun mac =>
      if in_slice mac (map mac_of desired) then Ret None
      else e <- call (DhcpRemoveLease name mac) ;; Ret (unless_is e ErrDHCPReservationNotFound))) s = (None, s') /\
    kept s s' d /\
    forall mac, leases s' name !! mac =
      if in_slice mac l && negb (in_slice mac (map mac_of desired)) then None else leases s name !! mac.
Proof.
  induction l as [|m l IH]; intros s d Hs; cbn [for_each].
  { exists s. split; [done|]. split; [by exists d; split_and!|done]. }
  rewrite run_bind. destruct (in_slice m (map mac_of desired)) eqn:Em; cbn [run fst snd].
  - destruct (IH s d Hs) as (s' & E1 & E2 & E3). exists s'. split; [exact E1|]. split; [done|].
    intros mac. rewrite E3. rewrite in_slice_cons.
    destruct (String.eqb_spec mac m) as [->|]; [|done]. by rewrite Em, !andb_false_r.
  - destruct (ds_remove name m s d Hs) as (x & s1 & d1 & A1 & A2 & A3 & A4 & A5 & A6).
    cbn [bind call run]. rewrite A1. cbn [run fst snd]. rewrite A2.
    destruct (IH s1 d1 A3) as (s' & E1 & (d' & D1 & D2 & D3) & E3).
    exists s'. split; [exact E1|]. split; [exists d'; split_and!; [done|by eapply same_core_trans|congruence]|].
    intros mac. rewrite E3, A6. rewrite in_slice_cons.
    destruct (String.eqb_spec mac m) as [->|Hne]; cbn [orb andb].
    + rewrite Em. cbn. rewrite lookup_delete_eq. by destruct (in_slice m l).
    + by rewrite lookup_delete_ne.
Qed.

Lemma run_reconcileReservations (applied : list string) (desired : list DHCPReservation.t) (s : S) d :
  NoDup (map mac_of desired) -> scope_at s name = Some d ->
  (forall r, r ∈ desired -> in_slice (mac_of r) applied = false -> leases s name !! mac_of r = None) ->
  exists s', run dhcp_step (reconcileReservations applied desired name) s = (inr (map mac_of desired), s') /\
    kept s s' d /\ forall mac, leases s' name !! mac = leases_after name applied desired (leases s name) mac.
Proof.
  intros Hnd Hs Hfree. unfold reconcileReservations. rewrite run_bind.
  destruct (run_adds applied desired s d Hnd Hs Hfree) as (s1 & E1 & (d1 & D1 & D2 & D3) & E3).
  rewrite E1. cbn [fst snd]. rewrite run_bind.
  destruct (run_removes desired applied s1 d1 D1) as (s' & F1 & (d' & G1 & G2 & G3) & F3).
  rewrite F1. cbn [fst snd run]. exists s'. split; [done|].
  split; [exists d'; split_and!; [done|by eapply same_core_trans|congruence]|].
  intros mac. rewrite F3, E3. reflexivity.
Qed.
End convergence.

(** The scope agrees with what the spec asks for. *)
Record scope_in_sync (spec : DHCPScopeSpec.t) (d : DHCPScopeDetails.t) : Prop := {
  sync_start : DHCPScopeDetails.StartingAddress d = DHCPScopeSpec.StartingAddress spec;
  sync_end : DHCPScopeDetails.EndingAddress d = DHCPScopeSpec.EndingAddress spec;
  sync_mask : DHCPScopeDetails.SubnetMask d = DHCPScopeSpec.SubnetMask spec;
  sync_router r : DHCPScopeSpec.RouterAddress spec = Some r -> DHCPScopeDetails.RouterAddress d = r;
  sync_dns l : DHCPScopeSpec.DNSServers spec = Some l -> DHCPScopeDetails.DNSServers d = l;
}.

Lemma scopeCoreFieldsMatch_in_sync (spec : DHCPScopeSpec.t) (d : DHCPScopeDetails.t) :
  scopeCoreFieldsMatch spec d = true -> scope_in_sync spec d.
Proof.
  unfold scopeCoreFieldsMatch. rewrite !andb_true_iff, !String.eqb_eq.
  rewrite (unset_or_spec String.eqb) by apply String.eqb_eq.
  rewrite (unset_or_spec stringSlicesEqual) by apply stringSlicesEqual_spec.
  intros ((((((E1 & E2) & E3) & E4) & E5) & _) & _). constructor; try done.
  - intros r Hr. rewrite Hr in E4. done.
  - intros l Hl. rewrite Hl in E5. done.
Qed.

Lemma scope_set_in_sync (spec : DHCPScopeSpec.t) b d :
  scope_set (setOptionsFromSpec spec) b d -> scope_in_sync spec d.
Proof. intros [H1 H2 H3 H4 H5 _]. by constructor. Qed.

Lemma scope_in_sync_core (spec : DHCPScopeSpec.t) d d' :
  scope_in_sync spec d -> same_core d' d -> scope_in_sync spec d'.
Proof.
  intros [H1 H2 H3 H4 H5] (E1 & E2 & E3 & E4 & E5). constructor; try congruence.
  - intros r Hr. rewrite E4. by apply H4.
  - intros l Hl. rewrite E5. by apply H5.
Qed.

Lemma reconcileDHCPScope_run {S : Type} `{!DhcpServer S} `{!DhcpServerLaws S} (scope : DHCPScope.t) (s : S) :
  let spec := DHCPScope.Spec scope in
  let name := DHCPScopeSpec.ScopeName spec in
  let applied := DHCPScopeStatus.AppliedReservations (DHCPScope.Status scope) in
  NoDup (map mac_of (DHCPScopeSpec.Reservations spec)) ->
  (forall r, r ∈ DHCPScopeSpec.Reservations spec -> mac_of r ∉ applied -> leases s name !! mac_of r = None) ->
  exists s' d, run dhcp_step (reconcileDHCPScope_body scope) s
      = (inr (map mac_of (DHCPScopeSpec.Reservations spec)), s') /\
    scope_at s' name = Some d /\ scope_in_sync spec d /\
    DHCPScopeDetails.Enabled d = default true (DHCPScopeSpec.Enabled spec) /\
    forall mac, leases s' name !! mac
      = leases_after name applied (DHCPScopeSpec.Reservations spec) (leases s name) mac.
Proof.
  cbn zeta. intros Hnd Hfree. unfold reconcileDHCPScope_body. cbn [bind call run].
  set (spec := DHCPScope.Spec scope) in *. set (name := DHCPScopeSpec.ScopeName spec) in *.
  set (applied := DHCPScopeStatus.AppliedReservations (DHCPScope.Status scope)) in *.
  assert (Hget : exists current, current = scope_at s name /\
    exists r, dhcp_step (DhcpGetScope name) s = (r, s) /\
      match r with inr d => inr (Some d) | inl err => if Is err ErrDHCPScopeNotFound then inr None else inl err end
      = (inr current : fallible (option DHCPScopeDetails.t))).
  { destruct (scope_at s name) as [d|] eqn:E.
    - exists (Some d). split; [done|]. exists (inr d). by rewrite (ds_get _ _ _ E).
    - exists None. split; [done|]. destruct (ds_get_none _ _ E) as (e & E1 & E2). exists (inl e).
      by rewrite E1, E2. }
  destruct Hget as (current & Hcur & r & Hr1 & Hr2). rewrite Hr1, Hr2. rewrite run_bind.
  assert (Hset : exists s1 d1, run dhcp_step (if match current with None => true | Some c => negb (scopeCoreFieldsMatch spec c) end
      then call (DhcpSetScope (setOptionsFromSpec spec)) else Ret None) s = (None, s1) /\
    scope_at s1 name = Some d1 /\ scope_in_sync spec d1 /\ leases s1 name = leases s name /\
    (forall c, current = Some c -> DHCPScopeDetails.Enabled d1 = DHCPScopeDetails.Enabled c)).
  { destruct (ds_set (setOptionsFromSpec spec) s) as (s1 & d1 & A1 & A2 & A3 & A4).
    destruct (match current with None => true | Some c => negb (scopeCoreFieldsMatch spec c) end) eqn:Em.
    - exists s1, d1. cbn [call run]. rewrite A1. split_and!; try done; [by eapply scope_set_in_sync|].
      intros c ->. by apply (set_enabled _ _ _ A3 c).
    - destruct current as [c|]; [|done]. apply negb_false_iff in Em.
      exists s, c. split_and!; try done; [by apply scopeCoreFieldsMatch_in_sync|]. by intros c' [= ->]. }
  destruct Hset as (s1 & d1 & B1 & B2 & B3 & B4 & B5). rewrite B1. cbn [fst snd]. rewrite run_bind.
  destruct (run_reconcileReservations name applied (DHCPScopeSpec.Reservations spec) s1 d1 Hnd B2)
    as (s2 & C1 & (d2 & C2 & C3 & C4) & C5).
  { intros r' Hr' Ha'. rewrite B4. apply Hfree; [done|]. rewrite <- in_slice_spec. congruence. }
  rewrite C1. cbn [fst snd]. rewrite run_bind. rewrite B4 in C5.
  assert (Hsync : scope_in_sync spec d2) by (by eapply scope_in_sync_core).
  destruct (ds_enable name s2 d2 C2) as (s3 & d3 & D1 & D2 & D3 & D4 & D5).
  destruct (ds_disable name s2 d2 C2) as (s4 & d4 & F1 & F2 & F3 & F4 & F5).
  destruct (default true (DHCPScopeSpec.Enabled spec)) eqn:Ed; cbn [negb andb].
  - destruct current as [c|]; [destruct (DHCPScopeDetails.Enabled c) eqn:Ec|]; cbn [negb andb orb is_some call run fst snd].
    + exists s2, d2. split_and!; try done. rewrite C4, <- Ec. by apply B5.
    + rewrite D1. exists s3, d3. split_and!; try done; [by eapply scope_in_sync_core|]. intros mac. by rewrite D5.
    + rewrite D1. exists s3, d3. split_and!; try done; [by eapply scope_in_sync_core|]. intros mac. by rewrite D5.
  - destruct current as [c|]; [destruct (DHCPScopeDetails.Enabled c) eqn:Ec|]; cbn [negb andb orb is_some call run fst snd].
    + rewrite F1. exists s4, d4. split_and!; try done; [by eapply scope_in_sync_core|]. intros mac. by rewrite F5.
    + exists s2, d2. split_and!; try done. rewrite C4, <- Ec. by apply B5.
    + rewrite F1. exists s4, d4. split_and!; try done; [by eapply scope_in_sync_core|]. intros mac. by rewrite F5.
Qed.

Lemma recordScope_status_only (applied : list string) : status_only (recordScope applied).
Proof.
  constructor; intros [m sp [cs g c ap]]; unfold recordScope; cbn; try done.
  - repeat (case_bool_decide; cbn); subst; try done; congruence.
  - destruct c; cbn; [|done]. by case_bool_decide.
Qed.

Lemma reconcileDHCPScope_body_finalizer `{KubeLib} (scope : DHCPScope.t) f :
  reconcileDHCPScope_body (add_finalizer scope f).1 = reconcileDHCPScope_body scope.
Proof. unfold add_finalizer. by destruct (AddFinalizer _ _). Qed.


(** *** The finalizer *)

(** The scope is gone: the delete succeeded, or there was no such scope. *)
Definition scope_deleted (scope : DHCPScope.t) (tr : list (event (calls DHCPScope.t dhcpE))) : Prop :=
  exists x, answered (DhcpDelete (DHCPScopeSpec.ScopeName (DHCPScope.Spec scope))) x tr /\
    unless_is x ErrDHCPScopeNotFound = None.

Lemma deleteScope_confirms (scope : DHCPScope.t) (past : list (event (calls DHCPScope.t dhcpE))) :
  holds (lift (deleteScope_body scope)) past (fun tr r => r = None -> scope_deleted scope tr).
Proof.
  cbn. intros d. destruct (unless_is d ErrDHCPScopeNotFound); cbn; [done|].
  intros x Hx. exists x. split; [|exact Hx]. apply in_or_app. right. by left.
Qed.

(** ** Examples *)

#[local] Existing Instance RefKubeLib.lib.
#[local] Existing Instance RefKubeLib.laws.

Record dhcp_state := {
  st_scopes : gmap string DHCPScopeDetails.t;
  st_leases : gmap string (gmap string AddReservedLeaseOptions.t)
}.
Definition lease_map (s : dhcp_state) (n : string) : gmap string AddReservedLeaseOptions.t :=
  default ∅ (st_leases s !! n).
Definition with_enabled (b : bool) (d : DHCPScopeDetails.t) : DHCPScopeDetails.t :=
  DHCPScopeDetails.mk (DHCPScopeDetails.Name d) b (DHCPScopeDetails.StartingAddress d)
    (DHCPScopeDetails.EndingAddress d) (DHCPScopeDetails.SubnetMask d) (DHCPScopeDetails.RouterAddress d)
    (DHCPScopeDetails.DNSServers d) (DHCPScopeDetails.ReservedLeases d).
Definition set_scopes (s : dhcp_state) n d : dhcp_state :=
  {| st_scopes := <[n := d]> (st_scopes s); st_leases := st_leases s |}.
Definition set_leases (s : dhcp_state) n l : dhcp_state :=
  {| st_scopes := st_scopes s; st_leases := <[n := l]> (st_leases s) |}.

Definition plain_dhcp (a : dhcpE) : dhcp_state -> answer a * dhcp_state :=
  match a with
  | DhcpGetScope n => fun s =>
      (match st_scopes s !! n with Some d => inr d | None => inl (ESentinel ErrDHCPScopeNotFound) end, s)
  | DhcpSetScope o => fun s =>
      let n := SetDHCPScopeOptions.Name o in
      let old := st_scopes s !! n in
      (None, set_scopes s n (DHCPScopeDetails.mk n
         (match old with Some d => DHCPScopeDetails.Enabled d | None => false end)
         (SetDHCPScopeOptions.StartingAddress o) (SetDHCPScopeOptions.EndingAddress o)
         (SetDHCPScopeOptions.SubnetMask o)
         (default (match old with Some d => DHCPScopeDetails.RouterAddress d | None => "" end)
            (SetDHCPScopeOptions.RouterAddress o))
         (default (match old with Some d => DHCPScopeDetails.DNSServers d | None => [] end)
            (SetDHCPScopeOptions.DNSServers o)) []))
  | DhcpEnable n => fun s =>
      match st_scopes s !! n with
      | Some d => (None, set_scopes s n (with_enabled true d))
      | None => (Some (ESentinel ErrDHCPScopeNotFound), s)
      end
  | DhcpDisable n => fun s =>
      match st_scopes s !! n with
      | Some d => (None, set_scopes s n (with_enabled false d))
      | None => (Some (ESentinel ErrDHCPScopeNotFound), s)
      end
  | DhcpDelete n => fun s =>
      (None, {| st_scopes := delete n (st_scopes s); st_leases := delete n (st_leases s) |})
  | DhcpAddLease o => fun s =>
      let n := AddReservedLeaseOptions.ScopeName o in
      (None, set_leases s n (<[AddReservedLeaseOptions.HardwareAddress o := o]> (lease_map s n)))
  | DhcpRemoveLease n mac => fun s => (None, set_leases s n (delete mac (lease_map s n)))
  end.

#[local] Instance plain_dhcp_server : DhcpServer dhcp_state :=
  {| dhcp_step := plain_dhcp; scope_at s n := st_scopes s !! n; leases := lease_map |}.
#[local] Instance plain_dhcp_laws : DhcpServerLaws dhcp_state.
Proof.
  constructor; cbn; unfold lease_map.
  - intros n s d E. by rewrite E.
  - intros n s E. rewrite E. by eexists.
  - intros o s. eexists _, _. split; [done|]. cbn. rewrite lookup_insert_eq. split; [done|]. split; [|done].
    constructor; cbn; try done; [by intros r ->|by intros l ->|by intros b ->].
  - intros o s d E _. exists (set_leases s (AddReservedLeaseOptions.ScopeName o)
      (<[AddReservedLeaseOptions.HardwareAddress o := o]> (lease_map s (AddReservedLeaseOptions.ScopeName o)))), d.
    cbn. by rewrite lookup_insert_eq.
  - intros n mac s d E. exists None, (set_leases s n (delete mac (lease_map s n))), d.
    cbn. by rewrite lookup_insert_eq.
  - intros n s d E. rewrite E. eexists _, _. split; [done|]. cbn. by rewrite lookup_insert_eq.
  - intros n s d E. rewrite E. eexists _, _. split; [done|]. cbn. by rewrite lookup_insert_eq.
Qed.
#[local] Instance dhcp_world : Cooperative DHCPScope.t dhcpE (option DHCPScope.t * dhcp_state) dhcp_state :=
  plain_world plain_dhcp.
#[local] Instance dhcp_world_laws : CooperativeLaws DHCPScope.t dhcpE (option DHCPScope.t * dhcp_state) dhcp_state :=
  plain_laws plain_dhcp.

Definition example_reservation (mac ip : string) : DHCPReservation.t := DHCPReservation.mk mac ip None None.
Definition example_scope : DHCPScope.t :=
  DHCPScope.mk (ObjectMeta.named "" "lan")
    (DHCPScopeSpec.mk (SecretReference.mk "dns" "") "lan" "10.0.0.10" "10.0.0.20" "255.255.255.0" (Some "10.0.0.1")
       None None None None None None [example_reservation "00:01" "10.0.0.11"] "")
    (DHCPScopeStatus.mk [] 0 false ["00:02"]).
Definition lan_key : ObjectKey := {| KeyNamespace := ""; KeyName := "lan" |}.


(** The address of an applied reservation is edited: nothing is sent. *)
Example dhcp_reservation_edit_ignored_witness :
  reconcileReservations ["00:01"] [example_reservation "00:01" "10.0.0.99"] "lan" = ok ["00:01"].
Proof.
  apply (dhcp_reservation_edit_ignored ["00:01"] [example_reservation "00:01" "10.0.0.99"] "lan").
  - intros r Hr. apply list_elem_of_singleton in Hr as ->. left.
  - intros mac Hm. apply list_elem_of_singleton in Hm as ->. eexists. split; [left|reflexivity].
Defined.
