(* ===== verification/DNSSEC.v ===== *)
(** * The DNSSEC resource

    [api/v1alpha1/dnssec_types.go] and
    [internal/controller/dnssec_controller.go]. *)

From S2P Require Import Prelude GoStrings GoErrors Effects Kube Lifecycle ZonesAPI.

Local Open Scope string_scope.
Local Open Scope Z_scope.
Local Open Scope go_scope.
Local Open Scope prog_scope.

(** ** The resource *)

Module DNSSECSpec.
Record t := mk {
  ServerRef : SecretReference.t;
  Zone : string;
  Algorithm : string;
  HashAlgorithm : option string;
  KSKKeySize : option Z;
  ZSKKeySize : option Z;
  Curve : option string;
  NSECType : string;
  NSEC3Iterations : option Z;
  NSEC3SaltLength : option Z;
  DNSKeyTTL : option Z;
  ZSKRolloverDays : option Z;
  DeletionPolicy : string
}.
End DNSSECSpec.

Module DNSSECStatus.
Record t := mk { Conditions : list Condition.t; ObservedGeneration : Z; Signed : bool }.
End DNSSECStatus.

Module DNSSEC.
Record t := mk { Meta : ObjectMeta.t; Spec : DNSSECSpec.t; Status : DNSSECStatus.t }.
End DNSSEC.

#[export] Instance DNSSEC_Resource : Resource DNSSEC.t := {|
  meta := DNSSEC.Meta;
  with_meta d m := DNSSEC.mk m (DNSSEC.Spec d) (DNSSEC.Status d);
  conditions d := DNSSECStatus.Conditions (DNSSEC.Status d);
  with_conditions d cs :=
    let s := DNSSEC.Status d in
    DNSSEC.mk (DNSSEC.Meta d) (DNSSEC.Spec d)
      (DNSSECStatus.mk cs (DNSSECStatus.ObservedGeneration s) (DNSSECStatus.Signed s));
  observedGeneration d := DNSSECStatus.ObservedGeneration (DNSSEC.Status d);
  with_observedGeneration d g :=
    let s := DNSSEC.Status d in
    DNSSEC.mk (DNSSEC.Meta d) (DNSSEC.Spec d)
      (DNSSECStatus.mk (DNSSECStatus.Conditions s) g (DNSSECStatus.Signed s));
  spec_of := DNSSEC.Spec
|}.

#[export] Instance DNSSEC_ResourceLaws : ResourceLaws DNSSEC.t.
Proof. constructor; intros [m sp []]; reflexivity. Qed.

(** ** The controller *)

Definition dnssecFinalizer : string := "dns.packet.fail/dnssec-cleanup".

(** [DNSSECAPI]. *)
Inductive dnssecE : Type :=
| DnssecSign (opts : SignZoneOptions.t)
| DnssecUnsign (zone : string)
| DnssecGet (zone : string).
#[export] Instance dnssecE_Effect : Effect dnssecE := fun c => match c with
| DnssecGet _ => fallible DNSSECProperties.t
| _ => option error
end.

Definition signZoneOptionsFromSpec (spec : DNSSECSpec.t) : SignZoneOptions.t :=
  SignZoneOptions.mk (DNSSECSpec.Zone spec) (DNSSECSpec.Algorithm spec) (DNSSECSpec.HashAlgorithm spec)
    (DNSSECSpec.KSKKeySize spec) (DNSSECSpec.ZSKKeySize spec) (DNSSECSpec.Curve spec)
    (if DNSSECSpec.NSECType spec =s? "" then None else Some (DNSSECSpec.NSECType spec))
    (DNSSECSpec.NSEC3Iterations spec) (DNSSECSpec.NSEC3SaltLength spec)
    (DNSSECSpec.DNSKeyTTL spec) (DNSSECSpec.ZSKRolloverDays spec).

Definition reconcileDNSSEC_body (d : DNSSEC.t) : prog dnssecE (fallible bool) :=
  let spec := DNSSEC.Spec d in
  try props <- call (DnssecGet (DNSSECSpec.Zone spec)) ;;
  if DNSSECProperties.DNSSECStatus props =s? DNSSECStatusUnsigned then
    checkV call (DnssecSign (signZoneOptionsFromSpec spec)) ;;
    ok true
  else ok true.

Definition isDNSSECZoneGone (err : error) : bool :=
  if Is err ErrZoneNotFound then true
  else match AsAPIError err with
       | Some apiErr =>
           let lower := ToLower (APIError.Message apiErr) in
           Contains lower "not signed" || Contains lower "unsigned"
       | None => false
       end.

(** The server-side part of [finalizeDNSSEC]. *)
Definition unsign_body (d : DNSSEC.t) : prog dnssecE (option error) :=
  e <- call (DnssecUnsign (DNSSECSpec.Zone (DNSSEC.Spec d))) ;;
  match e with
  | Some err => if negb (isDNSSECZoneGone err) then Ret (Some err) else Ret None
  | None => Ret None
  end.

Definition recordSigned (signed : bool) (d : DNSSEC.t) : DNSSEC.t * bool :=
  let s := DNSSEC.Status d in
  if negb (Bool.eqb (DNSSECStatus.Signed s) signed) then
    (DNSSEC.mk (DNSSEC.Meta d) (DNSSEC.Spec d)
       (DNSSECStatus.mk (DNSSECStatus.Conditions s) (DNSSECStatus.ObservedGeneration s) signed), true)
  else (d, false).

Definition dnssec_orphan (d : DNSSEC.t) : bool :=
  DNSSECSpec.DeletionPolicy (DNSSEC.Spec d) =s? DeletionPolicyOrphan.
Definition dnssec_ref (d : DNSSEC.t) : SecretReference.t := DNSSECSpec.ServerRef (DNSSEC.Spec d).

Section controller.
Context `{KubeLib}.

Definition finalizeDNSSEC (d : DNSSEC.t) : prog (calls DNSSEC.t dnssecE) (option error) :=
  finalize_with dnssecFinalizer dnssec_orphan dnssec_ref (fun d => lift (unsign_body d)) d.

Definition reconcileDNSSEC (d : DNSSEC.t) : prog (calls DNSSEC.t dnssecE) (fallible bool) :=
  with_server (dnssec_ref d) (reconcileDNSSEC_body d).

Definition dnssecMarkReady (key : ObjectKey) (signed : bool) : prog (calls DNSSEC.t dnssecE) (option error) :=
  markReady "DNSSECSigned" "Zone reconciled on the Technitium server" (recordSigned signed) key.

Definition dnssecMarkDegraded : ObjectKey -> error -> prog (calls DNSSEC.t dnssecE) (option error) := markDegraded.

Definition dnssecReconcile (key : ObjectKey) : prog (calls DNSSEC.t dnssecE) (Z * option error) :=
  reconcile dnssecFinalizer finalizeDNSSEC reconcileDNSSEC dnssecMarkDegraded
    (fun key _ signed => dnssecMarkReady key signed) key.
End controller.

(** ** A Technitium server's signed zones

    [zone_status] is the DNSSEC status of a zone the server holds, [signed_with]
    the options of its last signing. *)
Class DnssecServer (S : Type) := {
  dnssec_step : forall a : dnssecE, S -> answer a * S;
  zone_status : S -> string -> option string;
  signed_with : S -> string -> option SignZoneOptions.t
}.

Class DnssecServerLaws (S : Type) `{!DnssecServer S} : Prop := {
  dss_get z s st : zone_status s z = Some st ->
    exists ttl, dnssec_step (DnssecGet z) s = (inr (DNSSECProperties.mk z st ttl), s);
  dss_sign opts s : zone_status s (SignZoneOptions.Zone opts) = Some DNSSECStatusUnsigned ->
    exists s' st, dnssec_step (DnssecSign opts) s = (None, s') /\
      zone_status s' (SignZoneOptions.Zone opts) = Some st /\ st <> DNSSECStatusUnsigned /\
      signed_with s' (SignZoneOptions.Zone opts) = Some opts /\
      forall z, z <> SignZoneOptions.Zone opts ->
        zone_status s' z = zone_status s z /\ signed_with s' z = signed_with s z
}.

(** The calls that change nothing on the server. *)
Definition dnssec_reads (a : dnssecE) : bool := match a with DnssecGet _ => true | _ => false end.

Lemma recordSigned_status_only (b : bool) : status_only (recordSigned b).
Proof.
  constructor; intros [m sp [cs g s]]; unfold recordSigned; cbn;
    destruct s, b; cbn; try done; congruence.
Qed.

Lemma signed_body_reads {S : Type} `{!DnssecServer S} `{!DnssecServerLaws S} (d : DNSSEC.t) (s : S) st :
  zone_status s (DNSSECSpec.Zone (DNSSEC.Spec d)) = Some st -> st <> DNSSECStatusUnsigned ->
  run dnssec_step (reconcileDNSSEC_body d) s = (inr true, s) /\
  Forall (fun a => dnssec_reads a = true) (map projT1 (history dnssec_step (reconcileDNSSEC_body d) s)).
Proof.
  intros Hz Hne. unfold reconcileDNSSEC_body. cbn [bind call run history].
  destruct (dss_get _ _ _ Hz) as [ttl E]. rewrite E. cbn [DNSSECProperties.DNSSECStatus].
  apply String.eqb_neq in Hne. rewrite Hne. cbn. split; [done|]. by repeat constructor.
Qed.

Lemma reconcileDNSSEC_body_spec (d d' : DNSSEC.t) :
  DNSSEC.Spec d = DNSSEC.Spec d' -> reconcileDNSSEC_body d = reconcileDNSSEC_body d'.
Proof. unfold reconcileDNSSEC_body. by intros ->. Qed.

(** What a pass does to the zone. *)
Lemma reconcileDNSSEC_run {S : Type} `{!DnssecServer S} `{!DnssecServerLaws S} (d : DNSSEC.t) (s : S) st :
  let z := DNSSECSpec.Zone (DNSSEC.Spec d) in
  zone_status s z = Some st ->
  exists s' st', run dnssec_step (reconcileDNSSEC_body d) s = (inr true, s') /\
    zone_status s' z = Some st' /\ st' <> DNSSECStatusUnsigned /\
    (st <> DNSSECStatusUnsigned -> s' = s) /\
    (st = DNSSECStatusUnsigned -> signed_with s' z = Some (signZoneOptionsFromSpec (DNSSEC.Spec d))) /\
    (forall z', z' <> z -> zone_status s' z' = zone_status s z' /\ signed_with s' z' = signed_with s z').
Proof.
  intros z Hz. destruct (decide (st = DNSSECStatusUnsigned)) as [->|Hne].
  - destruct (dss_get z s _ Hz) as [ttl E].
    destruct (dss_sign (signZoneOptionsFromSpec (DNSSEC.Spec d)) s Hz) as (s' & st' & E1 & E2 & E3 & E4 & E5).
    exists s', st'. unfold reconcileDNSSEC_body. cbn [bind call run]. fold z. rewrite E.
    cbn [DNSSECProperties.DNSSECStatus]. rewrite eqb_string_refl. cbn [bind call run]. rewrite E1.
    by split_and!.
  - exists s, st. destruct (signed_body_reads d s st Hz Hne) as [R _]. by split_and!.
Qed.


(** *** The finalizer *)

(** The zone is unsigned: the request succeeded, or the server reported that
    there is nothing to unsign. *)
Definition zone_unsigned (d : DNSSEC.t) (tr : list (event (calls DNSSEC.t dnssecE))) : Prop :=
  exists x, answered (DnssecUnsign (DNSSECSpec.Zone (DNSSEC.Spec d))) x tr /\
    match x with None => True | Some e => isDNSSECZoneGone e = true end.

Lemma unsign_confirms (d : DNSSEC.t) (past : list (event (calls DNSSEC.t dnssecE))) :
  holds (lift (unsign_body d)) past (fun tr r => r = None -> zone_unsigned d tr).
Proof.
  cbn. intros [e|]; cbn.
  - destruct (isDNSSECZoneGone e) eqn:Eg; cbn; [|done]. intros _. exists (Some e).
    split; [|done]. apply in_or_app. right. by left.
  - intros _. exists None. split; [|done]. apply in_or_app. right. by left.
Qed.

(** ** Example *)

#[local] Existing Instance RefKubeLib.lib.
#[local] Existing Instance RefKubeLib.laws.

Record zone_record := { zr_status : string; zr_signed : option SignZoneOptions.t }.

Definition plain_dnssec (a : dnssecE) : gmap string zone_record -> answer a * gmap string zone_record :=
  match a with
  | DnssecGet z => fun s =>
      (match s !! z with
       | Some r => inr (DNSSECProperties.mk z (zr_status r) 3600)
       | None => inl (ESentinel ErrZoneNotFound)
       end, s)
  | DnssecSign o => fun s =>
      (None, <[SignZoneOptions.Zone o := {| zr_status := DNSSECStatusSignedWithNSEC; zr_signed := Some o |}]> s)
  | DnssecUnsign z => fun s => (None, <[z := {| zr_status := DNSSECStatusUnsigned; zr_signed := None |}]> s)
  end.
#[local] Instance plain_dnssec_server : DnssecServer (gmap string zone_record) :=
  {| dnssec_step := plain_dnssec; zone_status s z := zr_status <$> s !! z;
     signed_with s z := r ← s !! z; zr_signed r |}.
#[local] Instance plain_dnssec_laws : DnssecServerLaws (gmap string zone_record).
Proof.
  constructor; cbn.
  - intros z s st E. destruct (s !! z); [|done]. cbn in E. injection E as <-. by eexists.
  - intros o s _. eexists _, _. split; [done|]. rewrite lookup_insert_eq. split_and!; try done.
    intros z Hne. by rewrite lookup_insert_ne.
Qed.
#[local] Instance dnssec_world :
  Cooperative DNSSEC.t dnssecE (option DNSSEC.t * gmap string zone_record) (gmap string zone_record) :=
  plain_world plain_dnssec.
#[local] Instance dnssec_world_laws :
  CooperativeLaws DNSSEC.t dnssecE (option DNSSEC.t * gmap string zone_record) (gmap string zone_record) :=
  plain_laws plain_dnssec.

Definition example_dnssec : DNSSEC.t :=
  DNSSEC.mk (ObjectMeta.named "" "sign")
    (DNSSECSpec.mk (SecretReference.mk "dns" "") "example.com" "ECDSA" None None None (Some "P256") "NSEC"
       None None None None "Delete")
    (DNSSECStatus.mk [] 0 false).

