(* ===== verification/DNSApp.v ===== *)
(** * The DNSApp resource

    [api/v1alpha1/dnsapp_types.go] and
    [internal/controller/dnsapp_controller.go]. *)

From S2P Require Import Prelude GoStrings GoErrors Effects Kube Lifecycle ServerAPI.

Local Open Scope string_scope.
Local Open Scope Z_scope.
Local Open Scope go_scope.
Local Open Scope prog_scope.

(** ** The resource *)

Module DNSAppSpec.
Record t := mk {
  ServerRef : SecretReference.t;
  AppName : string;
  URL : string;
  Version : string;
  Config : string;
  DeletionPolicy : string
}.
End DNSAppSpec.

Module DNSAppStatus.
Record t := mk { Conditions : list Condition.t; ObservedGeneration : Z; InstalledVersion : string }.
End DNSAppStatus.

Module DNSApp.
Record t := mk { Meta : ObjectMeta.t; Spec : DNSAppSpec.t; Status : DNSAppStatus.t }.
End DNSApp.

#[export] Instance DNSApp_Resource : Resource DNSApp.t := {|
  meta := DNSApp.Meta;
  with_meta o m := DNSApp.mk m (DNSApp.Spec o) (DNSApp.Status o);
  conditions o := DNSAppStatus.Conditions (DNSApp.Status o);
  with_conditions o cs :=
    let s := DNSApp.Status o in
    DNSApp.mk (DNSApp.Meta o) (DNSApp.Spec o)
      (DNSAppStatus.mk cs (DNSAppStatus.ObservedGeneration s) (DNSAppStatus.InstalledVersion s));
  observedGeneration o := DNSAppStatus.ObservedGeneration (DNSApp.Status o);
  with_observedGeneration o g :=
    let s := DNSApp.Status o in
    DNSApp.mk (DNSApp.Meta o) (DNSApp.Spec o)
      (DNSAppStatus.mk (DNSAppStatus.Conditions s) g (DNSAppStatus.InstalledVersion s));
  spec_of := DNSApp.Spec
|}.

#[export] Instance DNSApp_ResourceLaws : ResourceLaws DNSApp.t.
Proof. constructor; intros [m sp []]; reflexivity. Qed.

(** ** The controller *)

Definition dnsAppFinalizer : string := "dns.packet.fail/dnsapp-cleanup".

(** [DNSAppAPI]. *)
Inductive appE : Type :=
| AppList
| AppInstall (name url : string)
| AppUpdate (name url : string)
| AppUninstall (name : string)
| AppGetConfig (name : string)
| AppSetConfig (name config : string).
#[export] Instance appE_Effect : Effect appE := fun c => match c with
| AppList => fallible (list DNSAppInfo.t)
| AppGetConfig _ => fallible string
| _ => option error
end.

Definition findAppByName (apps : list DNSAppInfo.t) (name : string) : option DNSAppInfo.t :=
  List.find (fun a => DNSAppInfo.Name a =s? name) apps.

Definition reconcileConfig (spec : DNSAppSpec.t) : prog appE (option error) :=
  if DNSAppSpec.Config spec =s? "" then Ret None
  else
    tryE current <- call (AppGetConfig (DNSAppSpec.AppName spec)) ;;
    if current =s? DNSAppSpec.Config spec then Ret None
    else call (AppSetConfig (DNSAppSpec.AppName spec) (DNSAppSpec.Config spec)).

Definition reconcileDNSApp_body (app : DNSApp.t) : prog appE (fallible string) :=
  let spec := DNSApp.Spec app in
  let name := DNSAppSpec.AppName spec in
  try apps <- call AppList ;;
  try current <-
    match findAppByName apps name with
    | None =>
        e <- call (AppInstall name (DNSAppSpec.URL spec)) ;;
        checkV Ret (match e with
                    | Some err => if negb (Is err ErrAppAlreadyInstalled) then Some err else None
                    | None => None
                    end) ;;
        try apps <- call AppList ;;
        ok (findAppByName apps name)
    | Some current =>
        if negb (DNSAppSpec.Version spec =s? "") && negb (DNSAppInfo.Version current =s? DNSAppSpec.Version spec) then
          checkV call (AppUpdate name (DNSAppSpec.URL spec)) ;;
          try apps <- call AppList ;;
          ok (findAppByName apps name)
        else ok (Some current)
    end ;;
  checkV reconcileConfig spec ;;
  match current with
  | None => fail (EText ("technitium: app " +:+ quoted name +:+ " not found in app list after install"))
  | Some c => ok (DNSAppInfo.Version c)
  end.

(** The server-side part of [finalizeDNSApp]. *)
Definition uninstall_body (app : DNSApp.t) : prog appE (option error) :=
  e <- call (AppUninstall (DNSAppSpec.AppName (DNSApp.Spec app))) ;;
  match e with
  | Some err => if negb (Is err ErrAppNotInstalled) then Ret (Some err) else Ret None
  | None => Ret None
  end.

Definition recordVersion (version : string) (app : DNSApp.t) : DNSApp.t * bool :=
  let s := DNSApp.Status app in
  if negb (DNSAppStatus.InstalledVersion s =s? version) then
    (DNSApp.mk (DNSApp.Meta app) (DNSApp.Spec app)
       (DNSAppStatus.mk (DNSAppStatus.Conditions s) (DNSAppStatus.ObservedGeneration s) version), true)
  else (app, false).

Definition app_orphan (app : DNSApp.t) : bool :=
  DNSAppSpec.DeletionPolicy (DNSApp.Spec app) =s? DeletionPolicyOrphan.
Definition app_ref (app : DNSApp.t) : SecretReference.t := DNSAppSpec.ServerRef (DNSApp.Spec app).

Section controller.
Context `{KubeLib}.

Definition finalizeDNSApp (app : DNSApp.t) : prog (calls DNSApp.t appE) (option error) :=
  finalize_with dnsAppFinalizer app_orphan app_ref (fun a => lift (uninstall_body a)) app.

Definition reconcileDNSApp (app : DNSApp.t) : prog (calls DNSApp.t appE) (fallible string) :=
  with_server (app_ref app) (reconcileDNSApp_body app).

Definition appMarkReady (key : ObjectKey) (version : string) : prog (calls DNSApp.t appE) (option error) :=
  markReady "DNSAppInstalled" "DNS App reconciled on the Technitium server" (recordVersion version) key.

Definition appMarkDegraded : ObjectKey -> error -> prog (calls DNSApp.t appE) (option error) := markDegraded.

Definition appReconcile (key : ObjectKey) : prog (calls DNSApp.t appE) (Z * option error) :=
  reconcile dnsAppFinalizer finalizeDNSApp reconcileDNSApp appMarkDegraded
    (fun key _ version => appMarkReady key version) key.
End controller.

(** ** A Technitium server's DNS apps

    [installed] is the version of an installed app, [app_config] its
    configuration, [package] the version a download URL currently serves. *)
Class AppServer (S : Type) := {
  app_step : forall a : appE, S -> answer a * S;
  installed : S -> string -> option string;
  app_config : S -> string -> string;
  package : string -> string
}.

Class AppServerLaws (S : Type) `{!AppServer S} : Prop := {
  as_list s : exists l, app_step AppList s = (inr l, s) /\
    forall n, installed s n = DNSAppInfo.Version <$> findAppByName l n;
  as_install n u s : installed s n = None ->
    exists s', app_step (AppInstall n u) s = (None, s') /\ installed s' n = Some (package u) /\
      (forall m, m <> n -> installed s' m = installed s m /\ app_config s' m = app_config s m);
  as_update n u s v : installed s n = Some v ->
    exists s', app_step (AppUpdate n u) s = (None, s') /\ installed s' n = Some (package u) /\
      app_config s' n = app_config s n /\
      (forall m, m <> n -> installed s' m = installed s m /\ app_config s' m = app_config s m);
  as_get n s v : installed s n = Some v -> app_step (AppGetConfig n) s = (inr (app_config s n), s);
  as_set n c s v : installed s n = Some v ->
    exists s', app_step (AppSetConfig n c) s = (None, s') /\ app_config s' n = c /\
      (forall m, installed s' m = installed s m) /\
      (forall m, m <> n -> app_config s' m = app_config s m)
}.

(** The calls that change nothing on the server. *)
Definition app_reads (a : appE) : bool :=
  match a with AppList | AppGetConfig _ => true | _ => false end.

(** The version a pass leaves installed. *)
Definition version_after (pkg : string) (spec : DNSAppSpec.t) (before : option string) : string :=
  match before with
  | None => pkg
  | Some v => if (DNSAppSpec.Version spec =s? "") || (v =s? DNSAppSpec.Version spec) then v else pkg
  end.

(** The other apps are as they were. *)
Definition others_kept {S : Type} `{!AppServer S} (name : string) (s s' : S) : Prop :=
  forall m, m <> name -> installed s' m = installed s m /\ app_config s' m = app_config s m.

Lemma recordVersion_status_only (v : string) : status_only (recordVersion v).
Proof.
  constructor; intros [m sp [cs g i]]; unfold recordVersion; cbn;
    destruct (String.eqb_spec i v); cbn; try done; subst; by rewrite ?eqb_string_refl.
Qed.

Section convergence.
Context {S : Type} `{!AppServer S} `{!AppServerLaws S}.

Lemma reconcileConfig_run (spec : DNSAppSpec.t) (s : S) v :
  let name := DNSAppSpec.AppName spec in
  installed s name = Some v ->
  exists s', run app_step (reconcileConfig spec) s = (None, s') /\
    (forall m, installed s' m = installed s m) /\
    (app_config s' name = if DNSAppSpec.Config spec =s? "" then app_config s name else DNSAppSpec.Config spec) /\
    (forall m, m <> name -> app_config s' m = app_config s m).
Proof.
  intros name Hi. unfold reconcileConfig. fold name.
  destruct (DNSAppSpec.Config spec =s? "") eqn:Ec; [by exists s|].
  cbn [bind call run]. rewrite (as_get _ _ _ Hi). cbn beta iota.
  destruct (app_config s name =s? DNSAppSpec.Config spec) eqn:Eq.
  { apply String.eqb_eq in Eq. by exists s. }
  cbn [run call]. destruct (as_set name (DNSAppSpec.Config spec) s v Hi) as (s' & E1 & E2 & E3 & E4).
  exists s'. by rewrite E1.
Qed.

Lemma reconcileConfig_settled (spec : DNSAppSpec.t) (s : S) v :
  let name := DNSAppSpec.AppName spec in
  installed s name = Some v ->
  (DNSAppSpec.Config spec <> "" -> app_config s name = DNSAppSpec.Config spec) ->
  run app_step (reconcileConfig spec) s = (None, s) /\
  Forall (fun a => app_reads a = true) (map projT1 (history app_step (reconcileConfig spec) s)).
Proof.
  intros name Hi Hc. unfold reconcileConfig. fold name.
  destruct (String.eqb_spec (DNSAppSpec.Config spec) ""); [by split|].
  cbn [bind call run history]. rewrite (as_get _ _ _ Hi). cbn beta iota.
  rewrite Hc, eqb_string_refl by done. cbn. split; [done|]. by repeat constructor.
Qed.

(** The tail of a pass: the configuration, and the version to report. *)
Lemma config_tail_run (spec : DNSAppSpec.t) (s : S) (cur : option DNSAppInfo.t) v :
  let name := DNSAppSpec.AppName spec in
  installed s name = Some v -> DNSAppInfo.Version <$> cur = Some v ->
  exists s', run app_step (checkV reconcileConfig spec ;;
      match cur with
      | None => fail (EText ("technitium: app " +:+ quoted name +:+ " not found in app list after install"))
      | Some c => ok (DNSAppInfo.Version c)
      end) s = (inr v, s') /\
    (forall m, installed s' m = installed s m) /\
    (app_config s' name = if DNSAppSpec.Config spec =s? "" then app_config s name else DNSAppSpec.Config spec) /\
    (forall m, m <> name -> app_config s' m = app_config s m).
Proof.
  intros name Hi Hv. destruct (reconcileConfig_run spec s v Hi) as (s' & R1 & R).
  exists s'. split; [|exact R]. rewrite run_bind, R1. cbn [fst snd].
  destruct cur as [c|]; [|done]. cbn in *. by injection Hv as ->.
Qed.

(** What a pass does to the app. *)
Lemma reconcileDNSApp_run (app : DNSApp.t) (s : S) :
  let spec := DNSApp.Spec app in
  let name := DNSAppSpec.AppName spec in
  let v := version_after (package (DNSAppSpec.URL spec)) spec (installed s name) in
  exists s', run app_step (reconcileDNSApp_body app) s = (inr v, s') /\
    installed s' name = Some v /\
    (DNSAppSpec.Config spec <> "" -> app_config s' name = DNSAppSpec.Config spec) /\
    (DNSAppSpec.Config spec = "" -> installed s name <> None -> app_config s' name = app_config s name) /\
    others_kept name s s'.
Proof.
  intros spec name v. unfold reconcileDNSApp_body. fold spec. fold name. cbn [bind call run].
  destruct (as_list s) as (l & L1 & L2). rewrite L1. cbn [bind run].
  pose proof (L2 name) as Hl. unfold v, others_kept. clear v.
  destruct (findAppByName l name) as [c|] eqn:Ef; cbn in Hl; rewrite Hl; cbn [version_after].
  - rewrite <- negb_orb.
    destruct ((DNSAppSpec.Version spec =s? "") || (DNSAppInfo.Version c =s? DNSAppSpec.Version spec)) eqn:Ev.
    + destruct (config_tail_run spec s (Some c) _ Hl eq_refl) as (s' & T1 & T2 & T3 & T4).
      exists s'. split; [exact T1|]. split; [by rewrite T2|]. fold name in T3.
      destruct (String.eqb_spec (DNSAppSpec.Config spec) "") as [E|E]; split_and!; try done; intros m Hm; auto.
    + cbn [negb bind call run].
      destruct (as_update name (DNSAppSpec.URL spec) s _ Hl) as (s1 & U1 & U2 & U3 & U4). rewrite U1. cbn [bind run call].
      destruct (as_list s1) as (l1 & L11 & L12). rewrite L11. cbn [bind run].
      pose proof (L12 name) as Hl1. rewrite U2 in Hl1.
      destruct (config_tail_run spec s1 (findAppByName l1 name) _ U2 (eq_sym Hl1)) as (s' & T1 & T2 & T3 & T4).
      exists s'. split; [exact T1|]. split; [by rewrite T2|]. fold name in T3, T4. rewrite <- U3.
      destruct (String.eqb_spec (DNSAppSpec.Config spec) "") as [E|E]; split_and!; try done; intros m Hm;
        rewrite T2, T4 by done; auto.
  - cbn [bind call run].
    destruct (as_install name (DNSAppSpec.URL spec) s Hl) as (s1 & U1 & U2 & U4). rewrite U1. cbn [bind run call].
    destruct (as_list s1) as (l1 & L11 & L12). rewrite L11. cbn [bind run].
    pose proof (L12 name) as Hl1. rewrite U2 in Hl1.
    destruct (config_tail_run spec s1 (findAppByName l1 name) _ U2 (eq_sym Hl1)) as (s' & T1 & T2 & T3 & T4).
    exists s'. split; [exact T1|]. split; [by rewrite T2|]. fold name in T3, T4.
    destruct (String.eqb_spec (DNSAppSpec.Config spec) "") as [E|E]; split_and!; try done; intros m Hm;
      rewrite T2, T4 by done; auto.
Qed.

(** A pass over an app that is as declared only reads. *)
Lemma reconcileDNSApp_settled (app : DNSApp.t) (s : S) v :
  let spec := DNSApp.Spec app in
  let name := DNSAppSpec.AppName spec in
  installed s name = Some v ->
  DNSAppSpec.Version spec = "" \/ v = DNSAppSpec.Version spec ->
  (DNSAppSpec.Config spec <> "" -> app_config s name = DNSAppSpec.Config spec) ->
  run app_step (reconcileDNSApp_body app) s = (inr v, s) /\
  Forall (fun a => app_reads a = true) (map projT1 (history app_step (reconcileDNSApp_body app) s)).
Proof.
  intros spec name Hi Hv Hc. unfold reconcileDNSApp_body. fold spec. fold name. cbn [bind call run history].
  destruct (as_list s) as (l & L1 & L2). rewrite L1. cbn [bind].
  pose proof (L2 name) as Hl. rewrite Hi in Hl.
  destruct (findAppByName l name) as [c|] eqn:Ef; [|done]. injection Hl as ->.
  assert (Ev : negb (DNSAppSpec.Version spec =s? "")
    && negb (DNSAppInfo.Version c =s? DNSAppSpec.Version spec) = false).
  { destruct Hv as [-> | ->]; rewrite eqb_string_refl; [done|]. by rewrite andb_false_r. }
  rewrite Ev. cbn [bind]. destruct (reconcileConfig_settled spec s _ Hi Hc) as [C1 C2].
  rewrite run_bind, C1. split; [done|]. cbn [map projT1]. constructor; [done|].
  rewrite history_bind, map_app, Forall_app, C1. split; [done|constructor].
Qed.

(** A pass over an app at another version than the declared one updates it. *)
Lemma reconcileDNSApp_updates (app : DNSApp.t) (s : S) v :
  let spec := DNSApp.Spec app in
  let name := DNSAppSpec.AppName spec in
  installed s name = Some v ->
  DNSAppSpec.Version spec <> "" -> v <> DNSAppSpec.Version spec ->
  In (AppUpdate name (DNSAppSpec.URL spec)) (map projT1 (history app_step (reconcileDNSApp_body app) s)).
Proof.
  intros spec name Hi Hv Hne. unfold reconcileDNSApp_body. fold spec. fold name. cbn [bind call history].
  destruct (as_list s) as (l & L1 & L2). rewrite L1. cbn [bind].
  pose proof (L2 name) as Hl. rewrite Hi in Hl.
  destruct (findAppByName l name) as [c|] eqn:Ef; [|done]. injection Hl as ->.
  apply String.eqb_neq in Hv, Hne. rewrite Hv, Hne. cbn [negb andb bind call history].
  destruct (as_update name (DNSAppSpec.URL spec) s _ Hi) as (s1 & U1 & _). rewrite U1.
  right. by left.
Qed.
End convergence.

Lemma reconcileDNSApp_body_spec (a a' : DNSApp.t) :
  DNSApp.Spec a = DNSApp.Spec a' -> reconcileDNSApp_body a = reconcileDNSApp_body a'.
Proof. unfold reconcileDNSApp_body. by intros ->. Qed.

Lemma recordVersion_settled (v : string) (app : DNSApp.t) :
  recordVersion v app = (app, false) -> DNSAppStatus.InstalledVersion (DNSApp.Status app) = v.
Proof.
  unfold recordVersion. destruct (String.eqb_spec (DNSAppStatus.InstalledVersion (DNSApp.Status app)) v); done.
Qed.

(** C25: DNS apps converge.  In a cluster without conflicts, one [Reconcile]
    installs an absent app from its URL, updates an app that is at another
    version than the declared one, leaves any other app alone and gives the
    app the declared configuration; the resource is Ready and reports the
    installed version.  When that version is the declared one (or none is
    declared), a second [Reconcile] only reads. *)
Theorem appReconcile_converges `{KubeLibLaws} {W S : Type} `{!AppServer S} `{!AppServerLaws S}
    `{!Cooperative DNSApp.t appE W S} `{!CooperativeLaws DNSApp.t appE W S}
    (key : ObjectKey) (app : DNSApp.t) (w : W) :
  let spec := DNSApp.Spec app in
  let name := DNSAppSpec.AppName spec in
  let v := version_after (package (DNSAppSpec.URL spec)) spec (installed (server w) name) in
  server_step = app_step ->
  object w = Some app -> ObjectMeta.Deleting (meta app) = false ->
  let w1 := (run step (appReconcile key) w).2 in
  (run step (appReconcile key) w).1 = (driftReconcileInterval, None) /\
  installed (server w1) name = Some v /\
  (DNSAppSpec.Config spec <> "" -> app_config (server w1) name = DNSAppSpec.Config spec) /\
  others_kept name (server w) (server w1) /\
  (exists app', object w1 = Some app' /\ has_finalizer app' dnsAppFinalizer = true /\
     is_ready "DNSAppInstalled" "DNS App reconciled on the Technitium server" app' /\
     DNSAppStatus.InstalledVersion (DNSApp.Status app') = v) /\
  (DNSAppSpec.Version spec = "" \/ v = DNSAppSpec.Version spec ->
   Forall (fun c => reads_only app_reads c = true) (requests (history step (appReconcile key) w1))).
Proof.
  cbn zeta. intros Hstep Ho Hdel. unfold appReconcile, appMarkDegraded, reconcileDNSApp, appMarkReady.
  destruct (reconcileDNSApp_run app (server w)) as (s' & R1 & R2 & R3 & _ & R4).
  set (v := version_after _ _ _) in *.
  set (app1 := (add_finalizer app dnsAppFinalizer).1).
  set (app' := reconciled dnsAppFinalizer "DNSAppInstalled" "DNS App reconciled on the Technitium server"
    (recordVersion v) app).
  assert (Hs1 : DNSApp.Spec app1 = DNSApp.Spec app) by exact (add_finalizer_spec app dnsAppFinalizer).
  assert (Hs2 : DNSApp.Spec app' = DNSApp.Spec app) by exact (reconciled_spec _ _ _ _ app (recordVersion_status_only _)).
  destruct (run_reconcile dnsAppFinalizer finalizeDNSApp markDegraded "DNSAppInstalled"
    "DNS App reconciled on the Technitium server" app_ref reconcileDNSApp_body
    (fun _ v => recordVersion v) key app w v s' Ho Hdel recordVersion_status_only) as (E1 & E2 & E3).
  { rewrite Hstep. fold app1. by rewrite (reconcileDNSApp_body_spec _ _ Hs1). }
  fold app' in E2.
  destruct (reconciled_ready dnsAppFinalizer "DNSAppInstalled" "DNS App reconciled on the Technitium server"
    _ app (recordVersion_status_only v)) as [Hr Hf].
  pose proof (reconciled_settled dnsAppFinalizer "DNSAppInstalled" "DNS App reconciled on the Technitium server"
    _ app (recordVersion_status_only v)) as Hset.
  split; [exact E1|]. rewrite E3. split; [exact R2|]. split; [exact R3|]. split; [exact R4|]. split.
  - exists app'. split_and!; try done. by apply recordVersion_settled.
  - intros Hv. destruct (reconcileDNSApp_settled app s' v R2 Hv R3) as [F1 F2].
    pose proof (reconciled_meta dnsAppFinalizer "DNSAppInstalled" "DNS App reconciled on the Technitium server"
      _ app (recordVersion_status_only v)) as Hm.
    rewrite (history_reconcile_settled _ _ _ _ _ app_ref reconcileDNSApp_body (fun _ v => recordVersion v) key app'
      _ v s' E2); rewrite ?Hstep, ?E3, ?(reconcileDNSApp_body_spec _ _ Hs2); try done.
    2:{ exact (eq_trans Hm Hdel). }
    rewrite !Forall_app. split; [by repeat constructor|]. split; [|by repeat constructor].
    apply Forall_fmap. exact F2.
Qed.

(** A declared version the URL does not serve is never reached, and never
    reported.  When the spec pins a version other than the one its URL serves,
    one [Reconcile] leaves that other version installed and the resource
    Ready all the same, and the next [Reconcile] downloads and updates the app
    again. *)
Theorem app_version_unreachable `{KubeLibLaws} {W S : Type} `{!AppServer S} `{!AppServerLaws S}
    `{!Cooperative DNSApp.t appE W S} `{!CooperativeLaws DNSApp.t appE W S}
    (key : ObjectKey) (app : DNSApp.t) (w : W) :
  let spec := DNSApp.Spec app in
  let name := DNSAppSpec.AppName spec in
  server_step = app_step ->
  object w = Some app -> ObjectMeta.Deleting (meta app) = false ->
  DNSAppSpec.Version spec <> "" -> package (DNSAppSpec.URL spec) <> DNSAppSpec.Version spec ->
  installed (server w) name <> Some (DNSAppSpec.Version spec) ->
  let w1 := (run step (appReconcile key) w).2 in
  installed (server w1) name = Some (package (DNSAppSpec.URL spec)) /\
  (exists app', object w1 = Some app' /\
     is_ready "DNSAppInstalled" "DNS App reconciled on the Technitium server" app') /\
  In (inr (inr (AppUpdate name (DNSAppSpec.URL spec)))) (requests (history step (appReconcile key) w1)).
Proof.
  cbn zeta. intros Hstep Ho Hdel Hv Hp Hi. unfold appReconcile, appMarkDegraded, reconcileDNSApp, appMarkReady.
  destruct (reconcileDNSApp_run app (server w)) as (s' & R1 & R2 & _).
  assert (Ev : version_after (package (DNSAppSpec.URL (DNSApp.Spec app))) (DNSApp.Spec app)
    (installed (server w) (DNSAppSpec.AppName (DNSApp.Spec app))) = package (DNSAppSpec.URL (DNSApp.Spec app))).
  { unfold version_after. destruct (installed _ _) as [v|]; [|done].
    destruct (String.eqb_spec (DNSAppSpec.Version (DNSApp.Spec app)) ""); [done|].
    destruct (String.eqb_spec v (DNSAppSpec.Version (DNSApp.Spec app))); [congruence|done]. }
  rewrite Ev in R1, R2. clear Ev. set (v := package _) in *.
  set (app1 := (add_finalizer app dnsAppFinalizer).1).
  set (app' := reconciled dnsAppFinalizer "DNSAppInstalled" "DNS App reconciled on the Technitium server"
    (recordVersion v) app).
  assert (Hs1 : DNSApp.Spec app1 = DNSApp.Spec app) by exact (add_finalizer_spec app dnsAppFinalizer).
  assert (Hs2 : DNSApp.Spec app' = DNSApp.Spec app) by exact (reconciled_spec _ _ _ _ app (recordVersion_status_only _)).
  destruct (run_reconcile dnsAppFinalizer finalizeDNSApp markDegraded "DNSAppInstalled"
    "DNS App reconciled on the Technitium server" app_ref reconcileDNSApp_body
    (fun _ v => recordVersion v) key app w v s' Ho Hdel recordVersion_status_only) as (E1 & E2 & E3).
  { rewrite Hstep. fold app1. by rewrite (reconcileDNSApp_body_spec _ _ Hs1). }
  fold app' in E2.
  destruct (reconciled_ready dnsAppFinalizer "DNSAppInstalled" "DNS App reconciled on the Technitium server"
    _ app (recordVersion_status_only v)) as [Hr Hf].
  pose proof (reconciled_settled dnsAppFinalizer "DNSAppInstalled" "DNS App reconciled on the Technitium server"
    _ app (recordVersion_status_only v)) as Hset.
  pose proof (reconciled_meta dnsAppFinalizer "DNSAppInstalled" "DNS App reconciled on the Technitium server"
      _ app (recordVersion_status_only v)) as Hm.
  rewrite E3. split; [exact R2|]. split; [by exists app'|].
  destruct (reconcileDNSApp_run app s') as (s2 & T1 & _).
  assert (Ev : version_after (package (DNSAppSpec.URL (DNSApp.Spec app))) (DNSApp.Spec app)
    (installed s' (DNSAppSpec.AppName (DNSApp.Spec app))) = v).
  { rewrite R2. cbn. destruct (_ || _); done. }
  rewrite Ev in T1.
  rewrite (history_reconcile_settled _ _ _ _ _ app_ref reconcileDNSApp_body (fun _ v => recordVersion v) key app'
    _ v s2 E2); rewrite ?Hstep, ?E3, ?(reconcileDNSApp_body_spec _ _ Hs2); try done.
  2:{ exact (eq_trans Hm Hdel). }
  apply in_or_app. right. apply in_or_app. left. apply (in_map on_server).
  exact (reconcileDNSApp_updates app s' v R2 Hv Hp).
Qed.

(** *** The finalizer *)

(** The app is uninstalled: the request succeeded, or the app was not there. *)
Definition app_uninstalled (app : DNSApp.t) (tr : list (event (calls DNSApp.t appE))) : Prop :=
  exists x, answered (AppUninstall (DNSAppSpec.AppName (DNSApp.Spec app))) x tr /\
    match x with None => True | Some e => Is e ErrAppNotInstalled = true end.

Lemma uninstall_confirms (app : DNSApp.t) (past : list (event (calls DNSApp.t appE))) :
  holds (lift (uninstall_body app)) past (fun tr r => r = None -> app_uninstalled app tr).
Proof.
  cbn. intros [e|]; cbn.
  - destruct (Is e ErrAppNotInstalled) eqn:Eg; cbn; [|done]. intros _. exists (Some e).
    split; [|done]. apply in_or_app. right. by left.
  - intros _. exists None. split; [|done]. apply in_or_app. right. by left.
Qed.

(** ** Examples

    A server whose every URL serves version 2.0. *)

#[local] Existing Instance RefKubeLib.lib.
#[local] Existing Instance RefKubeLib.laws.

Abbreviation app_store := (gmap string (string * string)).

Definition info_of (x : string * (string * string)) : DNSAppInfo.t := DNSAppInfo.mk x.1 x.2.1.

Definition plain_app (a : appE) : app_store -> answer a * app_store :=
  match a with
  | AppList => fun s => (inr (map info_of (map_to_list s)), s)
  | AppInstall n _ => fun s => (None, <[n := ("2.0", "")]> s)
  | AppUpdate n _ => fun s => (None, <[n := ("2.0", match s !! n with Some (_, c) => c | None => "" end)]> s)
  | AppUninstall n => fun s => (None, delete n s)
  | AppGetConfig n => fun s => (match s !! n with Some (_, c) => inr c | None => inl (ESentinel ErrAppNotInstalled) end, s)
  | AppSetConfig n c => fun s =>
      match s !! n with
      | Some (v, _) => (None, <[n := (v, c)]> s)
      | None => (Some (ESentinel ErrAppNotInstalled), s)
      end
  end.
#[local] Instance plain_app_server : AppServer app_store :=
  {| app_step := plain_app; installed s n := fst <$> s !! n;
     app_config s n := match s !! n with Some (_, c) => c | None => "" end; package _ := "2.0" |}.

Lemma find_info (l : list (string * (string * string))) (n : string) :
  findAppByName (map info_of l) n = (fun x => DNSAppInfo.mk n x.1) <$> (list_to_map l : app_store) !! n.
Proof.
  induction l as [|[m [v c]] l IH]; [done|]. cbn. destruct (String.eqb_spec m n) as [->|Hne].
  - by rewrite lookup_insert_eq.
  - by rewrite lookup_insert_ne.
Qed.

#[local] Instance plain_app_laws : AppServerLaws app_store.
Proof.
  constructor; cbn.
  - intros s. eexists. split; [done|]. intros n. rewrite find_info, list_to_map_to_list. by destruct (s !! n).
  - intros n u s _. eexists. split; [done|]. rewrite lookup_insert_eq. split; [done|].
    intros m Hm. by rewrite lookup_insert_ne.
  - intros n u s v Hi. eexists. split; [done|]. rewrite lookup_insert_eq. split; [done|]. split; [done|].
    intros m Hm. by rewrite lookup_insert_ne.
  - intros n s v Hi. destruct (s !! n) as [[]|]; done.
  - intros n c s v Hi. destruct (s !! n) as [[v' c']|] eqn:E; [|done]. eexists. split; [done|].
    rewrite lookup_insert_eq. split; [done|]. split.
    + intros m. destruct (decide (m = n)) as [->|Hm]; [by rewrite lookup_insert_eq, E|by rewrite lookup_insert_ne].
    + intros m Hm. by rewrite lookup_insert_ne.
Qed.
#[local] Instance app_world : Cooperative DNSApp.t appE (option DNSApp.t * app_store) app_store :=
  plain_world plain_app.
#[local] Instance app_world_laws : CooperativeLaws DNSApp.t appE (option DNSApp.t * app_store) app_store :=
  plain_laws plain_app.

Definition example_app (version : string) : DNSApp.t :=
  DNSApp.mk (ObjectMeta.named "apps" "geo")
    (DNSAppSpec.mk (SecretReference.mk "dns" "") "Geo" "https://store/geo.zip" version "{}" "Delete")
    (DNSAppStatus.mk [] 0 "").
Definition geo_key : ObjectKey := {| KeyNamespace := "apps"; KeyName := "geo" |}.

Example appReconcile_converges_witness :
  (run step (appReconcile geo_key) (Some (example_app "2.0"), (∅ : app_store))).1 = (driftReconcileInterval, None).
Proof.
  apply (appReconcile_converges geo_key (example_app "2.0") (Some (example_app "2.0"), (∅ : app_store)));
    reflexivity.
Defined.

(** The spec pins 3.0 but the URL serves 2.0. *)
Example app_version_unreachable_witness :
  installed (run step (appReconcile geo_key) (Some (example_app "3.0"), (∅ : app_store))).2.2 "Geo" = Some "2.0".
Proof.
  refine (proj1 (app_version_unreachable geo_key (example_app "3.0") (Some (example_app "3.0"), (∅ : app_store))
    _ _ _ _ _ _));
    first [reflexivity | discriminate].
Defined.
