(* ===== verification/Finalizers.v ===== *)
(** * What every resource controller does on deletion and on failure

    The finalizers of the six controllers that clean up on the server
    (ServerSettings are retained), and the way a failed reconcile surfaces on any
    of the seven resources. *)

From S2P Require Import Prelude GoStrings GoErrors Effects Kube Lifecycle Zone Record ServerSettings Blocklist DHCPScope DNSSEC DNSApp.

Local Open Scope string_scope.
Local Open Scope Z_scope.
Local Open Scope prog_scope.

(** The finalizer [f] brackets an object's life on the server: no Technitium
    call precedes its registration, and it is removed only from an object being
    deleted whose server side is dealt with. *)
Definition finalizer_brackets {T API : Type} `{KubeLib} `{Resource T} `{Effect API}
    (f : string) (key : ObjectKey) (orphan : T -> bool) (ref : T -> SecretReference.t)
    (confirmed : T -> list (event (calls T API)) -> Prop) (tr : list (event (calls T API))) : Prop :=
  guarded f false tr = true /\
  (released f tr -> exists o,
     In (ev (inl (KGet key) : calls T API) (inr o)) tr /\
     ObjectMeta.Deleting (meta o) = true /\ cleaned orphan ref confirmed o tr).

(** Every controller that follows the skeleton brackets its objects. *)
Lemma skeleton_brackets {T API V : Type} `{KubeLib} `{!KubeLibLaws} `{Resource T} `{!ResourceLaws T} `{Effect API}
    (f : string) (key : ObjectKey) (orphan : T -> bool) (ref : T -> SecretReference.t)
    (cleanup : T -> prog API (option error)) (body : T -> prog API (fallible V))
    (reason message : string) (record : T -> V -> T -> T * bool)
    (confirmed : T -> list (event (calls T API)) -> Prop) :
  (forall o tr ext, confirmed o tr -> confirmed o (tr ++ ext)%list) ->
  (forall o past, holds (lift (cleanup o)) past (fun tr r => r = None -> confirmed o tr)) ->
  always (reconcile f (finalize_with f orphan ref (fun o => lift (cleanup o)))
            (fun o => with_server (ref o) (body o)) markDegraded
            (fun key o v => markReady reason message (record o v) key) key)
    (fun tr _ => finalizer_brackets f key orphan ref confirmed tr).
Proof.
  intros Happ Hc. apply holds_conj; [apply reconcile_guarded|].
  apply (reconcile_released confirmed Happ); [done|..].
  - intros o. apply with_server_avoids.
  - intros k e. apply markDegraded_avoids.
  - intros k o v. apply markReady_avoids.
Qed.

Lemma answered_ext {T API : Type} `{Resource T} `{Effect API} (a : API) x (tr ext : list (event (calls T API))) :
  answered a x tr -> answered a x (tr ++ ext)%list.
Proof. intros Ha. apply in_or_app. by left. Qed.


(** C21: A failure is surfaced.  When the server-side work of a reconcile fails
    (for any resource whose controller follows the skeleton), the error is
    returned for a retry, and the resource carries Ready=False and
    Degraded=True with the error's text, at its current generation; the
    finalizer stays registered. *)
Theorem failed_reconcile_degraded `{KubeLibLaws} {T API V W S : Type} `{Resource T} `{!ResourceLaws T} `{Effect API}
    `{!Cooperative T API W S} `{!CooperativeLaws T API W S}
    (f : string) finalize (ref : T -> SecretReference.t) (body : T -> prog API (fallible V)) ready
    (key : ObjectKey) (o : T) (w : W) (e : error) (s' : S) :
  object w = Some o -> ObjectMeta.Deleting (meta o) = false ->
  run server_step (body (add_finalizer o f).1) (server w) = (inl e, s') ->
  let p := reconcile f finalize (fun o => with_server (ref o) (body o)) markDegraded ready key in
  (run step p w).1 = (0, Some e) /\
  exists o', object (run step p w).2 = Some o' /\
    has_finalizer o' f = true /\
    FindStatusCondition (conditions o') conditionReady
      = Some (Condition.mk conditionReady ConditionFalse "ReconcileFailed" (Error e) (ObjectMeta.Generation (meta o))) /\
    FindStatusCondition (conditions o') conditionDegraded
      = Some (Condition.mk conditionDegraded ConditionTrue "ReconcileFailed" (Error e) (ObjectMeta.Generation (meta o))).
Proof.
  intros Ho Hdel Hb p.
  destruct (run_reconcile_failed f finalize ref body ready key o w e s' Ho Hdel Hb) as (E1 & E2 & _).
  split; [exact E1|]. eexists. split; [exact E2|].
  destruct (degradedStatus_spec e (add_finalizer o f).1) as [D1 D2].
  assert (Hg : ObjectMeta.Generation (meta (add_finalizer o f).1) = ObjectMeta.Generation (meta o)).
  { unfold add_finalizer. destruct (AddFinalizer _ f). cbn. by rewrite meta_with_meta. }
  rewrite Hg in D1, D2. split; [|by split].
  unfold has_finalizer, degradedStatus.
  pose proof (fun o st ty => setCondition_meta (T:=T) o ty st "ReconcileFailed" (Error e)) as Hm.
  destruct (setCondition (add_finalizer o f).1 conditionReady _ _ _) as [o1 c1] eqn:F1.
  destruct (setCondition o1 conditionProgressing _ _ _) as [o2 c2] eqn:F2.
  destruct (setCondition o2 conditionDegraded _ _ _) as [o3 c3] eqn:F3.
  pose proof (Hm (add_finalizer o f).1 ConditionFalse conditionReady) as M1. rewrite F1 in M1.
  pose proof (Hm o1 ConditionFalse conditionProgressing) as M2. rewrite F2 in M2.
  pose proof (Hm o2 ConditionTrue conditionDegraded) as M3. rewrite F3 in M3. cbn in M1, M2, M3.
  rewrite M3, M2, M1. apply has_finalizer_add.
Qed.

(** ** Examples *)

#[local] Existing Instance RefKubeLib.lib.
#[local] Existing Instance RefKubeLib.laws.


(** A zone the server will not create. *)
#[local] Instance failing_world : Cooperative Zone.t zoneE (option Zone.t * unit) unit := plain_world empty_server.
#[local] Instance failing_world_laws : CooperativeLaws Zone.t zoneE (option Zone.t * unit) unit :=
  plain_laws empty_server.

Example failed_reconcile_degraded_witness :
  let zone := example_zone "app.example.com" in
  exists e, (run step (zoneReconcile example_key) (Some zone, tt)).1 = (0, Some e).
Proof.
  intros zone. exists app_error.
  refine (proj1 (failed_reconcile_degraded zoneFinalizer finalizeZone zone_ref reconcileZone_body _
    example_key zone (Some zone, tt) app_error tt _ _ _)); vm_compute; reflexivity.
Defined.
