(* ===== verification/ClusterKube.v ===== *)
(** * The Kubernetes objects of a TechnitiumCluster, and the calls its
      controller makes

    Objects carry the fields [technitiumcluster_controller.go],
    [technitiumcluster_services.go], [technitiumcluster_pdb.go] and
    [technitiumcluster_rollout.go] read or write; times are Unix times in
    nanoseconds. *)

From S2P Require Import Prelude GoStrings GoErrors Effects Kube Lifecycle ClusterAPI ClusterTypes.

Local Open Scope string_scope.
Local Open Scope Z_scope.
Local Open Scope go_scope.
Local Open Scope prog_scope.

(** ** Objects *)

Module ServicePort.
Record t := mk { Name : string; Protocol : string; Port : Z; TargetPort : Z; NodePort : Z }.
#[export] Instance t_eq_dec : EqDecision t.
Proof. solve_decision. Defined.
Definition with_NodePort (p : t) (n : Z) : t := mk (Name p) (Protocol p) (Port p) (TargetPort p) n.
End ServicePort.
#[export] Existing Instance ServicePort.t_eq_dec.

Module Service.
Record t := mk {
  Meta : ObjectMeta.t;
  Type_ : string;
  ClusterIP : string;
  ExternalTrafficPolicy : string;
  Selector : gmap string string;
  Ports : list ServicePort.t
}.
Definition new (ns name : string) : t := mk (ObjectMeta.named ns name) "" "" "" ∅ [].
End Service.

(** [Data] maps a key to its bytes, as a string. *)
Module Secret.
Record t := mk { Meta : ObjectMeta.t; Type_ : string; Data : gmap string string }.
Definition new (ns name : string) : t := mk (ObjectMeta.named ns name) "" ∅.
Definition with_Data (s : t) (d : gmap string string) : t := mk (Meta s) (Type_ s) d.
Definition with_Meta (s : t) (m : ObjectMeta.t) : t := mk m (Type_ s) (Data s).
End Secret.

Module PodDisruptionBudget.
Record t := mk {
  Meta : ObjectMeta.t;
  MaxUnavailable : option IntOrString;
  MinAvailable : option IntOrString;
  Selector : option (gmap string string)
}.
Definition new (ns name : string) : t := mk (ObjectMeta.named ns name) None None None.
End PodDisruptionBudget.

(** A zero time is [None]. *)
Module PodCondition.
Record t := mk { Type_ : string; Status : ConditionStatus; LastTransitionTime : option Z }.
End PodCondition.

Module Pod.
Record t := mk { Meta : ObjectMeta.t; PodIP : string; Conditions : list PodCondition.t }.
End Pod.

Module PersistentVolumeClaim.
Record t := mk {
  Meta : ObjectMeta.t;
  AccessModes : list string;
  Storage : string;
  StorageClassName : option string
}.
End PersistentVolumeClaim.

(** *** Pod templates *)

Module EnvVar.
Record t := mk { Name : string; Value : string; FieldPath : option string }.
End EnvVar.

Inductive ProbeHandler := TCPSocket (port : Z) | Exec (command : list string).
Module Probe.
Record t := mk {
  Handler : ProbeHandler;
  InitialDelaySeconds : Z;
  PeriodSeconds : Z;
  TimeoutSeconds : Z;
  FailureThreshold : Z
}.
End Probe.

Module VolumeMount.
Record t := mk { Name : string; MountPath : string; ReadOnly : bool }.
End VolumeMount.

(** [items] are pairs of a key and a path. *)
Inductive VolumeSource := SecretVolume (name : string) (items : list (string * string)) | EmptyDir.
Module Volume.
Record t := mk { Name : string; Source : VolumeSource }.
End Volume.

Module ContainerPort.
Record t := mk { Name : string; Port : Z; Protocol : string }.
End ContainerPort.

Module SecurityContext.
Record t := mk { AllowPrivilegeEscalation : bool; RunAsNonRoot : bool; Drop : list string; Add : list string }.
End SecurityContext.

Module PodSecurityContext.
Record t := mk { RunAsNonRoot : bool; RunAsUser : Z; RunAsGroup : Z; FSGroup : Z; SeccompProfile : string }.
End PodSecurityContext.

Module Container.
Record t := mk {
  Name : string;
  Image : string;
  Ports : list ContainerPort.t;
  Env : list EnvVar.t;
  Resources : string;
  VolumeMounts : list VolumeMount.t;
  ReadinessProbe : Probe.t;
  LivenessProbe : Probe.t;
  SecurityContext : SecurityContext.t
}.
End Container.

(** The affinity of the spec, or the default one of [affinityFor]. *)
Inductive AffinityValue :=
| UserAffinity (json : string)
| PreferredAntiAffinity (weight : Z) (topologyKey : string) (labels : gmap string string).

Module PodTemplateSpec.
Record t := mk {
  Labels : gmap string string;
  SecurityContext : PodSecurityContext.t;
  Affinity : option AffinityValue;
  TopologySpreadConstraints : string;
  Tolerations : string;
  NodeSelector : gmap string string;
  PriorityClassName : string;
  Containers : list Container.t;
  Volumes : list Volume.t
}.
End PodTemplateSpec.

Module StatefulSetStatus.
Record t := mk { ReadyReplicas : Z; CurrentRevision : string; UpdateRevision : string; ObservedGeneration : Z }.
End StatefulSetStatus.

(** [RollingUpdate] is the pointer of the update strategy, with its partition. *)
Module StatefulSet.
Record t := mk {
  Meta : ObjectMeta.t;
  Replicas : option Z;
  ServiceName : string;
  Selector : gmap string string;
  VolumeClaimTemplates : list PersistentVolumeClaim.t;
  Template : option PodTemplateSpec.t;  (** [None]: the zero template of a new object *)
  UpdateStrategyType : string;
  RollingUpdate : option (option Z);
  Status : StatefulSetStatus.t
}.
Definition new (ns name : string) : t :=
  mk (ObjectMeta.named ns name) None "" ∅ [] None "" None (StatefulSetStatus.mk 0 "" "" 0).
Definition with_RollingUpdate (s : t) (r : option (option Z)) : t :=
  mk (Meta s) (Replicas s) (ServiceName s) (Selector s) (VolumeClaimTemplates s) (Template s)
     (UpdateStrategyType s) r (Status s).
End StatefulSet.

(** ** Ownership helpers of apimachinery and controller-runtime

    The owner is the TechnitiumCluster. *)
Class KubeOwner := {
  IsControlledBy : ObjectMeta.t -> TechnitiumCluster.t -> bool;
  SetControllerReference : TechnitiumCluster.t -> ObjectMeta.t -> fallible ObjectMeta.t
}.

(** Their documentation: setting the controller reference adds the owner to the
    object's references and changes nothing else; it fails when another
    controller owns the object. *)
Class KubeOwnerLaws `{KubeOwner} : Prop := {
  set_controls tc m m' : SetControllerReference tc m = inr m' -> IsControlledBy m' tc = true;
  set_only_owners tc m m' : SetControllerReference tc m = inr m' ->
    m' = ObjectMeta.with_OwnerReferences m (ObjectMeta.OwnerReferences m');
  set_again tc m : IsControlledBy m tc = true -> SetControllerReference tc m = inr m;
  set_free tc m : existsb OwnerReference.Controller (ObjectMeta.OwnerReferences m) = false ->
    exists m', SetControllerReference tc m = inr m';
  controlled_by_owners tc m m' : ObjectMeta.OwnerReferences m = ObjectMeta.OwnerReferences m' ->
    IsControlledBy m tc = IsControlledBy m' tc
}.

(** An implementation. *)
Module RefKubeOwner.
Definition controller_of (m : ObjectMeta.t) : option OwnerReference.t :=
  List.find OwnerReference.Controller (ObjectMeta.OwnerReferences m).
Definition uid (tc : TechnitiumCluster.t) : string := ObjectMeta.UID (TechnitiumCluster.Meta tc).
Definition controlled (m : ObjectMeta.t) (tc : TechnitiumCluster.t) : bool :=
  match controller_of m with Some r => OwnerReference.UID r =s? uid tc | None => false end.
Definition set (tc : TechnitiumCluster.t) (m : ObjectMeta.t) : fallible ObjectMeta.t :=
  match controller_of m with
  | Some r => if OwnerReference.UID r =s? uid tc then inr m else inl (EText "already owned by another controller")
  | None => inr (ObjectMeta.with_OwnerReferences m
                   (ObjectMeta.OwnerReferences m ++ [OwnerReference.mk "TechnitiumCluster" (uid tc) true])%list)
  end.
#[export] Instance owner : KubeOwner := {| IsControlledBy := controlled; SetControllerReference := set |}.
#[export] Instance owner_laws : KubeOwnerLaws.
Proof.
  constructor; cbn; unfold set, controlled, controller_of.
  - intros tc m m'. destruct (List.find _ _) as [r|] eqn:E.
    + destruct (OwnerReference.UID r =s? uid tc) eqn:Eu; [|done]. intros [= <-]. by rewrite E, Eu.
    + intros [= <-]. cbn. rewrite find_app, E. cbn. apply eqb_string_refl.
  - intros tc m m'. destruct (List.find _ _) as [r|] eqn:E.
    + destruct (OwnerReference.UID r =s? uid tc); [|done]. intros [= <-]. by destruct m.
    + intros [= <-]. by destruct m.
  - intros tc m. by destruct (List.find _ _) as [r|]; [destruct (OwnerReference.UID r =s? uid tc)|].
  - intros tc m Hm. destruct (List.find _ _) as [r|] eqn:E; [|by eexists].
    apply find_some in E as [Hin Hc]. by rewrite (existsb_false_In _ _ _ Hm Hin) in Hc.
  - intros tc m m' ->. done.
Qed.
End RefKubeOwner.

(** ** Calls

    [OApply] is controller-runtime's [CreateOrUpdate]: get the object, or start
    from [obj] when there is none; apply the callback; create it, or update it
    when that changed anything.  The answer is the object the call ends with,
    and what the callback captured. *)
Inductive objE (T X : Type) : Type :=
| OGet (key : ObjectKey)
| OList (namespace : string) (labels : gmap string string)
| OApply (obj : T) (mutate : T -> fallible (T * X))
| OUpdate (obj : T)
| OPatch (obj : T)
| ODelete (obj : T).
Arguments OGet {T X} key.
Arguments OList {T X} namespace labels.
Arguments OApply {T X} obj mutate.
Arguments OUpdate {T X} obj.
Arguments OPatch {T X} obj.
Arguments ODelete {T X} obj.
#[export] Instance objE_Effect (T X : Type) : Effect (objE T X) := fun c => match c with
| OGet _ | OUpdate _ | OPatch _ => fallible T
| OList _ _ => fallible (list T)
| OApply _ _ => fallible (T * X)
| ODelete _ => option error
end.

(** [nodeAPI]. *)
Inductive nodeE : Type :=
| NGetClusterState
| NInitCluster (opts : InitClusterOptions.t)
| NInitJoinCluster (opts : InitJoinOptions.t)
| NRemoveSecondary (id : Z)
| NDeleteSecondary (id : Z)
| NDeletePrimaryCluster (force : bool)
| NUpdateNodeIPAddresses (ipAddresses : list string).
#[export] Instance nodeE_Effect : Effect nodeE := fun c => match c with
| NGetClusterState | NInitCluster _ | NInitJoinCluster _ | NUpdateNodeIPAddresses _ => fallible ClusterState.t
| _ => option error
end.

(** A client of a node or of the bootstrap endpoint is what it was built from. *)
Record login := { l_endpoint : string; l_username : string; l_password : string }.
#[export] Instance login_eq_dec : EqDecision login.
Proof. solve_decision. Defined.

Inductive clusterE : Type :=
| OnCluster (c : kubeE TechnitiumCluster.t)
| OnService (c : objE Service.t unit)
| OnSts (c : objE StatefulSet.t bool)
| OnSecret (c : objE Secret.t unit)
| OnPDB (c : objE PodDisruptionBudget.t unit)
| OnPod (c : objE Pod.t unit)
| OnPVC (c : objE PersistentVolumeClaim.t unit)
| GeneratePassword
| Now
| NewBootstrapClient (l : login)
| CreateTokenAt (l : login) (tokenName : string)
| NewNodeClient (l : login)
| OnNode (l : login) (c : nodeE).
#[export] Instance clusterE_Effect : Effect clusterE := fun c => match c with
| OnCluster c => answer c
| OnService c => answer c
| OnSts c => answer c
| OnSecret c => answer c
| OnPDB c => answer c
| OnPod c => answer c
| OnPVC c => answer c
| GeneratePassword => fallible string
| Now => Z
| NewBootstrapClient _ => option error
| CreateTokenAt _ _ => fallible string
| NewNodeClient _ => option error
| OnNode _ c => answer c
end.
