(* ===== verification/Services.v ===== *)
(** * Names, labels and Services of a TechnitiumCluster

    [internal/controller/technitiumcluster_services.go] and
    [technitiumcluster_pdb.go], and the naming helpers, the headless and the
    client Service of [technitiumcluster_controller.go]. *)

From S2P Require Import Prelude GoStrings GoErrors Effects Kube Lifecycle ClusterTypes ClusterKube.

Local Open Scope string_scope.
Local Open Scope Z_scope.
Local Open Scope go_scope.
Local Open Scope prog_scope.

(** ** Names and labels *)

Definition primaryOrdinal : Z := 0.

(** [fmt.Sprintf("%s-%d", name, ordinal)]. *)
Definition podName (clusterName : string) (ordinal : Z) : string := clusterName +:+ "-" +:+ Itoa ordinal.

Definition statefulSetName (clusterName : string) : string := clusterName.
Definition clientServiceName (clusterName : string) : string := clusterName.
Definition headlessServiceName (clusterName : string) : string := clusterName +:+ "-headless".
Definition adminSecretName (clusterName : string) : string := clusterName +:+ "-admin".
Definition primaryServiceName (clusterName : string) : string := clusterName +:+ "-primary".
Definition replicaServiceName (clusterName : string) (ordinal : Z) : string := podName clusterName ordinal.
Definition podDisruptionBudgetName (clusterName : string) : string := clusterName.

Definition nodeEndpoint (clusterName : string) (ordinal : Z) (namespace : string) : string :=
  "http://" +:+ podName clusterName ordinal +:+ "." +:+ headlessServiceName clusterName +:+ "." +:+ namespace
  +:+ ".svc:5380".

Definition instanceLabels (name : string) : gmap string string :=
  <["app.kubernetes.io/name" := "technitium"]> (<["app.kubernetes.io/instance" := name]> ∅).
Definition commonLabels (name : string) : gmap string string :=
  <["app.kubernetes.io/managed-by" := "technitium-operator"]> (instanceLabels name).

Definition serviceRoleLabel : string := "dns.packet.fail/service-role".
Definition serviceRoleReplica : string := "replica".
Definition podNameLabel : string := "statefulset.kubernetes.io/pod-name".
Definition managedAnnotationsKey : string := "dns.packet.fail/managed-annotations".

Definition desiredReplicaCount (tc : TechnitiumCluster.t) : Z :=
  default 1 (TechnitiumClusterSpec.Replicas (TechnitiumCluster.Spec tc)).

(** ** Annotations and ports *)

(** The keys of a map, sorted. *)
Definition sorted_keys (m : gmap string string) : list string := Sort (map fst (map_to_list m)).

Definition lookup_or_empty (k : string) (m : gmap string string) : string := default "" (m !! k).

Definition applyManagedAnnotations (annotations desired : gmap string string) : gmap string string :=
  let previous := lookup_or_empty managedAnnotationsKey annotations in
  let annotations :=
    if negb (previous =s? "") then
      foldl (fun m key => match desired !! key with Some _ => m | None => delete key m end)
        annotations (SplitChar "," previous)
    else annotations in
  let annotations := delete managedAnnotationsKey annotations in
  let annotations := desired ∪ annotations in
  if bool_decide (desired = ∅) then annotations
  else <[managedAnnotationsKey := Join (sorted_keys desired) ","]> annotations.

Definition serviceTypeSupportsTrafficPolicy (t : string) : bool := (t =s? "LoadBalancer") || (t =s? "NodePort").

(** The last existing port of the same name and protocol wins, as in the loop. *)
Definition preserveNodePorts (desired existing : list ServicePort.t) : list ServicePort.t :=
  map (fun d => foldl (fun d e =>
         if (ServicePort.Name e =s? ServicePort.Name d) && (ServicePort.Protocol e =s? ServicePort.Protocol d)
         then ServicePort.with_NodePort d (ServicePort.NodePort e) else d) d existing) desired.

Definition replicaServiceAnnotations (spec : PerReplicaServiceSpec.t) (ordinal : Z) : gmap string string :=
  foldl (fun merged o =>
      if negb (ReplicaServiceOverride.Ordinal o =? ordinal) || bool_decide (ReplicaServiceOverride.Annotations o = ∅)
      then merged else ReplicaServiceOverride.Annotations o ∪ merged)
    (PerReplicaServiceSpec.Annotations spec) (PerReplicaServiceSpec.Ordinals spec).

Definition apiServicePort : ServicePort.t := ServicePort.mk "api" "TCP" 5380 5380 0.
Definition dnsServicePorts (withAPI : bool) : list ServicePort.t :=
  let ports := [ServicePort.mk "dns-udp" "UDP" 53 53 0; ServicePort.mk "dns-tcp" "TCP" 53 53 0] in
  if withAPI then (ports ++ [apiServicePort])%list else ports.

Definition apiExposed (tc : TechnitiumCluster.t) : bool :=
  default true (ServiceSpec_.ExposeAPI (TechnitiumClusterSpec.Service (TechnitiumCluster.Spec tc))).

Definition clientServiceEndpoint (tc : TechnitiumCluster.t) (namespace : string) : string :=
  if negb (apiExposed tc) then clientServiceName (TechnitiumCluster.Name tc) +:+ "." +:+ namespace +:+ ".svc:53"
  else "http://" +:+ clientServiceName (TechnitiumCluster.Name tc) +:+ "." +:+ namespace +:+ ".svc:5380".

Definition isReplicaServiceName (clusterName name : string) : bool :=
  match CutPrefix name (clusterName +:+ "-") with
  | None => false
  | Some suffix => match Atoi suffix with Some n => 0 <=? n | None => false end
  end.

(** ** The Services *)

Section services.
Context `{KubeOwner}.
Context (OperatorNamespace : string).

Definition service_key (name : string) : ObjectKey := {| KeyNamespace := OperatorNamespace; KeyName := name |}.

Definition getService (name : string) : prog clusterE (fallible Service.t) :=
  call (OnService (OGet (service_key name))).
Definition deleteService (svc : Service.t) : prog clusterE (option error) := call (OnService (ODelete svc)).
Definition applyService (name : string) (mutate : Service.t -> fallible Service.t)
  : prog clusterE (fallible (Service.t * unit)) :=
  call (OnService (OApply (Service.new OperatorNamespace name)
    (fun svc => match mutate svc with inl e => inl e | inr svc => inr (svc, tt) end))).

(** [if err := r.Delete(...); client.IgnoreNotFound(err) != nil]. *)
Definition unless_not_found (e : option error) : option error := e ≫= IgnoreNotFound.

(** The callbacks of [CreateOrUpdate]. *)
Definition mutateHeadlessService (tc : TechnitiumCluster.t) (svc : Service.t) : fallible Service.t :=
  match SetControllerReference tc (Service.Meta svc) with
  | inl e => inl e
  | inr m =>
      let name := TechnitiumCluster.Name tc in
      inr (Service.mk (ObjectMeta.with_Labels m (commonLabels name)) (Service.Type_ svc)
             (if negb (ObjectMeta.Created m) then "None" else Service.ClusterIP svc)
             (Service.ExternalTrafficPolicy svc) (instanceLabels name) (dnsServicePorts true))
  end.

Definition mutateClientService (tc : TechnitiumCluster.t) (svc : Service.t) : fallible Service.t :=
  match SetControllerReference tc (Service.Meta svc) with
  | inl e => inl e
  | inr m =>
      let name := TechnitiumCluster.Name tc in
      let spec := TechnitiumClusterSpec.Service (TechnitiumCluster.Spec tc) in
      let m := ObjectMeta.with_Labels m (commonLabels name) in
      let m := ObjectMeta.with_Annotations m
                 (applyManagedAnnotations (ObjectMeta.Annotations m) (ServiceSpec_.Annotations spec)) in
      let type := if negb (ServiceSpec_.Type_ spec =s? "") then ServiceSpec_.Type_ spec else Service.Type_ svc in
      inr (Service.mk m type (Service.ClusterIP svc)
             (if serviceTypeSupportsTrafficPolicy type then ServiceSpec_.ExternalTrafficPolicy spec else "")
             (instanceLabels name)
             (preserveNodePorts (dnsServicePorts (apiExposed tc)) (Service.Ports svc)))
  end.

Definition mutatePrimaryService (tc : TechnitiumCluster.t) (spec : PrimaryServiceSpec.t) (svcType policy : string)
    (svc : Service.t) : fallible Service.t :=
  match SetControllerReference tc (Service.Meta svc) with
  | inl e => inl e
  | inr m =>
      let name := TechnitiumCluster.Name tc in
      let m := ObjectMeta.with_Labels m (commonLabels name) in
      let m := ObjectMeta.with_Annotations m
                 (applyManagedAnnotations (ObjectMeta.Annotations m) (PrimaryServiceSpec.Annotations spec)) in
      inr (Service.mk m svcType (Service.ClusterIP svc) policy
             (<[podNameLabel := podName name primaryOrdinal]> (instanceLabels name))
             (preserveNodePorts [apiServicePort] (Service.Ports svc)))
  end.

Definition mutateReplicaService (tc : TechnitiumCluster.t) (spec : PerReplicaServiceSpec.t) (svcType policy : string)
    (ordinal : Z) (svc : Service.t) : fallible Service.t :=
  match SetControllerReference tc (Service.Meta svc) with
  | inl e => inl e
  | inr m =>
      let name := TechnitiumCluster.Name tc in
      let m := ObjectMeta.with_Labels m (<[serviceRoleLabel := serviceRoleReplica]> (commonLabels name)) in
      let m := ObjectMeta.with_Annotations m
                 (applyManagedAnnotations (ObjectMeta.Annotations m) (replicaServiceAnnotations spec ordinal)) in
      inr (Service.mk m svcType (Service.ClusterIP svc) policy
             (<[podNameLabel := replicaServiceName name ordinal]> (instanceLabels name))
             (preserveNodePorts (dnsServicePorts false) (Service.Ports svc)))
  end.

Definition reconcileHeadlessService (tc : TechnitiumCluster.t) : prog clusterE (option error) :=
  tryE _ <- applyService (headlessServiceName (TechnitiumCluster.Name tc)) (mutateHeadlessService tc) ;; Ret None.

Definition reconcileClientService (tc : TechnitiumCluster.t) : prog clusterE (option error) :=
  tryE _ <- applyService (clientServiceName (TechnitiumCluster.Name tc)) (mutateClientService tc) ;; Ret None.

(** The Service is deleted if this cluster owns it. *)
Definition deletePrimaryService (tc : TechnitiumCluster.t) : prog clusterE (option error) :=
  let name := primaryServiceName (TechnitiumCluster.Name tc) in
  g <- getService name ;;
  match g with
  | inl err => Ret (IgnoreNotFound err)
  | inr svc =>
      if negb (IsControlledBy (Service.Meta svc) tc) then Ret None
      else
        d <- deleteService svc ;;
        match unless_not_found d with
        | Some err => Ret (Some (wrapf ("deleting Service " +:+ name) err))
        | None => Ret None
        end
  end.

Definition reconcilePrimaryService (tc : TechnitiumCluster.t) : prog clusterE (option error) :=
  let name := primaryServiceName (TechnitiumCluster.Name tc) in
  match ServiceSpec_.Primary (TechnitiumClusterSpec.Service (TechnitiumCluster.Spec tc)) with
  | None => deletePrimaryService tc
  | Some spec =>
      if negb (PrimaryServiceSpec.Enabled spec) then deletePrimaryService tc
      else
        let svcType := if PrimaryServiceSpec.Type_ spec =s? "" then "ClusterIP" else PrimaryServiceSpec.Type_ spec in
        let policy := if serviceTypeSupportsTrafficPolicy svcType
                      then PrimaryServiceSpec.ExternalTrafficPolicy spec else "" in
        r <- applyService name (mutatePrimaryService tc spec svcType policy) ;;
        match r with
        | inl err => Ret (Some (wrapf ("reconciling Service " +:+ name) err))
        | inr _ => Ret None
        end
  end.

(** The ordinals [0 .. n-1]. *)
Definition ordinals (n : Z) : list Z := seqZ 0 n.

Definition perReplicaType (spec : PerReplicaServiceSpec.t) : string :=
  if PerReplicaServiceSpec.Type_ spec =s? "" then "LoadBalancer" else PerReplicaServiceSpec.Type_ spec.
Definition perReplicaPolicy (spec : PerReplicaServiceSpec.t) : string :=
  if serviceTypeSupportsTrafficPolicy (perReplicaType spec) then
    if PerReplicaServiceSpec.ExternalTrafficPolicy spec =s? "" then "Local"
    else PerReplicaServiceSpec.ExternalTrafficPolicy spec
  else "".

(** The names of the wanted Services. *)
Definition wantedServices (tc : TechnitiumCluster.t) : list string :=
  match ServiceSpec_.PerReplica (TechnitiumClusterSpec.Service (TechnitiumCluster.Spec tc)) with
  | None => []
  | Some _ => map (replicaServiceName (TechnitiumCluster.Name tc)) (ordinals (desiredReplicaCount tc))
  end.

Definition applyReplicaServices (tc : TechnitiumCluster.t) : prog clusterE (option error) :=
  match ServiceSpec_.PerReplica (TechnitiumClusterSpec.Service (TechnitiumCluster.Spec tc)) with
  | None => Ret None
  | Some spec =>
      for_each (ordinals (desiredReplicaCount tc)) (fun ordinal =>
        let name := replicaServiceName (TechnitiumCluster.Name tc) ordinal in
        r <- applyService name
               (mutateReplicaService tc spec (perReplicaType spec) (perReplicaPolicy spec) ordinal) ;;
        match r with
        | inl err => Ret (Some (wrapf ("reconciling Service " +:+ name) err))
        | inr _ => Ret None
        end)
  end.

(** The condition under which the cleanup loop spares a Service. *)
Definition spareService (tc : TechnitiumCluster.t) (svc : Service.t) : bool :=
  let name := ObjectMeta.Name (Service.Meta svc) in
  existsb (String.eqb name) (wantedServices tc)
  || negb (IsControlledBy (Service.Meta svc) tc)
  || negb (isReplicaServiceName (TechnitiumCluster.Name tc) name).

Definition replicaServiceLabels (tc : TechnitiumCluster.t) : gmap string string :=
  <["app.kubernetes.io/instance" := TechnitiumCluster.Name tc]> (<[serviceRoleLabel := serviceRoleReplica]> ∅).

Definition reconcileReplicaServices (tc : TechnitiumCluster.t) : prog clusterE (option error) :=
  check applyReplicaServices tc ;;
  l <- call (OnService (OList OperatorNamespace (replicaServiceLabels tc))) ;;
  match (l : fallible (list Service.t)) with
  | inl err => Ret (Some (wrapf "listing per-replica Services" err))
  | inr existing =>
      for_each existing (fun svc =>
        if spareService tc svc then Ret None
        else
          d <- deleteService svc ;;
          match unless_not_found d with
          | Some err => Ret (Some (wrapf ("deleting Service " +:+ ObjectMeta.Name (Service.Meta svc)) err))
          | None => Ret None
          end)
  end.

(** ** The PodDisruptionBudget *)

Definition podDisruptionBudgetEnabled (tc : TechnitiumCluster.t) : bool :=
  default true (PodDisruptionBudgetSpec.Enabled (TechnitiumClusterSpec.PodDisruptionBudget (TechnitiumCluster.Spec tc))).

Definition podDisruptionBudgetMaxUnavailable (tc : TechnitiumCluster.t) : IntOrString :=
  default (IsInt 1)
    (PodDisruptionBudgetSpec.MaxUnavailable (TechnitiumClusterSpec.PodDisruptionBudget (TechnitiumCluster.Spec tc))).

Definition mutatePDB (tc : TechnitiumCluster.t) (pdb : PodDisruptionBudget.t) : fallible (PodDisruptionBudget.t * unit) :=
  match SetControllerReference tc (PodDisruptionBudget.Meta pdb) with
  | inl e => inl e
  | inr m =>
      let name := TechnitiumCluster.Name tc in
      inr (PodDisruptionBudget.mk (ObjectMeta.with_Labels m (commonLabels name))
             (Some (podDisruptionBudgetMaxUnavailable tc)) None (Some (instanceLabels name)), tt)
  end.

Definition reconcilePodDisruptionBudget (tc : TechnitiumCluster.t) : prog clusterE (option error) :=
  let key := service_key (podDisruptionBudgetName (TechnitiumCluster.Name tc)) in
  let replicas := desiredReplicaCount tc in
  g <- call (OnPDB (OGet key)) ;;
  match (match (g : fallible PodDisruptionBudget.t) with
         | inr existing => inr (Some existing)
         | inl err => if IsNotFound err then inr None else inl err
         end : fallible (option PodDisruptionBudget.t)) with
  | inl err => Ret (Some err)
  | inr existing =>
      let owned := match existing with
                   | Some e => IsControlledBy (PodDisruptionBudget.Meta e) tc
                   | None => false
                   end in
      if negb (podDisruptionBudgetEnabled tc) || (replicas <=? 1) then
        match existing with
        | None => Ret None
        | Some e =>
            if negb owned then Ret None
            else
              d <- call (OnPDB (ODelete e)) ;;
              Ret (unless_not_found d)
        end
      else if (match existing with Some _ => true | None => false end) && negb owned then
        Ret (Some (wrap_sentinel ErrPDBNotOwned
          (KeyNamespace key +:+ "/" +:+ KeyName key
           +:+ "; remove it or set spec.podDisruptionBudget.enabled to false")))
      else
        r <- call (OnPDB (OApply (PodDisruptionBudget.new (KeyNamespace key) (KeyName key)) (mutatePDB tc))) ;;
        match (r : fallible (PodDisruptionBudget.t * unit)) with
        | inl err => Ret (Some err)
        | inr _ => Ret None
        end
  end.
End services.

(** ** What is deleted *)

Section ownership.
Context `{KubeOwner}.
Context (OperatorNamespace : string).

(** A delete of something this cluster does not control, or of a Service that
    is wanted or is not a per-replica one. *)
Definition oversteps (tc : TechnitiumCluster.t) (c : clusterE) : Prop :=
  match c with
  | OnService (ODelete svc) =>
      let name := ObjectMeta.Name (Service.Meta svc) in
      ~ (IsControlledBy (Service.Meta svc) tc = true /\
         isReplicaServiceName (TechnitiumCluster.Name tc) name = true /\ name ∉ wantedServices tc)
  | OnPDB (ODelete pdb) => IsControlledBy (PodDisruptionBudget.Meta pdb) tc = false
  | _ => False
  end.

(** The same for the primary Service. *)
Definition oversteps_primary (tc : TechnitiumCluster.t) (c : clusterE) : Prop :=
  match c with
  | OnService (ODelete svc) => IsControlledBy (Service.Meta svc) tc = false
  | _ => False
  end.

Lemma spareService_spec (tc : TechnitiumCluster.t) (svc : Service.t) :
  spareService tc svc = false ->
  let name := ObjectMeta.Name (Service.Meta svc) in
  IsControlledBy (Service.Meta svc) tc = true /\
  isReplicaServiceName (TechnitiumCluster.Name tc) name = true /\ name ∉ wantedServices tc.
Proof.
  unfold spareService. intros Hs. reflect_bools. split; [done|]. split; [done|].
  intros Hin. apply list_elem_of_In in Hin.
  match goal with Hf : existsb _ _ = false |- _ => pose proof (existsb_false_In _ _ _ Hf Hin) as Hc end.
  by rewrite eqb_string_refl in Hc.
Qed.

Lemma applyReplicaServices_avoids (tc : TechnitiumCluster.t) :
  avoids (oversteps tc) (applyReplicaServices OperatorNamespace tc).
Proof.
  unfold applyReplicaServices. destruct (ServiceSpec_.PerReplica _) as [spec|]; [|done].
  apply avoids_for_each. intros i _. cbn. split; [by intros []|]. by intros [e|v].
Qed.

Lemma reconcileReplicaServices_avoids (tc : TechnitiumCluster.t) :
  avoids (oversteps tc) (reconcileReplicaServices OperatorNamespace tc).
Proof.
  unfold reconcileReplicaServices. apply avoids_bind; [apply applyReplicaServices_avoids|].
  intros [e|]; [done|]. cbn. split; [by intros []|]. intros [e|l]; [done|].
  apply avoids_for_each. intros svc _. destruct (spareService tc svc) eqn:Es; [done|].
  cbn. split; [|by intros d; destruct (unless_not_found d)].
  intros Hn. apply Hn. by apply spareService_spec.
Qed.

Lemma reconcilePrimaryService_avoids (tc : TechnitiumCluster.t) :
  avoids (oversteps_primary tc) (reconcilePrimaryService OperatorNamespace tc).
Proof.
  assert (Hd : avoids (oversteps_primary tc) (deletePrimaryService OperatorNamespace tc)).
  { cbn. split; [by intros []|]. intros [e|svc]; [done|].
    destruct (IsControlledBy _ tc) eqn:Ec; cbn; [|done].
    split; [congruence|]. by intros d; destruct (unless_not_found d). }
  unfold reconcilePrimaryService. destruct (ServiceSpec_.Primary _) as [spec|]; [|done].
  destruct (PrimaryServiceSpec.Enabled spec); [|done]. cbn. split; [by intros []|]. by intros [e|v].
Qed.

Lemma reconcilePodDisruptionBudget_avoids (tc : TechnitiumCluster.t) :
  avoids (oversteps tc) (reconcilePodDisruptionBudget OperatorNamespace tc).
Proof.
  unfold reconcilePodDisruptionBudget. cbn. split; [by intros []|].
  intros [e|pdb]; cbn.
  - destruct (IsNotFound e); cbn; [|done].
    destruct (_ || _); [done|]. cbn. split; [by intros []|]. by intros [?|?].
  - destruct (IsControlledBy _ tc) eqn:Ec; cbn; [|by destruct (_ || _)].
    destruct (_ || _); cbn; [|split; [by intros []|]; by intros [?|?]].
    split; [congruence|done].
Qed.

(** The budget is written only where there was none, or this cluster's own. *)
Definition may_write_pdb (tc : TechnitiumCluster.t) (tr : list (event clusterE)) : Prop :=
  let key := service_key OperatorNamespace (podDisruptionBudgetName (TechnitiumCluster.Name tc)) in
  (exists e, In (ev (OnPDB (OGet key) : clusterE) (inl e)) tr /\ IsNotFound e = true) \/
  (exists pdb, In (ev (OnPDB (OGet key) : clusterE) (inr pdb)) tr /\
     IsControlledBy (PodDisruptionBudget.Meta pdb) tc = true).

Definition writes_pdb (c : clusterE) : bool := match c with OnPDB (OApply _ _) => true | _ => false end.

(** C27: The operator never takes over or deletes what is not its own.  Whatever
    the API server answers: a per-replica Service is deleted only if this
    cluster controls it, it is named after an ordinal of the cluster and that
    ordinal is no longer wanted; the primary Service and the
    PodDisruptionBudget are deleted only if this cluster controls them; and a
    PodDisruptionBudget is written only when none existed under its name or
    this cluster controls the existing one. *)
Theorem deletes_only_its_own (tc : TechnitiumCluster.t) :
  always (reconcileReplicaServices OperatorNamespace tc)
    (fun tr _ => Forall (fun e => ~ oversteps tc (projT1 e)) tr) /\
  always (reconcilePrimaryService OperatorNamespace tc)
    (fun tr _ => Forall (fun e => ~ oversteps_primary tc (projT1 e)) tr) /\
  always (reconcilePodDisruptionBudget OperatorNamespace tc)
    (fun tr _ => Forall (fun e => ~ oversteps tc (projT1 e)) tr /\
       (existsb (fun e => writes_pdb (projT1 e)) tr = true -> may_write_pdb tc tr)).
Proof.
  split; [apply avoids_always, reconcileReplicaServices_avoids|].
  split; [apply avoids_always, reconcilePrimaryService_avoids|].
  apply holds_conj; [apply avoids_always, reconcilePodDisruptionBudget_avoids|].
  unfold reconcilePodDisruptionBudget, may_write_pdb. cbn. intros [e|pdb]; cbn.
  - destruct (IsNotFound e) eqn:En; cbn; [|done]. destruct (_ || _); cbn; [done|].
    intros [e'|v] _; cbn; left; exists e; by split; [left|].
  - destruct (IsControlledBy _ tc) eqn:Ec; cbn; [|by destruct (_ || _)].
    destruct (_ || _); cbn.
    + intros d. done.
    + intros [e'|v] _; cbn; right; exists pdb; by split; [left|].
Qed.
End ownership.

(** ** Managed annotations *)

Lemma elem_of_sorted_keys (m : gmap string string) k : k ∈ sorted_keys m <-> is_Some (m !! k).
Proof.
  unfold sorted_keys, Sort. rewrite sort_by_perm, list_elem_of_fmap. split.
  - intros ([k' v] & -> & Hin). apply elem_of_map_to_list in Hin. by eexists.
  - intros [v Hv]. exists (k, v). split; [done|]. by apply elem_of_map_to_list.
Qed.

Lemma SplitChar_Join (l : list string) :
  l <> [] -> Forall (fun s => lacks "," s = true) l -> SplitChar "," (Join l ",") = l.
Proof.
  induction l as [|a l IH]; intros Hne Hl; [done|]. inversion Hl as [|? ? Ha Hl']; subst.
  destruct l as [|b l]; [by apply SplitChar_none|].
  change (Join (a :: b :: l) ",") with (a +:+ String "," (Join (b :: l) ",")).
  rewrite SplitChar_app by done. f_equal. by apply IH.
Qed.

Lemma Join_nonempty (l : list string) : l <> [] -> Forall (fun s => s <> "") l -> Join l "," <> "".
Proof.
  destruct l as [|a l]; [done|]. intros _ Hl. inversion Hl as [|? ? Ha Hl']; subst.
  destruct a as [|c a]; [done|]. by destruct l.
Qed.

(** The keys of a map are annotation keys: not empty, without commas. *)
Definition annotation_keys (m : gmap string string) : Prop :=
  forall k, is_Some (m !! k) -> k <> "" /\ lacks "," k = true.

(** The keys an object's annotations record as managed. *)
Definition managed_keys (annotations : gmap string string) : list string :=
  let previous := lookup_or_empty managedAnnotationsKey annotations in
  if previous =s? "" then [] else SplitChar "," previous.

Lemma foldl_withdraw (desired : gmap string string) (keys : list string) : forall (m : gmap string string) k,
  foldl (fun m key => match desired !! key with Some _ => m | None => delete key m end) m keys !! k
  = if decide (k ∈ keys /\ desired !! k = None) then None else m !! k.
Proof.
  induction keys as [|key keys IH]; intros m k; cbn.
  { case_decide as Hd; [|done]. destruct Hd as [Hk _]. by apply elem_of_nil in Hk. }
  rewrite IH. destruct (desired !! key) as [v|] eqn:Ed.
  - apply decide_ext. rewrite elem_of_cons. split; [tauto|]. intros [[->|Hk] Hn]; [congruence|done].
  - destruct (decide (k = key)) as [->|Hne].
    + rewrite lookup_delete_eq, (decide_True (P := key ∈ key :: keys /\ _)) by (split; [left|done]).
      by case_decide.
    + rewrite lookup_delete_ne by done. apply decide_ext. rewrite elem_of_cons. naive_solver.
Qed.

(** What the annotations are after a pass, key by key. *)
Lemma applyManagedAnnotations_lookup (annotations desired : gmap string string) k :
  applyManagedAnnotations annotations desired !! k =
    if decide (k = managedAnnotationsKey) then
      if decide (desired = ∅) then None else Some (Join (sorted_keys desired) ",")
    else match desired !! k with
         | Some v => Some v
         | None => if decide (k ∈ managed_keys annotations) then None else annotations !! k
         end.
Proof.
  unfold applyManagedAnnotations, managed_keys. set (previous := lookup_or_empty _ _).
  set (base := if negb (previous =s? "") then _ else _).
  assert (Hbase : desired !! k = None -> base !! k =
      if decide (k ∈ (if previous =s? "" then [] else SplitChar "," previous)) then None else annotations !! k).
  { intros Hk. unfold base. destruct (previous =s? ""); cbn [negb].
    - by rewrite decide_False by apply not_elem_of_nil.
    - rewrite foldl_withdraw. repeat case_decide; try done; exfalso; naive_solver. }
  assert (Hu : k <> managedAnnotationsKey -> (desired ∪ delete managedAnnotationsKey base) !! k =
      match desired !! k with Some v => Some v | None => base !! k end).
  { intros Hne. destruct (desired !! k) as [v|] eqn:Ek.
    - by apply lookup_union_Some_l.
    - by rewrite lookup_union_r, lookup_delete_ne. }
  case_bool_decide as He; destruct (decide (k = managedAnnotationsKey)) as [Hk|Hk].
  - subst. by rewrite lookup_union_r, lookup_delete_eq, decide_True by (done || apply lookup_empty).
  - rewrite Hu by done. destruct (desired !! k) eqn:Ek; [done|]. by apply Hbase.
  - rewrite decide_False by done. subst k. by rewrite lookup_insert_eq.
  - rewrite lookup_insert_ne, Hu by done. destruct (desired !! k) eqn:Ek; [done|]. by apply Hbase.
Qed.

(** The keys a pass records are the ones it set. *)
Lemma managed_keys_apply (annotations desired : gmap string string) k :
  annotation_keys desired ->
  k ∈ managed_keys (applyManagedAnnotations annotations desired) <-> is_Some (desired !! k).
Proof.
  intros Hwf. unfold managed_keys, lookup_or_empty. rewrite applyManagedAnnotations_lookup, decide_True by done.
  destruct (decide (desired = ∅)) as [->|Hne]; cbn.
  - rewrite lookup_empty, elem_of_nil. by split; [|intros []].
  - assert (Hk : Forall (fun s => s <> "" /\ lacks "," s = true) (sorted_keys desired)).
    { apply Forall_forall. intros x Hx. by apply Hwf, elem_of_sorted_keys. }
    assert (Hl : sorted_keys desired <> []).
    { intros E. apply Hne, map_empty. intros i. apply eq_None_not_Some. intros Hi.
      apply elem_of_sorted_keys in Hi. rewrite E in Hi. by apply elem_of_nil in Hi. }
    apply Forall_and in Hk as [Hk1 Hk2].
    pose proof (Join_nonempty _ Hl Hk1) as Hj. apply String.eqb_neq in Hj. rewrite Hj.
    rewrite SplitChar_Join by done. apply elem_of_sorted_keys.
Qed.

(** The operator's annotations come and go, everyone else's stay.  After
    [applyManagedAnnotations] every declared annotation has its value; an
    annotation neither declared nor recorded as managed is as it was; applying
    the same set again changes nothing (so the object is not written again);
    and applying another set withdraws exactly what the first had set. *)
Theorem annotations_managed (annotations desired desired' : gmap string string) :
  annotation_keys desired -> desired !! managedAnnotationsKey = None -> desired' !! managedAnnotationsKey = None ->
  let after := applyManagedAnnotations annotations desired in
  (forall k v, desired !! k = Some v -> after !! k = Some v) /\
  (forall k, desired !! k = None -> k ∉ managed_keys annotations -> k <> managedAnnotationsKey ->
     after !! k = annotations !! k) /\
  applyManagedAnnotations after desired = after /\
  (forall k, k <> managedAnnotationsKey -> desired' !! k = None ->
     applyManagedAnnotations after desired' !! k
     = match desired !! k with
       | Some _ => None
       | None => if decide (k ∈ managed_keys annotations) then None else annotations !! k
       end).
Proof.
  intros Hwf Hd Hd' after.
  assert (Hmk := fun k => managed_keys_apply annotations desired k Hwf). fold after in Hmk.
  split; [|split; [|split]].
  - intros k v Hk. unfold after. rewrite applyManagedAnnotations_lookup.
    rewrite decide_False by congruence. by rewrite Hk.
  - intros k Hk Hm Hne. unfold after. rewrite applyManagedAnnotations_lookup.
    by rewrite decide_False, Hk, decide_False.
  - apply map_eq. intros k. rewrite (applyManagedAnnotations_lookup after desired).
    pose proof (applyManagedAnnotations_lookup annotations desired k) as Ha. fold after in Ha.
    rewrite Ha. destruct (decide (k = managedAnnotationsKey)); [done|].
    destruct (desired !! k) as [v|] eqn:Ek; [done|].
    rewrite decide_False; [done|]. rewrite Hmk, Ek. by intros [].
  - intros k Hne Hk. rewrite applyManagedAnnotations_lookup, decide_False, Hk by done.
    destruct (desired !! k) as [v|] eqn:Ek.
    + rewrite decide_True; [done|]. rewrite Hmk, Ek. by eexists.
    + rewrite decide_False by (rewrite Hmk, Ek; by intros []).
      unfold after. by rewrite applyManagedAnnotations_lookup, decide_False, Ek.
Qed.

Example annotations_managed_witness :
  let desired : gmap string string := {["external-dns/hostname" := "dns.example.com"]} in
  let annotations : gmap string string := {["metallb/ip-allocated-from-pool" := "lan"]} in
  let after := applyManagedAnnotations annotations desired in
  after !! "metallb/ip-allocated-from-pool" = Some "lan" /\ applyManagedAnnotations after desired = after.
Proof.
  intros desired annotations after.
  assert (Hwf : annotation_keys desired).
  { intros k [v Hk]. apply lookup_singleton_Some in Hk as [<- _]. by split. }
  destruct (annotations_managed annotations desired ∅ Hwf) as (_ & Hother & Hagain & _);
    [reflexivity|reflexivity|].
  split; [|exact Hagain]. rewrite Hother; [reflexivity|reflexivity| |discriminate].
  vm_compute. intros Hin. inversion Hin.
Defined.
