(* ===== verification/Workload.v ===== *)
(** * The workload of a TechnitiumCluster: admin Secret, pod template and
      StatefulSet

    [internal/controller/technitiumcluster_controller.go] from
    [adminSecretKeyFor] to [volumeClaimTemplateFor], [readinessProbeFor], and
    the downgrade guard of [technitiumcluster_rollout.go]. *)

From S2P Require Import Prelude GoStrings GoErrors Effects Version Kube Lifecycle ClusterTypes ClusterKube Services.

Local Open Scope string_scope.
Local Open Scope Z_scope.
Local Open Scope go_scope.
Local Open Scope prog_scope.

(** ** The admin Secret *)

Definition adminSecretUsernameKey : string := "username".
Definition adminSecretPasswordKey : string := "password".
Definition adminSecretTokenKey : string := "token".

(** The key, and the error that comes with it. *)
Definition adminSecretKeyFor (tc : TechnitiumCluster.t) (operatorNamespace : string) : ObjectKey * option error :=
  let name := adminSecretName (TechnitiumCluster.Name tc) in
  match TechnitiumClusterSpec.AdminSecretRef (TechnitiumCluster.Spec tc) with
  | None => ({| KeyNamespace := operatorNamespace; KeyName := name |}, None)
  | Some ref =>
      let key := {| KeyNamespace := operatorNamespace; KeyName := SecretReference.Name ref |} in
      if negb (SecretReference.Namespace ref =s? "") && negb (SecretReference.Namespace ref =s? operatorNamespace) then
        (key, Some (EText ("spec.adminSecretRef.namespace " +:+ quoted (SecretReference.Namespace ref)
           +:+ " is invalid: the admin Secret must live in the operator namespace, so the namespace must be empty or "
           +:+ quoted operatorNamespace)))
      else (key, None)
  end.

Definition resolvedAdminSecretName (tc : TechnitiumCluster.t) (operatorNamespace : string) : string :=
  KeyName (adminSecretKeyFor tc operatorNamespace).1.

(** [ref.Controller && ref.Kind == "TechnitiumCluster" && ref.UID != tc.UID]. *)
Definition stale_owner (tc : TechnitiumCluster.t) (ref : OwnerReference.t) : bool :=
  OwnerReference.Controller ref && (OwnerReference.Kind ref =s? "TechnitiumCluster")
  && negb (OwnerReference.UID ref =s? ObjectMeta.UID (TechnitiumCluster.Meta tc)).

Section secret.
Context `{KubeOwner}.
Context (OperatorNamespace : string).

(** The callback of [reconcileAdminSecret]; [password] is what
    [generatePassword] returns when it is called. *)
Definition mutateAdminSecret (tc : TechnitiumCluster.t) (password : fallible string) (secret : Secret.t)
  : fallible (Secret.t * unit) :=
  let m := Secret.Meta secret in
  let m := ObjectMeta.with_OwnerReferences m
             (List.filter (fun r => negb (stale_owner tc r)) (ObjectMeta.OwnerReferences m)) in
  match SetControllerReference tc m with
  | inl e => inl e
  | inr m =>
      let m := ObjectMeta.with_Labels m (commonLabels (TechnitiumCluster.Name tc)) in
      let data := Secret.Data secret in
      let data := match data !! adminSecretUsernameKey with
                  | Some _ => data
                  | None => <[adminSecretUsernameKey := "admin"]> data
                  end in
      match data !! adminSecretPasswordKey with
      | Some _ => inr (Secret.mk m "Opaque" data, tt)
      | None =>
          match password with
          | inl e => inl (wrapf "generating admin password" e)
          | inr p => inr (Secret.mk m "Opaque" (<[adminSecretPasswordKey := p]> data), tt)
          end
      end
  end.

Definition reconcileAdminSecret (tc : TechnitiumCluster.t) : prog clusterE (option error) :=
  password <- call GeneratePassword ;;
  r <- call (OnSecret (OApply (Secret.new OperatorNamespace (adminSecretName (TechnitiumCluster.Name tc)))
                        (mutateAdminSecret tc password))) ;;
  match (r : fallible (Secret.t * unit)) with
  | inl err => Ret (Some err)
  | inr _ => Ret None
  end.
End secret.

(** ** The pod template *)

Definition healthCheckMinVersion : Version := {| Major := 15; Minor := 5; Patch := 0 |}.

Definition healthCheckCommand : string :=
  "curl -fsS --max-time 4 http://127.0.0.1:5380/api/dnsClient/healthCheck | grep -q '"
  +:+ quoted "status" +:+ ":" +:+ quoted "ok" +:+ "'".

Definition readinessProbeFor (image : string) : Probe.t :=
  match ParseImageVersion image with
  | Some v =>
      if Compare v healthCheckMinVersion <? 0 then Probe.mk (TCPSocket 53) 10 10 0 0
      else Probe.mk (Exec ["/bin/sh"; "-c"; healthCheckCommand]) 5 5 5 3
  | None => Probe.mk (Exec ["/bin/sh"; "-c"; healthCheckCommand]) 5 5 5 3
  end.

Definition affinityFor (tc : TechnitiumCluster.t) : option AffinityValue :=
  let spec := TechnitiumCluster.Spec tc in
  match TechnitiumClusterSpec.Affinity spec with
  | Some a => Some (UserAffinity a)
  | None =>
      match TechnitiumClusterSpec.Replicas spec with
      | None => None
      | Some n =>
          if n <=? 1 then None
          else Some (PreferredAntiAffinity 100 "kubernetes.io/hostname" (instanceLabels (TechnitiumCluster.Name tc)))
      end
  end.

Definition podEnv (tc : TechnitiumCluster.t) : list EnvVar.t :=
  let domain := TechnitiumClusterSpec.DNSServerDomain (TechnitiumCluster.Spec tc) in
  (EnvVar.mk "DNS_SERVER_ADMIN_PASSWORD_FILE" "/etc/technitium/admin/password" None ::
   (if 1 <? desiredReplicaCount tc then
      [EnvVar.mk "POD_NAME" "" (Some "metadata.name");
       EnvVar.mk "DNS_SERVER_DOMAIN" ("$(POD_NAME)." +:+ clusterDomainFor tc) None]
    else if negb (domain =s? "") then [EnvVar.mk "DNS_SERVER_DOMAIN" domain None]
    else []))%list.

Definition dnsServerContainerName : string := "dns-server".

Definition podTemplateFor (tc : TechnitiumCluster.t) (operatorNamespace : string) : PodTemplateSpec.t :=
  let spec := TechnitiumCluster.Spec tc in
  PodTemplateSpec.mk (commonLabels (TechnitiumCluster.Name tc))
    (PodSecurityContext.mk true 1000 1000 1000 "RuntimeDefault")
    (affinityFor tc)
    (TechnitiumClusterSpec.TopologySpreadConstraints spec) (TechnitiumClusterSpec.Tolerations spec)
    (TechnitiumClusterSpec.NodeSelector spec) (TechnitiumClusterSpec.PriorityClassName spec)
    [Container.mk "dns-server" (TechnitiumClusterSpec.Image spec)
       [ContainerPort.mk "dns-udp" 53 "UDP"; ContainerPort.mk "dns-tcp" 53 "TCP"; ContainerPort.mk "api" 5380 "TCP"]
       (podEnv tc) (TechnitiumClusterSpec.Resources spec)
       [VolumeMount.mk "data" "/etc/dns" false; VolumeMount.mk "admin" "/etc/technitium/admin" true;
        VolumeMount.mk "varlog" "/var/log/technitium" false; VolumeMount.mk "tmp" "/tmp" false]
       (readinessProbeFor (TechnitiumClusterSpec.Image spec))
       (Probe.mk (TCPSocket 5380) 10 10 0 0)
       (SecurityContext.mk false true ["ALL"] ["NET_BIND_SERVICE"])]
    [Volume.mk "admin" (SecretVolume (resolvedAdminSecretName tc operatorNamespace)
       [(adminSecretPasswordKey, "password")]);
     Volume.mk "varlog" EmptyDir; Volume.mk "tmp" EmptyDir].

Definition volumeClaimTemplateFor (tc : TechnitiumCluster.t) : PersistentVolumeClaim.t :=
  let storage := TechnitiumClusterSpec.Storage (TechnitiumCluster.Spec tc) in
  PersistentVolumeClaim.mk
    (ObjectMeta.with_Labels (ObjectMeta.named "" "data") (commonLabels (TechnitiumCluster.Name tc)))
    ["ReadWriteOnce"] (StorageSpec.Size storage) (StorageSpec.StorageClassName storage).

(** ** The downgrade guard *)

Definition templateImage (sts : StatefulSet.t) : string :=
  match StatefulSet.Template sts with
  | None => ""
  | Some t =>
      match List.find (fun c => Container.Name c =s? dnsServerContainerName) (PodTemplateSpec.Containers t) with
      | Some c => Container.Image c
      | None => ""
      end
  end.

Module downgradeBlock.
Record t := mk { image : string; deployed : Version; requested : Version }.
Definition message (d : t) : string :=
  "Refusing to downgrade Technitium from " +:+ version_String (deployed d) +:+ " to "
  +:+ version_String (requested d)
  +:+ ": a newer server may have written configuration on the data volume that an older one cannot read. "
  +:+ "The deployed image " +:+ image d +:+ " is kept; set the annotation " +:+ AllowDowngradeAnnotation
  +:+ "=" +:+ quoted "true" +:+ " on the TechnitiumCluster to allow it".
End downgradeBlock.

Definition downgrade_allowed (tc : TechnitiumCluster.t) : bool :=
  lookup_or_empty AllowDowngradeAnnotation (ObjectMeta.Annotations (TechnitiumCluster.Meta tc)) =s? "true".

(** The version deployed by [image]: its tag's, or else the one of the status. *)
Definition deployedVersion (tc : TechnitiumCluster.t) (image : string) : option Version :=
  match ParseImageVersion image with
  | Some v => Some v
  | None => ParseVersion (TechnitiumClusterStatus.Version (TechnitiumCluster.Status tc))
  end.

Definition checkDowngrade (tc : TechnitiumCluster.t) (existing : StatefulSet.t) : option downgradeBlock.t :=
  if downgrade_allowed tc then None
  else
    match ParseImageVersion (TechnitiumClusterSpec.Image (TechnitiumCluster.Spec tc)) with
    | None => None
    | Some requested =>
        let image := templateImage existing in
        if image =s? "" then None
        else
          match deployedVersion tc image with
          | None => None
          | Some deployed =>
              if 0 <=? Compare requested deployed then None
              else Some (downgradeBlock.mk image deployed requested)
          end
    end.

(** ** The StatefulSet *)

Definition podTemplateHashAnnotation : string := "dns.packet.fail/pod-template-hash".

Module statefulSetOutcome.
Record t := mk { sts : StatefulSet.t; templateChanged : bool; downgrade : option downgradeBlock.t }.
End statefulSetOutcome.

(** The partition an object carries, when it has one. *)
Definition current_partition (sts : StatefulSet.t) : option Z :=
  match StatefulSet.RollingUpdate sts with Some (Some p) => Some p | _ => None end.

Section workload.
Context `{KubeOwner}.
Context (OperatorNamespace : string).
(** SHA-256 of the template's JSON, the first eight bytes in hexadecimal. *)
Context (hashPodTemplate : PodTemplateSpec.t -> string).

(** [mergeAnnotation]. *)
Definition mergeAnnotation (annotations : gmap string string) (key value : string) : gmap string string :=
  <[key := value]> annotations.

Definition templateChangedBy (hash : string) (sts : StatefulSet.t) : bool :=
  let created := negb (ObjectMeta.Created (StatefulSet.Meta sts)) in
  let previous := lookup_or_empty podTemplateHashAnnotation (ObjectMeta.Annotations (StatefulSet.Meta sts)) in
  negb created && negb (previous =s? "") && negb (previous =s? hash).

(** The partition written. *)
Definition nextPartition (sts : StatefulSet.t) (replicas : Z) (templateChanged : bool) : Z :=
  let created := negb (ObjectMeta.Created (StatefulSet.Meta sts)) in
  if created || (replicas <=? 1) then 0
  else if templateChanged then replicas
  else match current_partition sts with
       | Some p => Z.min p replicas
       | None => 0
       end.

(** The callback of [CreateOrUpdate]; [effective] has the image to deploy. *)
Definition mutateStatefulSet (tc effective : TechnitiumCluster.t) (sts : StatefulSet.t)
  : fallible (StatefulSet.t * bool) :=
  match SetControllerReference tc (StatefulSet.Meta sts) with
  | inl e => inl e
  | inr m =>
      let name := TechnitiumCluster.Name tc in
      let replicas := desiredReplicaCount tc in
      let template := podTemplateFor effective OperatorNamespace in
      let hash := hashPodTemplate template in
      let created := negb (ObjectMeta.Created (StatefulSet.Meta sts)) in
      let changed := templateChangedBy hash sts in
      let partition := nextPartition sts replicas changed in
      let m := ObjectMeta.with_Labels m (commonLabels name) in
      let m := ObjectMeta.with_Annotations m
                 (mergeAnnotation (ObjectMeta.Annotations m) podTemplateHashAnnotation hash) in
      inr (StatefulSet.mk m (Some replicas)
             (if created then headlessServiceName name else StatefulSet.ServiceName sts)
             (if created then instanceLabels name else StatefulSet.Selector sts)
             (if created then [volumeClaimTemplateFor tc] else StatefulSet.VolumeClaimTemplates sts)
             (Some template) "RollingUpdate" (Some (Some partition)) (StatefulSet.Status sts), changed)
  end.

(** The cluster with the image a refused downgrade keeps. *)
Definition effectiveCluster (tc : TechnitiumCluster.t) (d : option downgradeBlock.t) : TechnitiumCluster.t :=
  match d with
  | None => tc
  | Some d => TechnitiumCluster.with_Spec tc
                (TechnitiumClusterSpec.with_Image (TechnitiumCluster.Spec tc) (downgradeBlock.image d))
  end.

Definition reconcileStatefulSet (tc : TechnitiumCluster.t) : prog clusterE (fallible statefulSetOutcome.t) :=
  let name := statefulSetName (TechnitiumCluster.Name tc) in
  g <- call (OnSts (OGet (service_key OperatorNamespace name))) ;;
  match (match (g : fallible StatefulSet.t) with
         | inr existing => inr (checkDowngrade tc existing)
         | inl err => if negb (IsNotFound err) then inl err else inr None
         end : fallible (option downgradeBlock.t)) with
  | inl err => fail err
  | inr downgrade =>
      r <- call (OnSts (OApply (StatefulSet.new OperatorNamespace name)
                         (mutateStatefulSet tc (effectiveCluster tc downgrade)))) ;;
      match (r : fallible (StatefulSet.t * bool)) with
      | inl err => fail err
      | inr (sts, changed) => ok (statefulSetOutcome.mk sts changed downgrade)
      end
  end.

(** [reconcileWorkload]. *)
Definition wrapping (prefix : string) (p : prog clusterE (option error)) : prog clusterE (option error) :=
  e <- p ;; Ret (wrapf prefix <$> e).

Definition reconcileWorkload (tc : TechnitiumCluster.t) : prog clusterE (fallible statefulSetOutcome.t) :=
  checkV wrapping "reconciling headless service" (reconcileHeadlessService OperatorNamespace tc) ;;
  checkV wrapping "reconciling client service" (reconcileClientService OperatorNamespace tc) ;;
  checkV wrapping "reconciling per-replica services" (reconcileReplicaServices OperatorNamespace tc) ;;
  checkV wrapping "reconciling primary service" (reconcilePrimaryService OperatorNamespace tc) ;;
  checkV (match TechnitiumClusterSpec.AdminSecretRef (TechnitiumCluster.Spec tc) with
          | None => wrapping "reconciling admin secret" (reconcileAdminSecret OperatorNamespace tc)
          | Some _ => Ret None
          end) ;;
  w <- reconcileStatefulSet tc ;;
  match w with
  | inl err => fail (wrapf "reconciling statefulset" err)
  | inr workload =>
      checkV wrapping "reconciling pod disruption budget" (reconcilePodDisruptionBudget OperatorNamespace tc) ;;
      ok workload
  end.
End workload.

(** ** Laws *)

Section laws.
Context `{KubeOwner} `{!KubeOwnerLaws}.
Context (OperatorNamespace : string) (hashPodTemplate : PodTemplateSpec.t -> string).

Lemma Compare_refl (v : Version) : Compare v v = 0.
Proof. unfold Compare. by rewrite !Z.sub_diag. Qed.

Lemma templateImage_podTemplate (sts : StatefulSet.t) (tc : TechnitiumCluster.t) :
  StatefulSet.Template sts = Some (podTemplateFor tc OperatorNamespace) ->
  templateImage sts = TechnitiumClusterSpec.Image (TechnitiumCluster.Spec tc).
Proof. unfold templateImage. by intros ->. Qed.

Lemma mutateStatefulSet_template tc eff sts sts' changed :
  mutateStatefulSet OperatorNamespace hashPodTemplate tc eff sts = inr (sts', changed) ->
  StatefulSet.Template sts' = Some (podTemplateFor eff OperatorNamespace).
Proof. unfold mutateStatefulSet. destruct (SetControllerReference _ _); [done|]. by intros [= <- <-]. Qed.

Lemma checkDowngrade_none tc existing requested deployed :
  checkDowngrade tc existing = None -> downgrade_allowed tc = false -> templateImage existing <> "" ->
  ParseImageVersion (TechnitiumClusterSpec.Image (TechnitiumCluster.Spec tc)) = Some requested ->
  deployedVersion tc (templateImage existing) = Some deployed -> 0 <= Compare requested deployed.
Proof.
  unfold checkDowngrade. intros Hc Ha Hne Hr Hd. rewrite Ha, Hr, Hd in Hc.
  apply String.eqb_neq in Hne. rewrite Hne in Hc.
  destruct (0 <=? Compare requested deployed) eqn:E; [|done]. by apply Z.leb_le.
Qed.

Lemma checkDowngrade_image tc existing d :
  checkDowngrade tc existing = Some d -> downgradeBlock.image d = templateImage existing.
Proof.
  unfold checkDowngrade. destruct (downgrade_allowed tc); [done|].
  destruct (ParseImageVersion _); [|done]. destruct (_ =s? ""); [done|].
  destruct (deployedVersion _ _); [|done]. destruct (_ <=? _); [done|]. by intros [= <-].
Qed.

(** The answer to a get of the StatefulSet. *)
Definition got_sts (e : event clusterE) : option (fallible StatefulSet.t) :=
  match e with existT (OnSts (OGet _)) x => Some x | _ => None end.

(** What the callback may write in place of [existing]. *)
Definition no_downgrade (tc : TechnitiumCluster.t) (existing : StatefulSet.t)
    (mutate : StatefulSet.t -> fallible (StatefulSet.t * bool)) : Prop :=
  forall sts sts' changed requested deployed,
    mutate sts = inr (sts', changed) ->
    downgrade_allowed tc = false -> templateImage existing <> "" ->
    ParseImageVersion (templateImage sts') = Some requested ->
    deployedVersion tc (templateImage existing) = Some deployed -> 0 <= Compare requested deployed.

Lemma mutate_no_downgrade tc existing :
  no_downgrade tc existing (mutateStatefulSet OperatorNamespace hashPodTemplate tc
    (effectiveCluster tc (checkDowngrade tc existing))).
Proof.
  intros sts sts' changed requested deployed Hm Ha Hne Hr Hd.
  apply mutateStatefulSet_template, templateImage_podTemplate in Hm. rewrite Hm in Hr. clear Hm.
  destruct (checkDowngrade tc existing) as [d|] eqn:Ec.
  - apply checkDowngrade_image in Ec. cbn in Hr. rewrite Ec in Hr.
    unfold deployedVersion in Hd. rewrite Hr in Hd. injection Hd as ->. by rewrite Compare_refl.
  - eapply checkDowngrade_none; eauto.
Qed.
End laws.

Section guarantees.
Context `{KubeOwner} `{!KubeOwnerLaws}.
Context (OperatorNamespace : string) (hashPodTemplate : PodTemplateSpec.t -> string).

(** C13: The deployed version never moves backwards.  Whatever the API server
    answers, when the cluster has a StatefulSet running a version (its image
    tag's, or the one last observed) and the downgrade annotation is not set,
    every pod template [reconcileStatefulSet] writes over it carries an image
    whose version, when it has one, is not older; and a refusal is reported
    with the image that was kept. *)
Theorem statefulset_no_downgrade (tc : TechnitiumCluster.t) :
  let key := service_key OperatorNamespace (statefulSetName (TechnitiumCluster.Name tc)) in
  always (reconcileStatefulSet OperatorNamespace hashPodTemplate tc) (fun tr r =>
    forall existing, In (ev (OnSts (OGet key) : clusterE) (inr existing)) tr ->
      (forall obj mutate, In (OnSts (OApply obj mutate)) (map projT1 tr) -> no_downgrade tc existing mutate) /\
      (forall out, r = inr out -> statefulSetOutcome.downgrade out = checkDowngrade tc existing)).
Proof.
  intros key. unfold reconcileStatefulSet, always. cbn. intros [e|sts].
  - destruct (IsNotFound e); cbn.
    + intros [e'|[s c]]; cbn; intros existing [Hx|[Hx|[]]]; by apply (f_equal got_sts) in Hx.
    + intros existing [Hx|[]]. by apply (f_equal got_sts) in Hx.
  - cbn. intros r. set (mutate := mutateStatefulSet _ _ _ _).
    assert (Hall : forall obj existing, In (ev (OnSts (OGet key) : clusterE) (inr existing))
        [ev (OnSts (OGet key) : clusterE) (inr sts); ev (OnSts (OApply obj mutate) : clusterE) r] -> existing = sts).
    { intros obj existing [Hx|[Hx|[]]]; apply (f_equal got_sts) in Hx; [|done]. by injection Hx. }
    destruct r as [e|[s c]]; cbn; intros existing Hx; apply Hall in Hx; subst existing.
    all: split; [|by intros out [= <-]].
    all: intros obj m [Hm|[Hm|[]]]; [discriminate|].
    all: injection Hm as _ Hm; subst m; apply mutate_no_downgrade.
Qed.
Lemma templateChangedBy_created (hash : string) (sts : StatefulSet.t) :
  templateChangedBy hash sts = true -> ObjectMeta.Created (StatefulSet.Meta sts) = true.
Proof. unfold templateChangedBy. by destruct (ObjectMeta.Created (StatefulSet.Meta sts)). Qed.

(** A partition that was written is written again as it is. *)
Lemma nextPartition_again (sts sts' : StatefulSet.t) (n : Z) (changed : bool) :
  ObjectMeta.Created (StatefulSet.Meta sts) = true -> ObjectMeta.Created (StatefulSet.Meta sts') = true ->
  current_partition sts' = Some (nextPartition sts n changed) ->
  nextPartition sts' n false = nextPartition sts n changed.
Proof.
  intros Hc Hc' Hp. unfold nextPartition. rewrite Hc, Hc', Hp. cbn.
  destruct (n <=? 1) eqn:En; [done|]. apply Z.leb_gt in En.
  unfold nextPartition. rewrite Hc. cbn. replace (n <=? 1) with false by (symmetry; by apply Z.leb_gt).
  destruct changed; [lia|]. destruct (current_partition sts); lia.
Qed.

(** A template change restarts nothing by itself.  When
    [reconcileStatefulSet] rewrites the template of a cluster of several nodes
    it parks the partition at the replica count, which releases no pod; any
    other pass keeps the partition the rollout set, clamped to the replica
    count.  The immutable fields of an existing StatefulSet are never touched,
    the object is this cluster's, and rewriting it again changes nothing. *)
Theorem template_change_parks (tc eff : TechnitiumCluster.t) (sts sts' : StatefulSet.t) (changed : bool) :
  let mutate := mutateStatefulSet OperatorNamespace hashPodTemplate tc eff in
  let n := desiredReplicaCount tc in
  mutate sts = inr (sts', changed) ->
  IsControlledBy (StatefulSet.Meta sts') tc = true /\ StatefulSet.Replicas sts' = Some n /\
  (changed = true -> 1 < n -> current_partition sts' = Some n) /\
  (ObjectMeta.Created (StatefulSet.Meta sts) = true ->
     (forall p, changed = false -> 1 < n -> current_partition sts = Some p ->
        current_partition sts' = Some (Z.min p n)) /\
     StatefulSet.Selector sts' = StatefulSet.Selector sts /\
     StatefulSet.ServiceName sts' = StatefulSet.ServiceName sts /\
     StatefulSet.VolumeClaimTemplates sts' = StatefulSet.VolumeClaimTemplates sts /\
     mutate sts' = inr (sts', false)).
Proof.
  intros mutate n Hm. unfold mutate, mutateStatefulSet in Hm.
  destruct (SetControllerReference tc (StatefulSet.Meta sts)) as [e|m] eqn:Es; [done|].
  pose proof (set_controls _ _ _ Es) as Hc. pose proof (set_only_owners _ _ _ Es) as Ho.
  assert (Hcr : ObjectMeta.Created m = ObjectMeta.Created (StatefulSet.Meta sts)) by (by rewrite Ho).
  fold n in Hm. set (hash := hashPodTemplate _) in *.
  injection Hm as <- Hch. cbn.
  assert (Hc' : forall m', ObjectMeta.OwnerReferences m' = ObjectMeta.OwnerReferences m -> IsControlledBy m' tc = true).
  { intros m' E. by rewrite (controlled_by_owners tc m' m E). }
  split; [by apply Hc'|]. split; [done|]. split.
  { intros -> Hn. rewrite Hch. unfold current_partition, nextPartition. cbn.
    apply Z.leb_gt in Hn. rewrite Hn. by rewrite (templateChangedBy_created _ _ Hch). }
  intros Hcreated. rewrite Hcreated. cbn [negb]. split.
  { intros p -> Hn Hp. rewrite Hch. unfold nextPartition.
    rewrite Hcreated, Hp. apply Z.leb_gt in Hn. by rewrite Hn. }
  split; [done|]. split; [done|]. split; [done|].
  set (m2 := ObjectMeta.with_Annotations _ _). set (s2 := StatefulSet.mk m2 _ _ _ _ _ _ _ _).
  assert (Hm2 : ObjectMeta.Created m2 = true) by (cbn; congruence).
  assert (Hch2 : templateChangedBy hash s2 = false).
  { unfold templateChangedBy, lookup_or_empty. cbn. unfold mergeAnnotation.
    by rewrite lookup_insert_eq, eqb_string_refl, andb_false_r. }
  unfold mutate, mutateStatefulSet. change (StatefulSet.Meta s2) with m2.
  rewrite (set_again tc m2) by (by apply Hc'). fold n hash.
  rewrite Hch2, (nextPartition_again sts s2 n (templateChangedBy hash sts)), Hm2 by (done || by rewrite Hch).
  cbn [negb]. do 2 f_equal. unfold s2. cbn. f_equal. unfold m2, mergeAnnotation. cbn. by rewrite insert_insert_eq.
Qed.
Lemma credentials_kept (data : gmap string string) k v :
  data !! k = Some v ->
  match data !! adminSecretUsernameKey with
  | Some _ => data
  | None => <[adminSecretUsernameKey := "admin"]> data
  end !! k = Some v.
Proof.
  intros Hk. destruct (data !! adminSecretUsernameKey) eqn:E; [done|].
  rewrite lookup_insert_ne; [done|]. congruence.
Qed.

(** Credentials are never regenerated.  When [reconcileAdminSecret]
    succeeds the Secret is this cluster's and has a user name and a password;
    whatever it held before (a password, a minted token) is kept as it was,
    and nothing but a missing user name and a missing password is added.  A
    Secret that a deleted cluster released, or whose controller is a cluster of
    the same kind that no longer exists, is taken over. *)
Theorem adminSecret_preserved (tc : TechnitiumCluster.t) (password : fallible string) (secret : Secret.t) :
  (forall secret', mutateAdminSecret tc password secret = inr (secret', tt) ->
     IsControlledBy (Secret.Meta secret') tc = true /\
     (forall k v, Secret.Data secret !! k = Some v -> Secret.Data secret' !! k = Some v) /\
     (forall k, k <> adminSecretUsernameKey -> k <> adminSecretPasswordKey ->
        Secret.Data secret' !! k = Secret.Data secret !! k) /\
     is_Some (Secret.Data secret' !! adminSecretUsernameKey) /\
     is_Some (Secret.Data secret' !! adminSecretPasswordKey)) /\
  (forall p, password = inr p ->
     existsb (fun r => OwnerReference.Controller r && negb (stale_owner tc r))
       (ObjectMeta.OwnerReferences (Secret.Meta secret)) = false ->
     exists secret', mutateAdminSecret tc password secret = inr (secret', tt)).
Proof.
  unfold mutateAdminSecret. set (m := ObjectMeta.with_OwnerReferences _ _).
  set (data := match Secret.Data secret !! adminSecretUsernameKey with Some _ => _ | None => _ end).
  assert (Hu : is_Some (data !! adminSecretUsernameKey)).
  { unfold data. destruct (Secret.Data secret !! adminSecretUsernameKey) eqn:E; [by rewrite E|].
    rewrite lookup_insert_eq. by eexists. }
  assert (Hother : forall k, k <> adminSecretUsernameKey -> data !! k = Secret.Data secret !! k).
  { intros k Hk. unfold data. destruct (Secret.Data secret !! adminSecretUsernameKey); [done|].
    by rewrite lookup_insert_ne. }
  split.
  - intros secret'. destruct (SetControllerReference tc m) as [e|m'] eqn:Es; [done|].
    pose proof (set_controls _ _ _ Es) as Hc.
    rewrite (controlled_by_owners tc m' (ObjectMeta.with_Labels m' (commonLabels (TechnitiumCluster.Name tc)))
      eq_refl) in Hc.
    destruct (data !! adminSecretPasswordKey) as [q|] eqn:Ep; [|destruct password as [e|p]; [done|]];
      intros [= <-]; cbn; (split; [exact Hc|]).
    + split; [intros k v; apply credentials_kept|]. split; [auto|]. split; [done|]. by rewrite Ep.
    + split.
      * intros k v Hk. pose proof (credentials_kept _ _ _ Hk) as Hd. fold data in Hd.
        rewrite lookup_insert_ne; [done|]. congruence.
      * split; [intros k H1 H2; rewrite lookup_insert_ne by done; auto|].
        rewrite lookup_insert_ne by done. split; [done|]. rewrite lookup_insert_eq. by eexists.
  - intros p -> Hfree. destruct (set_free tc m) as [m' ->].
    { cbn. apply existsb_none. intros r Hr. apply filter_In in Hr as [Hin Hst].
      pose proof (existsb_false_In _ _ _ Hfree Hin) as Hf. cbn beta in Hf. rewrite Hst, andb_true_r in Hf. exact Hf. }
    destruct (data !! adminSecretPasswordKey); by eexists.
Qed.
End guarantees.

(** ** Examples *)

#[local] Existing Instance RefKubeOwner.owner.
#[local] Existing Instance RefKubeOwner.owner_laws.

Definition example_tc (image : string) (replicas : Z) : TechnitiumCluster.t :=
  TechnitiumCluster.mk
    (ObjectMeta.mk "dns" "" "uid-1" "1" 1 true false [] ∅ ∅ [])
    (TechnitiumClusterSpec.mk image (Some replicas) (StorageSpec.mk "1Gi" None "Retain") "" None "" "" ∅ ""
       (ServiceSpec_.mk "" ∅ "" None None None) (PodDisruptionBudgetSpec.mk None None) None "" "" "Delete")
    TechnitiumClusterStatus.empty.

(** A digest that tells images apart. *)
Definition example_hash (t : PodTemplateSpec.t) : string :=
  Join (map Container.Image (PodTemplateSpec.Containers t)) ",".

Definition created_sts (sts : StatefulSet.t) : StatefulSet.t :=
  StatefulSet.mk (ObjectMeta.mk (ObjectMeta.Name (StatefulSet.Meta sts)) (ObjectMeta.Namespace (StatefulSet.Meta sts))
      "uid-2" "1" 1 true false [] (ObjectMeta.Labels (StatefulSet.Meta sts)) (ObjectMeta.Annotations (StatefulSet.Meta sts))
      (ObjectMeta.OwnerReferences (StatefulSet.Meta sts)))
    (StatefulSet.Replicas sts) (StatefulSet.ServiceName sts) (StatefulSet.Selector sts)
    (StatefulSet.VolumeClaimTemplates sts) (StatefulSet.Template sts) (StatefulSet.UpdateStrategyType sts)
    (StatefulSet.RollingUpdate sts) (StatefulSet.Status sts).

(** The StatefulSet of a cluster as first created, and after an image change. *)
Definition example_sts (tc : TechnitiumCluster.t) (sts : StatefulSet.t) : StatefulSet.t :=
  match mutateStatefulSet "ops" example_hash tc tc sts with inr (s, _) => created_sts s | inl _ => sts end.
Definition deployed_sts : StatefulSet.t := example_sts (example_tc "technitium/dns-server:14.0" 3) (StatefulSet.new "ops" "dns").
Definition upgraded_sts : StatefulSet.t := example_sts (example_tc "technitium/dns-server:15.5" 3) deployed_sts.

Example template_change_parks_witness :
  current_partition upgraded_sts = Some 3.
Proof.
  assert (Hm : mutateStatefulSet "ops" example_hash (example_tc "technitium/dns-server:15.5" 3)
    (example_tc "technitium/dns-server:15.5" 3) deployed_sts = inr (upgraded_sts, true)) by (vm_compute; reflexivity).
  apply (template_change_parks "ops" example_hash _ _ _ _ _ Hm); [reflexivity|].
  vm_compute. reflexivity.
Defined.

Definition retained_secret : Secret.t :=
  Secret.mk (ObjectMeta.mk "dns-admin" "ops" "" "7" 0 true false [] ∅ ∅ []) "Opaque"
    {["username" := "admin"; "password" := "s3cret"; "token" := "tok"]}.

Example adminSecret_preserved_witness :
  exists secret', mutateAdminSecret (example_tc "" 1) (inr "new") retained_secret = inr (secret', tt).
Proof.
  apply (proj2 (adminSecret_preserved (example_tc "" 1) (inr "new") retained_secret) "new"); reflexivity.
Defined.
