(* ===== verification/Nodes.v ===== *)
(** * Credentials, pods and cluster membership of a TechnitiumCluster's nodes

    [internal/controller/technitiumcluster_controller.go]: [ensureToken],
    [resolveAdminSecret], [adminCredentials], [resolveClusterPods],
    [reconcileClustering], [refreshNodeIP] and the membership helpers. *)

From S2P Require Import Prelude GoStrings GoErrors Effects Kube Lifecycle ClusterAPI ClusterTypes ClusterKube Services Workload.

Local Open Scope string_scope.
Local Open Scope Z_scope.
Local Open Scope go_scope.
Local Open Scope prog_scope.

Definition nodeReadyState : string := "Ready".
Definition nodeNotReadyState : string := "NotReady".
Definition nodeSelfState : string := "Self".
Definition nodeConnectedState : string := "Connected".
Definition operatorTokenName : string := "technitium-operator".

Definition roleForOrdinal (ordinal : Z) : string := if ordinal =? 0 then "Primary" else "Secondary".

Definition findClusterMember (nodes : list ClusterNode.t) (name : string) : option ClusterNode.t :=
  List.find (fun n => HasPrefix (ClusterNode.Name n) (name +:+ ".")) nodes.

Definition nodeJoined (state : string) : bool :=
  (state =s? nodeReadyState) || (state =s? nodeSelfState) || (state =s? nodeConnectedState).

(** [slices.Contains] on strings. *)
Definition contains (l : list string) (s : string) : bool := existsb (String.eqb s) l.

(** The [%s] of an object key. *)
Definition key_text (k : ObjectKey) : string := KeyNamespace k +:+ "/" +:+ KeyName k.

Module clusterPodInfo.
Record t := mk { ip : string; ready : bool; revision : string; readySince : option Z }.
End clusterPodInfo.

Definition controllerRevisionHashLabel : string := "controller-revision-hash".

(** The first Ready condition that is True. *)
Definition ready_condition (pod : Pod.t) : option PodCondition.t :=
  List.find (fun c => (PodCondition.Type_ c =s? "Ready") && bool_decide (PodCondition.Status c = ConditionTrue))
    (Pod.Conditions pod).

Definition podInfo (pod : Pod.t) : clusterPodInfo.t :=
  let ready := match ready_condition pod with Some _ => true | None => false end in
  clusterPodInfo.mk (Pod.PodIP pod) (ready && negb (Pod.PodIP pod =s? ""))
    (lookup_or_empty controllerRevisionHashLabel (ObjectMeta.Labels (Pod.Meta pod)))
    (ready_condition pod ≫= PodCondition.LastTransitionTime).

(** The pod of a name: the map the code builds keeps the last. *)
Definition podNamed (pods : list Pod.t) (name : string) : option Pod.t :=
  List.find (fun p => ObjectMeta.Name (Pod.Meta p) =s? name) (rev pods).

Section nodes.
Context (OperatorNamespace : string).

Definition resolveAdminSecret (tc : TechnitiumCluster.t) : prog clusterE (fallible (Secret.t * ObjectKey)) :=
  let '(key, err) := adminSecretKeyFor tc OperatorNamespace in
  match err with
  | Some e => fail e
  | None =>
      g <- call (OnSecret (OGet key)) ;;
      match (g : fallible Secret.t) with
      | inl e => fail (wrapf ("getting admin secret " +:+ key_text key) e)
      | inr s => ok (s, key)
      end
  end.

(** The user name and the password of the Secret, or the error naming the
    missing key. *)
Definition secretCredentials (secret : Secret.t) (key : ObjectKey) : fallible (string * string) :=
  let missing k := EText ("admin secret " +:+ key_text key +:+ " has no " +:+ quoted k +:+ " key") in
  let u := lookup_or_empty adminSecretUsernameKey (Secret.Data secret) in
  let p := lookup_or_empty adminSecretPasswordKey (Secret.Data secret) in
  if u =s? "" then inl (missing adminSecretUsernameKey)
  else if p =s? "" then inl (missing adminSecretPasswordKey)
  else inr (u, p).

Definition adminCredentials (tc : TechnitiumCluster.t) : prog clusterE (fallible (string * string)) :=
  try (secret, key) <- resolveAdminSecret tc ;;
  Ret (secretCredentials secret key).

Definition rejectedCredentials (key : ObjectKey) (err : error) : error :=
  wrap_sentinel ErrAdminCredentialsRejected
    ("the password in admin secret " +:+ key_text key +:+ " does not match the one stored on the data volume, "
     +:+ "likely because the Secret was regenerated against a retained PVC "
     +:+ "(restore the original Secret or delete the PVCs): " +:+ Error err).

Definition ensureToken (tc : TechnitiumCluster.t) (endpoint : string) : prog clusterE (fallible bool) :=
  try (secret, key) <- resolveAdminSecret tc ;;
  if negb (lookup_or_empty adminSecretTokenKey (Secret.Data secret) =s? "") then ok true
  else
    match secretCredentials secret key with
    | inl e => fail e
    | inr (username, password) =>
        let l := {| l_endpoint := endpoint; l_username := username; l_password := password |} in
        c <- call (NewBootstrapClient l) ;;
        match (c : option error) with
        | Some e => fail (wrapf ("building bootstrap client for " +:+ endpoint) e)
        | None =>
            t <- call (CreateTokenAt l operatorTokenName) ;;
            match (t : fallible string) with
            | inl e =>
                if Is e ErrInvalidCredentials then fail (rejectedCredentials key e) else ok false
            | inr token =>
                let secret := Secret.with_Data secret (<[adminSecretTokenKey := token]> (Secret.Data secret)) in
                u <- call (OnSecret (OUpdate secret)) ;;
                match (u : fallible Secret.t) with
                | inl e => fail (wrapf ("writing admin token to secret " +:+ key_text key) e)
                | inr _ => ok true
                end
            end
        end
    end.

(** The pods of the ordinals below [n] that are listed. *)
Definition podInfos (name : string) (pods : list Pod.t) (n : Z) : gmap Z clusterPodInfo.t :=
  foldl (fun m i => match podNamed pods (podName name i) with
                    | Some pod => <[i := podInfo pod]> m
                    | None => m
                    end) ∅ (ordinals n).

Definition resolveClusterPods (tc : TechnitiumCluster.t) (desiredReplicas : Z)
  : prog clusterE (fallible (gmap Z clusterPodInfo.t)) :=
  let name := TechnitiumCluster.Name tc in
  l <- call (OnPod (OList OperatorNamespace (instanceLabels name))) ;;
  match (l : fallible (list Pod.t)) with
  | inl e => fail (wrapf ("listing pods for " +:+ name) e)
  | inr pods =>
      ok (podInfos name pods desiredReplicas)
  end.

(** The client of an ordinal. *)
Definition nodeLogin (tc : TechnitiumCluster.t) (username password : string) (ordinal : Z) : login :=
  {| l_endpoint := nodeEndpoint (TechnitiumCluster.Name tc) ordinal OperatorNamespace;
     l_username := username; l_password := password |}.

Definition getState (l : login) : prog clusterE (fallible ClusterState.t) := call (OnNode l NGetClusterState).

(** ** Node addresses *)

Definition selfEntry (state : ClusterState.t) : option ClusterNode.t :=
  List.find (fun n => ClusterNode.State n =s? nodeSelfState) (ClusterState.Nodes state).

(** Whether a clustered node must be told its address again. *)
Definition staleIP (state : ClusterState.t) (primaryView : option ClusterNode.t) (podIP : string) : bool :=
  ClusterState.ClusterInitialized state &&
  match selfEntry state with
  | None => false
  | Some self =>
      negb (contains (ClusterNode.IPAddresses self) podIP) ||
      match primaryView with
      | Some v => negb (contains (ClusterNode.IPAddresses v) podIP)
      | None => false
      end
  end.

Definition refreshNodeIP (tc : TechnitiumCluster.t) (ordinal : Z) (node : login) (state : ClusterState.t)
    (primaryView : option ClusterNode.t) (podIP : string) : prog clusterE (option error) :=
  if negb (staleIP state primaryView podIP) then Ret None
  else
    r <- call (OnNode node (NUpdateNodeIPAddresses [podIP])) ;;
    match (r : fallible ClusterState.t) with
    | inl e => Ret (Some (wrapf ("updating IP address of ordinal " +:+ Itoa ordinal +:+ " of "
                 +:+ TechnitiumCluster.Name tc +:+ " to " +:+ podIP) e))
    | inr _ => Ret None
    end.

(** ** Clustering *)

(** [pods[i]] when its pod is ready. *)
Definition readyPod (pods : gmap Z clusterPodInfo.t) (i : Z) : option clusterPodInfo.t :=
  pods !! i ≫= fun p => if clusterPodInfo.ready p then Some p else None.

(** The primary's state, after initialising its cluster if it had none. *)
Definition initPrimary (tc : TechnitiumCluster.t) (primary : login) (ip : string) (state : ClusterState.t)
  : prog clusterE (fallible ClusterState.t) :=
  let name := TechnitiumCluster.Name tc in
  if ClusterState.ClusterInitialized state then ok state
  else
    i <- call (OnNode primary (NInitCluster (InitClusterOptions.mk (clusterDomainFor tc) [ip]))) ;;
    match (match (i : fallible ClusterState.t) with
           | inl e => if Is e ErrClusterAlreadyInitialized then None else Some e
           | inr _ => None
           end) with
    | Some e => fail (wrapf ("initializing cluster on primary of " +:+ name) e)
    | None =>
        s <- getState primary ;;
        match s with
        | inl e => fail (wrapf ("reading cluster state of primary of " +:+ name +:+ " after init") e)
        | inr s => ok s
        end
    end.

Definition primaryURL (tc : TechnitiumCluster.t) (state : ClusterState.t) : string :=
  let name := if ClusterState.DNSServerDomain state =s? ""
              then TechnitiumCluster.Name tc +:+ "-0." +:+ clusterDomainFor tc
              else ClusterState.DNSServerDomain state in
  "https://" +:+ name +:+ ":53443/".

Definition joinOptions (tc : TechnitiumCluster.t) (state : ClusterState.t) (username password primaryIP ip : string)
  : InitJoinOptions.t :=
  InitJoinOptions.mk [ip] (primaryURL tc state) username password primaryIP true.

(** One iteration of the join loop: an error, or whether the node is in. *)
Definition joinSecondary (tc : TechnitiumCluster.t) (pods : gmap Z clusterPodInfo.t) (username password : string)
    (primaryIP : string) (primaryState : ClusterState.t) (i : Z) : prog clusterE (fallible bool) :=
  let name := TechnitiumCluster.Name tc in
  match readyPod pods i with
  | None => ok false
  | Some pod =>
      let node := nodeLogin tc username password i in
      c <- call (NewNodeClient node) ;;
      match (c : option error) with
      | Some e => fail (wrapf ("building node client for ordinal " +:+ Itoa i +:+ " of " +:+ name) e)
      | None =>
          s <- getState node ;;
          match s with
          | inl _ => ok false
          | inr state =>
              if ClusterState.ClusterInitialized state then
                checkV refreshNodeIP tc i node state
                         (findClusterMember (ClusterState.Nodes primaryState) (podName name i))
                         (clusterPodInfo.ip pod) ;;
                ok true
              else
                j <- call (OnNode node (NInitJoinCluster
                       (joinOptions tc primaryState username password primaryIP (clusterPodInfo.ip pod)))) ;;
                match (j : fallible ClusterState.t) with
                | inr _ => ok true
                | inl e =>
                    if Is e ErrClusterAlreadyInitialized then ok true
                    else fail (wrapf ("joining cluster as secondary ordinal " +:+ Itoa i +:+ " of " +:+ name) e)
                end
          end
      end
  end.

Fixpoint joinSecondaries (join : Z -> prog clusterE (fallible bool)) (l : list Z) (allJoined : bool)
  : prog clusterE (fallible bool) :=
  match l with
  | [] => ok allJoined
  | i :: l' => try joined <- join i ;; joinSecondaries join l' (allJoined && joined)
  end.

(** The secondaries [1 .. n-1]. *)
Definition secondaries (n : Z) : list Z := seqZ 1 (n - 1).

(** Every secondary is joined in the primary's view. *)
Definition converged (tc : TechnitiumCluster.t) (state : ClusterState.t) (desiredReplicas : Z) : bool :=
  forallb (fun i =>
    match findClusterMember (ClusterState.Nodes state) (podName (TechnitiumCluster.Name tc) i) with
    | Some member => nodeJoined (ClusterNode.State member)
    | None => false
    end) (secondaries desiredReplicas).

Definition reconcileClustering (tc : TechnitiumCluster.t) (desiredReplicas : Z) : prog clusterE (fallible bool) :=
  try (username, password) <- adminCredentials tc ;;
  try pods <- resolveClusterPods tc desiredReplicas ;;
  match readyPod pods 0 with
  | None => ok false
  | Some primaryPod =>
      let primary := nodeLogin tc username password primaryOrdinal in
      let primaryIP := clusterPodInfo.ip primaryPod in
      c <- call (NewNodeClient primary) ;;
      match (c : option error) with
      | Some e => fail (wrapf ("building node client for primary of " +:+ TechnitiumCluster.Name tc) e)
      | None =>
          s <- getState primary ;;
          match s with
          | inl _ => ok false
          | inr state =>
              try primaryState <- initPrimary tc primary primaryIP state ;;
              checkV refreshNodeIP tc primaryOrdinal primary primaryState None primaryIP ;;
              try allJoined <- joinSecondaries (joinSecondary tc pods username password primaryIP primaryState)
                                 (secondaries desiredReplicas) true ;;
              if negb allJoined then ok false
              else
                v <- getState primary ;;
                match v with
                | inl _ => ok false
                | inr convergedState => ok (converged tc convergedState desiredReplicas)
                end
          end
      end
  end.
End nodes.

(** ** The admin token *)

Section guarantees.
Context (OperatorNamespace : string).

Definition asks_token (c : clusterE) : bool := match c with CreateTokenAt _ _ => true | _ => false end.
Definition updates_secret (c : clusterE) : option Secret.t :=
  match c with OnSecret (OUpdate s) => Some s | _ => None end.
Definition has_token (s : Secret.t) : bool :=
  negb (lookup_or_empty adminSecretTokenKey (Secret.Data s) =s? "").

(** The Secret an event read. *)
Definition read_secret (e : event clusterE) : option Secret.t :=
  match e with existT (OnSecret (OGet _)) (inr s) => Some s | _ => None end.
(** The answer to a token request. *)
Definition token_answer (e : event clusterE) : option (fallible string) :=
  match e with existT (CreateTokenAt _ _) x => Some x | _ => None end.

(** C14: The admin token is minted once.  Whatever Kubernetes and the server
    answer: a Secret that already carries a token is neither given a new one
    nor written; the only write stores the token the server just minted and
    changes no other key; [ensureToken] reports a bootstrapped instance only
    when the token was there or its write was accepted; a server that rejects
    the credentials is reported as such, and any other refusal to mint a token
    is not an error but "not yet". *)
Theorem token_minted_once (tc : TechnitiumCluster.t) (endpoint : string) :
  always (ensureToken OperatorNamespace tc endpoint) (fun tr r =>
    forall secret, omap read_secret tr = [secret] ->
      (has_token secret = true -> r = inr true /\
         existsb asks_token (map projT1 tr) = false /\ omap updates_secret (map projT1 tr) = []) /\
      (forall secret', secret' ∈ omap updates_secret (map projT1 tr) ->
         has_token secret = false /\
         exists token, token_answer <$> tr !! 2%nat = Some (Some (inr token)) /\
           secret' = Secret.with_Data secret (<[adminSecretTokenKey := token]> (Secret.Data secret))) /\
      (r = inr true -> has_token secret = true \/
         exists secret' stored, In (ev (OnSecret (OUpdate secret') : clusterE) (inr stored)) tr) /\
      (forall e, token_answer <$> tr !! 2%nat = Some (Some (inl e)) ->
         if Is e ErrInvalidCredentials then exists err, r = inl err /\ Is err ErrAdminCredentialsRejected = true
         else r = inr false)).
Proof.
  unfold always, ensureToken, resolveAdminSecret.
  destruct (adminSecretKeyFor tc OperatorNamespace) as [key [e|]]; [by intros secret [=]|].
  cbn. intros [e|s]; cbn; [by intros secret [=]|].
  destruct (negb (lookup_or_empty adminSecretTokenKey (Secret.Data s) =s? "")) eqn:Et; cbn.
  { intros secret [= <-]. split; [by repeat split|]. split; [intros ? Hin; by apply elem_of_nil in Hin|].
    split; [by left|done]. }
  destruct (secretCredentials s key) as [e|[u p]]; cbn.
  { intros secret [= <-]. unfold has_token. rewrite Et. split; [done|].
    split; [intros ? Hin; by apply elem_of_nil in Hin|]. by split. }
  intros [e|]; cbn.
  { intros secret [= <-]. unfold has_token. rewrite Et. split; [done|].
    split; [intros ? Hin; by apply elem_of_nil in Hin|]. by split. }
  intros [e|token]; cbn.
  - destruct (Is e ErrInvalidCredentials) eqn:Ei; cbn; intros secret [= <-]; unfold has_token; rewrite Et;
      (split; [done|]); (split; [intros ? Hin; by apply elem_of_nil in Hin|]); (split; [done|]);
      intros e' [= <-]; rewrite Ei; [by eexists|done].
  - intros [e|stored]; cbn; intros secret [= <-]; unfold has_token; rewrite Et; (split; [done|]);
      (split; [intros secret' Hin; apply list_elem_of_singleton in Hin as ->; split; [done|by exists token]|]);
      (split; [|done]); [done|].
    intros _. right. eexists _, _. right. right. right. left. reflexivity.
Qed.
End guarantees.

(** ** The order of cluster formation *)

Section clustering.
Context (OperatorNamespace : string).

(** What a history has established: the nodes whose last report says they have
    no cluster, and whether the primary has one. *)
Record formation := { f_fresh : list login; f_primary : bool }.

(** [None]: the call was not justified.  A cluster is initialised on the
    primary only, after it reported none; a node joins only after it reported
    none, and once the primary has one. *)
Definition form (primary : login) (f : formation) (e : event clusterE) : option formation :=
  match e with
  | existT (OnNode l NGetClusterState) (inr state) =>
      if ClusterState.ClusterInitialized state
      then Some {| f_fresh := filter (fun l' => l' <> l) (f_fresh f);
                   f_primary := f_primary f || bool_decide (l = primary) |}
      else Some {| f_fresh := l :: f_fresh f; f_primary := f_primary f |}
  | existT (OnNode l (NInitCluster _)) x =>
      if bool_decide (l = primary /\ l ∈ f_fresh f)
      then Some {| f_fresh := f_fresh f;
                   f_primary := f_primary f || match (x : fallible ClusterState.t) with
                                               | inr _ => true
                                               | inl e => Is e ErrClusterAlreadyInitialized
                                               end |}
      else None
  | existT (OnNode l (NInitJoinCluster opts)) _ =>
      if f_primary f && bool_decide (l ∈ f_fresh f) then Some f else None
  | _ => Some f
  end.

Definition formed (primary : login) (tr : list (event clusterE)) : option formation :=
  foldl (fun f e => f ≫= fun f => form primary f e) (Some {| f_fresh := []; f_primary := false |}) tr.

Lemma formed_snoc primary tr e : formed primary (tr ++ [e]) = formed primary tr ≫= fun f => form primary f e.
Proof. unfold formed. by rewrite foldl_snoc. Qed.

(** The calls so far were justified, and the primary has a cluster. *)
Definition ready_to_join (primary : login) (tr : list (event clusterE)) : Prop :=
  exists f, formed primary tr = Some f /\ f_primary f = true.

(** Calls the monitor does not look at. *)
Definition unwatched (c : clusterE) : bool :=
  match c with
  | OnNode _ (NGetClusterState | NInitCluster _ | NInitJoinCluster _) => false
  | _ => true
  end.

Lemma form_unwatched primary f (e : event clusterE) : unwatched (projT1 e) = true -> form primary f e = Some f.
Proof. by destruct e as [[| | | | | | | | | | | |l []] x]. Qed.

Lemma ready_unwatched primary tr e :
  ready_to_join primary tr -> unwatched (projT1 e) = true -> ready_to_join primary (tr ++ [e]).
Proof.
  intros (f & Hf & Hp) Hu. exists f. split; [|done]. by rewrite formed_snoc, Hf; cbn; rewrite form_unwatched.
Qed.

Lemma ready_state primary tr l (x : fallible ClusterState.t) :
  ready_to_join primary tr -> ready_to_join primary (tr ++ [ev (OnNode l NGetClusterState : clusterE) x]).
Proof.
  intros (f & Hf & Hp). unfold ready_to_join. rewrite formed_snoc, Hf. destruct x as [e|state]; cbn; [by exists f|].
  destruct (ClusterState.ClusterInitialized state); eexists; (split; [done|]); cbn; by rewrite Hp.
Qed.

Lemma holds_refresh tc i node state view ip primary tr :
  ready_to_join primary tr ->
  holds (refreshNodeIP tc i node state view ip) tr (fun tr' _ => ready_to_join primary tr').
Proof.
  intros Hr. unfold refreshNodeIP. destruct (negb _); [done|]. cbn.
  intros [e|s]; cbn; by apply ready_unwatched.
Qed.

Lemma holds_joinSecondary tc pods u p ip state i primary tr :
  ready_to_join primary tr ->
  holds (joinSecondary OperatorNamespace tc pods u p ip state i) tr (fun tr' _ => ready_to_join primary tr').
Proof.
  intros Hr. unfold joinSecondary. destruct (readyPod pods i) as [pod|]; [|done]. cbn.
  set (node := nodeLogin _ _ _ _ _). intros [e|]; cbn.
  { by apply ready_unwatched. }
  assert (Hr1 : ready_to_join primary (tr ++ [ev (NewNodeClient node : clusterE) None])) by by apply ready_unwatched.
  intros [e|s]; cbn; [by apply ready_state|].
  destruct (ClusterState.ClusterInitialized s) eqn:Es.
  - apply holds_bind. eapply holds_mono; [|apply holds_refresh, ready_state, Hr1].
    by intros tr' [e|] Hr'.
  - assert (Hj : forall x, ready_to_join primary (((tr ++ [ev (NewNodeClient node : clusterE) None])
        ++ [ev (OnNode node NGetClusterState : clusterE) (inr s)])
        ++ [ev (OnNode node (NInitJoinCluster (joinOptions tc state u p ip (clusterPodInfo.ip pod))) : clusterE) x])%list).
    { intros x. destruct Hr1 as (f & Hf & Hp).
      exists {| f_fresh := node :: f_fresh f; f_primary := f_primary f |}.
      split; [|exact Hp]. rewrite 2!formed_snoc, Hf. cbn. rewrite Es. cbn.
      rewrite Hp, bool_decide_true by left. done. }
    cbn. intros [e|s']; cbn; [|apply Hj]. destruct (Is e _); cbn; apply Hj.
Qed.

Lemma holds_joinSecondaries primary (join : Z -> prog clusterE (fallible bool)) (l : list Z) :
  (forall i tr, ready_to_join primary tr -> holds (join i) tr (fun tr' _ => ready_to_join primary tr')) ->
  forall b tr, ready_to_join primary tr ->
  holds (joinSecondaries join l b) tr (fun tr' _ => ready_to_join primary tr').
Proof.
  intros Hj. induction l as [|i l IH]; intros b tr Hr; [done|]. cbn.
  apply holds_bind. eapply holds_mono; [|by apply Hj].
  intros tr' [e|x] Hr'; [done|]. by apply IH.
Qed.

(** Bringing the primary up establishes that it has a cluster. *)
Lemma holds_initPrimary tc primary ip state tr f :
  formed primary tr = Some f ->
  (if ClusterState.ClusterInitialized state then f_primary f = true else primary ∈ f_fresh f) ->
  holds (initPrimary tc primary ip state) tr (fun tr' r =>
    match r with inl _ => is_Some (formed primary tr') | inr _ => ready_to_join primary tr' end).
Proof.
  intros Hf Hs. unfold initPrimary. destruct (ClusterState.ClusterInitialized state); cbn; [by exists f|].
  set (c := OnNode primary (NInitCluster _)).
  assert (Hi : forall x : fallible ClusterState.t, exists f', formed primary (tr ++ [ev (c : clusterE) x]) = Some f' /\
      f_primary f' = f_primary f || match x with inr _ => true | inl e => Is e ErrClusterAlreadyInitialized end).
  { intros x. eexists. rewrite formed_snoc, Hf. cbn. by rewrite bool_decide_true. }
  intros x. destruct (Hi x) as (f' & Hf' & Hp').
  assert (Hr : match x with inr _ => true | inl e => Is e ErrClusterAlreadyInitialized end = true ->
    ready_to_join primary (tr ++ [ev (c : clusterE) x])).
  { intros E. rewrite E, orb_true_r in Hp'. by exists f'. }
  assert (Hg : ready_to_join primary (tr ++ [ev (c : clusterE) x]) ->
    forall y : fallible ClusterState.t,
      ready_to_join primary ((tr ++ [ev (c : clusterE) x]) ++ [ev (OnNode primary NGetClusterState : clusterE) y])).
  { intros H y. by apply ready_state. }
  destruct x as [e|s0]; cbn.
  - destruct (Is e ErrClusterAlreadyInitialized) eqn:Ei; cbn; [|by exists f'].
    intros [e'|s]; cbn; [|by apply Hg, Hr].
    destruct (Hg (Hr eq_refl) (inl e')) as (f2 & -> & _). by eexists.
  - intros [e'|s]; cbn; [|by apply Hg, Hr].
    destruct (Hg (Hr eq_refl) (inl e')) as (f2 & -> & _). by eexists.
Qed.

Lemma formed_unwatched primary tr e f :
  formed primary tr = Some f -> unwatched (projT1 e) = true -> formed primary (tr ++ [e]) = Some f.
Proof. intros Hf Hu. rewrite formed_snoc, Hf. by apply form_unwatched. Qed.

(** What every continuation of a history keeps of its first event. *)
Lemma holds_head {R : Type} (p : prog clusterE R) (e : event clusterE) (tr : list (event clusterE)) :
  holds p (e :: tr) (fun tr' _ => head tr' = Some e).
Proof. eapply holds_mono; [|apply holds_extends]. by intros tr' r (ext & ->). Qed.

(** The primary of a deployment whose admin Secret is [secret]. *)
Definition primary_of (tc : TechnitiumCluster.t) (secret : Secret.t) : login :=
  nodeLogin OperatorNamespace tc (lookup_or_empty adminSecretUsernameKey (Secret.Data secret))
    (lookup_or_empty adminSecretPasswordKey (Secret.Data secret)) primaryOrdinal.

(** The calls were justified, and success rests on the primary's last report. *)
Definition formation_ok (tc : TechnitiumCluster.t) (n : Z) (primary : login)
    (tr : list (event clusterE)) (r : fallible bool) : Prop :=
  is_Some (formed primary tr) /\
  (r = inr true -> exists state,
     last tr = Some (ev (OnNode primary NGetClusterState : clusterE) (inr state)) /\ converged tc state n = true).

Lemma formation_fail tc n primary tr r f :
  formed primary tr = Some f -> r <> inr true -> formation_ok tc n primary tr r.
Proof. intros Hf Hr. split; [by exists f|done]. Qed.

Lemma ready_formation_fail tc n primary tr r :
  ready_to_join primary tr -> r <> inr true -> formation_ok tc n primary tr r.
Proof. intros (f & Hf & _). by apply formation_fail with f. Qed.

Lemma formation_last tc n primary tr (x : fallible ClusterState.t) :
  ready_to_join primary tr ->
  formation_ok tc n primary (tr ++ [ev (OnNode primary NGetClusterState : clusterE) x])
    (match x with inl _ => inr false | inr state => inr (converged tc state n) end).
Proof.
  intros Hr. destruct (ready_state primary tr primary x Hr) as (f & Hf & _). split; [by exists f|].
  destruct x as [e|state]; [done|]. intros [= Hc]. exists state. split; [|done]. by rewrite last_snoc.
Qed.

(** The whole of [reconcileClustering], from its first read of the primary. *)
Lemma holds_clustered tc n pods u p ip state tr :
  let primary := nodeLogin OperatorNamespace tc u p primaryOrdinal in
  formed primary tr = Some {| f_fresh := []; f_primary := false |} ->
  holds (try primaryState <- initPrimary tc primary ip state ;;
         checkV refreshNodeIP tc primaryOrdinal primary primaryState None ip ;;
         try allJoined <- joinSecondaries (joinSecondary OperatorNamespace tc pods u p ip primaryState)
                            (secondaries n) true ;;
         if negb allJoined then ok false
         else
           v <- getState primary ;;
           match v with
           | inl _ => ok false
           | inr convergedState => ok (converged tc convergedState n)
           end)
    (tr ++ [ev (OnNode primary NGetClusterState : clusterE) (inr state)])
    (formation_ok tc n primary).
Proof.
  intros primary Hf.
  assert (Hs : exists f, formed primary (tr ++ [ev (OnNode primary NGetClusterState : clusterE) (inr state)]) = Some f /\
    (if ClusterState.ClusterInitialized state then f_primary f = true else primary ∈ f_fresh f)).
  { rewrite formed_snoc, Hf. cbn. destruct (ClusterState.ClusterInitialized state); eexists; (split; [done|]); cbn.
    - by rewrite bool_decide_true.
    - by apply list_elem_of_singleton. }
  destruct Hs as (f & Hf1 & Hs). apply holds_bind. eapply holds_mono; [|by eapply holds_initPrimary].
  intros tr1 [e|st] Hr1; cbn.
  { destruct Hr1 as [f1 Hf2]. by apply formation_fail with f1. }
  apply holds_bind. eapply holds_mono; [|by apply holds_refresh].
  intros tr2 [e|] Hr2; cbn; [by apply ready_formation_fail|].
  apply holds_bind. eapply holds_mono; [|apply (holds_joinSecondaries primary); [|exact Hr2]].
  2: { intros i tr' Hr'. by apply holds_joinSecondary. }
  intros tr3 [e|[]] Hr3; cbn; [by apply ready_formation_fail| |by apply ready_formation_fail].
  intros x. pose proof (formation_last tc n primary tr3 x Hr3) as Hl. by destruct x.
Qed.

(** C15: Clusters form in order, and "clustered" means connected.  Whatever the
    nodes and the API server answer: nothing is asked of any node unless the
    admin Secret was read first; a cluster is initialised only on the primary,
    and only after it reported that it has none; a secondary joins only after
    it reported that it has none, and once the primary has one; and
    [reconcileClustering] reports success only when its last read of the
    primary's state lists every secondary as joined. *)
Theorem clustering_ordered (tc : TechnitiumCluster.t) (n : Z) :
  always (reconcileClustering OperatorNamespace tc n) (fun tr r =>
    match head tr ≫= read_secret with
    | None => (length tr <= 1)%nat /\ exists e, r = inl e
    | Some secret => formation_ok tc n (primary_of tc secret) tr r
    end).
Proof.
  unfold always, reconcileClustering, adminCredentials, resolveAdminSecret.
  destruct (adminSecretKeyFor tc OperatorNamespace) as [key [e|]]; [by split; [cbn; lia|eexists]|].
  cbn. intros [e|s]; cbn; [by split; [cbn; lia|eexists]|].
  set (e0 := ev (OnSecret (OGet key) : clusterE) (inr s)).
  assert (Hw : forall P : prog clusterE (fallible bool),
    holds P [e0] (formation_ok tc n (primary_of tc s)) ->
    holds P [e0] (fun tr r => match head tr ≫= read_secret with
      | None => (length tr <= 1)%nat /\ exists e, r = inl e
      | Some secret => formation_ok tc n (primary_of tc secret) tr r
      end)).
  { intros P HP. eapply holds_mono; [|apply holds_conj; [apply HP|apply holds_head]].
    cbn. by intros tr r [Hok ->]. }
  apply Hw. clear Hw. subst e0.
  unfold primary_of, secretCredentials.
  destruct (_ =s? "") eqn:Eu; [by eapply formation_fail|].
  set (u := lookup_or_empty adminSecretUsernameKey (Secret.Data s)).
  set (p := lookup_or_empty adminSecretPasswordKey (Secret.Data s)).
  destruct (p =s? "") eqn:Ep; [by eapply formation_fail|].
  cbn. intros [e|l]; cbn; [by eapply formation_fail|].
  set (pods := podInfos _ _ _). destruct (readyPod pods 0) as [pod|]; [|by eapply formation_fail].
  cbn. set (primary := nodeLogin _ _ _ _ _).
  intros [e|]; cbn; [by eapply formation_fail|].
  intros [e|state]; cbn; [by eapply formation_fail|].
  exact (holds_clustered tc n pods u p (clusterPodInfo.ip pod) state
    [ev (OnSecret (OGet key) : clusterE) (inr s);
     ev (OnPod (OList OperatorNamespace (instanceLabels (TechnitiumCluster.Name tc))) : clusterE) (inr l);
     ev (NewNodeClient primary : clusterE) None] eq_refl).
Qed.
End clustering.
