(* ===== verification/Rollout.v ===== *)
(** * Upgrading a TechnitiumCluster one node at a time

    [internal/controller/technitiumcluster_rollout.go]: the gate a restarted
    node must pass, and the walk of the StatefulSet's partition.  Single
    passes are followed by the system they make together with Kubernetes, as a
    transition system, with what it keeps and that it finishes. *)

From S2P Require Import Prelude GoStrings GoErrors Effects Version Kube Lifecycle ClusterAPI ClusterTypes ClusterKube Services Workload Nodes.

Local Open Scope string_scope.
Local Open Scope Z_scope.
Local Open Scope go_scope.
Local Open Scope prog_scope.

Definition reasonRollingOut : string := "RollingOut".
Definition reasonUpToDate : string := "UpToDate".
Definition reasonUpgradeStalled : string := "Stalled".
Definition reasonDowngradeBlocked : string := "DowngradeBlocked".
Definition degradedUpgradeStall : string := "UpgradeStalled".

(** Ten minutes, in nanoseconds. *)
Definition nanosecond_per_second : Z := 1000000000.
Definition defaultUpgradeStallTimeout : Z := 600 * nanosecond_per_second.

(** [time.Duration.String] of a whole number of seconds. *)
Definition duration_text (seconds : Z) : string :=
  let h := seconds / 3600 in
  let m := seconds mod 3600 / 60 in
  let s := Itoa (seconds mod 60) +:+ "s" in
  if h =? 0 then (if m =? 0 then s else Itoa m +:+ "m" +:+ s)
  else Itoa h +:+ "h" +:+ Itoa m +:+ "m" +:+ s.

Module rolloutState.
Record t := mk {
  status : ConditionStatus;
  reason : string;
  message : string;
  bookmark : option RolloutStatus.t;
  degradedReason : string;
  degradedMessage : string
}.
End rolloutState.

(** The gate's settings; the Primary's state it has read so far, if it has,
    is passed along. *)
Module rolloutGate.
Record t := mk {
  tc : TechnitiumCluster.t;
  username : string;
  password : string;
  pods : gmap Z clusterPodInfo.t;
  revision : string;
  target : option Version;  (** [None]: [checkVersion] is false *)
  replicas : Z
}.
End rolloutGate.

Definition memo : Type := option (fallible ClusterState.t).

Section rollout.
Context `{KubeLib}.
Context (OperatorNamespace : string) (StallTimeout : Z).

Definition stallTimeout : Z := if 0 <? StallTimeout then StallTimeout else defaultUpgradeStallTimeout.

Definition gateLogin (g : rolloutGate.t) (ordinal : Z) : login :=
  nodeLogin OperatorNamespace (rolloutGate.tc g) (rolloutGate.username g) (rolloutGate.password g) ordinal.

(** A new client of an ordinal, and its cluster state. *)
Definition primary (g : rolloutGate.t) (m : memo) : prog clusterE (fallible ClusterState.t * memo) :=
  match m with
  | Some s => Ret (s, m)
  | None =>
      c <- call (NewNodeClient (gateLogin g primaryOrdinal)) ;;
      match (c : option error) with
      | Some e => Ret (inl e, Some (inl e))
      | None => s <- getState (gateLogin g primaryOrdinal) ;; Ret (s, Some s)
      end
  end.

(** The pod is on the new revision and Ready, or why not. *)
Definition podGate (g : rolloutGate.t) (ordinal : Z) : string + clusterPodInfo.t :=
  match rolloutGate.pods g !! ordinal with
  | None => inl "its pod does not exist yet"
  | Some pod =>
      if negb (clusterPodInfo.revision pod =s? rolloutGate.revision g)
      then inl "its pod has not been recreated on the new revision"
      else if negb (clusterPodInfo.ready pod) then inl "its pod is not Ready"
      else inr pod
  end.

(** The node's own report against the target version. *)
Definition versionGate (target : Version) (state : fallible ClusterState.t) : option string :=
  match state with
  | inl e => Some ("its API is not reachable: " +:+ Error e)
  | inr s =>
      if bool_decide (ParseVersion (ClusterState.Version s) = Some target) then None
      else Some ("it reports version " +:+ quoted (ClusterState.Version s) +:+ ", not " +:+ version_String target)
  end.

(** The Primary's report against the pod that restarted. *)
Definition memberGate (name : string) (pod : clusterPodInfo.t) (ps : fallible ClusterState.t) : option string :=
  match ps with
  | inl e => Some ("the Primary's cluster state is not readable: " +:+ Error e)
  | inr s =>
      if negb (ClusterState.ClusterInitialized s) then None
      else
        match findClusterMember (ClusterState.Nodes s) name with
        | None => Some "it is not Connected in the Primary's cluster state"
        | Some member =>
            if negb (ClusterNode.State member =s? nodeConnectedState)
            then Some "it is not Connected in the Primary's cluster state"
            else if negb (contains (ClusterNode.IPAddresses member) (clusterPodInfo.ip pod))
            then Some "the Primary has not yet recorded its new pod IP"
            else
              match clusterPodInfo.readySince pod with
              | None => None
              | Some since =>
                  if match ClusterNode.LastSeen member with Some seen => since <? seen | None => false end
                  then None else Some "the Primary has not seen it since its pod restarted"
              end
        end
  end.

(** [check]: [None] when the node passes, or why it does not. *)
Definition gateVersion (g : rolloutGate.t) (ordinal : Z) : prog clusterE (option string) :=
  match rolloutGate.target g with
  | None => Ret None
  | Some target =>
      c <- call (NewNodeClient (gateLogin g ordinal)) ;;
      match (c : option error) with
      | Some e => Ret (Some ("building a client failed: " +:+ Error e))
      | None => s <- getState (gateLogin g ordinal) ;; Ret (versionGate target s)
      end
  end.

Definition gate_check (g : rolloutGate.t) (m : memo) (ordinal : Z) : prog clusterE (option string * memo) :=
  match podGate g ordinal with
  | inl why => Ret (Some why, m)
  | inr pod =>
      v <- gateVersion g ordinal ;;
      match v with
      | Some why => Ret (Some why, m)
      | None =>
          if negb (ordinal =? primaryOrdinal) && (1 <? rolloutGate.replicas g) then
            r <- primary g m ;;
            let '(ps, m) := r in
            Ret (memberGate (podName (TechnitiumCluster.Name (rolloutGate.tc g)) ordinal) pod ps, m)
          else Ret (None, m)
      end
  end.

(** Every released ordinal is checked: [gated] and [reasons]. *)
Fixpoint check_released (g : rolloutGate.t) (m : memo) (l : list Z) : prog clusterE (list (Z * option string)) :=
  match l with
  | [] => Ret []
  | i :: l' =>
      r <- gate_check g m i ;;
      let '(why, m) := r in
      rest <- check_released g m l' ;;
      Ret ((i, why) :: rest)
  end.

(** The released ordinals [partition .. replicas-1]. *)
Definition released_ordinals (partition replicas : Z) : list Z := seqZ partition (replicas - partition).

Definition replicas_of (sts : StatefulSet.t) : Z := default 1 (StatefulSet.Replicas sts).
Definition partition_of (sts : StatefulSet.t) : Z := default 0 (current_partition sts).

(** The new image's version, when its tag has one, and its name in messages. *)
Definition targetVersion (sts : StatefulSet.t) : option Version := ParseImageVersion (templateImage sts).
Definition targetLabel (sts : StatefulSet.t) : string :=
  match targetVersion sts with Some v => version_String v | None => templateImage sts end.

Definition wasUpgrading (tc : TechnitiumCluster.t) : bool :=
  match FindStatusCondition (TechnitiumClusterStatus.Conditions (TechnitiumCluster.Status tc)) TechnitiumClusterConditionUpgrading with
  | Some c => bool_decide (Condition.Status c = ConditionTrue)
  | None => false
  end.
Definition revisionsDiffer (sts : StatefulSet.t) : bool :=
  let s := StatefulSet.Status sts in
  negb (StatefulSetStatus.CurrentRevision s =s? "") && negb (StatefulSetStatus.UpdateRevision s =s? "")
  && negb (StatefulSetStatus.CurrentRevision s =s? StatefulSetStatus.UpdateRevision s).

Definition idle (sts : StatefulSet.t) : rolloutState.t :=
  rolloutState.mk ConditionFalse reasonUpToDate ("Every node runs " +:+ targetLabel sts) None "" "".
Definition rolling (tc : TechnitiumCluster.t) (message : string) : rolloutState.t :=
  rolloutState.mk ConditionTrue reasonRollingOut message
    (TechnitiumClusterStatus.Rollout (TechnitiumCluster.Status tc)) "" "".

(** [Time.Truncate(time.Second)]. *)
Definition truncate_second (t : Z) : Z := t - t mod nanosecond_per_second.

(** The report on the node being waited on, the clock read [now]. *)
Definition pendingState (tc : TechnitiumCluster.t) (sts : StatefulSet.t) (updated : Z) (pending : Z)
    (why : string) (started now : Z) : rolloutState.t :=
  let node := podName (TechnitiumCluster.Name tc) pending in
  let bookmark := Some (RolloutStatus.mk node started) in
  let waited := now - started in
  if stallTimeout <? waited then
    let message := "Upgrade to " +:+ targetLabel sts +:+ " is stalled on " +:+ node +:+ " after "
      +:+ duration_text (waited / nanosecond_per_second) +:+ ": " +:+ why
      +:+ ". No further nodes will be restarted until it recovers" in
    rolloutState.mk ConditionTrue reasonUpgradeStalled message bookmark degradedUpgradeStall message
  else
    rolloutState.mk ConditionTrue reasonRollingOut
      ("Upgrading " +:+ node +:+ " to " +:+ targetLabel sts +:+ " (" +:+ Itoa updated +:+ "/"
       +:+ Itoa (replicas_of sts) +:+ " nodes updated)") bookmark "" "".

(** When the wait for a node began. *)
Definition startedWaiting (tc : TechnitiumCluster.t) (pending now : Z) : Z :=
  match TechnitiumClusterStatus.Rollout (TechnitiumCluster.Status tc) with
  | Some b => if RolloutStatus.Node b =s? podName (TechnitiumCluster.Name tc) pending
              then RolloutStatus.NodeStartedTime b else truncate_second now
  | None => truncate_second now
  end.

(** Lowering the partition; the answer is the object the cluster now has. *)
Definition release (sts : StatefulSet.t) (to : Z) : prog clusterE (fallible StatefulSet.t) :=
  p <- call (OnSts (OPatch (StatefulSet.with_RollingUpdate sts (Some (Some to))))) ;;
  match (p : fallible StatefulSet.t) with
  | inl e => fail (wrapf ("lowering partition of StatefulSet " +:+ ObjectMeta.Name (StatefulSet.Meta sts)
                          +:+ " to " +:+ Itoa to) e)
  | inr s => ok s
  end.

(** The first released node that did not pass. *)
Definition first_pending (checked : list (Z * option string)) : option (Z * string) :=
  head (omap (fun '(i, why) => (fun w => (i, w)) <$> why) checked).
Definition count_passed (checked : list (Z * option string)) : Z :=
  Z.of_nat (length (filter (fun c => c.2 = None) checked)).

(** The part of [walkRollout] that follows the checks. *)
Definition advance (tc : TechnitiumCluster.t) (sts : StatefulSet.t) (partition : Z)
    (checked : list (Z * option string)) : prog clusterE (fallible (rolloutState.t * StatefulSet.t)) :=
  let updated := count_passed checked in
  now <- call Now ;;
  match first_pending checked with
  | None =>
      if 0 <? partition then
        let next := partition - 1 in
        try sts' <- release sts next ;;
        now' <- call Now ;;
        ok (pendingState tc sts updated next "its pod has not been recreated on the new revision"
              (truncate_second now) now', sts')
      else ok (idle sts, sts)
  | Some (pending, why) =>
      now' <- call Now ;;
      ok (pendingState tc sts updated pending why (startedWaiting tc pending now) now', sts)
  end.

(** The StatefulSet has nothing to roll out. *)
Definition nothing_to_do (tc : TechnitiumCluster.t) (out : statefulSetOutcome.t) : bool :=
  let sts := statefulSetOutcome.sts out in
  negb (statefulSetOutcome.templateChanged out) && (partition_of sts =? 0) && negb (wasUpgrading tc)
  && negb (revisionsDiffer sts).

(** Its controller has not seen the new template. *)
Definition unobserved (sts : StatefulSet.t) : bool :=
  (StatefulSetStatus.ObservedGeneration (StatefulSet.Status sts) <? ObjectMeta.Generation (StatefulSet.Meta sts))
  || (StatefulSetStatus.UpdateRevision (StatefulSet.Status sts) =s? "").

Definition walkRollout (tc : TechnitiumCluster.t) (out : statefulSetOutcome.t)
  : prog clusterE (fallible (rolloutState.t * StatefulSet.t)) :=
  let sts := statefulSetOutcome.sts out in
  let replicas := replicas_of sts in
  if nothing_to_do tc out then ok (idle sts, sts)
  else if statefulSetOutcome.templateChanged out
  then ok (rolling tc ("Starting upgrade to " +:+ targetLabel sts), sts)
  else if unobserved sts
  then ok (rolling tc ("Waiting for the StatefulSet controller to observe the upgrade to " +:+ targetLabel sts), sts)
  else
    try (username, password) <- adminCredentials OperatorNamespace tc ;;
    try pods <- resolveClusterPods OperatorNamespace tc replicas ;;
    let g := rolloutGate.mk tc username password pods
               (StatefulSetStatus.UpdateRevision (StatefulSet.Status sts)) (targetVersion sts) replicas in
    let partition := Z.min (partition_of sts) replicas in
    checked <- check_released g None (released_ordinals partition replicas) ;;
    advance tc sts partition checked.

(** A refused downgrade is reported on top of the walk. *)
Definition blocked (downgrade : option downgradeBlock.t) (s : rolloutState.t) : rolloutState.t :=
  match downgrade with
  | None => s
  | Some d =>
      let m := downgradeBlock.message d in
      let stopped := bool_decide (rolloutState.status s = ConditionFalse) in
      rolloutState.mk (rolloutState.status s)
        (if stopped then reasonDowngradeBlocked else rolloutState.reason s)
        (if stopped then m else rolloutState.message s)
        (rolloutState.bookmark s) reasonDowngradeBlocked m
  end.

Definition reconcileRollout (tc : TechnitiumCluster.t) (out : statefulSetOutcome.t)
  : prog clusterE (fallible (rolloutState.t * StatefulSet.t)) :=
  try (s, sts) <- walkRollout tc out ;;
  ok (blocked (statefulSetOutcome.downgrade out) s, sts).
End rollout.

(** ** A single pass *)

Section pass.
Context `{KubeLib}.
Context (OperatorNamespace : string) (StallTimeout : Z).

(** The StatefulSets written. *)
Definition patch_of (c : clusterE) : option StatefulSet.t :=
  match c with OnSts (OPatch s) => Some s | _ => None end.
Definition patches (tr : list (event clusterE)) : list StatefulSet.t := omap patch_of (map projT1 tr).

(** Calls that change nothing. *)
Definition reads_only (c : clusterE) : bool :=
  match c with
  | OnSecret (OGet _) | OnPod (OList _ _) | NewNodeClient _ | OnNode _ NGetClusterState | Now => true
  | _ => false
  end.

Lemma patches_app tr tr' : patches (tr ++ tr') = (patches tr ++ patches tr')%list.
Proof. unfold patches. by rewrite map_app, omap_app. Qed.

(** The cluster state the node of [l] reported. *)
Definition reported (tr : list (event clusterE)) (l : login) (s : ClusterState.t) : Prop :=
  In (ev (OnNode l NGetClusterState : clusterE) (inr s)) tr.

(** What the Primary must say of a Secondary whose pod restarted. *)
Definition rejoined (name : string) (pod : clusterPodInfo.t) (ps : ClusterState.t) : Prop :=
  ClusterState.ClusterInitialized ps = true ->
  exists member, findClusterMember (ClusterState.Nodes ps) name = Some member /\
    ClusterNode.State member = nodeConnectedState /\
    In (clusterPodInfo.ip pod) (ClusterNode.IPAddresses member) /\
    forall since, clusterPodInfo.readySince pod = Some since ->
      exists seen, ClusterNode.LastSeen member = Some seen /\ since < seen.

(** The history shows that the node of [ordinal] has been upgraded. *)
Definition upgraded (g : rolloutGate.t) (tr : list (event clusterE)) (ordinal : Z) : Prop :=
  exists pod, rolloutGate.pods g !! ordinal = Some pod /\
    clusterPodInfo.revision pod = rolloutGate.revision g /\ clusterPodInfo.ready pod = true /\
    (forall v, rolloutGate.target g = Some v ->
       exists s, reported tr (gateLogin OperatorNamespace g ordinal) s /\
                 ParseVersion (ClusterState.Version s) = Some v) /\
    (ordinal <> primaryOrdinal -> 1 < rolloutGate.replicas g ->
       exists ps, reported tr (gateLogin OperatorNamespace g primaryOrdinal) ps /\
         rejoined (podName (TechnitiumCluster.Name (rolloutGate.tc g)) ordinal) pod ps).

Lemma upgraded_mono g tr ext i : upgraded g tr i -> upgraded g (tr ++ ext) i.
Proof.
  intros (pod & Hp & Hr & Hy & Hv & Hm). exists pod. split_and!; [done..| |].
  - intros v Ev. destruct (Hv v Ev) as (s & Hs & Es). exists s. split; [|done]. apply in_or_app. by left.
  - intros Hi Hn. destruct (Hm Hi Hn) as (ps & Hs & Es). exists ps. split; [|done]. apply in_or_app. by left.
Qed.

Lemma podGate_inr g i pod :
  podGate g i = inr pod ->
  rolloutGate.pods g !! i = Some pod /\ clusterPodInfo.revision pod = rolloutGate.revision g /\
  clusterPodInfo.ready pod = true.
Proof.
  unfold podGate. destruct (rolloutGate.pods g !! i) as [p|]; [|done].
  destruct (_ =s? _) eqn:Er; [|done]. cbn. destruct (clusterPodInfo.ready p) eqn:Ey; [|done]. cbn.
  intros [= <-]. split_and!; [done| |done]. by apply String.eqb_eq.
Qed.

Lemma versionGate_None v s :
  versionGate v s = None -> exists s', s = inr s' /\ ParseVersion (ClusterState.Version s') = Some v.
Proof. destruct s as [e|s]; [done|]. cbn. case_bool_decide; [|done]. by exists s. Qed.

Lemma contains_In l s : contains l s = true -> In s l.
Proof. unfold contains. intros Hc. apply existsb_exists in Hc as (x & Hx & E). apply String.eqb_eq in E. by subst. Qed.

Lemma memberGate_None name pod s :
  memberGate name pod s = None -> exists s', s = inr s' /\ rejoined name pod s'.
Proof.
  destruct s as [e|s]; [done|]. cbn. intros Hm. exists s. split; [done|]. intros Hi. rewrite Hi in Hm. cbn in Hm.
  destruct (findClusterMember _ _) as [member|]; [|done]. exists member. split; [done|].
  destruct (ClusterNode.State member =s? nodeConnectedState) eqn:Es; [|done]. cbn in Hm.
  destruct (contains _ _) eqn:Ec; [|done]. cbn in Hm.
  split; [by apply String.eqb_eq|]. split; [by apply contains_In|].
  intros since Hs. rewrite Hs in Hm. destruct (ClusterNode.LastSeen member) as [seen|]; [|done].
  exists seen. split; [done|]. destruct (since <? seen) eqn:El; [by apply Z.ltb_lt|done].
Qed.

(** What the memo holds was reported. *)
Definition memo_ok (g : rolloutGate.t) (m : memo) (tr : list (event clusterE)) : Prop :=
  forall s, m = Some (inr s) -> reported tr (gateLogin OperatorNamespace g primaryOrdinal) s.

Lemma memo_ok_mono g m tr ext : memo_ok g m tr -> memo_ok g m (tr ++ ext).
Proof. intros Hm s Hs. apply in_or_app. left. by apply Hm. Qed.

Definition not_reading (c : clusterE) : Prop := reads_only c = false.

Lemma primary_avoids g m : avoids not_reading (primary OperatorNamespace g m).
Proof. destruct m; cbn; [done|]. split; [done|]. intros [e|]; cbn; [done|]. by split. Qed.

Lemma gate_check_avoids g m i : avoids not_reading (gate_check OperatorNamespace g m i).
Proof.
  unfold gate_check. destruct (podGate g i); [done|]. apply avoids_bind.
  - unfold gateVersion. destruct (rolloutGate.target g); [|done]. cbn. split; [done|].
    intros [e|]; cbn; [done|]. by split.
  - intros [why|]; [done|]. destruct (_ && _); [|done].
    apply avoids_bind; [apply primary_avoids|]. by intros [ps m'].
Qed.

Lemma check_released_avoids g l : forall m, avoids not_reading (check_released OperatorNamespace g m l).
Proof.
  induction l as [|i l IH]; intros m; cbn; [done|]. apply avoids_bind; [apply gate_check_avoids|].
  intros [why m']. apply avoids_bind; [apply IH|done].
Qed.

Lemma reading_no_patches ext : Forall (fun e : event clusterE => ~ not_reading (projT1 e)) ext -> patches ext = [].
Proof.
  induction ext as [|e ext IH]; intros Hf; [done|]. inversion Hf as [|e' l Hn Hf' [Ee El]]; subst e' l.
  unfold patches in *. cbn. rewrite (IH Hf'). unfold not_reading in Hn.
  by destruct e as [[| |[]| | | | | | | | | |] x]; cbn in *.
Qed.

Lemma holds_primary g m tr :
  memo_ok g m tr ->
  holds (primary OperatorNamespace g m) tr (fun tr' r => memo_ok g r.2 tr' /\
    forall s, r.1 = inr s -> reported tr' (gateLogin OperatorNamespace g primaryOrdinal) s).
Proof.
  intros Hm. destruct m as [s|]; cbn.
  { split; [done|]. intros s' ->. by apply Hm. }
  intros [e|]; cbn; [by split|].
  intros s. split; intros s' E; [injection E as ->|cbn in E; subst s]; apply in_or_app; right; by left.
Qed.

Lemma holds_gate_check g m i tr :
  memo_ok g m tr ->
  holds (gate_check OperatorNamespace g m i) tr (fun tr' r =>
    memo_ok g r.2 tr' /\ (r.1 = None -> upgraded g tr' i)).
Proof.
  intros Hm. unfold gate_check. destruct (podGate g i) as [why|pod] eqn:Ep; [by split|].
  apply podGate_inr in Ep as (Hp & Hr & Hy). apply holds_bind.
  eapply holds_mono with (Q := fun tr' v => memo_ok g m tr' /\ (v = None ->
    forall v, rolloutGate.target g = Some v ->
       exists s, reported tr' (gateLogin OperatorNamespace g i) s /\ ParseVersion (ClusterState.Version s) = Some v)).
  2: { unfold gateVersion. destruct (rolloutGate.target g) as [v|]; [|by split].
    cbn. intros [e|]; cbn; [by split; [apply memo_ok_mono|]|].
    intros s. split; [by apply memo_ok_mono, memo_ok_mono|].
    intros (s' & -> & Hs)%versionGate_None v' [= <-]. exists s'. split; [|done]. apply in_or_app. right. by left. }
  intros tr1 [why|] [Hm1 Hv]; cbn; [by split|].
  destruct (_ && _) eqn:Ei; cbn.
  - apply holds_bind. eapply holds_mono; [|apply holds_ext; by apply holds_primary].
    intros tr2 [ps m'] [[Hm2 Hs] [ext ->]]. cbn in *. split; [done|].
    intros (s' & -> & Hj)%memberGate_None. exists pod. split_and!; [done..| |].
    + intros v Ev. destruct (Hv eq_refl v Ev) as (s & Hs1 & Es). exists s. split; [|done].
      apply in_or_app. by left.
    + intros _ _. exists s'. split; [by apply Hs|done].
  - split; [done|]. intros _. exists pod. split_and!; [done..|by apply Hv|].
    intros Hi Hn. apply andb_false_iff in Ei as [Ei|Ei]; [|apply Z.ltb_ge in Ei; lia].
    apply negb_false_iff, Z.eqb_eq in Ei. done.
Qed.

(** Every check that passes is backed by the history. *)
Definition backed (g : rolloutGate.t) (tr : list (event clusterE)) (checked : list (Z * option string)) : Prop :=
  forall i, (i, None) ∈ checked -> upgraded g tr i.

Lemma holds_check_released g l : forall m tr,
  memo_ok g m tr ->
  holds (check_released OperatorNamespace g m l) tr (fun tr' checked =>
    map fst checked = l /\ backed g tr' checked).
Proof.
  induction l as [|i l IH]; intros m tr Hm; cbn.
  { split; [done|]. intros i Hi. by apply elem_of_nil in Hi. }
  apply holds_bind. eapply holds_mono; [|by apply holds_gate_check].
  intros tr1 [why m'] [Hm1 Hw]. cbn in *. apply holds_bind.
  eapply holds_mono; [|apply holds_ext; by apply IH].
  intros tr2 checked [[Hl Hb] [ext ->]]. cbn. split; [by rewrite Hl|].
  intros j [[= -> <-]|Hj]%elem_of_cons; [|by apply Hb]. apply upgraded_mono. by apply Hw.
Qed.

Lemma first_pending_None checked i : first_pending checked = None -> i ∈ map fst checked -> (i, None) ∈ checked.
Proof.
  unfold first_pending. induction checked as [|[j [why|]] l IH]; cbn; intros Hf Hi; [by apply elem_of_nil in Hi|done|].
  apply elem_of_cons in Hi as [->|Hi]; [by left|right; auto].
Qed.

(** The evidence for a release: what the walk read, and that every node
    released so far is upgraded. *)
Definition release_evidence (tc : TechnitiumCluster.t) (sts : StatefulSet.t) (partition : Z)
    (tr : list (event clusterE)) : Prop :=
  exists username password pods,
    let g := rolloutGate.mk tc username password pods
               (StatefulSetStatus.UpdateRevision (StatefulSet.Status sts)) (targetVersion sts) (replicas_of sts) in
    (exists l, In (ev (OnPod (OList OperatorNamespace (instanceLabels (TechnitiumCluster.Name tc))) : clusterE) (inr l)) tr /\
       pods = podInfos (TechnitiumCluster.Name tc) l (replicas_of sts)) /\
    forall i, partition <= i < replicas_of sts -> upgraded g tr i.

(** A read, or the release of the ordinal below [partition]. *)
Definition rollout_call (sts : StatefulSet.t) (partition : Z) (c : clusterE) : Prop :=
  reads_only c = true \/ c = OnSts (OPatch (StatefulSet.with_RollingUpdate sts (Some (Some (partition - 1))))).

(** What one pass may do and report. *)
Definition pass_ok (tc : TechnitiumCluster.t) (out : statefulSetOutcome.t) (tr : list (event clusterE))
    (r : fallible (rolloutState.t * StatefulSet.t)) : Prop :=
  let sts := statefulSetOutcome.sts out in
  let partition := Z.min (partition_of sts) (replicas_of sts) in
  Forall (fun e => rollout_call sts partition (projT1 e)) tr /\
  (patches tr = [] \/
    patches tr = [StatefulSet.with_RollingUpdate sts (Some (Some (partition - 1)))] /\
    statefulSetOutcome.templateChanged out = false /\ unobserved sts = false /\ 0 < partition /\
    release_evidence tc sts partition tr) /\
  (forall s sts', r = inr (s, sts') -> rolloutState.status s = ConditionFalse ->
    patches tr = [] /\ sts' = sts /\
    (nothing_to_do tc out = true \/ partition <= 0 /\ release_evidence tc sts partition tr)).

Lemma pass_ok_quiet tc out tr r :
  Forall (fun e => ~ not_reading (projT1 e)) tr ->
  (forall s sts', r = inr (s, sts') -> rolloutState.status s <> ConditionFalse) ->
  pass_ok tc out tr r.
Proof.
  intros Hf Hr. split_and!.
  - eapply Forall_impl; [exact Hf|]. intros e He. left. unfold not_reading in He.
    by destruct (reads_only (projT1 e)).
  - left. by apply reading_no_patches.
  - intros s sts' E Hs. by destruct (Hr s sts' E).
Qed.

Lemma pendingState_status tc sts u p why t n :
  rolloutState.status (pendingState StallTimeout tc sts u p why t n) = ConditionTrue.
Proof. unfold pendingState. by destruct (_ <? _). Qed.

Lemma release_evidence_mono tc sts p tr ext :
  release_evidence tc sts p tr -> release_evidence tc sts p (tr ++ ext).
Proof.
  intros (u & w & pods & (l & Hl & E) & Hu). exists u, w, pods. split.
  - exists l. split; [|done]. apply in_or_app. by left.
  - intros i Hi. apply upgraded_mono. by apply Hu.
Qed.

(** After the checks: at most the release they justify. *)
Lemma holds_advance tc out checked tr :
  let sts := statefulSetOutcome.sts out in
  let partition := Z.min (partition_of sts) (replicas_of sts) in
  nothing_to_do tc out = false -> statefulSetOutcome.templateChanged out = false -> unobserved sts = false ->
  Forall (fun e => ~ not_reading (projT1 e)) tr ->
  (first_pending checked = None -> release_evidence tc sts partition tr) ->
  holds (advance StallTimeout tc sts partition checked) tr (pass_ok tc out).
Proof.
  intros sts partition Hn Hc Hu Hq He. unfold advance. cbn. intros now.
  assert (Hq1 : Forall (fun e => ~ not_reading (projT1 e)) (tr ++ [ev (Now : clusterE) now])%list)
    by by apply Forall_app; split; [|repeat constructor].
  destruct (first_pending checked) as [[pending why]|]; cbn.
  { intros now'. apply pass_ok_quiet.
    - by apply Forall_app; split; [|repeat constructor].
    - intros s sts' [= <- _]. by rewrite pendingState_status. }
  specialize (He eq_refl). destruct (0 <? partition) eqn:Ep; cbn.
  - apply Z.ltb_lt in Ep. set (c := OnSts (OPatch _)).
    assert (Hok : forall x tail r, Forall (fun e => ~ not_reading (projT1 e)) tail ->
      (forall s sts', r = inr (s, sts') -> rolloutState.status s <> ConditionFalse) ->
      pass_ok tc out ((tr ++ [ev (Now : clusterE) now]) ++ ev (c : clusterE) x :: tail)%list r).
    { intros x tail r Ht Hr. split_and!.
      - apply Forall_app. split; [|constructor; [by right|]]; (eapply Forall_impl; [eassumption|]);
          intros e Hx; left; unfold not_reading in Hx; by destruct (reads_only (projT1 e)).
      - right. split; [|by split_and!; [..|by rewrite <- app_assoc; apply release_evidence_mono]].
        change (ev (c : clusterE) x :: tail) with ([ev (c : clusterE) x] ++ tail)%list.
        by rewrite patches_app, (reading_no_patches _ Hq1), patches_app, (reading_no_patches _ Ht).
      - intros s sts' E Hs. by destruct (Hr s sts' E). }
    intros [e|s']; cbn.
    { by apply (Hok (inl e) []). }
    intros now'. rewrite <- app_assoc. apply (Hok (inr s') [ev (Now : clusterE) now']); [by repeat constructor|].
    intros s sts' [= <- _]. by rewrite pendingState_status.
  - apply Z.ltb_ge in Ep. split_and!.
    + eapply Forall_impl; [exact Hq1|]. intros e Hx. left. unfold not_reading in Hx. by destruct (reads_only _).
    + left. by apply reading_no_patches.
    + intros s sts' [= <- <-] _. split_and!; [by apply reading_no_patches|done|].
      right. split; [done|]. by apply release_evidence_mono.
Qed.

Lemma credentials_avoid tc : avoids not_reading (adminCredentials OperatorNamespace tc).
Proof.
  unfold adminCredentials, resolveAdminSecret. destruct (adminSecretKeyFor tc OperatorNamespace) as [key [e|]]; cbn; [done|].
  split; [done|]. by intros [e|s].
Qed.
Lemma pods_avoid tc n : avoids not_reading (resolveClusterPods OperatorNamespace tc n).
Proof. cbn. split; [done|]. by intros [e|l]. Qed.

Lemma walk_pass_ok (tc : TechnitiumCluster.t) (out : statefulSetOutcome.t) :
  always (walkRollout OperatorNamespace StallTimeout tc out) (pass_ok tc out).
Proof.
  unfold always, walkRollout. set (sts := statefulSetOutcome.sts out).
  destruct (nothing_to_do tc out) eqn:En; cbn.
  { split_and!; [constructor|by left|]. intros s sts' [= <- <-] _. by split_and!; [..|left]. }
  destruct (statefulSetOutcome.templateChanged out) eqn:Ec.
  { apply pass_ok_quiet; [constructor|]. by intros s sts' [= <- <-]. }
  destruct (unobserved sts) eqn:Eu.
  { apply pass_ok_quiet; [constructor|]. by intros s sts' [= <- <-]. }
  apply holds_bind. eapply holds_mono; [|eapply (avoids_holds not_reading), credentials_avoid].
  intros tr1 [e|[username password]] (ext1 & -> & H1); cbn; [by apply pass_ok_quiet|].
  intros [e|l]; cbn.
  { apply pass_ok_quiet; [|done]. by apply Forall_app; split; [|repeat constructor]. }
  set (partition := Z.min (partition_of sts) (replicas_of sts)).
  set (tr2 := (ext1 ++ _)%list). set (g := rolloutGate.mk _ _ _ _ _ _ _).
  assert (Hq : Forall (fun e => ~ not_reading (projT1 e)) tr2) by by apply Forall_app; split; [|repeat constructor].
  assert (Hl : In (ev (OnPod (OList OperatorNamespace (instanceLabels (TechnitiumCluster.Name tc))) : clusterE) (inr l)) tr2)
    by (apply in_or_app; right; by left).
  apply holds_bind. eapply holds_mono; [|apply holds_avoiding; [apply check_released_avoids|by apply (holds_check_released g)]].
  intros tr3 checked [[Hm Hb] (ext3 & -> & H3)]. apply holds_advance; [done..|by apply Forall_app|].
  intros Hf. exists username, password, (podInfos (TechnitiumCluster.Name tc) l (replicas_of sts)). split.
  - exists l. split; [|done]. apply in_or_app. by left.
  - intros i Hi. apply Hb, first_pending_None; [done|]. rewrite Hm. apply elem_of_seqZ.
    unfold partition, sts in *. lia.
Qed.

(** C7: An upgrade releases one node per pass, and only on evidence.  Whatever
    Kubernetes and the nodes answer, a pass of [walkRollout] reads, and writes
    at most once: it lowers the partition of the StatefulSet by one, releasing
    the ordinal just below it, and nothing else.  It does so only when the
    template is observed and every node released before is upgraded: its pod
    is on the new revision and Ready, it reports the target version, and the
    Primary lists it as connected at its new address since the restart.  The
    upgrade is reported as finished only when nothing was to be rolled out or
    every node, the Primary included, is upgraded. *)
Theorem rollout_releases_one (tc : TechnitiumCluster.t) (out : statefulSetOutcome.t) :
  always (walkRollout OperatorNamespace StallTimeout tc out) (pass_ok tc out).
Proof. apply walk_pass_ok. Qed.
End pass.

(** ** The upgrade as a system

    The operator's passes interleave with Kubernetes, which recreates released
    pods, and with the nodes, which come up.  A node is still on the old
    revision, restarting, or upgraded: on the new revision and Ready since. *)

Inductive phase := OldRevision | Restarting | Upgraded.
#[export] Instance phase_eq_dec : EqDecision phase.
Proof. solve_decision. Defined.

Record rollout_system := { sys_partition : Z; sys_node : Z -> phase }.

(** The system with node [i] in phase [ph]. *)
Definition set_node (s : rollout_system) (i : Z) (ph : phase) : rollout_system :=
  {| sys_partition := sys_partition s; sys_node j := if bool_decide (j = i) then ph else sys_node s j |}.

Section system.
Context `{KubeLib}.
Context (OperatorNamespace : string) (StallTimeout : Z).
(** The deployment: its name, its number of nodes, its new revision. *)
Context (name : string) (n : Z) (rev : string).

(** The API server lists no pod as Ready on the new revision before it is; it
    may be late. *)
Definition truthful (s : rollout_system) (e : event clusterE) : Prop :=
  match e with
  | existT (OnPod (OList _ _)) (inr pods) =>
      forall i info, podInfos name pods n !! i = Some info ->
        clusterPodInfo.revision info = rev -> clusterPodInfo.ready info = true -> sys_node s i = Upgraded
  | _ => True
  end.

(** The partition after the calls of a pass; a patch that failed may have been
    applied all the same. *)
Inductive partition_after : Z -> list (event clusterE) -> Z -> Prop :=
| after_nil p : partition_after p [] p
| after_patch p s x tr p' :
    partition_after (partition_of s) tr p' -> partition_after p (ev (OnSts (OPatch s) : clusterE) x :: tr) p'
| after_lost p s e tr p' :
    partition_after p tr p' -> partition_after p (ev (OnSts (OPatch s) : clusterE) (inl e) :: tr) p'
| after_other p e tr p' :
    patch_of (projT1 e) = None -> partition_after p tr p' -> partition_after p (e :: tr) p'.

Inductive rollout_step : rollout_system -> rollout_system -> Prop :=
| operator_pass s tc out tr r p' :
    TechnitiumCluster.Name tc = name ->
    replicas_of (statefulSetOutcome.sts out) = n ->
    partition_of (statefulSetOutcome.sts out) = sys_partition s ->
    StatefulSetStatus.UpdateRevision (StatefulSet.Status (statefulSetOutcome.sts out)) = rev ->
    executes (walkRollout OperatorNamespace StallTimeout tc out) tr r ->
    Forall (truthful s) tr ->
    partition_after (sys_partition s) tr p' ->
    rollout_step s {| sys_partition := p'; sys_node := sys_node s |}
| kube_recreates s i :
    sys_partition s <= i < n -> sys_node s i = OldRevision -> rollout_step s (set_node s i Restarting)
| node_comes_up s i :
    sys_node s i = Restarting -> rollout_step s (set_node s i Upgraded).

(** The state a template change leaves: the partition parked, no node restarted. *)
Definition parked : rollout_system :=
  {| sys_partition := if n <=? 1 then 0 else n; sys_node _ := OldRevision |}.

(** Below the partition nothing was restarted; above it everything is done. *)
Definition rollout_inv (s : rollout_system) : Prop :=
  0 <= sys_partition s <= Z.max 0 n /\
  (forall i, 0 <= i < sys_partition s -> sys_node s i = OldRevision) /\
  (forall i, sys_partition s < i < n -> sys_node s i = Upgraded).

Lemma partition_after_cases p tr p' :
  partition_after p tr p' -> p' = p \/ exists s, In s (patches tr) /\ p' = partition_of s.
Proof.
  induction 1 as [p|p s x tr p' _ IH|p s e tr p' _ IH|p e tr p' He _ IH]; [by left|..].
  - right. destruct IH as [->|(s' & Hs & ->)]; [exists s; split; [by left|done]|]. exists s'. split; [by right|done].
  - destruct IH as [->|(s' & Hs & ->)]; [by left|]. right. exists s'. split; [by right|done].
  - destruct IH as [->|(s' & Hs & ->)]; [by left|]. right. exists s'. split; [|done].
    change (e :: tr) with ([e] ++ tr)%list. rewrite patches_app. apply in_or_app. by right.
Qed.

Lemma pass_inv s tc out tr r p' :
  TechnitiumCluster.Name tc = name ->
  replicas_of (statefulSetOutcome.sts out) = n ->
  partition_of (statefulSetOutcome.sts out) = sys_partition s ->
  StatefulSetStatus.UpdateRevision (StatefulSet.Status (statefulSetOutcome.sts out)) = rev ->
  executes (walkRollout OperatorNamespace StallTimeout tc out) tr r ->
  Forall (truthful s) tr ->
  partition_after (sys_partition s) tr p' ->
  rollout_inv s -> rollout_inv {| sys_partition := p'; sys_node := sys_node s |}.
Proof.
  intros Hname Hn Hp Hrev He Ht Ha (Hb & Hold & Hup).
  destruct (always_executes _ _ _ _ (walk_pass_ok OperatorNamespace StallTimeout tc out) He) as (_ & Hpatch & _).
  apply partition_after_cases in Ha as [->|(s' & Hs & ->)]; [done|].
  destruct Hpatch as [E|(E & _ & _ & Hpos & u & w & pods & (l & Hl & Epods) & Hev)]; rewrite E in Hs; [done|].
  destruct Hs as [<-|[]]. rewrite Hn, Hp in Hpos, Hev, E |- *.
  assert (Hmin : Z.min (sys_partition s) n = sys_partition s) by lia. rewrite Hmin in *.
  change (partition_of (StatefulSet.with_RollingUpdate _ (Some (Some ?q)))) with q.
  split_and!; cbn; [lia..| |].
  - intros i Hi. apply Hold. lia.
  - intros i Hi. destruct (Hev i) as (pod & Hpod & Hr & Hy & _); [lia|]. cbn in *.
    rewrite List.Forall_forall in Ht. specialize (Ht _ Hl). cbn in Ht. subst pods.
    rewrite Hname, Hn in Hpod. rewrite Hrev in Hr. by apply (Ht i pod).
Qed.

Lemma step_inv s s' : rollout_step s s' -> rollout_inv s -> rollout_inv s'.
Proof.
  destruct 1 as [s tc out tr r p' H1 H2 H3 H4 H5 H6 H7|s i Hi Ho|s i Hi]; intros Hinv; [by eapply pass_inv|..];
    destruct Hinv as (Hb & Hold & Hup); (split; [done|]); split; cbn; intros j Hj.
  - rewrite bool_decide_false by lia. by apply Hold.
  - assert (i <> j) by (intros <-; destruct (decide (sys_partition s = i)) as [E|E]; [lia|]; rewrite Hup in Ho by lia; done).
    rewrite bool_decide_false by done. by apply Hup.
  - rewrite bool_decide_false; [by apply Hold|]. intros <-. rewrite Hold in Hi by lia. done.
  - case_bool_decide; [done|]. by apply Hup.
Qed.

Lemma parked_inv : rollout_inv parked.
Proof.
  unfold rollout_inv, parked. cbn. destruct (Z.leb_spec n 1); split_and!; try done; try lia; intros i Hi; lia.
Qed.

Lemma reachable_inv s : rtc rollout_step parked s -> rollout_inv s.
Proof.
  intros Hr. assert (Hgen : forall a b, rtc rollout_step a b -> rollout_inv a -> rollout_inv b).
  { induction 1 as [|a b c Hab _ IH]; [done|]. intros Ha. apply IH. by eapply step_inv. }
  apply (Hgen _ _ Hr), parked_inv.
Qed.

(** C6: During an upgrade at most one node is down, from the highest ordinal
    to the Primary.  In every state that the operator's passes, Kubernetes and
    the nodes can reach together from a parked partition, whatever the order
    of their steps and whatever fails on the way: at most one node is
    restarting, a node has been restarted only if every node of a higher
    ordinal is already upgraded, and so the Primary only once every Secondary
    is. *)
Theorem rollout_one_at_a_time (s : rollout_system) :
  rtc rollout_step parked s ->
  (forall i j, 0 <= i < n -> 0 <= j < n ->
     sys_node s i = Restarting -> sys_node s j = Restarting -> i = j) /\
  (forall i j, 0 <= i < j -> j < n -> sys_node s i <> OldRevision -> sys_node s j = Upgraded).
Proof.
  intros (Hb & Hold & Hup)%reachable_inv.
  assert (Hord : forall i j, 0 <= i < j -> j < n -> sys_node s i <> OldRevision -> sys_node s j = Upgraded).
  { intros i j Hij Hj Hi. apply Hup. destruct (decide (i < sys_partition s)); [|lia]. by rewrite Hold in Hi by lia. }
  split; [|exact Hord]. intros i j Hi Hj Ei Ej.
  destruct (Z.lt_trichotomy i j) as [Hlt|[->|Hlt]]; [|done|].
  - rewrite (Hord i j) in Ej; [done|lia|lia|by rewrite Ei].
  - rewrite (Hord j i) in Ei; [done|lia|lia|by rewrite Ej].
Qed.
End system.

(** ** The upgrade finishes *)

(** An answer that refuses the call. *)
Definition refused (c : clusterE) : answer c.
Proof.
  destruct c as [[]|[]|[]|[]|[]|[]|[]| | | | | |l []];
    solve [exact (inl (EText "refused")) | exact (Some (EText "refused")) | exact 0].
Defined.

Section progress.
Context `{KubeLib}.
Context (OperatorNamespace : string) (StallTimeout : Z).
Context (tc : TechnitiumCluster.t) (sts : StatefulSet.t).
(** What the deployment answers: its Secret, the pods listed once the ordinals
    from [p] on are released, what each node reports, the clock. *)
Context (secret : Secret.t) (pods : Z -> list Pod.t) (report : login -> ClusterState.t) (clock : Z).

Definition healthy_answer (c : clusterE) (p : Z) : option (answer c) :=
  match c return option (answer c) with
  | OnSecret (OGet _) => Some (inr secret : fallible Secret.t)
  | OnPod (OList _ _) => Some (inr (pods p) : fallible (list Pod.t))
  | NewNodeClient _ => Some (None : option error)
  | OnNode l NGetClusterState => Some (inr (report l) : fallible ClusterState.t)
  | OnSts (OPatch s) => Some (inr s : fallible StatefulSet.t)
  | Now => Some (clock : Z)
  | _ => None
  end.
Definition healthy (c : clusterE) (p : Z) : answer c * Z :=
  (default (refused c) (healthy_answer c p), match patch_of c with Some s => partition_of s | None => p end).

(** The outcome of [reconcileStatefulSet] with the partition at [p]. *)
Definition outcome_at (p : Z) : statefulSetOutcome.t :=
  statefulSetOutcome.mk (StatefulSet.with_RollingUpdate sts (Some (Some p))) false None.
Definition rollout_pass (p : Z) : fallible (rolloutState.t * StatefulSet.t) * Z :=
  run healthy (walkRollout OperatorNamespace StallTimeout tc (outcome_at p)) p.

(** The gate of a pass whose credentials are [u] and [w]. *)
Definition gate_at (u w : string) (p : Z) : rolloutGate.t :=
  rolloutGate.mk tc u w (podInfos (TechnitiumCluster.Name tc) (pods p) (replicas_of sts))
    (StatefulSetStatus.UpdateRevision (StatefulSet.Status sts)) (targetVersion sts) (replicas_of sts).

(** The node of [i] is as it should be after its restart. *)
Definition node_healthy (g : rolloutGate.t) (i : Z) : Prop :=
  exists pod, podGate g i = inr pod /\
    (forall v, rolloutGate.target g = Some v -> versionGate v (inr (report (gateLogin OperatorNamespace g i))) = None) /\
    (i <> primaryOrdinal -> 1 < rolloutGate.replicas g ->
       memberGate (podName (TechnitiumCluster.Name (rolloutGate.tc g)) i) pod
         (inr (report (gateLogin OperatorNamespace g primaryOrdinal))) = None).

(** The Primary's state has not been read, or it is what it reports. *)
Definition memo_fresh (g : rolloutGate.t) (m : memo) : Prop :=
  m = None \/ m = Some (inr (report (gateLogin OperatorNamespace g primaryOrdinal))).

Lemma run_primary g m p :
  memo_fresh g m ->
  exists m', run healthy (primary OperatorNamespace g m) p
    = ((inr (report (gateLogin OperatorNamespace g primaryOrdinal)), m'), p) /\ memo_fresh g m'.
Proof. intros [->| ->]; cbn; eexists; (split; [reflexivity|by right]). Qed.

Lemma run_gateVersion g i p :
  (forall v, rolloutGate.target g = Some v -> versionGate v (inr (report (gateLogin OperatorNamespace g i))) = None) ->
  run healthy (gateVersion OperatorNamespace g i) p = (None, p).
Proof.
  intros Hv. unfold gateVersion. destruct (rolloutGate.target g) as [v|]; [|done].
  cbn -[versionGate]. by rewrite Hv.
Qed.

Lemma run_gate_check g m i p :
  memo_fresh g m -> node_healthy g i ->
  exists m', run healthy (gate_check OperatorNamespace g m i) p = ((None, m'), p) /\ memo_fresh g m'.
Proof.
  intros Hm (pod & Hp & Hv & Hj). unfold gate_check. rewrite Hp, run_bind, (run_gateVersion g i p Hv). cbn -[memberGate].
  destruct (_ && _) eqn:Ei; [|by exists m]. apply andb_prop in Ei as [Ei En].
  apply negb_true_iff, Z.eqb_neq in Ei. apply Z.ltb_lt in En.
  rewrite run_bind. destruct (run_primary g m p Hm) as (m' & -> & Hm'). cbn -[memberGate]. rewrite Hj by done.
  by exists m'.
Qed.

Lemma run_check_released g p l : forall m,
  memo_fresh g m -> (forall i, i ∈ l -> node_healthy g i) ->
  run healthy (check_released OperatorNamespace g m l) p = (map (fun i => (i, None)) l, p).
Proof.
  induction l as [|i l IH]; intros m Hm Hl; cbn; [done|].
  rewrite run_bind. destruct (run_gate_check g m i p Hm) as (m' & -> & Hm'); [apply Hl; by left|]. cbn.
  rewrite run_bind, IH; [done|done|]. intros j Hj. apply Hl. by right.
Qed.

Lemma first_pending_all_passed (l : list Z) : first_pending (map (fun i => (i, None)) l) = None.
Proof. unfold first_pending. induction l as [|i l IH]; [done|exact IH]. Qed.

(** The pass up to the checks, all of which pass. *)
Lemma run_checks key u w p :
  adminSecretKeyFor tc OperatorNamespace = (key, None) -> secretCredentials secret key = inr (u, w) ->
  nothing_to_do tc (outcome_at p) = false -> unobserved sts = false -> 0 <= p <= replicas_of sts ->
  (forall i, p <= i < replicas_of sts -> node_healthy (gate_at u w p) i) ->
  rollout_pass p
  = run healthy (advance StallTimeout tc (StatefulSet.with_RollingUpdate sts (Some (Some p))) p
                   (map (fun i => (i, None)) (released_ordinals p (replicas_of sts)))) p.
Proof.
  intros Hk Hs Hn Hu Hp Hh. unfold rollout_pass, walkRollout. rewrite Hn.
  change (statefulSetOutcome.templateChanged (outcome_at p)) with false.
  change (unobserved (statefulSetOutcome.sts (outcome_at p))) with (unobserved sts). rewrite Hu. cbv iota.
  rewrite run_bind. unfold adminCredentials, resolveAdminSecret. rewrite Hk.
  cbn -[check_released secretCredentials advance partition_of replicas_of targetVersion]. rewrite Hs.
  cbn -[check_released advance partition_of replicas_of targetVersion].
  change (partition_of (StatefulSet.with_RollingUpdate sts (Some (Some p)))) with p.
  change (replicas_of (StatefulSet.with_RollingUpdate sts (Some (Some p)))) with (replicas_of sts).
  change (targetVersion (StatefulSet.with_RollingUpdate sts (Some (Some p)))) with (targetVersion sts).
  rewrite Z.min_l by lia. fold (gate_at u w p).
  rewrite run_bind, run_check_released; [done|by left|].
  intros i [Hi Hi']%elem_of_seqZ. apply Hh. lia.
Qed.

(** C8: An upgrade of a healthy deployment finishes.  Starting from a parked
    partition, if every node released so far comes up healthy before the next
    pass, each pass releases exactly the next ordinal down and reports the
    upgrade as running, waiting for that node; after as many passes as there
    are nodes every node has been released, and the next pass reports the
    upgrade as finished. *)
Theorem rollout_completes (key : ObjectKey) (u w : string) :
  let n := replicas_of sts in
  adminSecretKeyFor tc OperatorNamespace = (key, None) -> secretCredentials secret key = inr (u, w) ->
  unobserved sts = false -> 0 < n ->
  (forall p i, 0 <= p <= i -> i < n -> node_healthy (gate_at u w p) i) ->
  (forall p, 0 < p <= n -> exists s sts',
     rollout_pass p = (inr (s, sts'), p - 1) /\ partition_of sts' = p - 1 /\
     rolloutState.status s = ConditionTrue /\
     RolloutStatus.Node <$> rolloutState.bookmark s = Some (podName (TechnitiumCluster.Name tc) (p - 1))) /\
  Nat.iter (Z.to_nat n) (fun p => (rollout_pass p).2) n = 0 /\
  exists s sts', rollout_pass 0 = (inr (s, sts'), 0) /\
    rolloutState.status s = ConditionFalse /\ rolloutState.reason s = reasonUpToDate.
Proof.
  intros n Hk Hs Hu Hn Hh.
  assert (Hstep : forall p, 0 < p <= n -> exists s sts',
     rollout_pass p = (inr (s, sts'), p - 1) /\ partition_of sts' = p - 1 /\
     rolloutState.status s = ConditionTrue /\
     RolloutStatus.Node <$> rolloutState.bookmark s = Some (podName (TechnitiumCluster.Name tc) (p - 1))).
  { intros p Hp. rewrite (run_checks key u w p) by first [done | fold n; lia | intros i Hi; apply Hh; fold n in Hi; lia |
      unfold nothing_to_do; cbn; unfold partition_of; cbn; by rewrite (proj2 (Z.eqb_neq p 0)) by lia].
    unfold advance. cbn -[first_pending pendingState count_passed]. rewrite first_pending_all_passed.
    rewrite (proj2 (Z.ltb_lt 0 p)) by lia. cbn -[pendingState count_passed].
    eexists _, _. split; [reflexivity|]. split; [done|]. unfold pendingState. by destruct (_ <? _). }
  split; [exact Hstep|]. split.
  - assert (Hiter : forall k, Z.of_nat k <= n -> Nat.iter k (fun p => (rollout_pass p).2) n = n - Z.of_nat k).
    { induction k as [|k IH]; intros Hle; [cbn; lia|]. rewrite Nat.iter_succ, IH by lia.
      destruct (Hstep (n - Z.of_nat k)) as (s & sts' & -> & _); [lia|]. cbn. lia. }
    rewrite Hiter; lia.
  - destruct (nothing_to_do tc (outcome_at 0)) eqn:En.
    { unfold rollout_pass, walkRollout. rewrite En. by eexists _, _. }
    rewrite (run_checks key u w 0) by first [done | fold n; lia | intros i Hi; apply Hh; fold n in Hi; lia].
    unfold advance. cbn -[first_pending count_passed]. rewrite first_pending_all_passed. by eexists _, _.
Qed.
End progress.

(** ** Examples

    Two nodes upgraded to 15.5; a released pod is recreated at [10.0.1.i] and
    Ready since time 50, and the Primary has seen it since. *)

#[local] Existing Instance RefKubeLib.lib.

Definition rollout_tc : TechnitiumCluster.t := example_tc "technitium/dns-server:15.5" 2.
Definition rollout_sts : StatefulSet.t :=
  StatefulSet.mk (ObjectMeta.named "ops" "dns") (Some 2) "dns-headless" (instanceLabels "dns") []
    (Some (podTemplateFor rollout_tc "ops")) "RollingUpdate" (Some (Some 2))
    (StatefulSetStatus.mk 2 "rev-1" "rev-2" 1).
Definition rollout_pod (p i : Z) : Pod.t :=
  Pod.mk (ObjectMeta.with_Labels (ObjectMeta.named "ops" (podName "dns" i))
            {[controllerRevisionHashLabel := if p <=? i then "rev-2" else "rev-1"]})
    ("10.0.1." +:+ Itoa i) [PodCondition.mk "Ready" ConditionTrue (Some 50)].
Definition rollout_pods (p : Z) : list Pod.t := [rollout_pod p 0; rollout_pod p 1].
Definition rollout_secret : Secret.t := Secret.with_Data (Secret.new "ops" "dns-admin")
  {["username" := "admin"; "password" := "s3cret"; "token" := "tok"]}.
Definition rollout_report (l : login) : ClusterState.t :=
  ClusterState.mk "15.5" "dns-0.dns.local" true "dns.local"
    [ClusterNode.mk 1 "dns-0.dns.local" "" ["10.0.1.0"] "Primary" "Self" "15.5" None (Some 60) None;
     ClusterNode.mk 2 "dns-1.dns.local" "" ["10.0.1.1"] "Secondary" "Connected" "15.5" None (Some 60) None].

Lemma rollout_nodes_healthy (p i : Z) :
  0 <= p <= i -> i < 2 -> node_healthy "ops" rollout_report
    (gate_at rollout_tc rollout_sts rollout_pods "admin" "s3cret" p) i.
Proof.
  intros Hp Hi. assert (H : (p = 0 /\ i = 0) \/ (p = 0 /\ i = 1) \/ (p = 1 /\ i = 1)) by lia.
  destruct H as [[-> ->]|[[-> ->]|[-> ->]]]; eexists; (split; [vm_compute; reflexivity|]);
    (split; [intros v Hv; vm_compute in Hv; injection Hv as <-; vm_compute; reflexivity|]);
    intros Hne _; [by destruct Hne|vm_compute; reflexivity..].
Qed.

Example rollout_completes_witness :
  Nat.iter 2 (fun p => (rollout_pass "ops" 0 rollout_tc rollout_sts rollout_secret rollout_pods rollout_report 100 p).2) 2 = 0.
Proof.
  refine (proj1 (proj2 (rollout_completes "ops" 0 rollout_tc rollout_sts rollout_secret rollout_pods rollout_report 100
    {| KeyNamespace := "ops"; KeyName := "dns-admin" |} "admin" "s3cret" _ _ _ _ _))).
  - reflexivity.
  - vm_compute. reflexivity.
  - vm_compute. reflexivity.
  - reflexivity.
  - exact rollout_nodes_healthy.
Defined.

(** The first pass, and the restart it allows. *)
Definition first_pass : prog clusterE (fallible (rolloutState.t * StatefulSet.t)) :=
  walkRollout "ops" 0 rollout_tc (outcome_at rollout_sts 2).
Definition first_restart : rollout_system :=
  set_node {| sys_partition := 1; sys_node _ := OldRevision |} 1 Restarting.

Lemma first_pass_step :
  rollout_step "ops" 0 "dns" 2 "rev-2" (parked 2) {| sys_partition := 1; sys_node _ := OldRevision |}.
Proof.
  eapply (operator_pass "ops" 0 "dns" 2 "rev-2" (parked 2) rollout_tc (outcome_at rollout_sts 2)); [reflexivity..| | |].
  - exact (run_executes (healthy rollout_secret rollout_pods rollout_report 100) first_pass 2).
  - repeat (apply List.Forall_cons; [try exact I|]); [|apply List.Forall_nil]. cbn. intros i info Hi Hr _. exfalso.
    assert (Hold : map_Forall (fun _ info => clusterPodInfo.revision info <> "rev-2")
      (podInfos "dns" (rollout_pods 2) 2)) by (apply (bool_decide_unpack _); vm_compute; exact I).
    exact (Hold i info Hi Hr).
  - vm_compute. apply after_other; [reflexivity|]. apply after_other; [reflexivity|]. apply after_other; [reflexivity|].
    apply after_patch. apply after_other; [reflexivity|]. apply after_nil.
Qed.

Lemma first_restart_reachable : rtc (rollout_step "ops" 0 "dns" 2 "rev-2") (parked 2) first_restart.
Proof.
  eapply rtc_l; [apply first_pass_step|]. apply rtc_once.
  apply (kube_recreates "ops" 0 "dns" 2 "rev-2" {| sys_partition := 1; sys_node _ := OldRevision |} 1); [cbn; lia|reflexivity].
Qed.

Example rollout_one_at_a_time_witness :
  sys_node first_restart 1 = Restarting /\ (sys_node first_restart 0 <> OldRevision -> sys_node first_restart 1 = Upgraded).
Proof.
  split; [reflexivity|].
  apply (proj2 (rollout_one_at_a_time "ops" 0 "dns" 2 "rev-2" first_restart first_restart_reachable) 0 1); lia.
Defined.
