(* ===== verification/ClusterStatus.v ===== *)
(** * The status of a TechnitiumCluster

    [internal/controller/technitiumcluster_controller.go]: [updateStatus],
    [buildNodeStatuses], [buildNodeStatusesFromPrimary], [summarizeVersions],
    [markDegraded] and [markInvalidAdminSecretRef]. *)

From S2P Require Import Prelude GoStrings GoErrors Effects Version Kube Lifecycle ClusterAPI ClusterTypes ClusterKube Services Workload Nodes Rollout.

Local Open Scope string_scope.
Local Open Scope Z_scope.
Local Open Scope go_scope.
Local Open Scope prog_scope.

Definition clusterPollInterval : Z := 15 * nanosecond_per_second.
Definition clusterDriftInterval : Z := 300 * nanosecond_per_second.

Definition mixedVersion : string := "mixed".
Definition reasonAdminCredentialsRejected : string := "AdminCredentialsRejected".
Definition reasonPDBConflict : string := "PodDisruptionBudgetConflict".
Definition reasonInvalidAdminSecretRef : string := "InvalidAdminSecretRef".

(** ** Per-node statuses *)

(** The loop of [summarizeVersions] from [summary]. *)
Fixpoint summarize_from (summary : string) (nodes : list NodeStatus.t) : string :=
  match nodes with
  | [] => summary
  | n :: nodes =>
      let v := NodeStatus.Version n in
      if v =s? "" then summarize_from summary nodes
      else if summary =s? "" then summarize_from v nodes
      else if negb (summary =s? v) then mixedVersion
      else summarize_from summary nodes
  end.
Definition summarizeVersions (nodes : list NodeStatus.t) : string := summarize_from "" nodes.

Definition joined_count (nodes : list NodeStatus.t) : Z :=
  Z.of_nat (length (List.filter (fun s => nodeJoined (NodeStatus.State s)) nodes)).
(** [fmt.Sprintf("%d/%d", joined, desiredReplicas)]. *)
Definition members_text (joined desiredReplicas : Z) : string := Itoa joined +:+ "/" +:+ Itoa desiredReplicas.

Section status.
Context `{KubeLib}.
Context (OperatorNamespace : string).

(** Every node when the credentials cannot be read. *)
Definition unknownNode (tc : TechnitiumCluster.t) (i : Z) : NodeStatus.t :=
  NodeStatus.mk (podName (TechnitiumCluster.Name tc) i) (roleForOrdinal i) "Unknown" "" None
    "admin credentials unavailable".

(** One ordinal in the Primary's view. *)
Definition memberStatus (tc : TechnitiumCluster.t) (primaryState : ClusterState.t) (i : Z) : NodeStatus.t :=
  let name := podName (TechnitiumCluster.Name tc) i in
  match findClusterMember (ClusterState.Nodes primaryState) name with
  | None => NodeStatus.mk name (roleForOrdinal i) nodeNotReadyState "" None "not yet joined the cluster"
  | Some member =>
      let v := ClusterNode.Version member in
      NodeStatus.mk name (ClusterNode.Type_ member) (ClusterNode.State member)
        (if (v =s? "") && (ClusterNode.State member =s? nodeSelfState) then ClusterState.Version primaryState else v)
        (ClusterNode.ConfigLastSynced member) ""
  end.

(** [None]: [ok] is false. *)
Definition buildNodeStatusesFromPrimary (tc : TechnitiumCluster.t) (username password : string) (desiredReplicas : Z)
  : prog clusterE (option (list NodeStatus.t * string)) :=
  let l := nodeLogin OperatorNamespace tc username password primaryOrdinal in
  c <- call (NewNodeClient l) ;;
  match (c : option error) with
  | Some _ => Ret None
  | None =>
      s <- getState l ;;
      match s with
      | inl _ => Ret None
      | inr primaryState =>
          if negb (ClusterState.ClusterInitialized primaryState) then Ret None
          else
            let nodes := map (memberStatus tc primaryState) (ordinals desiredReplicas) in
            Ret (Some (nodes, members_text (joined_count nodes) desiredReplicas))
      end
  end.

(** One ordinal by its own report. *)
Definition ownStatus (tc : TechnitiumCluster.t) (i : Z) (state : ClusterState.t) : NodeStatus.t :=
  let name := podName (TechnitiumCluster.Name tc) i in
  match (if ClusterState.ClusterInitialized state then findClusterMember (ClusterState.Nodes state) name else None) with
  | Some member => NodeStatus.mk name (ClusterNode.Type_ member) (ClusterNode.State member)
                     (ClusterState.Version state) (ClusterNode.ConfigLastSynced member) ""
  | None => NodeStatus.mk name (roleForOrdinal i) nodeReadyState (ClusterState.Version state) None ""
  end.

Definition readNodeStatus (tc : TechnitiumCluster.t) (username password : string) (i : Z)
  : prog clusterE NodeStatus.t :=
  let name := podName (TechnitiumCluster.Name tc) i in
  let unread message := NodeStatus.mk name (roleForOrdinal i) nodeNotReadyState "" None message in
  let l := nodeLogin OperatorNamespace tc username password i in
  c <- call (NewNodeClient l) ;;
  match (c : option error) with
  | Some e => Ret (unread (Error e))
  | None =>
      s <- getState l ;;
      match s with
      | inl _ => Ret (unread "cluster state not yet reachable")
      | inr state => Ret (ownStatus tc i state)
      end
  end.

Fixpoint readNodeStatuses (tc : TechnitiumCluster.t) (username password : string) (l : list Z)
  : prog clusterE (list NodeStatus.t) :=
  match l with
  | [] => Ret []
  | i :: l => s <- readNodeStatus tc username password i ;;
              rest <- readNodeStatuses tc username password l ;; Ret (s :: rest)
  end.

Definition buildNodeStatuses (tc : TechnitiumCluster.t) (desiredReplicas : Z)
  : prog clusterE (list NodeStatus.t * string) :=
  c <- adminCredentials OperatorNamespace tc ;;
  match c with
  | inl _ => Ret (map (unknownNode tc) (ordinals desiredReplicas), members_text 0 desiredReplicas)
  | inr (username, password) =>
      p <- (if 1 <? desiredReplicas then buildNodeStatusesFromPrimary tc username password desiredReplicas
            else Ret None) ;;
      match p with
      | Some r => Ret r
      | None =>
          nodes <- readNodeStatuses tc username password (ordinals desiredReplicas) ;;
          Ret (nodes, members_text (joined_count nodes) desiredReplicas)
      end
  end.

(** ** Phase and conditions *)

Record phase_report := {
  ph_phase : string; ph_reason : string; ph_message : string;
  ph_available : ConditionStatus; ph_progressing : ConditionStatus; ph_requeue : Z
}.

(** The [switch] of [updateStatus]. *)
Definition phaseFor (readyReplicas desiredReplicas : Z) (bootstrapped clustered : bool) : phase_report :=
  let waiting phase reason message :=
    {| ph_phase := phase; ph_reason := reason; ph_message := message; ph_available := ConditionFalse;
       ph_progressing := ConditionTrue; ph_requeue := clusterPollInterval |} in
  if readyReplicas <? desiredReplicas then
    waiting TechnitiumClusterPhaseProvisioning "WorkloadProvisioning" "Waiting for the StatefulSet to report ready replicas"
  else if negb bootstrapped then
    waiting TechnitiumClusterPhaseBootstrapping "AwaitingBootstrap" "Workload is ready; minting the admin API token"
  else if (1 <? desiredReplicas) && negb clustered then
    waiting TechnitiumClusterPhaseClustering "AwaitingClusterJoin"
      "Admin API token is bootstrapped; waiting for cluster init/join to converge across nodes"
  else
    {| ph_phase := TechnitiumClusterPhaseReady; ph_reason := "InstanceReady";
       ph_message := "Workload is ready and the admin API token is bootstrapped";
       ph_available := ConditionTrue; ph_progressing := ConditionFalse; ph_requeue := clusterDriftInterval |}.

(** [primaryServiceName] when the primary Service is enabled. *)
Definition primaryServiceFor (tc : TechnitiumCluster.t) : string :=
  match ServiceSpec_.Primary (TechnitiumClusterSpec.Service (TechnitiumCluster.Spec tc)) with
  | Some p => if PrimaryServiceSpec.Enabled p then primaryServiceName (TechnitiumCluster.Name tc) else ""
  | None => ""
  end.

(** The plain fields of the status, and whether any differs; [nodes] when the
    nodes were read. *)
Definition observedFields (tc : TechnitiumCluster.t) (endpoint phase : string) (readyReplicas : Z)
    (nodes : option (list NodeStatus.t * string)) : TechnitiumClusterStatus.t * bool :=
  let s := TechnitiumCluster.Status tc in
  let primaryEndpoint := nodeEndpoint (TechnitiumCluster.Name tc) primaryOrdinal OperatorNamespace in
  let s' := TechnitiumClusterStatus.mk (TechnitiumClusterStatus.Conditions s) phase readyReplicas endpoint
    primaryEndpoint (primaryServiceFor tc) (ObjectMeta.Generation (TechnitiumCluster.Meta tc))
    (match nodes with Some (ns, _) => ns | None => TechnitiumClusterStatus.Nodes s end)
    (match nodes with Some (ns, _) => summarizeVersions ns | None => TechnitiumClusterStatus.Version s end)
    (match nodes with Some (_, m) => m | None => TechnitiumClusterStatus.Members s end)
    (TechnitiumClusterStatus.Rollout s) in
  (s', negb (bool_decide (s = s'))).

(** [setClusterCondition] of each entry in turn, and whether any changed. *)
Definition entry : Type := string * (ConditionStatus * string * string).
Fixpoint setConditions (tc : TechnitiumCluster.t) (l : list entry) : TechnitiumCluster.t * bool :=
  match l with
  | [] => (tc, false)
  | (ty, (st, reason, message)) :: l =>
      let '(tc, c) := setCondition tc ty st reason message in
      let '(tc, cs) := setConditions tc l in
      (tc, c || cs)
  end.

(** The conditions [updateStatus] sets. *)
Definition observedConditions (ph : phase_report) (rollout : rolloutState.t) : list entry :=
  [(conditionProgressing, (ph_progressing ph, ph_reason ph, ph_message ph));
   (TechnitiumClusterConditionAvailable, (ph_available ph, ph_reason ph, ph_message ph));
   (conditionDegraded,
     if negb (rolloutState.degradedReason rollout =s? "")
     then (ConditionTrue, rolloutState.degradedReason rollout, rolloutState.degradedMessage rollout)
     else (ConditionFalse, ph_reason ph, ph_message ph));
   (TechnitiumClusterConditionUpgrading, (rolloutState.status rollout, rolloutState.reason rollout, rolloutState.message rollout))].

(** The object [updateStatus] computes, and whether it differs. *)
Definition observedStatus (tc : TechnitiumCluster.t) (endpoint : string) (readyReplicas : Z)
    (nodes : option (list NodeStatus.t * string)) (ph : phase_report) (rollout : rolloutState.t)
  : TechnitiumCluster.t * bool :=
  let '(s, c0) := observedFields tc endpoint (ph_phase ph) readyReplicas nodes in
  let '(tc, c1) := setConditions (TechnitiumCluster.with_Status tc s) (observedConditions ph rollout) in
  let c2 := negb (bool_decide (TechnitiumClusterStatus.Rollout (TechnitiumCluster.Status tc)
                               = rolloutState.bookmark rollout)) in
  let tc := TechnitiumCluster.with_Status tc
    (TechnitiumClusterStatus.with_Rollout (TechnitiumCluster.Status tc) (rolloutState.bookmark rollout)) in
  (tc, c0 || c1 || c2).

(** The requeue interval of a pass. *)
Definition requeueAfter (ph : phase_report) (rollout : rolloutState.t) : Z :=
  if bool_decide (rolloutState.status rollout = ConditionTrue)
  then Z.min (ph_requeue ph) clusterPollInterval else ph_requeue ph.

Definition updateStatus (key : ObjectKey) (sts : StatefulSet.t) (endpoint : string) (bootstrapped clustered : bool)
    (rollout : rolloutState.t) : prog clusterE (Z * option error) :=
  g <- call (OnCluster (KGet key)) ;;
  match (g : fallible TechnitiumCluster.t) with
  | inl e => Ret (0, IgnoreNotFound e)
  | inr tc =>
      let desiredReplicas := desiredReplicaCount tc in
      let readyReplicas := StatefulSetStatus.ReadyReplicas (StatefulSet.Status sts) in
      nodes <- (if desiredReplicas <=? readyReplicas
                then r <- buildNodeStatuses tc desiredReplicas ;; Ret (Some r)
                else Ret None) ;;
      let ph := phaseFor readyReplicas desiredReplicas bootstrapped clustered in
      let '(tc', changed) := observedStatus tc endpoint readyReplicas nodes ph rollout in
      if changed then e <- call (OnCluster (KStatusUpdate tc')) ;; Ret (requeueAfter ph rollout, (e : option error))
      else Ret (requeueAfter ph rollout, None)
  end.

(** ** Failures *)

(** Degraded, not Progressing, not Available. *)
Definition clusterFailed (reason : string) (cause : error) (tc : TechnitiumCluster.t) : TechnitiumCluster.t :=
  (setConditions tc
    [(conditionDegraded, (ConditionTrue, reason, Error cause));
     (conditionProgressing, (ConditionFalse, reason, Error cause));
     (TechnitiumClusterConditionAvailable, (ConditionFalse, reason, Error cause))]).1.

Definition degradedReasonOf (cause : error) : string :=
  if Is cause ErrPDBNotOwned then reasonPDBConflict
  else if Is cause ErrAdminCredentialsRejected then reasonAdminCredentialsRejected
  else "ReconcileFailed".

Definition clusterMarkDegraded (key : ObjectKey) (cause : error) : prog clusterE (option error) :=
  g <- call (OnCluster (KGet key)) ;;
  match (g : fallible TechnitiumCluster.t) with
  | inl e => Ret (IgnoreNotFound e)
  | inr tc => call (OnCluster (KStatusUpdate (clusterFailed (degradedReasonOf cause) cause tc)))
  end.

Definition markInvalidAdminSecretRef (key : ObjectKey) (cause : error) : prog clusterE (option error) :=
  g <- call (OnCluster (KGet key)) ;;
  match (g : fallible TechnitiumCluster.t) with
  | inl e => Ret (IgnoreNotFound e)
  | inr tc =>
      let tc := with_observedGeneration tc (ObjectMeta.Generation (TechnitiumCluster.Meta tc)) in
      call (OnCluster (KStatusUpdate (clusterFailed reasonInvalidAdminSecretRef cause tc)))
  end.
End status.

(** ** Laws *)

Section laws.
Context `{KubeLib} `{!KubeLibLaws}.
Context (OperatorNamespace : string).

(** The loop and the sums over it keep one entry per ordinal. *)
Definition node_list_ok (tc : TechnitiumCluster.t) (n : Z) (r : list NodeStatus.t * string) : Prop :=
  map NodeStatus.Name r.1 = map (podName (TechnitiumCluster.Name tc)) (ordinals n) /\
  r.2 = members_text (joined_count r.1) n.

Lemma unknown_joined tc l : joined_count (map (unknownNode tc) l) = 0.
Proof. unfold joined_count. induction l as [|i l IH]; [done|]. cbn. exact IH. Qed.

Lemma memberStatus_name tc s i : NodeStatus.Name (memberStatus tc s i) = podName (TechnitiumCluster.Name tc) i.
Proof. unfold memberStatus. by destruct (findClusterMember _ _). Qed.

Lemma ownStatus_name tc s i : NodeStatus.Name (ownStatus tc i s) = podName (TechnitiumCluster.Name tc) i.
Proof. unfold ownStatus. by destruct (if ClusterState.ClusterInitialized s then _ else _). Qed.

Lemma holds_readNodeStatuses tc u w l : forall tr,
  holds (readNodeStatuses OperatorNamespace tc u w l) tr (fun _ nodes =>
    map NodeStatus.Name nodes = map (podName (TechnitiumCluster.Name tc)) l).
Proof.
  induction l as [|i l IH]; intros tr; [done|]. cbn.
  assert (Hend : forall tr' s, NodeStatus.Name s = podName (TechnitiumCluster.Name tc) i ->
    holds (rest <- readNodeStatuses OperatorNamespace tc u w l ;; Ret (s :: rest)) tr' (fun _ nodes =>
      map NodeStatus.Name nodes = podName (TechnitiumCluster.Name tc) i :: map (podName (TechnitiumCluster.Name tc)) l)).
  { intros tr' s Hs. apply holds_bind. eapply holds_mono; [|apply IH]. intros tr2 nodes Hn. cbn. by rewrite Hs, Hn. }
  intros [e|]; cbn; [by apply Hend|]. intros [e|s]; cbn; apply Hend; [done|apply ownStatus_name].
Qed.

Lemma holds_buildNodeStatuses tc n tr :
  holds (buildNodeStatuses OperatorNamespace tc n) tr (fun _ r => node_list_ok tc n r).
Proof.
  unfold buildNodeStatuses. apply holds_bind. eapply holds_mono; [|apply holds_extends].
  intros tr1 [e|[u w]] _.
  { split; cbn; [rewrite List.map_map; by apply map_ext|by rewrite unknown_joined]. }
  apply holds_bind. apply (holds_mono _ (fun _ p => match p with Some r => node_list_ok tc n r | None => True end)).
  - intros tr2 [r|] Hr; [exact Hr|]. apply holds_bind. eapply holds_mono; [|apply holds_readNodeStatuses].
    intros tr3 nodes Hn. by split.
  - destruct (1 <? n); [|done]. unfold buildNodeStatusesFromPrimary. cbn. intros [e|]; cbn; [done|].
    intros [e|s]; cbn; [done|]. destruct (negb _); cbn; [done|]. split; cbn; [|done].
    rewrite List.map_map. apply map_ext. intros i. apply memberStatus_name.
Qed.

(** Reading the nodes' statuses asks nothing of the cluster object. *)
Definition status_of (c : clusterE) : option TechnitiumCluster.t :=
  match c with OnCluster (KStatusUpdate tc) => Some tc | _ => None end.
Definition status_writes (tr : list (event clusterE)) : list TechnitiumCluster.t := omap status_of (map projT1 tr).

Lemma reading_no_status ext :
  Forall (fun e : event clusterE => ~ not_reading (projT1 e)) ext -> status_writes ext = [].
Proof.
  induction ext as [|e ext IH]; intros Hf; [done|]. inversion Hf as [|e' l Hn Hf' [Ee El]]; subst e' l.
  unfold status_writes in *. cbn. rewrite (IH Hf'). unfold not_reading in Hn.
  by destruct e as [[[]| | | | | | | | | | | |] x]; cbn in *.
Qed.

Lemma buildNodeStatuses_avoids tc n : avoids not_reading (buildNodeStatuses OperatorNamespace tc n).
Proof.
  apply avoids_bind; [apply credentials_avoid|]. intros [e|[u w]]; [done|]. apply avoids_bind.
  - destruct (1 <? n); [|done]. cbn. split; [done|]. intros [e|]; cbn; [done|]. split; [done|].
    intros [e|s]; cbn; [done|]. by destruct (negb _).
  - intros [r|]; [done|]. apply avoids_bind; [|done]. induction (ordinals n) as [|i l IH]; [done|]. cbn.
    split; [done|]. intros [e|]; cbn; [by apply avoids_bind|]. split; [done|].
    intros [e|s]; cbn; by apply avoids_bind.
Qed.

(** *** What the status says *)

(** Ready, exactly when the workload is up, bootstrapped and clustered. *)
Lemma phase_ready ready desired bootstrapped clustered :
  ph_phase (phaseFor ready desired bootstrapped clustered) = TechnitiumClusterPhaseReady <->
  desired <= ready /\ bootstrapped = true /\ (desired <= 1 \/ clustered = true).
Proof.
  unfold phaseFor. destruct (Z.ltb_spec ready desired); cbn; [split; [done|lia]|].
  destruct bootstrapped; cbn; [|by split; [|intros (_ & ? & _)]].
  destruct (Z.ltb_spec 1 desired), clustered; cbn; split; try done.
  - intros _. split_and!; [done..|by right].
  - intros (_ & _ & [?|?]); [lia|done].
  - intros _. split_and!; [done..|by left].
  - intros _. split_and!; [done..|by left].
Qed.

Lemma phase_available ready desired bootstrapped clustered :
  let ph := phaseFor ready desired bootstrapped clustered in
  (ph_available ph = ConditionTrue <-> ph_phase ph = TechnitiumClusterPhaseReady) /\
  (ph_progressing ph = ConditionFalse <-> ph_phase ph = TechnitiumClusterPhaseReady).
Proof. unfold phaseFor. by destruct (ready <? desired), bootstrapped, ((1 <? desired) && negb clustered). Qed.

(** An object has a condition, stamped with its generation. *)
Definition says (tc : TechnitiumCluster.t) (e : entry) : Prop :=
  let '(ty, (st, reason, message)) := e in
  FindStatusCondition (conditions tc) ty
  = Some (Condition.mk ty st reason message (ObjectMeta.Generation (meta tc))).

(** [tc'] differs from [tc] in its conditions at most. *)
Definition same_but_conditions (tc tc' : TechnitiumCluster.t) : Prop :=
  with_conditions tc' [] = with_conditions tc [].

Lemma setCondition_same_but (tc : TechnitiumCluster.t) ty st rs m :
  same_but_conditions tc (setCondition tc ty st rs m).1.
Proof. unfold setCondition. by destruct (SetStatusCondition _ _). Qed.

Lemma setConditions_same_but l : forall tc, same_but_conditions tc (setConditions tc l).1.
Proof.
  induction l as [|[ty [[st rs] m]] l IH]; intros tc; [done|]. cbn.
  pose proof (setCondition_same_but tc ty st rs m) as Hs.
  destruct (setCondition tc ty st rs m) as [tc1 c]. specialize (IH tc1).
  destruct (setConditions tc1 l) as [tc2 cs]. unfold same_but_conditions in *. cbn in *. congruence.
Qed.

Lemma setConditions_unchanged l : forall tc, (setConditions tc l).2 = false -> (setConditions tc l).1 = tc.
Proof.
  induction l as [|[ty [[st rs] m]] l IH]; intros tc; [done|]. cbn.
  pose proof (setCondition_unchanged tc ty st rs m) as Hs.
  destruct (setCondition tc ty st rs m) as [tc1 c]. specialize (IH tc1).
  destruct (setConditions tc1 l) as [tc2 cs]. cbn in *.
  intros [-> ->]%orb_false_iff. rewrite IH by done. by apply Hs.
Qed.

Lemma says_kept l : forall tc e, e.1 ∉ l.*1 -> says tc e -> says (setConditions tc l).1 e.
Proof.
  induction l as [|[ty [[st rs] m]] l IH]; intros tc [ty0 [[st0 rs0] m0]] Hn Hs; [done|]. cbn [setConditions]. cbn [fst fmap list_fmap] in Hn.
  apply not_elem_of_cons in Hn as [Hne Hn].
  assert (Hs1 : says (setCondition tc ty st rs m).1 (ty0, (st0, rs0, m0))).
  { unfold says in *. by rewrite setCondition_find_other, Hs, setCondition_meta. }
  destruct (setCondition tc ty st rs m) as [tc1 c]. specialize (IH tc1 (ty0, (st0, rs0, m0)) Hn Hs1).
  by destruct (setConditions tc1 l).
Qed.

Lemma says_setConditions l : forall tc e, NoDup l.*1 -> e ∈ l -> says (setConditions tc l).1 e.
Proof.
  induction l as [|[ty [[st rs] m]] l IH]; intros tc e Hnd He; [by apply elem_of_nil in He|]. cbn [setConditions].
  apply NoDup_cons in Hnd as [Hn Hnd].
  assert (Hs1 : says (setCondition tc ty st rs m).1 (ty, (st, rs, m))).
  { unfold says. by rewrite setCondition_find, setCondition_meta. }
  destruct (setCondition tc ty st rs m) as [tc1 c]. specialize (IH tc1).
  pose proof (says_kept l tc1 (ty, (st, rs, m)) Hn Hs1) as Hk.
  destruct (setConditions tc1 l). apply elem_of_cons in He as [->|He]; [exact Hk|by apply IH].
Qed.

(** [tc] reports the phase [ph] and the rollout. *)
Definition reports (tc : TechnitiumCluster.t) (ph : phase_report) (rollout : rolloutState.t) : Prop :=
  let s := TechnitiumCluster.Status tc in
  TechnitiumClusterStatus.Phase s = ph_phase ph /\
  TechnitiumClusterStatus.ObservedGeneration s = ObjectMeta.Generation (TechnitiumCluster.Meta tc) /\
  TechnitiumClusterStatus.Rollout s = rolloutState.bookmark rollout /\
  Forall (says tc) (observedConditions ph rollout).

Lemma observedStatus_reports tc endpoint ready nodes ph rollout :
  let tc' := (observedStatus OperatorNamespace tc endpoint ready nodes ph rollout).1 in
  let s := (observedFields OperatorNamespace tc endpoint (ph_phase ph) ready nodes).1 in
  reports tc' ph rollout /\
  same_but_conditions
    (TechnitiumCluster.with_Status tc (TechnitiumClusterStatus.with_Rollout s (rolloutState.bookmark rollout))) tc'.
Proof.
  unfold observedStatus, observedFields. set (s := TechnitiumClusterStatus.mk _ _ _ _ _ _ _ _ _ _ _). cbn [fst].
  set (tc0 := TechnitiumCluster.with_Status tc s). set (l := observedConditions ph rollout).
  assert (Hsay : Forall (says (setConditions tc0 l).1) l).
  { apply List.Forall_forall. intros e He. apply says_setConditions; [|by apply list_elem_of_In].
    apply (bool_decide_unpack _). reflexivity. }
  pose proof (setConditions_same_but l tc0) as Hsame.
  destruct (setConditions tc0 l) as [tc1 c1]. cbn in *. unfold same_but_conditions in Hsame.
  assert (Hf : forall X (f : TechnitiumCluster.t -> X), f (with_conditions tc1 []) = f (with_conditions tc0 [])) by (by intros; rewrite Hsame).
  split; [split_and!|].
  - exact (Hf _ (fun t => TechnitiumClusterStatus.Phase (TechnitiumCluster.Status t))).
  - cbn. transitivity (ObjectMeta.Generation (TechnitiumCluster.Meta tc)).
    + exact (Hf _ (fun t => TechnitiumClusterStatus.ObservedGeneration (TechnitiumCluster.Status t))).
    + symmetry. exact (Hf _ (fun t => ObjectMeta.Generation (TechnitiumCluster.Meta t))).
  - done.
  - exact Hsay.
  - unfold same_but_conditions.
    exact (Hf _ (fun t => TechnitiumCluster.with_Status t
      (TechnitiumClusterStatus.with_Rollout (TechnitiumCluster.Status t) (rolloutState.bookmark rollout)))).
Qed.

Lemma observedStatus_unchanged tc endpoint ready nodes ph rollout :
  (observedStatus OperatorNamespace tc endpoint ready nodes ph rollout).2 = false ->
  (observedStatus OperatorNamespace tc endpoint ready nodes ph rollout).1 = tc.
Proof.
  unfold observedStatus, observedFields. set (s := TechnitiumClusterStatus.mk _ _ _ _ _ _ _ _ _ _ _).
  pose proof (setConditions_unchanged (observedConditions ph rollout) (TechnitiumCluster.with_Status tc s)) as Hu.
  destruct (setConditions _ _) as [tc1 c1]. cbn in *.
  intros [[Hc0 Hc1]%orb_false_iff Hc2]%orb_false_iff.
  apply negb_false_iff, bool_decide_eq_true in Hc0. apply negb_false_iff, bool_decide_eq_true in Hc2.
  rewrite (Hu Hc1) in Hc2 |- *. rewrite <- Hc2. clearbody s.
  change (TechnitiumCluster.with_Status tc (TechnitiumClusterStatus.with_Rollout s (TechnitiumClusterStatus.Rollout s)) = tc).
  rewrite <- Hc0. by destruct tc as [m sp []].
Qed.
End laws.

Section guarantees.
Context `{KubeLib} `{!KubeLibLaws}.
Context (OperatorNamespace : string).

(** The Version column says what the nodes run.  It is empty when no node
    reports a version, "mixed" only when two nodes report different ones, and
    otherwise the version every node that reports one reports; a node that
    reports none never counts as a disagreement. *)
Theorem summarizeVersions_spec (nodes : list NodeStatus.t) :
  let versions := List.filter (fun v => negb (v =s? "")) (map NodeStatus.Version nodes) in
  match versions with
  | [] => summarizeVersions nodes = ""
  | v :: vs => if forallb (String.eqb v) vs then summarizeVersions nodes = v
               else summarizeVersions nodes = mixedVersion
  end.
Proof.
  cbn zeta. unfold summarizeVersions. induction nodes as [|n nodes IH]; [done|]. cbn.
  destruct (NodeStatus.Version n =s? "") eqn:E; cbn; [exact IH|].
  apply String.eqb_neq in E. clear IH.
  assert (Hgen : forall v, v <> "" -> (if forallb (String.eqb v) (List.filter (fun v => negb (v =s? "")) (map NodeStatus.Version nodes))
    then summarize_from v nodes = v else summarize_from v nodes = mixedVersion)); [|by apply Hgen].
  intros v Hv. induction nodes as [|m nodes IH]; [done|]. cbn.
  rewrite (proj2 (String.eqb_neq v "") Hv).
  destruct (NodeStatus.Version m =s? "") eqn:Em; cbn; [exact IH|].
  destruct (v =s? NodeStatus.Version m); cbn; [exact IH|done].
Qed.

(** The node entries of a status and their summaries. *)
Definition nodes_reported (tc tc' : TechnitiumCluster.t) (up : bool) : Prop :=
  let s := TechnitiumCluster.Status tc in let s' := TechnitiumCluster.Status tc' in
  if up then
    node_list_ok tc (desiredReplicaCount tc) (TechnitiumClusterStatus.Nodes s', TechnitiumClusterStatus.Members s') /\
    TechnitiumClusterStatus.Version s' = summarizeVersions (TechnitiumClusterStatus.Nodes s')
  else
    TechnitiumClusterStatus.Nodes s' = TechnitiumClusterStatus.Nodes s /\
    TechnitiumClusterStatus.Members s' = TechnitiumClusterStatus.Members s /\
    TechnitiumClusterStatus.Version s' = TechnitiumClusterStatus.Version s.

(** What the last step writes, given the nodes read. *)
Lemma observedStatus_ok tc endpoint ready nodes ph rollout :
  (if desiredReplicaCount tc <=? ready
   then exists r, nodes = Some r /\ node_list_ok tc (desiredReplicaCount tc) r else nodes = None) ->
  let tc' := (observedStatus OperatorNamespace tc endpoint ready nodes ph rollout).1 in
  reports tc' ph rollout /\ meta tc' = meta tc /\ spec_of tc' = spec_of tc /\
  TechnitiumClusterStatus.Endpoint (TechnitiumCluster.Status tc') = endpoint /\
  TechnitiumClusterStatus.ReadyReplicas (TechnitiumCluster.Status tc') = ready /\
  nodes_reported tc tc' (desiredReplicaCount tc <=? ready).
Proof.
  intros Hn tc'. destruct (observedStatus_reports OperatorNamespace tc endpoint ready nodes ph rollout) as [Hr Hs].
  fold tc' in Hr, Hs. split; [exact Hr|]. clear Hr. clearbody tc'. unfold same_but_conditions in Hs.
  assert (Hf : forall X (f : TechnitiumCluster.t -> X), f (with_conditions tc' []) = f _) by (intros X f; by rewrite Hs).
  split_and!.
  - exact (Hf _ TechnitiumCluster.Meta).
  - exact (Hf _ TechnitiumCluster.Spec).
  - exact (Hf _ (fun t => TechnitiumClusterStatus.Endpoint (TechnitiumCluster.Status t))).
  - exact (Hf _ (fun t => TechnitiumClusterStatus.ReadyReplicas (TechnitiumCluster.Status t))).
  - pose proof (Hf _ (fun t => TechnitiumClusterStatus.Nodes (TechnitiumCluster.Status t))) as F1.
    pose proof (Hf _ (fun t => TechnitiumClusterStatus.Members (TechnitiumCluster.Status t))) as F2.
    pose proof (Hf _ (fun t => TechnitiumClusterStatus.Version (TechnitiumCluster.Status t))) as F3.
    cbn in F1, F2, F3. unfold nodes_reported. destruct (_ <=? ready).
    + destruct Hn as ([ns m] & -> & Hok). cbn in *. by rewrite F1, F2, F3.
    + subst nodes. by split_and!.
Qed.

(** The cluster an event fetched. *)
Definition fetched (e : event clusterE) : option TechnitiumCluster.t :=
  match e with existT (OnCluster (KGet _)) (inr tc) => Some tc | _ => None end.

Lemma requeue_slow ready n bootstrapped clustered rollout :
  let ph := phaseFor ready n bootstrapped clustered in
  requeueAfter ph rollout = clusterDriftInterval <->
  ph_phase ph = TechnitiumClusterPhaseReady /\ rolloutState.status rollout <> ConditionTrue.
Proof.
  intros ph. unfold requeueAfter.
  assert (Hrq : ph_requeue ph = clusterDriftInterval <-> ph_phase ph = TechnitiumClusterPhaseReady)
    by (unfold ph, phaseFor; by destruct (ready <? n), bootstrapped, ((1 <? n) && negb clustered)).
  case_bool_decide as Eu.
  - split; [|by intros [_ []]]. unfold clusterPollInterval, clusterDriftInterval, nanosecond_per_second. lia.
  - rewrite Hrq. by split; [|intros []].
Qed.

(** The nodes' part of a pass. *)
Lemma holds_nodes_read tc (ready : Z) (e0 : event clusterE) :
  let n := desiredReplicaCount tc in
  holds (if n <=? ready then r <- buildNodeStatuses OperatorNamespace tc n ;; Ret (Some r) else Ret None) [e0]
    (fun tr nodes => (if n <=? ready then exists r, nodes = Some r /\ node_list_ok tc n r else nodes = None) /\
       exists ext, tr = (e0 :: ext)%list /\ status_writes ext = []).
Proof.
  intros n. destruct (n <=? ready); [|by split; [|exists []]].
  apply holds_bind. eapply holds_mono; [|apply (holds_avoiding not_reading); [apply buildNodeStatuses_avoids|apply holds_buildNodeStatuses]].
  intros tr r [Hok (ext & -> & Hext)]. cbn. split; [by exists r|]. exists ext. split; [done|by apply reading_no_status].
Qed.

Lemma status_writes_app tr tr' : status_writes (tr ++ tr') = (status_writes tr ++ status_writes tr')%list.
Proof. unfold status_writes. by rewrite map_app, omap_app. Qed.

End guarantees.

(** ** Example

    The two nodes of the rollout's example, up, bootstrapped and clustered. *)

#[local] Existing Instance RefKubeLib.lib.
#[local] Existing Instance RefKubeLib.laws.

Definition status_answer (c : clusterE) : option (answer c) :=
  match c return option (answer c) with
  | OnCluster (KGet _) => Some (inr rollout_tc : fallible TechnitiumCluster.t)
  | OnCluster (KStatusUpdate _) => Some (None : option error)
  | _ => None
  end.
Definition status_handler (c : clusterE) (p : Z) : answer c * Z :=
  match status_answer c with
  | Some x => (x, p)
  | None => healthy rollout_secret rollout_pods rollout_report 100 c p
  end.
Definition status_pass : prog clusterE (Z * option error) :=
  updateStatus "ops" {| KeyNamespace := ""; KeyName := "dns" |} rollout_sts "http://dns.ops.svc:5380" true true (idle rollout_sts).

