(* ===== verification/ClusterController.v ===== *)
(** * The TechnitiumCluster controller

    [internal/controller/technitiumcluster_controller.go]: [Reconcile],
    [finalizeCluster] and the deletion steps. *)

From S2P Require Import Prelude GoStrings GoErrors Effects Version Kube Lifecycle ClusterAPI ClusterTypes ClusterKube Services Workload Nodes Rollout ClusterStatus.

Local Open Scope string_scope.
Local Open Scope Z_scope.
Local Open Scope go_scope.
Local Open Scope prog_scope.

Definition clusterFinalizer : string := "dns.packet.fail/cluster-cleanup".

Section controller.
Context `{KubeLib} `{KubeOwner}.
Context (OperatorNamespace : string) (StallTimeout : Z) (hashPodTemplate : PodTemplateSpec.t -> string).

(** ** Deletion *)

(** One Secondary; failures are logged only. *)
Definition removeNode (l : login) (node : ClusterNode.t) : prog clusterE unit :=
  if negb (ClusterNode.Type_ node =s? "Secondary") then Ret tt
  else call (OnNode l (NRemoveSecondary (ClusterNode.ID node))) ;;
       call (OnNode l (NDeleteSecondary (ClusterNode.ID node))) ;; Ret tt.

Fixpoint removeNodes (l : login) (nodes : list ClusterNode.t) : prog clusterE unit :=
  match nodes with
  | [] => Ret tt
  | n :: nodes => removeNode l n ;; removeNodes l nodes
  end.

Definition teardownClusterState (tc : TechnitiumCluster.t) : prog clusterE unit :=
  c <- adminCredentials OperatorNamespace tc ;;
  match c with
  | inl _ => Ret tt
  | inr (username, password) =>
      let l := nodeLogin OperatorNamespace tc username password primaryOrdinal in
      e <- call (NewNodeClient l) ;;
      match (e : option error) with
      | Some _ => Ret tt
      | None =>
          s <- getState l ;;
          match s with
          | inl _ => Ret tt
          | inr state =>
              if negb (ClusterState.ClusterInitialized state) then Ret tt
              else removeNodes l (ClusterState.Nodes state) ;;
                   call (OnNode l (NDeletePrimaryCluster true)) ;; Ret tt
          end
      end
  end.

Definition retains (tc : TechnitiumCluster.t) : bool :=
  negb (StorageSpec.RetentionPolicy (TechnitiumClusterSpec.Storage (TechnitiumCluster.Spec tc)) =s? PVCRetentionPolicyDelete).

Definition reconcilePVCRetention (tc : TechnitiumCluster.t) : prog clusterE (option error) :=
  let name := TechnitiumCluster.Name tc in
  if retains tc then Ret None
  else
    l <- call (OnPVC (OList OperatorNamespace (instanceLabels name))) ;;
    match (l : fallible (list PersistentVolumeClaim.t)) with
    | inl e => Ret (Some (wrapf ("listing data PVCs for " +:+ name) e))
    | inr pvcs =>
        for_each pvcs (fun pvc =>
          d <- call (OnPVC (ODelete pvc)) ;;
          match (d : option error) with
          | Some e => if IsNotFound e then Ret None
                      else Ret (Some (wrapf ("deleting PVC " +:+ ObjectMeta.Name (PersistentVolumeClaim.Meta pvc)) e))
          | None => Ret None
          end)
    end.

(** The references that are not this cluster's. *)
Definition keptOwners (tc : TechnitiumCluster.t) (refs : list OwnerReference.t) : list OwnerReference.t :=
  List.filter (fun ref => negb (OwnerReference.UID ref =s? ObjectMeta.UID (TechnitiumCluster.Meta tc))) refs.

Definition generated_secret_key (tc : TechnitiumCluster.t) : ObjectKey :=
  {| KeyNamespace := OperatorNamespace; KeyName := adminSecretName (TechnitiumCluster.Name tc) |}.

Definition reconcileAdminSecretRetention (tc : TechnitiumCluster.t) : prog clusterE (option error) :=
  match TechnitiumClusterSpec.AdminSecretRef (TechnitiumCluster.Spec tc) with
  | Some _ => Ret None
  | None =>
      if negb (retains tc) then Ret None
      else
        let key := generated_secret_key tc in
        g <- call (OnSecret (OGet key)) ;;
        match (g : fallible Secret.t) with
        | inl e => if IsNotFound e then Ret None else Ret (Some (wrapf ("getting admin secret " +:+ key_text key) e))
        | inr secret =>
            let refs := ObjectMeta.OwnerReferences (Secret.Meta secret) in
            let kept := keptOwners tc refs in
            if (length kept =? length refs)%nat then Ret None
            else
              u <- call (OnSecret (OUpdate (Secret.with_Meta secret
                          (ObjectMeta.with_OwnerReferences (Secret.Meta secret) kept)))) ;;
              match (u : fallible Secret.t) with
              | inl e => if IsNotFound e then Ret None
                         else Ret (Some (wrapf ("releasing admin secret " +:+ key_text key) e))
              | inr _ => Ret None
              end
        end
  end.

Definition orphans (tc : TechnitiumCluster.t) : bool :=
  TechnitiumClusterSpec.DeletionPolicy (TechnitiumCluster.Spec tc) =s? DeletionPolicyOrphan.

Definition finalizeCluster (tc : TechnitiumCluster.t) : prog clusterE (option error) :=
  if negb (has_finalizer tc clusterFinalizer) then Ret None
  else
    (if orphans tc then Ret tt else teardownClusterState tc) ;;
    check reconcileAdminSecretRetention tc ;;
    check reconcilePVCRetention tc ;;
    u <- call (OnCluster (KUpdate (remove_finalizer tc clusterFinalizer))) ;;
    Ret (match (u : fallible TechnitiumCluster.t) with inl e => Some e | inr _ => None end).

(** ** Reconcile *)

(** A failed step: recorded on the cluster, and returned. *)
Definition failStep (key : ObjectKey) (err : error) : prog clusterE (Z * option error) :=
  clusterMarkDegraded key err ;; Ret (0, Some err).

(** Minting the token and clustering: [(bootstrapped, clustered)]. *)
Definition bootstrap (tc : TechnitiumCluster.t) (readyReplicas : Z) : prog clusterE (fallible (bool * bool)) :=
  let desiredReplicas := desiredReplicaCount tc in
  let clustered := desiredReplicas <=? 1 in
  if desiredReplicas <=? readyReplicas then
    try bootstrapped <- ensureToken OperatorNamespace tc
                          (nodeEndpoint (TechnitiumCluster.Name tc) primaryOrdinal OperatorNamespace) ;;
    if bootstrapped && (1 <? desiredReplicas) then
      try clustered <- reconcileClustering OperatorNamespace tc desiredReplicas ;;
      ok (bootstrapped, clustered)
    else ok (bootstrapped, clustered)
  else ok (false, clustered).

(** [Reconcile] once the finalizer is registered. *)
Definition reconcileRegistered (key : ObjectKey) (tc : TechnitiumCluster.t) : prog clusterE (Z * option error) :=
  w <- reconcileWorkload OperatorNamespace hashPodTemplate tc ;;
  match w with
  | inl e => failStep key e
  | inr workload =>
      let sts := statefulSetOutcome.sts workload in
      b <- bootstrap tc (StatefulSetStatus.ReadyReplicas (StatefulSet.Status sts)) ;;
      match b with
      | inl e => failStep key e
      | inr (bootstrapped, clustered) =>
          r <- reconcileRollout OperatorNamespace StallTimeout tc workload ;;
          match r with
          | inl e => failStep key e
          | inr (rollout, sts) =>
              s <- updateStatus OperatorNamespace key sts (clientServiceEndpoint tc OperatorNamespace)
                     bootstrapped clustered rollout ;;
              Ret (match s with (_, Some e) => (0, Some e) | (requeueAfter, None) => (requeueAfter, None) end)
          end
      end
  end.

Definition clusterReconcile (key : ObjectKey) : prog clusterE (Z * option error) :=
  g <- call (OnCluster (KGet key)) ;;
  match (g : fallible TechnitiumCluster.t) with
  | inl e => Ret (0, IgnoreNotFound e)
  | inr tc =>
      if ObjectMeta.Deleting (TechnitiumCluster.Meta tc) then e <- finalizeCluster tc ;; Ret (0, e)
      else
        match (adminSecretKeyFor tc OperatorNamespace).2 with
        | Some err => e <- markInvalidAdminSecretRef key err ;; Ret (0, e)
        | None =>
            let '(tc, added) := add_finalizer tc clusterFinalizer in
            u <- (if added then call (OnCluster (KUpdate tc)) else Ret (inr tc : fallible TechnitiumCluster.t)) ;;
            match (u : fallible TechnitiumCluster.t) with
            | inl e => Ret (0, Some e)
            | inr tc => reconcileRegistered key tc
            end
        end
  end.
End controller.

(** ** Deleting a cluster *)

Section deletion.
Context `{KubeLib} `{KubeOwner}.
Context (OperatorNamespace : string).

(** The node calls of a history, with their node. *)
Definition node_call (c : clusterE) : option (login * nodeE) :=
  match c with OnNode l c => Some (l, c) | _ => None end.
Definition node_calls (tr : list (event clusterE)) : list (login * nodeE) := omap node_call (map projT1 tr).

(** The calls that tear a cluster down: every Secondary, then the Primary. *)
Definition teardown_calls (l : login) (nodes : list ClusterNode.t) : list (login * nodeE) :=
  (flat_map (fun n => if ClusterNode.Type_ n =s? "Secondary"
                      then [(l, NRemoveSecondary (ClusterNode.ID n)); (l, NDeleteSecondary (ClusterNode.ID n))]
                      else []) nodes
   ++ [(l, NDeletePrimaryCluster true)])%list.

(** Calls that write to Kubernetes. *)
Definition kube_write (c : clusterE) : bool :=
  match c with
  | OnCluster (KUpdate _) | OnCluster (KStatusUpdate _) | OnPVC _ => true
  | OnSecret (OGet _) => false
  | OnSecret _ => true
  | _ => false
  end.

(** The cluster state a history read last. *)
Definition state_read (e : event clusterE) : option ClusterState.t :=
  match e with existT (OnNode _ NGetClusterState) (inr s) => Some s | _ => None end.

(** What the teardown asks of the nodes. *)
Definition teardown_ok (tr : list (event clusterE)) : Prop :=
  match omap state_read tr with
  | [] => Forall (fun c => c.2 = NGetClusterState) (node_calls tr)
  | state :: _ => exists l, node_calls tr
      = (l, NGetClusterState) :: if ClusterState.ClusterInitialized state
                                 then teardown_calls l (ClusterState.Nodes state) else []
  end.

Lemma node_calls_app tr tr' : node_calls (tr ++ tr') = (node_calls tr ++ node_calls tr')%list.
Proof. unfold node_calls. by rewrite map_app, omap_app. Qed.

Lemma removeNodes_always l nodes :
  always (removeNodes l nodes) (fun tr _ =>
    (node_calls tr ++ [(l, NDeletePrimaryCluster true)])%list = teardown_calls l nodes /\
    omap state_read tr = [] /\ Forall (fun e => kube_write (projT1 e) = false) tr).
Proof.
  unfold always, teardown_calls. induction nodes as [|n nodes IH]; cbn; [by split_and!|].
  unfold removeNode. destruct (ClusterNode.Type_ n =s? "Secondary"); cbn; [|exact IH].
  intros x y. eapply holds_mono; [|apply (holds_frame _ _ _ IH)].
  intros tr _ (ext & -> & Hn & Hs & Hw). rewrite node_calls_app, <- app_assoc, Hn. split; [done|].
  rewrite omap_app, Hs. split; [done|]. by repeat constructor.
Qed.

Lemma credentials_always (tc : TechnitiumCluster.t) :
  always (adminCredentials OperatorNamespace tc) (fun tr _ =>
    node_calls tr = [] /\ omap state_read tr = [] /\ Forall (fun e => kube_write (projT1 e) = false) tr).
Proof.
  unfold always, adminCredentials, resolveAdminSecret.
  destruct (adminSecretKeyFor tc OperatorNamespace) as [key [e|]]; cbn; [by split_and!|].
  intros [e|s]; cbn; by repeat constructor.
Qed.

(** Every event of a history given piece by piece. *)
Ltac each_event := repeat first [assumption | apply Forall_app; split | constructor; [reflexivity|] | constructor].

Lemma teardown_always tc :
  always (teardownClusterState OperatorNamespace tc) (fun tr _ =>
    teardown_ok tr /\ Forall (fun e => kube_write (projT1 e) = false) tr).
Proof.
  unfold always, teardownClusterState. apply holds_bind. eapply holds_mono; [|apply credentials_always].
  intros tr [e|[u w]] (Hn & Hs & Hw); [by split; [unfold teardown_ok; rewrite Hs, Hn|]|].
  set (l := nodeLogin _ _ _ _ _). cbn. intros [e|]; cbn.
  { split; [|each_event].
    unfold teardown_ok. rewrite omap_app, Hs, node_calls_app, Hn. by constructor. }
  intros [e|state]; cbn.
  { split; [|each_event].
    unfold teardown_ok. rewrite !omap_app, Hs, !node_calls_app, Hn. cbn. by repeat constructor. }
  destruct (ClusterState.ClusterInitialized state) eqn:Ei; cbn.
  - apply holds_bind. eapply holds_mono; [|apply holds_frame, removeNodes_always].
    intros tr1 _ (ext & -> & Hc & _ & Hw1) x. cbn. split.
    + unfold teardown_ok. rewrite !omap_app, Hs. cbn. exists l.
      rewrite Ei, !node_calls_app, Hn, <- Hc. by rewrite <- !app_assoc.
    + each_event.
  - split; [|each_event].
    unfold teardown_ok. rewrite !omap_app, Hs. cbn. exists l. by rewrite Ei, !node_calls_app, Hn.
Qed.

(** A failure that keeps the cluster from being released. *)
Definition blocks (e : event clusterE) : bool :=
  match e with
  | existT (OnSecret (OGet _)) (inl e) | existT (OnSecret (OUpdate _)) (inl e)
  | existT (OnPVC (ODelete _)) (Some e) => negb (IsNotFound e)
  | existT (OnPVC (OList _ _)) (inl _) | existT (OnCluster (KUpdate _)) (inl _) => true
  | _ => false
  end.

(** The generated Secret was released, or is gone. *)
Definition secret_released (tc : TechnitiumCluster.t) (tr : list (event clusterE)) : Prop :=
  let key := generated_secret_key OperatorNamespace tc in
  (exists e, In (ev (OnSecret (OGet key) : clusterE) (inl e)) tr /\ IsNotFound e = true) \/
  exists secret, In (ev (OnSecret (OGet key) : clusterE) (inr secret)) tr /\
    let refs := ObjectMeta.OwnerReferences (Secret.Meta secret) in
    (keptOwners tc refs = refs \/
     exists x, In (ev (OnSecret (OUpdate (Secret.with_Meta secret
                    (ObjectMeta.with_OwnerReferences (Secret.Meta secret) (keptOwners tc refs)))) : clusterE) x) tr /\
       match x with inr _ => True | inl e => IsNotFound e = true end).

(** Every volume claim of the cluster was deleted, or is gone. *)
Definition claims_deleted (tc : TechnitiumCluster.t) (tr : list (event clusterE)) : Prop :=
  exists pvcs, In (ev (OnPVC (OList OperatorNamespace (instanceLabels (TechnitiumCluster.Name tc))) : clusterE) (inr pvcs)) tr /\
    forall pvc, In pvc pvcs -> exists x, In (ev (OnPVC (ODelete pvc) : clusterE) x) tr /\
      match x with None => True | Some e => IsNotFound e = true end.

Lemma filter_length_all {X} (f : X -> bool) (l : list X) : length (List.filter f l) = length l -> List.filter f l = l.
Proof.
  induction l as [|x l IH]; [done|]. cbn. destruct (f x); cbn; intros Hl.
  - by rewrite IH by lia.
  - pose proof (filter_length_le f l). lia.
Qed.

Lemma secretRetention_always tc :
  always (reconcileAdminSecretRetention OperatorNamespace tc) (fun tr r =>
    node_calls tr = [] /\ Forall (fun e => forall c, projT1 e <> OnPVC c) tr /\
    Forall (fun e => forall o, projT1 e <> OnCluster (KUpdate o)) tr /\
    (retains tc = false \/ TechnitiumClusterSpec.AdminSecretRef (TechnitiumCluster.Spec tc) <> None -> tr = []) /\
    match r with
    | None => TechnitiumClusterSpec.AdminSecretRef (TechnitiumCluster.Spec tc) = None -> retains tc = true ->
              secret_released tc tr
    | Some _ => existsb blocks tr = true
    end).
Proof.
  unfold always, reconcileAdminSecretRetention.
  destruct (TechnitiumClusterSpec.AdminSecretRef _) as [ref|]; [by split_and!|].
  destruct (retains tc); cbn; [|by split_and!].
  intros [e|secret]; cbn.
  { destruct (IsNotFound e) eqn:En; cbn; (split_and!; [done|by repeat constructor..|by intros [|[]]|]).
    - intros _ _. left. exists e. split; [by left|done].
    - by rewrite En. }
  destruct (_ =? _)%nat eqn:El; cbn.
  { split_and!; [done|by repeat constructor..|by intros [|[]]|]. intros _ _. right. exists secret. split; [by left|].
    left. apply filter_length_all. by apply Nat.eqb_eq. }
  intros [e|s]; cbn; [destruct (IsNotFound e) eqn:En; cbn|];
    (split_and!; [done|by repeat constructor..|by intros [|[]]|]).
  - intros _ _. right. exists secret. split; [by left|]. right. exists (inl e). split; [by right; left|done].
  - by rewrite En.
  - intros _ _. right. exists secret. split; [by left|]. right. exists (inr s). split; [by right; left|done].
Qed.

(** Deleting the claims of [pvcs], from a history. *)
Lemma claims_always (pvcs : list PersistentVolumeClaim.t) :
  always (for_each pvcs (fun pvc =>
      d <- call (OnPVC (ODelete pvc)) ;;
      match (d : option error) with
      | Some e => if IsNotFound e then Ret None
                  else Ret (Some (wrapf ("deleting PVC " +:+ ObjectMeta.Name (PersistentVolumeClaim.Meta pvc)) e))
      | None => Ret None
      end))
    (fun tr r => node_calls tr = [] /\ Forall (fun e => forall o, projT1 e <> OnCluster (KUpdate o)) tr /\
      match r with
      | None => forall pvc, In pvc pvcs -> exists x, In (ev (OnPVC (ODelete pvc) : clusterE) x) tr /\
                  match x with None => True | Some e => IsNotFound e = true end
      | Some _ => existsb blocks tr = true
      end).
Proof.
  unfold always. induction pvcs as [|pvc pvcs IH]; cbn; [by split_and!|].
  assert (Hnext : forall x : option error, match x with None => True | Some e => IsNotFound e = true end ->
    holds (for_each pvcs (fun pvc => d <- call (OnPVC (ODelete pvc)) ;;
        match (d : option error) with
        | Some e => if IsNotFound e then Ret None
                    else Ret (Some (wrapf ("deleting PVC " +:+ ObjectMeta.Name (PersistentVolumeClaim.Meta pvc)) e))
        | None => Ret None
        end)) [ev (OnPVC (ODelete pvc) : clusterE) x] (fun tr r =>
      node_calls tr = [] /\ Forall (fun e => forall o, projT1 e <> OnCluster (KUpdate o)) tr /\
      match r with
      | None => forall p, pvc = p \/ In p pvcs -> exists x, In (ev (OnPVC (ODelete p) : clusterE) x) tr /\
                  match x with None => True | Some e => IsNotFound e = true end
      | Some _ => existsb blocks tr = true
      end)).
  { intros x Hx. eapply holds_mono; [|apply holds_frame, IH].
    intros tr r (ext & -> & Hn & Hk & Hr). split; [exact Hn|]. split; [by constructor|].
    destruct r as [e|]; cbn; [by rewrite Hr, orb_true_r|].
    intros p [->|Hp]; [exists x; split; [by left|done]|].
    destruct (Hr p Hp) as (y & Hy & Ey). exists y. split; [by right|done]. }
  intros [e|]; cbn; [|by apply Hnext]. destruct (IsNotFound e) eqn:En; cbn; [by apply Hnext|].
  split; [done|]. split; [by repeat constructor|]. by rewrite En.
Qed.

Lemma PVCRetention_always tc :
  always (reconcilePVCRetention OperatorNamespace tc) (fun tr r =>
    node_calls tr = [] /\ Forall (fun e => forall o, projT1 e <> OnCluster (KUpdate o)) tr /\
    (retains tc = true -> tr = []) /\
    match r with
    | None => retains tc = false -> claims_deleted tc tr
    | Some _ => existsb blocks tr = true
    end).
Proof.
  unfold always, reconcilePVCRetention. destruct (retains tc); [by split_and!|]. cbn.
  intros [e|pvcs]; cbn; [by split_and!; [|repeat constructor|..]|].
  eapply holds_mono; [|apply holds_frame, claims_always].
  intros tr r (ext & -> & Hn & Hk & Hr). split; [exact Hn|]. split; [by constructor|]. split; [done|].
  destruct r as [e|]; cbn; [exact Hr|]. intros _. exists pvcs. split; [by left|].
  intros p Hp. destruct (Hr p Hp) as (y & Hy & Ey). exists y. split; [by right|done].
Qed.

(** The cluster was written back without its finalizer. *)
Definition cluster_released (tr : list (event clusterE)) : Prop :=
  exists o x, In (ev (OnCluster (KUpdate o) : clusterE) x) tr /\ has_finalizer o clusterFinalizer = false.

Lemma not_updated tr o x :
  Forall (fun e : event clusterE => forall o, projT1 e <> OnCluster (KUpdate o)) tr ->
  ~ In (ev (OnCluster (KUpdate o) : clusterE) x) tr.
Proof. intros Hf Hin. rewrite List.Forall_forall in Hf. by destruct (Hf _ Hin o). Qed.

Lemma secret_released_incl tc tr tr' : incl tr tr' -> secret_released tc tr -> secret_released tc tr'.
Proof.
  intros Hi [(e & He & En)|(s & Hs & [E|(x & Hx & Ex)])].
  - left. exists e. split; [by apply Hi|done].
  - right. exists s. split; [by apply Hi|by left].
  - right. exists s. split; [by apply Hi|]. right. exists x. split; [by apply Hi|done].
Qed.

Lemma claims_deleted_incl tc tr tr' : incl tr tr' -> claims_deleted tc tr -> claims_deleted tc tr'.
Proof.
  intros Hi (pvcs & Hp & Hd). exists pvcs. split; [by apply Hi|].
  intros pvc Hin. destruct (Hd pvc Hin) as (x & Hx & Ex). exists x. split; [by apply Hi|done].
Qed.

(** What a deletion pass may do and report. *)
Definition finalize_ok (tc : TechnitiumCluster.t) (tr : list (event clusterE)) (r : option error) : Prop :=
  (cluster_released tr ->
     has_finalizer tc clusterFinalizer = true /\
     (TechnitiumClusterSpec.AdminSecretRef (TechnitiumCluster.Spec tc) = None -> retains tc = true ->
        secret_released tc tr) /\
     (retains tc = false -> claims_deleted tc tr)) /\
  (retains tc = true -> Forall (fun e => forall c, projT1 e <> OnPVC c) tr) /\
  (orphans tc = true -> node_calls tr = []) /\ teardown_ok tr /\
  match r with
  | Some _ => existsb blocks tr = true
  | None => has_finalizer tc clusterFinalizer = true -> cluster_released tr
  end.

(** No write to the cluster object and no claim in a history. *)
Lemma quiet_writes tr :
  Forall (fun e : event clusterE => kube_write (projT1 e) = false) tr ->
  Forall (fun e => forall o, projT1 e <> OnCluster (KUpdate o)) tr /\
  Forall (fun e => forall c, projT1 e <> OnPVC c) tr.
Proof.
  intros Hf. split; (eapply Forall_impl; [exact Hf|]); intros [c y] He x E; cbn in *; by subst c.
Qed.

Lemma teardown_ok_app tr tr' : node_calls tr' = [] -> omap state_read tr' = [] -> teardown_ok tr -> teardown_ok (tr ++ tr').
Proof. intros Hn Hs. unfold teardown_ok. by rewrite omap_app, Hs, node_calls_app, Hn, !app_nil_r. Qed.

Lemma no_calls_no_state tr : node_calls tr = [] -> omap state_read tr = [].
Proof.
  induction tr as [|e tr IH]; [done|]. intros Hn.
  destruct e as [[| | | | | | | | | | | |l c] x]; cbn in *; try by apply IH. done.
Qed.

(** A pass so far: no release, and nothing else than the teardown of the nodes. *)
Definition unreleased (tc : TechnitiumCluster.t) (tr : list (event clusterE)) : Prop :=
  Forall (fun e => forall o, projT1 e <> OnCluster (KUpdate o)) tr /\
  (retains tc = true -> Forall (fun e => forall c, projT1 e <> OnPVC c) tr) /\
  (orphans tc = true -> node_calls tr = []) /\ teardown_ok tr.

Lemma unreleased_app tc tr ext :
  unreleased tc tr -> node_calls ext = [] ->
  Forall (fun e => forall o, projT1 e <> OnCluster (KUpdate o)) ext ->
  (retains tc = true -> Forall (fun e => forall c, projT1 e <> OnPVC c) ext) -> unreleased tc (tr ++ ext).
Proof.
  intros (Hu & Hp & Ho & Ht) Hn Hk Hpe. split_and!.
  - by apply Forall_app.
  - intros Hr. apply Forall_app. by split; [apply Hp|apply Hpe].
  - intros Hr. by rewrite node_calls_app, Hn, Ho.
  - apply teardown_ok_app; [done|by apply no_calls_no_state|done].
Qed.

Lemma unreleased_failed tc tr e : unreleased tc tr -> existsb blocks tr = true -> finalize_ok tc tr (Some e).
Proof.
  intros (Hu & Hp & Ho & Ht) Hb. split_and!; [|done..].
  intros (o & x & Hin & _). exfalso. exact (not_updated _ _ _ Hu Hin).
Qed.

Context `{!KubeLibLaws}.

(** The last step: the finalizer is cleared. *)
Lemma clear_finalizer_always tc tr :
  has_finalizer tc clusterFinalizer = true -> unreleased tc tr ->
  (TechnitiumClusterSpec.AdminSecretRef (TechnitiumCluster.Spec tc) = None -> retains tc = true -> secret_released tc tr) ->
  (retains tc = false -> claims_deleted tc tr) ->
  holds (u <- call (OnCluster (KUpdate (remove_finalizer tc clusterFinalizer))) ;;
         Ret (match (u : fallible TechnitiumCluster.t) with inl e => Some e | inr _ => None end)) tr (finalize_ok tc).
Proof.
  intros Hf (Hu & Hp & Ho & Ht) Hs Hc. cbn. intros x.
  set (e := ev (OnCluster (KUpdate _) : clusterE) x).
  assert (Hi : incl tr (tr ++ [e])) by (apply incl_appl, incl_refl).
  split_and!.
  - intros _. split; [done|]. split; intros; [eapply secret_released_incl|eapply claims_deleted_incl]; eauto.
  - intros Hr. apply Forall_app. split; [by apply Hp|]. by constructor.
  - intros Hr. by rewrite node_calls_app, Ho.
  - by apply teardown_ok_app.
  - destruct x as [err|o]; cbn; [by rewrite existsb_app, orb_true_r|].
    intros _. eexists _, _. split; [apply in_or_app; right; by left|].
    exact (has_finalizer_remove tc clusterFinalizer).
Qed.

Lemma released_always tc tr :
  has_finalizer tc clusterFinalizer = true -> unreleased tc tr ->
  holds (check reconcileAdminSecretRetention OperatorNamespace tc ;;
         check reconcilePVCRetention OperatorNamespace tc ;;
         u <- call (OnCluster (KUpdate (remove_finalizer tc clusterFinalizer))) ;;
         Ret (match (u : fallible TechnitiumCluster.t) with inl e => Some e | inr _ => None end)) tr (finalize_ok tc).
Proof.
  intros Hf Hu. apply holds_bind. eapply holds_mono; [|apply holds_frame, secretRetention_always].
  intros tr1 r1 (ext1 & -> & N1 & P1 & K1 & _ & R1). pose proof (unreleased_app _ _ _ Hu N1 K1 (fun _ => P1)) as Hu1.
  destruct r1 as [e|]; [apply unreleased_failed; [done|by rewrite existsb_app, R1, orb_true_r]|].
  apply holds_bind. eapply holds_mono; [|apply holds_frame, PVCRetention_always].
  intros tr2 r2 (ext2 & -> & N2 & K2 & E2 & R2).
  assert (Hu2 : unreleased tc ((tr ++ ext1) ++ ext2)) by (apply unreleased_app; [done..|]; intros Hr; by rewrite (E2 Hr)).
  destruct r2 as [e|]; [apply unreleased_failed; [done|by rewrite existsb_app, R2, orb_true_r]|].
  apply clear_finalizer_always; [done..| |].
  - intros Ha Hr. eapply secret_released_incl; [|by apply R1]. by apply incl_appl, incl_appr, incl_refl.
  - intros Hr. eapply claims_deleted_incl; [|by apply R2]. by apply incl_appr, incl_refl.
Qed.

End deletion.

(** ** Reconciling a cluster *)

Section reconciling.
Context `{KubeLib} `{!KubeLibLaws} `{KubeOwner}.
Context (OperatorNamespace : string) (StallTimeout : Z) (hashPodTemplate : PodTemplateSpec.t -> string).

(** Calls to anything but the cluster object itself. *)
Definition touches (c : clusterE) : bool := match c with OnCluster _ => false | _ => true end.

(** Evidence that the finalizer is registered, or the cluster is going away. *)
Definition secured (e : event clusterE) : bool :=
  match e with
  | existT (OnCluster (KGet _)) (inr tc) => ObjectMeta.Deleting (TechnitiumCluster.Meta tc) || has_finalizer tc clusterFinalizer
  | existT (OnCluster (KUpdate tc)) (inr _) => has_finalizer tc clusterFinalizer
  | _ => false
  end.

(** No call touches anything before that evidence. *)
Fixpoint secured_first (before : bool) (tr : list (event clusterE)) : bool :=
  match tr with
  | [] => true
  | e :: tr => (negb (touches (projT1 e)) || before) && secured_first (before || secured e) tr
  end.

Lemma secured_first_true tr : secured_first true tr = true.
Proof. induction tr as [|e tr IH]; [done|]. cbn. by rewrite orb_true_r. Qed.

Lemma secured_first_app before tr ext :
  secured_first before tr = true -> before || existsb secured tr = true -> secured_first before (tr ++ ext) = true.
Proof.
  revert before. induction tr as [|e tr IH]; cbn; intros before Hf Hb.
  - rewrite orb_false_r in Hb. subst. apply secured_first_true.
  - apply andb_prop in Hf as [-> Hf]. apply IH; [done|]. by rewrite <- orb_assoc.
Qed.

(** A cluster whose admin Secret reference is invalid, and is not going away. *)
Definition rejected (e : event clusterE) : bool :=
  match e with
  | existT (OnCluster (KGet _)) (inr tc) =>
      negb (ObjectMeta.Deleting (TechnitiumCluster.Meta tc))
      && match (adminSecretKeyFor tc OperatorNamespace).2 with Some _ => true | None => false end
  | _ => false
  end.

(** What a Reconcile may do, and in which order. *)
Definition order_ok (key : ObjectKey) (tr : list (event clusterE)) (r : Z * option error) : Prop :=
  secured_first false tr = true /\
  (match head tr with Some e => rejected e | None => false end = true ->
     existsb touches (map projT1 tr) = false /\
     Forall (fun e => forall o, projT1 e <> OnCluster (KUpdate o)) tr /\ r.1 = 0 /\
     forall e, r.2 = Some e ->
       last tr = Some (ev (OnCluster (KGet key) : clusterE) (inl e)) \/
       exists tc, last tr = Some (ev (OnCluster (KStatusUpdate tc) : clusterE) (Some e))).

(** Whatever follows the evidence keeps the order. *)
Lemma holds_order (key : ObjectKey) (p : prog clusterE (Z * option error)) (e0 : event clusterE) (tr : list (event clusterE)) :
  rejected e0 = false -> secured_first false (e0 :: tr) = true -> existsb secured (e0 :: tr) = true ->
  holds p (e0 :: tr) (order_ok key).
Proof.
  intros Hr Hf Hs. eapply holds_mono; [|apply holds_extends].
  intros tr' r (ext & ->). split; [by apply secured_first_app|]. cbn. by rewrite Hr.
Qed.

Lemma order_short (key : ObjectKey) (e0 : event clusterE) (tr : list (event clusterE)) (r : Z * option error) :
  rejected e0 = false -> secured_first false (e0 :: tr) = true -> order_ok key (e0 :: tr) r.
Proof. intros Hr Hf. split; [done|]. cbn. by rewrite Hr. Qed.

(** Marking the cluster, and nothing else. *)
Lemma invalid_order (key : ObjectKey) (tc : TechnitiumCluster.t) (err : error) :
  holds (e <- markInvalidAdminSecretRef key err ;; Ret (0, e))
    [ev (OnCluster (KGet key) : clusterE) (inr tc)] (order_ok key).
Proof.
  cbn -[clusterFailed]. intros [e|tc']; cbn -[clusterFailed].
  - split; [|intros _; split_and!]; try done; [by repeat constructor|].
    intros e' He. left. unfold IgnoreNotFound in He. destruct (IsNotFound e); [done|]. by injection He as <-.
  - intros x. split; [|intros _; split_and!]; try done; [by repeat constructor|].
    cbn -[clusterFailed]. intros e' ->. right. by eexists.
Qed.

(** Nothing is provisioned before the finalizer is registered.  Whatever
    is answered, a Reconcile calls nothing but the cluster object until that
    object was fetched with the finalizer, fetched while being deleted, or
    accepted with the finalizer added; and a cluster whose admin Secret
    reference is invalid is only marked so: nothing is provisioned, no
    finalizer is added and no retry is asked for, unless the mark itself could
    not be written. *)
Theorem cluster_reconcile_order (key : ObjectKey) :
  always (clusterReconcile OperatorNamespace StallTimeout hashPodTemplate key) (order_ok key).
Proof.
  unfold always, clusterReconcile. cbn -[reconcileRegistered finalizeCluster markInvalidAdminSecretRef add_finalizer].
  intros [e|tc]; [by split|]. set (e0 := ev (OnCluster (KGet key) : clusterE) (inr tc)).
  destruct (ObjectMeta.Deleting (TechnitiumCluster.Meta tc)) eqn:Ed.
  { apply holds_order; [|done|]; cbn; by rewrite Ed. }
  destruct (adminSecretKeyFor tc OperatorNamespace) as [k [err|]] eqn:Ek; [apply invalid_order|].
  assert (Hr : rejected e0 = false) by (cbn; by rewrite Ed, Ek). cbn -[reconcileRegistered add_finalizer].
  pose proof (add_finalizer_changed tc clusterFinalizer) as Hc. pose proof (has_finalizer_add tc clusterFinalizer) as Ha.
  destruct (add_finalizer tc clusterFinalizer) as [tc1 added]. cbn in Hc, Ha. destruct added; cbn -[reconcileRegistered].
  - intros [e|tc2]; cbn -[reconcileRegistered].
    + apply order_short; [done|]. cbn. by rewrite ?orb_true_r.
    + apply holds_order; [done|cbn; by rewrite ?orb_true_r|]. cbn. rewrite Ha. by rewrite ?orb_true_r.
  - apply holds_order; [done|done|]. cbn. symmetry in Hc. apply negb_false_iff in Hc. rewrite Hc. by rewrite ?orb_true_r.
Qed.

(** How a failed Reconcile ends: a write of the status that failed, a cluster
    that could not be fetched again, or the failure written on it. *)
Definition failure_recorded (key : ObjectKey) (e : error) (last_event : option (event clusterE)) : Prop :=
  (exists tc, last_event = Some (ev (OnCluster (KStatusUpdate tc) : clusterE) (Some e))) \/
  (exists err, last_event = Some (ev (OnCluster (KGet key) : clusterE) (inl err))) \/
  (exists tc x, last_event = Some (ev (OnCluster (KStatusUpdate tc) : clusterE) x) /\
     Forall (says tc)
       [(conditionDegraded, (ConditionTrue, degradedReasonOf e, Error e));
        (conditionProgressing, (ConditionFalse, degradedReasonOf e, Error e));
        (TechnitiumClusterConditionAvailable, (ConditionFalse, degradedReasonOf e, Error e))]).

Lemma clusterFailed_says reason e tc :
  Forall (says (clusterFailed reason e tc))
    [(conditionDegraded, (ConditionTrue, reason, Error e));
     (conditionProgressing, (ConditionFalse, reason, Error e));
     (TechnitiumClusterConditionAvailable, (ConditionFalse, reason, Error e))].
Proof.
  apply List.Forall_forall. intros x Hx. apply says_setConditions; [|by apply list_elem_of_In].
  apply (bool_decide_unpack _). reflexivity.
Qed.

Lemma holds_failStep key e tr :
  holds (failStep key e) tr (fun tr' r => forall e', r.2 = Some e' -> failure_recorded key e' (last tr')).
Proof.
  unfold failStep, clusterMarkDegraded. cbn -[clusterFailed]. intros [err|tc]; cbn -[clusterFailed].
  - intros e' [= <-]. right. left. exists err. by rewrite last_snoc.
  - intros x e' [= <-]. right. right. eexists _, x. rewrite last_snoc. split; [done|]. apply clusterFailed_says.
Qed.

Lemma holds_updateStatus_end key sts endpoint b c rollout tr :
  holds (updateStatus OperatorNamespace key sts endpoint b c rollout) tr (fun tr' r =>
    forall e, r.2 = Some e -> failure_recorded key e (last tr')).
Proof.
  unfold updateStatus. cbn -[observedStatus buildNodeStatuses phaseFor]. intros [err|tc]; cbn -[observedStatus buildNodeStatuses phaseFor].
  { intros e _. right. left. exists err. by rewrite last_snoc. }
  apply holds_bind. eapply holds_mono; [|apply holds_extends]. intros tr1 nodes _.
  destruct (observedStatus _ _ _ _ _ _ _) as [tc' []]; cbn; [|done].
  intros x e ->. left. exists tc'. by rewrite last_snoc.
Qed.

End reconciling.

(** ** Examples *)

#[local] Existing Instance RefKubeLib.lib.
#[local] Existing Instance RefKubeLib.laws.
#[local] Existing Instance RefKubeOwner.owner.

Definition cluster_key : ObjectKey := {| KeyNamespace := ""; KeyName := "dns" |}.

(** The rollout's cluster, being deleted. *)
Definition deleting_tc : TechnitiumCluster.t :=
  TechnitiumCluster.with_Meta rollout_tc
    (ObjectMeta.mk "dns" "" "uid-1" "2" 2 true true [clusterFinalizer] ∅ ∅ []).

(** Every object is as it was asked to be; the nodes answer as in the rollout's
    example, and the API server knows no Service. *)
Definition accepting_answer (c : clusterE) : option (answer c) :=
  match c return option (answer c) with
  | OnCluster (KGet _) => Some (inr rollout_tc : fallible TechnitiumCluster.t)
  | OnCluster (KUpdate tc) => Some (inr tc : fallible TechnitiumCluster.t)
  | OnCluster (KStatusUpdate _) => Some (None : option error)
  | OnSecret (OUpdate s) => Some (inr s : fallible Secret.t)
  | _ => None
  end.
Definition accepting (c : clusterE) (p : Z) : answer c * Z :=
  match accepting_answer c with
  | Some x => (x, p)
  | None => healthy rollout_secret rollout_pods rollout_report 100 c p
  end.


Example cluster_reconcile_order_witness :
  secured_first false (history accepting (clusterReconcile "ops" 0 example_hash cluster_key) 0) = true.
Proof.
  apply (always_run accepting _ _ 0 (cluster_reconcile_order "ops" 0 example_hash cluster_key)).
Defined.

