(* ===== verification/ServerRef.v ===== *)
(** * Resolving a serverRef to a client

    [internal/controller/serverref.go] (the cache of built clients),
    [internal/config/credentials.go] (the options a Secret stands for) and
    [loginNodeClient] of [technitiumcluster_controller.go]. *)

From S2P Require Import Prelude GoStrings GoErrors Effects Kube Client Lifecycle ClusterTypes ClusterKube Services Workload Nodes Zone.

Local Open Scope string_scope.
Local Open Scope Z_scope.
Local Open Scope go_scope.
Local Open Scope prog_scope.

(** ** Credentials *)

Definition secretKeyToken : string := "token".
Definition secretKeyUsername : string := "username".
Definition secretKeyPassword : string := "password".

(** A nil Secret is [None]. *)
Definition ClientOptionsFromSecret (secret : option Secret.t) : fallible (list ClientOption) :=
  match secret with
  | None => inl (EText "technitium: credentials secret is nil")
  | Some secret =>
      let token := TrimSpace (lookup_or_empty secretKeyToken (Secret.Data secret)) in
      let username := TrimSpace (lookup_or_empty secretKeyUsername (Secret.Data secret)) in
      let password := lookup_or_empty secretKeyPassword (Secret.Data secret) in
      if negb (token =s? "") then inr [WithToken token]
      else if negb (username =s? "") then inr [WithCredentials username password]
      else inl (EText ("technitium: credentials secret " +:+ quoted (ObjectMeta.Name (Secret.Meta secret))
             +:+ " must contain either a " +:+ quoted secretKeyToken +:+ " key, or " +:+ quoted secretKeyUsername
             +:+ " and " +:+ quoted secretKeyPassword +:+ " keys"))
  end.

Definition UsernamePasswordFromSecret (secret : option Secret.t) : fallible (string * string) :=
  match secret with
  | None => inl (EText "technitium: credentials secret is nil")
  | Some secret =>
      let missing k := EText ("technitium: credentials secret " +:+ quoted (ObjectMeta.Name (Secret.Meta secret))
                              +:+ " has no " +:+ quoted k +:+ " key") in
      let username := TrimSpace (lookup_or_empty secretKeyUsername (Secret.Data secret)) in
      let password := lookup_or_empty secretKeyPassword (Secret.Data secret) in
      if username =s? "" then inl (missing secretKeyUsername)
      else if password =s? "" then inl (missing secretKeyPassword)
      else inr (username, password)
  end.

(** ** [loginNodeClient]: a client that logs in on first use *)

Definition ensureLoggedIn (c : Client.t) : prog httpE (option error * Client.t) :=
  if negb (Token c =s? "") then Ret (None, c)
  else
    r <- Login c ;;
    Ret (match r with
         | (inl e, c) => (Some (wrapf "logging in to node" e), c)
         | (inr _, c) => (None, c)
         end).

(** The shape its seven methods share. *)
Definition loggedIn {R : Type} (c : Client.t) (method : Client.t -> prog httpE (fallible R))
  : prog httpE (fallible R * Client.t) :=
  l <- ensureLoggedIn c ;;
  match l with
  | (Some e, c) => Ret (inl e, c)
  | (None, c) => r <- method c ;; Ret (r, c)
  end.

(** ** The cache *)

Module cachedServerClient.
Record t := mk { endpoint : string; secretResourceVersion : string; api : Client.t }.
End cachedServerClient.
Abbreviation serverClientCache := (gmap string cachedServerClient.t).

(** What [resolve] reads; [Lock] is answered with the cache other resolutions
    left, [Unlock] publishes it. *)
Inductive refE : Type :=
| GetCluster (name : string)
| GetAdminSecret (key : ObjectKey)
| Lock
| Unlock (c : serverClientCache).
#[export] Instance refE_Effect : Effect refE := fun c => match c with
| GetCluster _ => fallible TechnitiumCluster.t
| GetAdminSecret _ => fallible Secret.t
| Lock => serverClientCache
| Unlock _ => unit
end.

Section resolve.
Context (operatorNamespace : string).

(** A client built anew. *)
Definition buildServerClient (ref : SecretReference.t) (endpoint : string) (secret : Secret.t) : fallible Client.t :=
  match ClientOptionsFromSecret (Some secret) with
  | inl e => inl e
  | inr opts =>
      match NewClient endpoint opts with
      | inl e => inl (wrapf ("building Technitium client for " +:+ quoted (SecretReference.Name ref)) e)
      | inr api => inr api
      end
  end.

(** The entry that may be used as it is. *)
Definition cachedClient (c : serverClientCache) (name endpoint version : string) : option Client.t :=
  entry ← c !! name;
  if (cachedServerClient.endpoint entry =s? endpoint) && (cachedServerClient.secretResourceVersion entry =s? version)
  then Some (cachedServerClient.api entry) else None.

(** The part of [resolve] under the lock. *)
Definition lookupOrBuild (ref : SecretReference.t) (tc : TechnitiumCluster.t) (secret : Secret.t)
  : prog refE (fallible Client.t) :=
  let endpoint := TechnitiumClusterStatus.PrimaryEndpoint (TechnitiumCluster.Status tc) in
  let version := ObjectMeta.ResourceVersion (Secret.Meta secret) in
  c <- call Lock ;;
  let unlock c r := call (Unlock c) ;; Ret (r : fallible Client.t) in
  match cachedClient c (TechnitiumCluster.Name tc) endpoint version with
  | Some api => unlock c (inr api)
  | None =>
      match buildServerClient ref endpoint secret with
      | inl e => unlock c (inl e)
      | inr api => unlock (<[TechnitiumCluster.Name tc := cachedServerClient.mk endpoint version api]> c) (inr api)
      end
  end.

(** [resolve] up to the lock, and [finish] after it. *)
Definition resolveWith (finish : SecretReference.t -> TechnitiumCluster.t -> Secret.t -> prog refE (fallible Client.t))
    (ref : SecretReference.t) : prog refE (fallible Client.t) :=
  let name := SecretReference.Name ref in
  g <- call (GetCluster name) ;;
  match (g : fallible TechnitiumCluster.t) with
  | inl e => fail (wrapf ("getting TechnitiumCluster " +:+ quoted name) e)
  | inr tc =>
      if TechnitiumClusterStatus.PrimaryEndpoint (TechnitiumCluster.Status tc) =s? "" then
        fail (EText ("TechnitiumCluster " +:+ quoted name +:+ " is not ready yet: no primary endpoint reported"))
      else
        match adminSecretKeyFor tc operatorNamespace with
        | (_, Some e) => fail (wrapf ("TechnitiumCluster " +:+ quoted name +:+ " has an invalid admin secret reference") e)
        | (key, None) =>
            s <- call (GetAdminSecret key) ;;
            match (s : fallible Secret.t) with
            | inl e => fail (wrapf ("getting admin secret " +:+ key_text key +:+ " for TechnitiumCluster " +:+ quoted name) e)
            | inr secret =>
                if lookup_or_empty adminSecretTokenKey (Secret.Data secret) =s? "" then
                  fail (EText ("TechnitiumCluster " +:+ quoted name +:+ " is not bootstrapped yet: admin secret "
                               +:+ key_text key +:+ " has no token"))
                else finish ref tc secret
            end
        end
  end.

Definition resolveServerRef : SecretReference.t -> prog refE (fallible Client.t) := resolveWith lookupOrBuild.
End resolve.

(** ** The cache is transparent *)

Section transparency.
Context (operatorNamespace : string).
(** The Secrets there have been.  A resourceVersion is given to one content of
    a Secret only, as the Kubernetes API documents. *)
Context (existed : Secret.t -> Prop).
Context (version_identifies : forall s s', existed s -> existed s' ->
  ObjectMeta.ResourceVersion (Secret.Meta s) = ObjectMeta.ResourceVersion (Secret.Meta s') ->
  Secret.Data s = Secret.Data s').

(** Resolving without a cache. *)
Definition resolveFresh : SecretReference.t -> prog refE (fallible Client.t) :=
  resolveWith operatorNamespace (fun ref tc secret =>
    Ret (buildServerClient ref (TechnitiumClusterStatus.PrimaryEndpoint (TechnitiumCluster.Status tc)) secret)).

(** Every entry is the client its endpoint and its Secret stand for. *)
Definition cache_ok (c : serverClientCache) : Prop :=
  forall name e, c !! name = Some e -> exists ref secret, existed secret /\
    ObjectMeta.ResourceVersion (Secret.Meta secret) = cachedServerClient.secretResourceVersion e /\
    buildServerClient ref (cachedServerClient.endpoint e) secret = inr (cachedServerClient.api e).

(** The Secrets a history read. *)
Definition read_existing (tr : list (event refE)) : Prop :=
  forall key s, In (ev (GetAdminSecret key : refE) (inr s)) tr -> existed s.
(** The cache it found, the cache it left. *)
Definition found (tr : list (event refE)) (c : serverClientCache) : Prop := In (ev (Lock : refE) c) tr.
Definition left (tr : list (event refE)) (c : serverClientCache) : Prop := In (ev (Unlock c : refE) tt) tr.

(** The history without the lock. *)
Definition is_read (c : refE) : bool := match c with GetCluster _ | GetAdminSecret _ => true | _ => false end.
Definition reads (tr : list (event refE)) : list (event refE) := List.filter (fun e => is_read (projT1 e)) tr.

(** The caches that any interleaving of resolutions can leave: each finds what
    another left. *)
Inductive reachable_cache : serverClientCache -> Prop :=
| zero_value : reachable_cache ∅
| after_resolution c ref tr r c' :
    reachable_cache c -> executes (resolveServerRef operatorNamespace ref) tr r ->
    read_existing tr -> (forall c0, found tr c0 -> c0 = c) -> left tr c' -> reachable_cache c'.

Lemma build_data ref ref' endpoint s s' api :
  Secret.Data s = Secret.Data s' ->
  buildServerClient ref endpoint s = inr api -> buildServerClient ref' endpoint s' = inr api.
Proof.
  unfold buildServerClient, ClientOptionsFromSecret. intros ->.
  destruct (negb _); [|destruct (negb _); [|done]]; cbn; by destruct (NewClient _ _).
Qed.

(** The critical section keeps the cache right and answers as if there were
    none. *)
Lemma lookupOrBuild_fresh ref tc secret tr r :
  executes (lookupOrBuild ref tc secret) tr r ->
  exists c c', tr = [ev (Lock : refE) c; ev (Unlock c' : refE) tt] /\
    (existed secret -> cache_ok c ->
     cache_ok c' /\
     r = buildServerClient ref (TechnitiumClusterStatus.PrimaryEndpoint (TechnitiumCluster.Status tc)) secret).
Proof.
  unfold lookupOrBuild. cbn. set (ep := TechnitiumClusterStatus.PrimaryEndpoint _).
  intros (c & tr1 & -> & He). exists c.
  destruct (cachedClient c _ _ _) as [api|] eqn:Ec.
  { cbn in He. destruct He as ([] & tr2 & -> & -> & ->). exists c. split; [done|]. intros Hs Hc. split; [done|].
    unfold cachedClient in Ec. destruct (c !! _) as [e|] eqn:El; [|done]. cbn in Ec.
    destruct (_ && _) eqn:Eb; [|done]. injection Ec as <-. apply andb_prop in Eb as [E1 E2].
    apply String.eqb_eq in E1, E2. destruct (Hc _ _ El) as (ref' & s' & Hs' & Ev & Hb). symmetry. subst ep.
    rewrite <- E1. eapply build_data; [|exact Hb]. apply version_identifies; [done|done|congruence]. }
  destruct (buildServerClient ref ep secret) as [e|api] eqn:Eb; cbn in He; destruct He as ([] & tr2 & -> & -> & ->).
  - exists c. split; [done|]. by intros _ Hc.
  - exists (<[TechnitiumCluster.Name tc := cachedServerClient.mk ep (ObjectMeta.ResourceVersion (Secret.Meta secret)) api]> c).
    split; [done|]. intros Hs Hc. split; [|done]. intros name e He.
    destruct (decide (name = TechnitiumCluster.Name tc)) as [->|Hne].
    + rewrite lookup_insert_eq in He. injection He as <-. by exists ref, secret.
    + rewrite lookup_insert_ne in He by done. by apply (Hc name).
Qed.

(** The whole resolution. *)
Lemma resolve_fresh_step ref tr r :
  executes (resolveServerRef operatorNamespace ref) tr r -> read_existing tr ->
  (forall c, found tr c -> cache_ok c) ->
  (forall c, left tr c -> cache_ok c) /\ executes (resolveFresh ref) (reads tr) r.
Proof.
  unfold resolveServerRef, resolveFresh, resolveWith. cbn.
  assert (Hnone : forall tr c, Forall (fun e : event refE => is_read (projT1 e) = true) tr -> ~ left tr c).
  { intros tr0 c Hf Hl. rewrite List.Forall_forall in Hf. by specialize (Hf _ Hl). }
  intros ([e|tc] & tr1 & -> & He) Hs Hc; cbn in He.
  { destruct He as [-> ->]. split; [intros c []%Hnone; by repeat constructor|].
    eexists _, _; split; [reflexivity|]; by split. }
  destruct (_ =s? "") eqn:Ee; cbn in He.
  { destruct He as [-> ->]. split; [intros c []%Hnone; by repeat constructor|].
    eexists _, _; split; [reflexivity|]. cbn. rewrite Ee. by split. }
  destruct (adminSecretKeyFor tc operatorNamespace) as [key [e|]] eqn:Ek; cbn in He.
  { destruct He as [-> ->]. split; [intros c []%Hnone; by repeat constructor|].
    eexists _, _; split; [reflexivity|]. cbn. rewrite Ee, Ek. by split. }
  destruct He as ([e|secret] & tr2 & -> & He); cbn in He.
  { destruct He as [-> ->]. split; [intros c []%Hnone; by repeat constructor|].
    eexists _, _; split; [reflexivity|]. cbn. rewrite Ee, Ek. eexists _, _; split; [reflexivity|]; by split. }
  destruct (lookup_or_empty _ _ =s? "") eqn:Et; cbn [executes] in He.
  { destruct He as [-> ->]. split; [intros c []%Hnone; by repeat constructor|].
    eexists _, _; split; [reflexivity|]. cbn. rewrite Ee, Ek. eexists _, _; split; [reflexivity|]. cbn. rewrite Et. by split. }
  destruct (lookupOrBuild_fresh _ _ _ _ _ He) as (c & c' & -> & Hok). clear He.
  destruct Hok as [Hc' ->]; [eapply Hs; right; by left|apply Hc; right; right; by left|].
  split.
  - intros c0 [E|[E|[E|[E|[]]]]]; try discriminate.
    apply (f_equal (fun e : event refE => match e with existT (Unlock x) _ => x | _ => ∅ end)) in E. cbn in E. by subst.
  - eexists _, _; split; [reflexivity|]. cbn. rewrite Ee, Ek. eexists _, _; split; [reflexivity|]. cbn. rewrite Et. by split.
Qed.

Lemma reachable_ok c : reachable_cache c -> cache_ok c.
Proof.
  induction 1 as [|c ref tr r c' _ IH He Hs Hf Hl].
  - intros name e Hl. by rewrite lookup_empty in Hl.
  - eapply resolve_fresh_step; [exact He|exact Hs| |exact Hl]. intros c0 H0. by rewrite (Hf _ H0).
Qed.

(** C11: The client cache is invisible.  Whatever resolutions ran before, in
    whatever order they took the lock, a resolution answers exactly what one
    without a cache answers for the cluster and the Secret it read: the client
    of the cluster's current Primary endpoint with the Secret's current
    credentials, or the same error.  A rotated Secret or a moved endpoint is
    never served from the cache. *)
Theorem cache_transparent (ref : SecretReference.t) (tr : list (event refE)) (r : fallible Client.t) :
  executes (resolveServerRef operatorNamespace ref) tr r ->
  read_existing tr -> (forall c, found tr c -> reachable_cache c) ->
  executes (resolveFresh ref) (reads tr) r /\ (forall c, left tr c -> cache_ok c).
Proof.
  intros He Hs Hf. destruct (resolve_fresh_step ref tr r He Hs) as [Hl Hr]; [|done].
  intros c Hc. by apply reachable_ok, Hf.
Qed.
End transparency.

(** ** What a resolution may hide *)

Section misread.
Context `{KubeLib} {T : Type} `{Resource T} {API : Type} `{Effect API}.
#[local] Existing Instance calls_Effect.

(** A missing admin Secret is taken for a missing server.  When the
    TechnitiumCluster exists and reports its endpoint but its admin Secret
    cannot be found, [resolve] fails with an error that answers to
    [IsNotFound], as for a cluster that does not exist; a resource being
    deleted is then released without any call to the server, whose zone,
    record, scope, app, signature or block list stays behind. *)
Theorem missing_secret_taken_for_gone (operatorNamespace : string) (finalizer : string) (orphan : T -> bool)
    (ref : T -> SecretReference.t) (cleanup : T -> prog (calls T API) (option error)) (o o' : T)
    (tc : TechnitiumCluster.t) (key : ObjectKey) (e : error) :
  TechnitiumClusterStatus.PrimaryEndpoint (TechnitiumCluster.Status tc) <> "" ->
  adminSecretKeyFor tc operatorNamespace = (key, None) -> IsNotFound e = true ->
  has_finalizer o finalizer = true -> orphan o = false ->
  exists err, IsNotFound err = true /\
    executes (resolveServerRef operatorNamespace (ref o))
      [ev (GetCluster (SecretReference.Name (ref o)) : refE) (inr tc); ev (GetAdminSecret key : refE) (inl e)] (inl err) /\
    executes (finalize_with finalizer orphan ref cleanup o)
      [ev (inr (inl (ResolveServer (ref o))) : calls T API) (Some err);
       ev (inl (KUpdate (remove_finalizer o finalizer)) : calls T API) (inr o')] None.
Proof.
  intros Hep Hk He Hf Ho. apply String.eqb_neq in Hep.
  eexists (wrapf _ e). rewrite wrapf_IsNotFound. split; [done|]. split.
  - unfold resolveServerRef, resolveWith. cbn. eexists _, _. split; [reflexivity|]. cbn. rewrite Hep, Hk. cbn.
    eexists _, _. split; [reflexivity|]. by split.
  - unfold finalize_with. rewrite Hf, Ho. cbn. eexists _, _. split; [reflexivity|].
    cbn -[IsNotFound]. rewrite wrapf_IsNotFound, He. cbn. eexists _, _. split; [reflexivity|]. by split.
Qed.
End misread.

(** A token of blanks counts as minted, and the client it yields holds none and
    never logs in: every request is sent without authorization. *)
Lemma blank_token_unauthenticated (ref : SecretReference.t) (endpoint : string) (secret : Secret.t) :
  endpoint <> "" -> TrimSpace (lookup_or_empty secretKeyToken (Secret.Data secret)) = "" ->
  TrimSpace (lookup_or_empty secretKeyUsername (Secret.Data secret)) <> "" ->
  exists api, buildServerClient ref endpoint secret = inr api /\ Token api = "".
Proof.
  intros Hep Ht Hu. apply String.eqb_neq in Hep, Hu. unfold buildServerClient, ClientOptionsFromSecret.
  rewrite Ht, Hu. cbn. unfold NewClient. rewrite Hep. by eexists.
Qed.

(** A node client holds a token, or asked for one first; only the login sets
    it, and no method runs without it. *)
Lemma ensureLoggedIn_token (c : Client.t) :
  always (ensureLoggedIn c) (fun tr r => (Token c <> "" -> tr = [] /\ r = (None, c)) /\ (r.1 = None -> Token r.2 <> "")).
Proof.
  unfold always, ensureLoggedIn. destruct (Token c =s? "") eqn:Et; cbn.
  2: { apply String.eqb_neq in Et. by split. }
  apply String.eqb_eq in Et. unfold Login. destruct (Client.username c =s? ""); cbn; [by split|].
  intros [e|e|e|code [body|]]; cbn; try by split.
  destruct (dec_envelope body) as [[st m]|]; cbn; [|by split].
  destruct (classifyStatus st m); cbn; [by split|].
  destruct (dec_struct _ body) as [tok|]; cbn; [|by split].
  destruct (tok =s? "") eqn:Ek; cbn; [by split|]. apply String.eqb_neq in Ek. by split.
Qed.

(** ** Examples *)

Definition served_tc : TechnitiumCluster.t :=
  TechnitiumCluster.with_Status (example_tc "technitium/dns-server:15.5" 1)
    (TechnitiumClusterStatus.mk [] "Ready" 1 "" "http://dns-0.dns-headless.ops.svc:5380" "" 1 [] "" "" None).
Definition dns_ref : SecretReference.t := SecretReference.mk "dns" "".

(** A resolution that finds the cache the first one left. *)
Definition example_entry : cachedServerClient.t :=
  cachedServerClient.mk "http://dns-0.dns-headless.ops.svc:5380" "7"
    (Client.mk "http://dns-0.dns-headless.ops.svc:5380" true "tok" "" "" defaultTimeout false).
Definition example_resolution (c c' : serverClientCache) : list (event refE) :=
  [ev (GetCluster "dns" : refE) (inr served_tc);
   ev (GetAdminSecret {| KeyNamespace := "ops"; KeyName := "dns-admin" |} : refE) (inr retained_secret);
   ev (Lock : refE) c; ev (Unlock c' : refE) tt].

Lemma example_resolution_runs (c : serverClientCache) :
  c = ∅ \/ c = {["dns" := example_entry]} ->
  executes (resolveServerRef "ops" dns_ref) (example_resolution c {["dns" := example_entry]})
    (inr (cachedServerClient.api example_entry)).
Proof.
  intros Hc. unfold resolveServerRef, resolveWith. do 2 (eexists _, _; split; [reflexivity|]). cbn.
  destruct Hc as [-> | ->]; eexists _, _; (split; [reflexivity|]); eexists _, _; (split; [vm_compute; reflexivity|]); by split.
Qed.

Lemma example_reads (c c' : serverClientCache) : read_existing (eq retained_secret) (example_resolution c c').
Proof.
  intros key s [E|[E|[E|[E|[]]]]]; try discriminate.
  by apply (f_equal (fun e : event refE => match e with existT (GetAdminSecret _) (inr x) => x | _ => retained_secret end)) in E.
Qed.

Lemma example_found (c c' c0 : serverClientCache) : found (example_resolution c c') c0 -> c0 = c.
Proof.
  intros [E|[E|[E|[E|[]]]]]; try discriminate.
  by apply (f_equal (fun e : event refE => match e with existT Lock x => x | _ => ∅ end)) in E.
Qed.

Lemma example_cache_reachable :
  reachable_cache "ops" (eq retained_secret) {["dns" := example_entry]}.
Proof.
  eapply (after_resolution _ _ ∅ dns_ref (example_resolution ∅ {["dns" := example_entry]})).
  - apply zero_value.
  - apply example_resolution_runs. by left.
  - apply example_reads.
  - intros c0 Hf. by eapply example_found.
  - do 3 right. by left.
Qed.

Example cache_transparent_witness :
  executes (resolveFresh "ops" dns_ref) (reads (example_resolution {["dns" := example_entry]} {["dns" := example_entry]}))
    (inr (cachedServerClient.api example_entry)).
Proof.
  refine (proj1 (cache_transparent "ops" (eq retained_secret) _ dns_ref _ _ (example_resolution_runs _ _) _ _)).
  - intros s s' <- <- _. reflexivity.
  - right. reflexivity.
  - apply example_reads.
  - intros c Hf. rewrite (example_found _ _ _ Hf). exact example_cache_reachable.
Defined.

#[local] Existing Instance RefKubeLib.lib.

Example missing_secret_taken_for_gone_witness :
  let zone := (add_finalizer (example_zone "example.com") zoneFinalizer).1 in
  exists err, IsNotFound err = true /\
    executes (finalizeZone zone)
      [ev (inr (inl (ResolveServer (zone_ref zone))) : calls Zone.t zoneE) (Some err);
       ev (inl (KUpdate (remove_finalizer zone zoneFinalizer)) : calls Zone.t zoneE) (inr zone)] None.
Proof.
  intros zone.
  destruct (missing_secret_taken_for_gone "ops" zoneFinalizer zone_orphan zone_ref (fun z => lift (deleteZone_body z))
    zone zone served_tc {| KeyNamespace := "ops"; KeyName := "dns-admin" |}
    (EKube NotFound "secrets dns-admin not found")) as (err & He & _ & Hx).
  - discriminate.
  - reflexivity.
  - reflexivity.
  - vm_compute. reflexivity.
  - vm_compute. reflexivity.
  - exists err. split; [exact He|exact Hx].
Defined.
