(* ===== verification/NodeClient.v ===== *)
(** * [loginNodeClient]: the session of a node client

    The cluster controller talks to each node through a client built from the
    admin credentials alone, which logs in on first use.  Here its seven methods
    are the client's requests ([ClusterAPI]) behind [ensureLoggedIn], and the
    requests of any sequence of calls are described from the wire: logins until
    one is granted, and then only requests with the token it granted. *)

From S2P Require Import Prelude GoStrings GoErrors Effects Client ClusterAPI ServerAPI ClusterKube ServerRef.

Local Open Scope string_scope.
Local Open Scope Z_scope.
Local Open Scope go_scope.
Local Open Scope prog_scope.

(** The methods that return only an error. *)
Definition loggedInE (c : Client.t) (method : Client.t -> prog httpE (option error))
  : prog httpE (option error * Client.t) :=
  l <- ensureLoggedIn c ;;
  match l with
  | (Some e, c) => Ret (Some e, c)
  | (None, c) => r <- method c ;; Ret (r, c)
  end.

Section session.
Context (parse_time : decoder Z).

(** A call on the node's client, and the client afterwards. *)
Definition loginNodeClient (c : Client.t) (a : nodeE) : prog httpE (answer a * Client.t) :=
  match a with
  | NGetClusterState => loggedIn c (GetClusterState parse_time)
  | NInitCluster opts => loggedIn c (fun c => InitCluster parse_time c opts)
  | NInitJoinCluster opts => loggedIn c (fun c => InitJoinCluster parse_time c opts)
  | NRemoveSecondary id => loggedInE c (fun c => RemoveSecondary c id)
  | NDeleteSecondary id => loggedInE c (fun c => DeleteSecondary c id)
  | NDeletePrimaryCluster force => loggedInE c (fun c => DeletePrimaryCluster c force)
  | NUpdateNodeIPAddresses ips => loggedIn c (fun c => UpdateNodeIPAddresses parse_time c ips)
  end.

(** [nodeClientFactory] and [bootstrapClientFactory], with their seams unset. *)
Definition nodeClientFactory (l : login) : fallible Client.t :=
  NewClient (l_endpoint l) [WithCredentials (l_username l) (l_password l)].
Definition bootstrapClientFactory (l : login) : fallible Client.t :=
  NewClient (l_endpoint l) [WithCredentials (l_username l) (l_password l)].

(** Calls one after the other on one client. *)
Fixpoint session (c : Client.t) (calls : list nodeE) : prog httpE Client.t :=
  match calls with
  | [] => Ret c
  | a :: calls => r <- loginNodeClient c a ;; session r.2 calls
  end.

(** ** The session as the node sees it *)

Definition loginPath : string := "/api/user/login".
Definition credentials (c : Client.t) : Values :=
  <["pass" := Client.password c]> (<["user" := Client.username c]> ∅).

(** The token a response grants. *)
Definition granted (res : http_result) : option string :=
  match res with
  | Response _ (Some body) =>
      match dec_envelope body with
      | Some (status, _) =>
          if status =s? "ok" then
            match dec_struct (get_field dec_string "token") body with
            | Some tok => if tok =s? "" then None else Some tok
            | None => None
            end
          else None
      | None => None
      end
  | _ => None
  end.

(** A client that holds [tok]: without a token it logs in with its
    credentials, with one it sends requests under it. *)
Fixpoint session_ok (c : Client.t) (tok : option string) (tr : list (event httpE)) : Prop :=
  match tr with
  | [] => True
  | existT (Post u auth form) res :: tr =>
      match tok with
      | None => u = url c loginPath /\ auth = None /\ form = credentials c /\ session_ok c (granted res) tr
      | Some t => u <> url c loginPath /\ auth = Some ("Bearer " +:+ t) /\ session_ok c tok tr
      end
  end.
Fixpoint token_after (tok : option string) (tr : list (event httpE)) : option string :=
  match tr with
  | [] => tok
  | existT (Post _ _ _) res :: tr => token_after (match tok with None => granted res | Some _ => tok end) tr
  end.

Definition held (c : Client.t) : option string := if Token c =s? "" then None else Some (Token c).

Lemma session_ok_app c tr tr' : forall tok,
  session_ok c tok (tr ++ tr')%list <-> session_ok c tok tr /\ session_ok c (token_after tok tr) tr'.
Proof.
  induction tr as [|[[u auth form] res] tr IH]; intros tok; cbn; [tauto|].
  destruct tok as [t|]; rewrite IH; tauto.
Qed.

Lemma token_after_app tr tr' : forall tok, token_after tok (tr ++ tr')%list = token_after (token_after tok tr) tr'.
Proof. induction tr as [|[[u auth form] res] tr IH]; intros tok; cbn; [done|]. apply IH. Qed.

Lemma token_after_held tr t : token_after (Some t) tr = Some t.
Proof. induction tr as [|[[u auth form] res] tr IH]; [done|exact IH]. Qed.

(** Two clients of the same node with the same credentials. *)
Definition same_node (c c' : Client.t) : Prop :=
  Client.baseURL c' = Client.baseURL c /\ Client.username c' = Client.username c /\
  Client.password c' = Client.password c.

Lemma session_ok_same c c' tr : same_node c c' -> forall tok, session_ok c' tok tr <-> session_ok c tok tr.
Proof.
  intros (E1 & E2 & E3). induction tr as [|[[u auth form] res] tr IH]; intros tok; cbn; [done|].
  unfold url, credentials. rewrite E1, E2, E3. destruct tok; by rewrite IH.
Qed.

(** Logging in: nothing but the login, and the token it grants is kept. *)
Lemma Login_session c :
  Token c = "" ->
  always (Login c) (fun tr r => session_ok c None tr /\ same_node c r.2 /\ held r.2 = token_after None tr /\
    match r.1 with inl _ => Token r.2 = "" | inr _ => Token r.2 <> "" end).
Proof.
  unfold Token. intros Ht. unfold always, Login, held, Token, same_node.
  destruct (Client.username c =s? "") eqn:Eu; cbn -[dec_envelope classifyStatus dec_struct].
  { rewrite Ht. by split_and!. }
  rewrite Ht. cbn -[dec_envelope classifyStatus dec_struct]. intros res.
  destruct res as [e|e|e|code [body|]]; cbn -[dec_envelope classifyStatus dec_struct];
    try (rewrite Ht; by split_and!).
  destruct (dec_envelope body) as [[st m]|] eqn:Ee; cbn -[classifyStatus dec_struct dec_envelope];
    [|rewrite Ht, Ee; by split_and!].
  destruct (classifyStatus st m) as [e|] eqn:Ec; cbn -[dec_struct dec_envelope]; rewrite ?Ee.
  { rewrite Ht. rewrite (proj2 (String.eqb_neq st "ok")); [by split_and!|].
    intros E. by rewrite (proj2 (classifyStatus_nil st m) E) in Ec. }
  apply classifyStatus_nil in Ec as ->. cbn -[dec_struct].
  destruct (dec_struct _ body) as [tok|] eqn:Ed; cbn -[dec_envelope dec_struct]; rewrite ?Ee, ?Ed;
    [|rewrite Ht; by split_and!].
  destruct (tok =s? "") eqn:Etok; cbn -[dec_envelope dec_struct]; rewrite ?Ee, ?Ed, Etok; cbn.
  - rewrite Ht. by split_and!.
  - apply String.eqb_neq in Etok. by split_and!.
Qed.

Lemma held_token c : Token c <> "" -> held c = Some (Token c).
Proof. intros Ht. unfold held. by rewrite (proj2 (String.eqb_neq _ _) Ht). Qed.

(** A request with a token. *)
Definition under_token (c : Client.t) (a : httpE) : Prop :=
  let '(Post u auth _) := a in u <> url c loginPath /\ auth = bearer c.

#[local] Instance under_token_dec c a : Decision (under_token c a).
Proof. destruct a. cbn. apply _. Defined.

Lemma under_token_session {R : Type} c (p : prog httpE R) :
  Token c <> "" -> avoids (fun a => ~ under_token c a) p ->
  always p (fun tr _ => session_ok c (held c) tr /\ token_after (held c) tr = held c).
Proof.
  intros Ht Hp. eapply holds_mono; [|exact (avoids_always _ _ Hp)]. cbn beta. intros tr r Htr.
  rewrite (held_token c Ht). split; [|apply token_after_held].
  induction Htr as [|[[u auth form] res] tr Hx _ IH]; [exact I|]. apply dec_stable in Hx as [Hu ->]. by split_and!.
Qed.

Lemma request_under_token c path form :
  Token c <> "" -> path <> loginPath -> ~ ~ under_token c (Post (url c path) (auth_of c) form).
Proof.
  unfold Token. intros Ht Hp Hn. apply Hn. split; [by intros E%url_inj|]. unfold auth_of.
  by rewrite (proj2 (String.eqb_neq _ _) Ht).
Qed.

Lemma same_node_trans c c' c'' : same_node c c' -> same_node c' c'' -> same_node c c''.
Proof. intros (E1 & E2 & E3) (F1 & F2 & F3). unfold same_node. split_and!; congruence. Qed.

Lemma ensureLoggedIn_session c :
  always (ensureLoggedIn c) (fun tr l =>
    session_ok c (held c) tr /\ same_node c l.2 /\ held l.2 = token_after (held c) tr /\
    (l.1 = None -> Token l.2 <> "")).
Proof.
  unfold ensureLoggedIn. destruct (Token c =s? "") eqn:Et; cbn [negb].
  - apply String.eqb_eq in Et. replace (held c) with (None : option string) by (unfold held; by rewrite Et).
    apply (always_bind _ _ _ _ (Login_session c Et)).
    intros tr [[e|tok] c'] (S1 & S2 & S3 & S4); unfold always; cbn [holds fst snd] in *; rewrite app_nil_r; by split_and!.
  - apply String.eqb_neq in Et. unfold always, same_node. cbn. by split_and!.
Qed.

(** What follows a login, under the token it left. *)
Lemma after_login {R : Type} c (k : option error * Client.t -> prog httpE (R * Client.t)) :
  (forall e c', exists x, k (Some e, c') = Ret (x, c')) ->
  (forall c', Token c' <> "" -> always (k (None, c')) (fun tr r => r.2 = c' /\
     session_ok c' (held c') tr /\ token_after (held c') tr = held c')) ->
  always (bind (ensureLoggedIn c) k) (fun tr r =>
    session_ok c (held c) tr /\ same_node c r.2 /\ held r.2 = token_after (held c) tr).
Proof.
  intros He Hk. apply (always_bind _ _ _ _ (ensureLoggedIn_session c)).
  intros tr [[e|] c'] (S1 & S2 & S3 & S4); cbn [fst snd] in *.
  - destruct (He e c') as [x ->]. unfold always. cbn. rewrite app_nil_r. by split_and!.
  - eapply holds_mono; [|exact (Hk c' (S4 eq_refl))]. cbn beta. intros tr' r (-> & T1 & T2).
    rewrite session_ok_app, token_after_app, <- S3. split_and!; [done| |done|done].
    by apply (session_ok_same c c').
Qed.

Lemma method_session {R : Type} c (method : Client.t -> prog httpE R) :
  Token c <> "" -> avoids (fun a => ~ under_token c a) (method c) ->
  always (r <- method c ;; Ret (r, c)) (fun tr r => r.2 = c /\
    session_ok c (held c) tr /\ token_after (held c) tr = held c).
Proof.
  intros Ht Hm. apply (always_bind _ _ _ _ (under_token_session c (method c) Ht Hm)).
  intros tr r Hr. unfold always. cbn. by rewrite app_nil_r.
Qed.

Lemma loggedIn_session {R : Type} c (method : Client.t -> prog httpE (fallible R)) :
  (forall c', Token c' <> "" -> avoids (fun a => ~ under_token c' a) (method c')) ->
  always (loggedIn c method) (fun tr r =>
    session_ok c (held c) tr /\ same_node c r.2 /\ held r.2 = token_after (held c) tr).
Proof.
  intros Hm. apply after_login; [intros e c'; by eexists|]. intros c' Ht. by apply method_session, Hm.
Qed.

Lemma loggedInE_session c (method : Client.t -> prog httpE (option error)) :
  (forall c', Token c' <> "" -> avoids (fun a => ~ under_token c' a) (method c')) ->
  always (loggedInE c method) (fun tr r =>
    session_ok c (held c) tr /\ same_node c r.2 /\ held r.2 = token_after (held c) tr).
Proof.
  intros Hm. apply after_login; [intros e c'; by eexists|]. intros c' Ht. by apply method_session, Hm.
Qed.

(** One call. *)
Lemma loginNodeClient_session c a :
  always (loginNodeClient c a) (fun tr r =>
    session_ok c (held c) tr /\ same_node c r.2 /\ held r.2 = token_after (held c) tr).
Proof.
  destruct a; (apply loggedIn_session || apply loggedInE_session); intros c' Ht;
    (apply do_avoids || apply do__avoids); by apply request_under_token.
Qed.

(** C16: The session of a node client.  However its calls are ordered and
    whatever the node answers, a client built from credentials first posts
    nothing but logins with those credentials, without a token, until a
    response grants one; from then on it never logs in again and every request
    carries exactly that token. *)
Theorem node_session (l : login) (c : Client.t) (calls : list nodeE) :
  nodeClientFactory l = inr c ->
  always (session c calls) (fun tr _ => session_ok c None tr).
Proof.
  intros Hc.
  assert (Hheld : held c = None).
  { unfold nodeClientFactory, NewClient in Hc. destruct (_ =s? ""); [done|]. cbn in Hc. by injection Hc as <-. }
  assert (Hs : forall c, always (session c calls) (fun tr _ => session_ok c (held c) tr)).
  2:{ rewrite <- Hheld. apply Hs. }
  clear. induction calls as [|a calls IH]; intros c; [exact I|].
  apply (always_bind _ _ _ _ (loginNodeClient_session c a)). intros tr [r c'] (S1 & S2 & S3).
  eapply holds_mono; [|exact (IH c')]. cbn beta. intros tr' _ T.
  apply session_ok_app. split; [done|]. rewrite <- S3. by apply (session_ok_same c c').
Qed.
End session.

(** ** Example: the second login is granted *)

Definition example_login : login :=
  {| l_endpoint := "http://dns-0.dns-headless.ops.svc:5380"; l_username := "admin"; l_password := "pw" |}.
Definition example_time : decoder Z := dec_int64.
Definition example_node (a : httpE) (n : nat) : http_result * nat :=
  let reply kvs := Response 200 (Some (JObj (("status", JStr "ok") :: kvs))) in
  match n with
  | O => (TransportFailed (EText "connection refused"), 1%nat)
  | 1%nat => (reply [("token", JStr "t1")], 2%nat)
  | _ => (reply [("response", JObj [("clusterInitialized", JBool true)])], n)
  end.

Definition example_client : Client.t :=
  Client.mk "http://dns-0.dns-headless.ops.svc:5380" true "" "admin" "pw" defaultTimeout false.
Definition seen (e : event httpE) : string * option string := let '(Post u auth _) := projT1 e in (u, auth).

Example example_session :
  map seen (history (fun a : httpE => example_node a)
    (session example_time example_client [NGetClusterState; NGetClusterState; NRemoveSecondary 7]) 0%nat)
  = [("http://dns-0.dns-headless.ops.svc:5380/api/user/login", None);
     ("http://dns-0.dns-headless.ops.svc:5380/api/user/login", None);
     ("http://dns-0.dns-headless.ops.svc:5380/api/admin/cluster/state", Some "Bearer t1");
     ("http://dns-0.dns-headless.ops.svc:5380/api/admin/cluster/primary/removeSecondary", Some "Bearer t1")].
Proof. vm_compute. reflexivity. Qed.

Example node_session_witness :
  always (session example_time example_client [NGetClusterState; NRemoveSecondary 7])
    (fun tr _ => session_ok example_client None tr).
Proof. apply (node_session example_time example_login). reflexivity. Defined.
