(* ===== verification/ServerClients.v ===== *)
(** * The controllers' clients

    Each resource controller depends on a few methods of the Technitium client
    (its API interface, a type of calls); in production the client it gets from
    [serverRef] ([ServerRef]) provides them.  [ServerClient] says that a type of
    calls is so provided: each call is a program over the HTTP transport (for
    the Zone controller, also a read of a TechnitiumCluster), and all it sends
    are requests of that client. *)

From S2P Require Import Prelude GoStrings GoErrors Effects Client ZonesAPI RecordsAPI ServerAPI DhcpAPI.
From S2P Require Import Kube Lifecycle ClusterTypes Zone Record RecordWire ServerSettings Blocklist DHCPScope DNSSEC DNSApp.
From S2P Require Import ServerRef.

Local Open Scope string_scope.
Local Open Scope go_scope.

(** What a pass does besides reading and writing its own object: reads of the
    cluster and its Secret, the cache's lock, and HTTP requests. *)
Abbreviation servedE := (refE + httpE)%type.

(** A request of client [c]: to the API at its base URL, under its token. *)
Definition request_of (c : Client.t) (a : httpE) : Prop :=
  let '(Post u auth _) := a in HasPrefix u (url c "/api/") = true /\ auth = auth_of c.
(** The calls a client makes: its requests, and reads of clusters. *)
Definition own_call (c : Client.t) (a : servedE) : Prop :=
  match a with
  | inl (ServerRef.GetCluster _) => True
  | inl _ => False
  | inr p => request_of c p
  end.

Class ServerClient (API : Type) `{Effect API} := {
  via : Client.t -> forall a : API, prog servedE (answer a);
  via_own c a : avoids (fun x => ~ own_call c x) (via c a)
}.

#[export] Instance own_call_dec c a : Decision (own_call c a).
Proof. destruct a as [[]|[]]; cbn; apply _. Defined.

(** ** Requests are the client's own *)
Lemma own_request c path form : ~ ~ own_call c (inr (Post (url c ("/api/" +:+ path)) (auth_of c) form)).
Proof.
  intros Hn. apply Hn. split; [|done]. apply HasPrefix_spec. exists path.
  unfold url. by rewrite !string_app_assoc.
Qed.

Lemma own_do_ c path form :
  avoids (fun x : servedE => ~ own_call c x) (injr (do_ c ("/api/" +:+ path) form)).
Proof. apply avoids_injr, do__avoids, own_request. Qed.

Lemma own_do {X : Type} c path form (d : decoder X) :
  avoids (fun x : servedE => ~ own_call c x) (injr (do c ("/api/" +:+ path) form d)).
Proof. apply avoids_injr, do_avoids, own_request. Qed.

(** A method checks its arguments, and then sends one request. *)
Ltac own_requests :=
  lazymatch goal with
  | |- avoids _ (injr ?p) => let q := eval red in p in change p with q; cbv zeta
  end;
  repeat match goal with |- context [match ?x with _ => _ end] => destruct x; try exact I end;
  first [exact I | apply own_do_ | apply own_do].

(** ** The seven controllers *)

Definition zoneClient (c : Client.t) (a : zoneE) : prog servedE (answer a) :=
  match a with
  | ZoneCreate opts => injr (CreateZone c opts)
  | ZoneGetOptions zone => injr (GetZoneOptions c zone)
  | ZoneSetOptions zone opts => injr (SetZoneOptions c zone opts)
  | ZoneDelete zone => injr (DeleteZone c zone)
  | Zone.GetCluster name => call (inl (ServerRef.GetCluster name) : servedE)
  end.

Definition settingsClient (c : Client.t) (a : settingsE) : prog servedE (answer a) :=
  match a with
  | SettingsGet => injr (GetDNSSettings c)
  | SettingsSet opts => injr (SetDNSSettings c opts)
  end.

Definition blocklistClient (c : Client.t) (a : blocklistE) : prog servedE (answer a) :=
  match a with
  | BlGetSettings => injr (GetDNSSettings c)
  | BlSetSettings opts => injr (SetDNSSettings c opts)
  | BlForceUpdate => injr (ForceUpdateBlockLists c)
  | BlAddAllowed domain => injr (AddAllowedZone c domain)
  | BlDeleteAllowed domain => injr (DeleteAllowedZone c domain)
  | BlAddBlocked domain => injr (AddBlockedZone c domain)
  | BlDeleteBlocked domain => injr (DeleteBlockedZone c domain)
  end.

Definition scopeClient (c : Client.t) (a : dhcpE) : prog servedE (answer a) :=
  match a with
  | DhcpGetScope name => injr (GetDHCPScope c name)
  | DhcpSetScope opts => injr (SetDHCPScope c opts)
  | DhcpEnable name => injr (EnableDHCPScope c name)
  | DhcpDisable name => injr (DisableDHCPScope c name)
  | DhcpDelete name => injr (DeleteDHCPScope c name)
  | DhcpAddLease opts => injr (AddReservedLease c opts)
  | DhcpRemoveLease scopeName mac => injr (RemoveReservedLease c scopeName mac)
  end.

Definition dnssecClient (c : Client.t) (a : dnssecE) : prog servedE (answer a) :=
  match a with
  | DnssecSign opts => injr (SignZone c opts)
  | DnssecUnsign zone => injr (UnsignZone c zone)
  | DnssecGet zone => injr (GetDNSSECProperties c zone)
  end.

Definition appClient (c : Client.t) (a : appE) : prog servedE (answer a) :=
  match a with
  | AppList => injr (ListApps c)
  | AppInstall name url => injr (DownloadAndInstallApp c name url)
  | AppUpdate name url => injr (DownloadAndUpdateApp c name url)
  | AppUninstall name => injr (UninstallApp c name)
  | AppGetConfig name => injr (GetAppConfig c name)
  | AppSetConfig name config => injr (SetAppConfig c name config)
  end.

(** Each sends only requests of the client it is given. *)
#[export, program] Instance zone_client : ServerClient zoneE := {| via := zoneClient |}.
Next Obligation. destruct a; cbn [zoneClient]; [own_requests..|]. split; [by intros Hn; apply Hn|done]. Qed.
#[export, program] Instance record_client : ServerClient recordE := {| via c a := injr (recordClient c a) |}.
Next Obligation. destruct a; cbn [zoneClient settingsClient blocklistClient scopeClient dnssecClient appClient recordClient]; own_requests. Qed.
#[export, program] Instance settings_client : ServerClient settingsE := {| via := settingsClient |}.
Next Obligation. destruct a; cbn [zoneClient settingsClient blocklistClient scopeClient dnssecClient appClient recordClient]; own_requests. Qed.
#[export, program] Instance blocklist_client : ServerClient blocklistE := {| via := blocklistClient |}.
Next Obligation. destruct a; cbn [zoneClient settingsClient blocklistClient scopeClient dnssecClient appClient recordClient]; own_requests. Qed.
#[export, program] Instance scope_client : ServerClient dhcpE := {| via := scopeClient |}.
Next Obligation. destruct a; cbn [zoneClient settingsClient blocklistClient scopeClient dnssecClient appClient recordClient]; own_requests. Qed.
#[export, program] Instance dnssec_client : ServerClient dnssecE := {| via := dnssecClient |}.
Next Obligation. destruct a; cbn [zoneClient settingsClient blocklistClient scopeClient dnssecClient appClient recordClient]; own_requests. Qed.
#[export, program] Instance app_client : ServerClient appE := {| via := appClient |}.
Next Obligation. destruct a; cbn [zoneClient settingsClient blocklistClient scopeClient dnssecClient appClient recordClient]; own_requests. Qed.
