(* ===== verification/Wired.v ===== *)
(** * The controllers, wired to their clients

    In production a controller's [serverClientFor] resolves the [serverRef]
    ([ServerRef]) and the methods of its API interface are the client's
    ([ServerClients]).  [wired] is a controller's program with both in place: a
    program over the Kubernetes API, the reads of a resolution, its lock, and
    HTTP.  The client in hand starts as a nil interface, on which a method call
    would panic; the theorem says that this cannot happen, and where every
    request of a pass goes. *)

From S2P Require Import Prelude GoStrings GoErrors Effects Kube Client Lifecycle ClusterTypes ClusterKube Services Workload.
From S2P Require Import Zone Record RecordWire ServerSettings Blocklist DHCPScope DNSSEC DNSApp.
From S2P Require Import ServerRef ServerClients.

Local Open Scope string_scope.
Local Open Scope Z_scope.
Local Open Scope go_scope.
Local Open Scope prog_scope.

(** ** Which calls a pass makes

    A [serverRef] is resolved only when it is that of an object read before, and
    the server is called only after a resolution succeeded. *)
Section resolved.
Context `{KubeLib} {T : Type} `{Resource T} {API : Type} `{Effect API}.
#[local] Existing Instance calls_Effect.
Context (ref : T -> SecretReference.t).

Definition may_call (refs : list SecretReference.t) (served : bool) (a : calls T API) : Prop :=
  match a with
  | inl _ => True
  | inr (inl (ResolveServer r)) => r ∈ refs
  | inr (inr _) => served = true
  end.

Definition refs_after (refs : list SecretReference.t) (a : calls T API) : answer a -> list SecretReference.t :=
  match a with
  | inl (KGet _) | inl (KUpdate _) => fun x : fallible T => match x with inr o => ref o :: refs | inl _ => refs end
  | _ => fun _ => refs
  end.

Definition served_after (served : bool) (a : calls T API) : answer a -> bool :=
  match a with
  | inr (inl _) => fun x : option error => match x with None => true | Some _ => served end
  | _ => fun _ => served
  end.

Fixpoint resolved {R : Type} (refs : list SecretReference.t) (served : bool) (p : prog (calls T API) R) : Prop :=
  match p with
  | Ret _ => True
  | Call a k => may_call refs served a /\
      forall x, resolved (refs_after refs a x) (served_after served a x) (k x)
  end.

Lemma refs_after_incl refs a x : refs ⊆ refs_after refs a x.
Proof. destruct a as [[]|[[]|]]; cbn; try done; destruct x; cbn; set_solver. Qed.
Lemma served_after_keeps a x : served_after true a x = true.
Proof. destruct a as [[]|[[]|]]; cbn; try done; by destruct x. Qed.

Lemma resolved_bind {R V : Type} (p : prog (calls T API) R) (f : R -> prog (calls T API) V) :
  forall refs served, resolved refs served p ->
  (forall r refs' served', refs ⊆ refs' -> (served = true -> served' = true) -> resolved refs' served' (f r)) ->
  resolved refs served (bind p f).
Proof.
  induction p as [r|a k IH]; cbn; intros refs served Hp Hf; [by apply Hf|].
  destruct Hp as [Ha Hk]. split; [done|]. intros x. apply IH; [done|]. intros r refs' served' Hr Hs.
  apply Hf.
  - etransitivity; [apply refs_after_incl|exact Hr].
  - intros ->. apply Hs, served_after_keeps.
Qed.

Lemma resolved_lift {R : Type} (p : prog API R) refs : resolved refs true (lift p).
Proof. induction p as [r|a k IH]; cbn; [done|]. by split. Qed.

Lemma resolved_with_server {W : Type} r (body : prog API (fallible W)) refs served :
  r ∈ refs -> resolved refs served (with_server r body).
Proof. intros Hr. cbn. split; [done|]. intros [e|]; [exact I|]. apply resolved_lift. Qed.

Lemma resolved_markReady reason message record key refs served :
  resolved refs served (markReady reason message record key).
Proof. cbn. split; [done|]. intros [e|o]; [exact I|]. destruct (readyStatus _ _ _ _) as [o' []]; by cbn. Qed.

Lemma resolved_markDegraded key cause refs served : resolved refs served (markDegraded key cause).
Proof. cbn. split; [done|]. by intros [e|o]; cbn. Qed.

Lemma resolved_finalize_with f orphan (cleanup : T -> prog API (option error)) (o : T) refs served :
  ref o ∈ refs -> resolved refs served (finalize_with f orphan ref (fun o => lift (cleanup o)) o).
Proof.
  intros Hr. unfold finalize_with. destruct (negb _); [exact I|]. apply resolved_bind.
  - destruct (orphan o); [exact I|]. cbn. split; [done|]. intros [e|]; [by destruct (IsNotFound e)|].
    apply resolved_lift.
  - intros [e|] refs' served' _ _; [exact I|]. cbn. split; [done|]. by intros [e|o'].
Qed.

Context `{!KubeLibLaws} `{!ResourceLaws T}.

Lemma resolved_reconcile {W : Type} f finalize (work : T -> prog (calls T API) (fallible W)) ready key :
  (forall o refs served, ref o ∈ refs -> resolved refs served (finalize o)) ->
  (forall o refs served, ref o ∈ refs -> resolved refs served (work o)) ->
  (forall key o v refs served, resolved refs served (ready key o v)) ->
  resolved [] false (reconcile f finalize work markDegraded ready key).
Proof.
  intros Hf Hw Hr. unfold reconcile, kget. cbn [bind call resolved may_call]. split; [done|].
  intros [e|o]; cbn [bind resolved refs_after served_after]; [exact I|].
  destruct (ObjectMeta.Deleting _).
  { apply resolved_bind; [apply Hf; set_solver|]. by intros. }
  assert (Hrest : forall o refs served, ref o ∈ refs -> resolved refs served (
      x <- work o ;;
      match x with
      | inl e => markDegraded key e ;; Ret (0, Some e)
      | inr v => s <- ready key o v ;;
          match s with Some e => Ret (0, Some e) | None => Ret (driftReconcileInterval, None) end
      end)).
  { intros o1 refs served Ho. apply resolved_bind; [by apply Hw|]. intros [e|v] refs' served' _ _.
    - apply resolved_bind; [apply resolved_markDegraded|]. by intros.
    - apply resolved_bind; [apply Hr|]. by intros [e|]. }
  pose proof (add_finalizer_unchanged o f) as Hu. destruct (add_finalizer o f) as [o1 []]; cbn in Hu.
  - cbn [bind kupdate call resolved may_call]. split; [done|]. intros [e|o2]; [exact I|].
    apply Hrest. cbn. set_solver.
  - rewrite Hu by done. apply Hrest. set_solver.
Qed.
End resolved.

(** ** Wiring *)

Section wiring.
Context (operatorNamespace : string).

Section program.
Context {T API : Type} `{ServerClient API}.
#[local] Existing Instance calls_Effect.

Abbreviation wiredE := (kubeE T + servedE)%type.

(** One call, with the client in hand; [None] is the panic of a method call on a
    nil interface. *)
Definition wire (cur : option Client.t) (a : calls T API) : prog wiredE (option (answer a * option Client.t)) :=
  match a with
  | inl k => x <- call (inl k : wiredE) ;; Ret (Some (x, cur))
  | inr (inl (ResolveServer ref)) =>
      r <- injr (injl (resolveServerRef operatorNamespace ref)) ;;
      Ret (Some (match r with inl e => (Some e, cur) | inr c => (None, Some c) end))
  | inr (inr a) =>
      match cur with
      | None => Ret None
      | Some c => x <- injr (via c a) ;; Ret (Some (x, cur))
      end
  end.

Fixpoint wired {R : Type} (cur : option Client.t) (p : prog (calls T API) R) : prog wiredE (option R) :=
  match p with
  | Ret r => Ret (Some r)
  | Call a k =>
      r <- wire cur a ;;
      match r with
      | None => Ret None
      | Some (x, cur) => wired cur (k x)
      end
  end.
End program.

(** ** Where requests go *)

Section addressing.
Context (existed : Secret.t -> Prop).
Context (version_identifies : forall s s', existed s -> existed s' ->
  ObjectMeta.ResourceVersion (Secret.Meta s) = ObjectMeta.ResourceVersion (Secret.Meta s') ->
  Secret.Data s = Secret.Data s').
Context {T API : Type} `{ServerClient API} (ref : T -> SecretReference.t).
#[local] Existing Instance calls_Effect.

Abbreviation wiredT := (list (event (kubeE T + servedE))).
Definition on_ref (a : refE) : kubeE T + servedE := inr (inl a).
Definition on_http (a : httpE) : kubeE T + servedE := inr (inr a).

(** The Secrets read are Secrets that existed, the caches found are caches that
    resolutions leave. *)
Definition trusted (tr : wiredT) : Prop :=
  (forall key s, In (ev (on_ref (GetAdminSecret key)) (inr s)) tr -> existed s) /\
  (forall c, In (ev (on_ref Lock) c) tr -> reachable_cache operatorNamespace existed c).

(** The object was read, or written back, in this history. *)
Definition fetched (o : T) (tr : wiredT) : Prop :=
  (exists key, In (ev (inl (KGet key) : kubeE T + servedE) (inr o)) tr) \/
  (exists o', In (ev (inl (KUpdate o') : kubeE T + servedE) (inr o)) tr).

(** [c] is the client that the [serverRef] [r], the cluster it names and that
    cluster's admin Secret, both read in this history, stand for. *)
Definition stands_for (r : SecretReference.t) (c : Client.t) (tr : wiredT) : Prop :=
  exists tc key secret,
    In (ev (on_ref (ServerRef.GetCluster (SecretReference.Name r))) (inr tc)) tr /\
    adminSecretKeyFor tc operatorNamespace = (key, None) /\
    In (ev (on_ref (GetAdminSecret key)) (inr secret)) tr /\
    buildServerClient r (TechnitiumClusterStatus.PrimaryEndpoint (TechnitiumCluster.Status tc)) secret = inr c.

(** Every request is that of the client of an object fetched before it. *)
Definition addressed (tr : wiredT) : Prop :=
  forall pre a x post, tr = (pre ++ ev (on_http a) x :: post)%list ->
  exists o c, fetched o pre /\ stands_for (ref o) c pre /\ request_of c a.

Definition well_served {R : Type} (p : prog (kubeE T + servedE) (option R)) : Prop :=
  always p (fun tr r => r <> None /\ (trusted tr -> addressed tr)).

(** *** Histories grow *)
Lemma fetched_app o tr tr' : fetched o tr -> fetched o (tr ++ tr')%list.
Proof. intros [[k Hk]|[k Hk]]; [left|right]; exists k; apply in_or_app; by left. Qed.

Lemma stands_for_app r c tr tr' : stands_for r c tr -> stands_for r c (tr ++ tr')%list.
Proof.
  intros (tc & key & s & H1 & H2 & H3 & H4). exists tc, key, s. split_and!; try done; apply in_or_app; by left.
Qed.

Lemma trusted_app tr tr' : trusted (tr ++ tr')%list -> trusted tr /\ trusted tr'.
Proof.
  intros [T1 T2]. split; split; intros; first [eapply T1 | eapply T2]; apply in_or_app; eauto.
Qed.

Lemma addressed_app tr ext :
  addressed tr ->
  Forall (fun e : event (kubeE T + servedE) => match projT1 e with inr (inr a) =>
    exists o c, fetched o tr /\ stands_for (ref o) c tr /\ request_of c a | _ => True end) ext ->
  addressed (tr ++ ext)%list.
Proof.
  intros Htr Hext pre a x post E. apply app_eq_app in E as [l [[E1 E2]|[-> E2]]].
  - destruct l as [|e l].
    + rewrite app_nil_r in E1. subst. cbn in E2. subst ext.
      apply Forall_cons in Hext as [Hx _]. cbn in Hx. exact Hx.
    + injection E2 as <- ->. subst tr. by apply (Htr pre a x l).
  - subst ext. apply Forall_app in Hext as [_ Hext]. apply Forall_cons in Hext as [(o & c & F & S & R) _].
    exists o, c. split_and!; [by apply fetched_app|by apply stands_for_app|done].
Qed.

(** What a resolution without a cache read, when it succeeds. *)
Lemma resolveFresh_reads r (tr : list (event refE)) c :
  executes (resolveFresh operatorNamespace r) tr (inr c) ->
  exists tc key secret,
    In (ev (ServerRef.GetCluster (SecretReference.Name r) : refE) (inr tc)) tr /\
    adminSecretKeyFor tc operatorNamespace = (key, None) /\
    In (ev (GetAdminSecret key : refE) (inr secret)) tr /\
    buildServerClient r (TechnitiumClusterStatus.PrimaryEndpoint (TechnitiumCluster.Status tc)) secret = inr c.
Proof.
  unfold resolveFresh, resolveWith. cbn. intros ([e|tc] & tr1 & -> & He); cbn in He; [by destruct He|].
  destruct (_ =s? ""); cbn in He; [by destruct He|].
  destruct (adminSecretKeyFor tc operatorNamespace) as [key [e|]] eqn:Ek; cbn in He; [by destruct He|].
  destruct He as ([e|secret] & tr2 & -> & He); cbn in He; [by destruct He|].
  destruct (_ =s? ""); cbn [executes] in He; [by destruct He|]. destruct He as [-> He].
  exists tc, key, secret. split_and!; [by left|done|by right; left|done].
Qed.

(** What holds between a controller's program and its wiring: [refs] are
    references of fetched objects, [served] says that there is a client. *)
Record wiring_inv (past : wiredT) (cur : option Client.t) (refs : list SecretReference.t) (served : bool) : Prop := {
  inv_refs r : r ∈ refs -> exists o, fetched o past /\ ref o = r;
  inv_cur : served = true -> cur <> None;
  inv_ok : trusted past -> addressed past /\
    forall c, cur = Some c -> exists o, fetched o past /\ stands_for (ref o) c past
}.

Lemma wiring_inv_refs past cur refs served ext :
  wiring_inv past cur refs served -> forall r, r ∈ refs -> exists o, fetched o (past ++ ext)%list /\ ref o = r.
Proof. intros Hi r Hr. destruct (inv_refs _ _ _ _ Hi r Hr) as (o & Ho & E). exists o. split; [by apply fetched_app|done]. Qed.

(** Events that are not requests keep it. *)
Lemma wiring_inv_quiet past cur refs served ext :
  Forall (fun e : event (kubeE T + servedE) => match projT1 e with inr (inr _) => False | _ => True end) ext ->
  wiring_inv past cur refs served -> wiring_inv (past ++ ext)%list cur refs served.
Proof.
  intros Hq Hi. constructor; [by apply (wiring_inv_refs _ _ _ _ _ Hi)|apply Hi|].
  intros [Ht _]%trusted_app. destruct (inv_ok _ _ _ _ Hi Ht) as [Ha Hc]. split.
  - apply addressed_app; [done|]. eapply Forall_impl; [exact Hq|]. cbn. by intros [[|[|]] ?].
  - intros c Ec. destruct (Hc c Ec) as (o & Ho & Hs). exists o. split; [by apply fetched_app|by apply stands_for_app].
Qed.

(** Requests of the client in hand keep it. *)
Lemma wiring_inv_own past c refs ext :
  Forall (fun e : event (kubeE T + servedE) => match projT1 e with inr a => own_call c a | _ => False end) ext ->
  wiring_inv past (Some c) refs true -> wiring_inv (past ++ ext)%list (Some c) refs true.
Proof.
  intros Hq Hi. constructor; [by apply (wiring_inv_refs _ _ _ _ _ Hi)|done|].
  intros [Ht _]%trusted_app. destruct (inv_ok _ _ _ _ Hi Ht) as [Ha Hc].
  destruct (Hc c eq_refl) as (o & Ho & Hs). split.
  - apply addressed_app; [done|]. eapply Forall_impl; [exact Hq|]. cbn.
    intros [[|[|a]] x]; cbn; [done..|]. intros Hr. by exists o, c.
  - intros c' [= <-]. exists o. split; [by apply fetched_app|by apply stands_for_app].
Qed.

(** One call keeps it, and does not panic. *)
Lemma executes_injl {A B R : Type} `{Effect A} `{Effect B} (p : prog A R) (tr : list (event (A + B))) r :
  executes (injl p) tr r -> exists tr', tr = map ev_inl tr' /\ executes p tr' r.
Proof.
  intros He. refine (always_executes _ (fun tr r => exists tr', tr = map ev_inl tr' /\ executes p tr' r) _ _ _ He).
  apply holds_injl. intros tr' r' He'. by exists tr'.
Qed.

Lemma wire_kube past cur refs served (k : kubeE T) :
  wiring_inv past cur refs served ->
  holds (wire cur (inl k : calls T API)) past (fun tr r =>
    exists x cur', r = Some (x, cur') /\
      wiring_inv tr cur' (refs_after ref refs (inl k : calls T API) x) (served_after served (inl k : calls T API) x)).
Proof.
  intros Hi. cbn [wire bind call holds]. intros x. exists x, cur. split; [done|].
  assert (Hq : wiring_inv (past ++ [ev (inl k : kubeE T + servedE) x])%list cur refs served)
    by (apply wiring_inv_quiet; [by repeat constructor|done]).
  assert (Hf : forall o, fetched o (past ++ [ev (inl k : kubeE T + servedE) x])%list ->
    wiring_inv (past ++ [ev (inl k : kubeE T + servedE) x])%list cur (ref o :: refs) served).
  { intros o Ho. constructor; [|apply Hq|apply Hq]. intros r [->|Hr]%elem_of_cons; [by exists o|by apply Hq]. }
  destruct k; cbn in x |- *; try exact Hq; destruct x as [e|o1]; try exact Hq; apply Hf.
  - left. eexists. apply in_or_app. right. by left.
  - right. eexists. apply in_or_app. right. by left.
Qed.

Lemma In_refs (e : event refE) (tr : list (event refE)) (past : wiredT) :
  In e tr -> In (ev_inr (ev_inl e)) (past ++ map ev_inr (map ev_inl tr))%list.
Proof. intros He. apply in_or_app. right. by apply in_map, in_map. Qed.

Lemma wire_resolve past cur refs served r :
  wiring_inv past cur refs served -> r ∈ refs ->
  holds (wire cur (inr (inl (ResolveServer r)) : calls T API)) past (fun tr x =>
    exists err cur', x = Some (err, cur') /\
      wiring_inv tr cur' refs (match err with None => true | Some _ => served end)).
Proof.
  intros Hi Hr. cbn [wire]. apply holds_bind, holds_injr. intros tr0 res (tr & -> & He)%executes_injl. cbn [holds].
  set (ext := map ev_inr (map ev_inl tr)).
  assert (Hq : Forall (fun e : event (kubeE T + servedE) => match projT1 e with inr (inr _) => False | _ => True end) ext).
  { apply List.Forall_forall. intros e Hin. apply in_map_iff in Hin as (e1 & <- & Hin).
    by apply in_map_iff in Hin as (e2 & <- & Hin). }
  pose proof (wiring_inv_quiet past cur refs served ext Hq Hi) as Hi'.
  destruct res as [e|c]; eexists _, _; (split; [done|]); [done|].
  constructor; [apply Hi'|done|]. intros Ht. split; [by apply Hi'|]. intros c' [= <-].
  destruct (inv_refs _ _ _ _ Hi' r Hr) as (o & Ho & <-). exists o. split; [done|].
  destruct (resolve_fresh_step operatorNamespace existed version_identifies (ref o) tr (inr c) He) as [_ Hf].
  - intros key s Hin. destruct Ht as [Ht _]. apply (Ht key s). by apply (In_refs _ tr past) in Hin.
  - intros c' Hin. apply (reachable_ok operatorNamespace existed version_identifies). destruct Ht as [_ Ht]. apply Ht. by apply (In_refs _ tr past) in Hin.
  - destruct (resolveFresh_reads _ _ _ Hf) as (tc & key & secret & H1 & H2 & H3 & H4).
    exists tc, key, secret. split_and!; [|done| |done].
    + apply (proj1 (List.filter_In _ _ _)) in H1 as [H1 _]. by apply (In_refs _ tr past) in H1.
    + apply (proj1 (List.filter_In _ _ _)) in H3 as [H3 _]. by apply (In_refs _ tr past) in H3.
Qed.

Lemma wire_api past cur refs (a : API) :
  wiring_inv past cur refs true ->
  holds (wire cur (inr (inr a) : calls T API)) past (fun tr r =>
    exists x cur', r = Some (x, cur') /\ wiring_inv tr cur' refs true).
Proof.
  intros Hi. destruct cur as [c|]; [|by destruct (inv_cur _ _ _ _ Hi eq_refl)]. cbn [wire].
  set (P := fun x : kubeE T + servedE => match x with inr b => ~ own_call c b | inl _ => True end).
  apply holds_bind. eapply holds_mono; [|exact (avoids_holds P _ _ (avoids_injr P _ (via_own c a)))].
  cbn beta. intros tr x (ext & -> & Hext). cbn [holds]. exists x, (Some c). split; [done|].
  apply wiring_inv_own; [|done]. eapply Forall_impl; [exact Hext|]. intros [[k|b] y]; cbn; [tauto|].
  apply dec_stable.
Qed.

Lemma wired_inv {R : Type} (p : prog (calls T API) R) : forall past cur refs served,
  resolved ref refs served p -> wiring_inv past cur refs served ->
  holds (wired cur p) past (fun tr r => r <> None /\ (trusted tr -> addressed tr)).
Proof.
  induction p as [r|a k IH]; intros past cur refs served; cbn [resolved wired].
  - intros _ Hi. cbn. split; [done|]. intros Ht. by apply Hi.
  - intros [Ha Hk] Hi. apply holds_bind.
    assert (Hw : holds (wire cur a) past (fun tr r => exists x cur', r = Some (x, cur') /\
      wiring_inv tr cur' (refs_after ref refs a x) (served_after served a x))).
    { destruct a as [a|[[r]|a]]; [by apply wire_kube|exact (wire_resolve _ _ _ _ r Hi Ha)|]. cbn in Ha. subst.
      exact (wire_api _ _ _ a Hi). }
    eapply holds_mono; [|exact Hw]. cbn beta. intros tr r (x & cur' & -> & Hi'). by apply (IH x _ _ _ _ (Hk x)).
Qed.

Lemma wired_well_served {R : Type} (p : prog (calls T API) R) :
  resolved ref [] false p -> well_served (wired None p).
Proof.
  intros Hp. apply (wired_inv p _ _ _ _ Hp). constructor; [by intros r ?%elem_of_nil|done|].
  intros _. split; [by intros [|? ?] a x post|done].
Qed.
End addressing.
End wiring.

(** ** The seven controllers *)

Section controllers.
Context `{KubeLib} `{!KubeLibLaws}.
#[local] Existing Instance calls_Effect.

(** The reconcilers as production runs them: [serverClientFor] with its seam
    unset. *)
Definition zoneWired (operatorNamespace : string) (key : ObjectKey)
  : prog (kubeE Zone.t + servedE) (option (Z * option error)) :=
  wired operatorNamespace None (zoneReconcile key).
Definition recordWired (operatorNamespace : string) (key : ObjectKey)
  : prog (kubeE RecordObj.t + servedE) (option (Z * option error)) :=
  wired operatorNamespace None (recordReconcile key).
Definition settingsWired (operatorNamespace : string) (key : ObjectKey)
  : prog (kubeE ServerSettings.t + servedE) (option (Z * option error)) :=
  wired operatorNamespace None (settingsReconcile key).
Definition blocklistWired (operatorNamespace : string) (key : ObjectKey)
  : prog (kubeE Blocklist.t + servedE) (option (Z * option error)) :=
  wired operatorNamespace None (blocklistReconcile key).
Definition dhcpWired (operatorNamespace : string) (key : ObjectKey)
  : prog (kubeE DHCPScope.t + servedE) (option (Z * option error)) :=
  wired operatorNamespace None (dhcpReconcile key).
Definition dnssecWired (operatorNamespace : string) (key : ObjectKey)
  : prog (kubeE DNSSEC.t + servedE) (option (Z * option error)) :=
  wired operatorNamespace None (dnssecReconcile key).
Definition appWired (operatorNamespace : string) (key : ObjectKey)
  : prog (kubeE DNSApp.t + servedE) (option (Z * option error)) :=
  wired operatorNamespace None (appReconcile key).

Lemma resolved_finalizeServerSettings o refs served :
  resolved settings_ref refs served (finalizeServerSettings o).
Proof. unfold finalizeServerSettings. destruct (negb _); [exact I|]. cbn. split; [done|]. by intros [e|o']. Qed.

(** C12: End to end, a pass of any of the seven resource controllers, wired to
    the resolution of its [serverRef] and to the client's methods, never calls a
    method on a nil client, and every HTTP request it sends is a request of one
    client: that which the [serverRef] of an object it fetched, the Primary
    endpoint of the TechnitiumCluster named there, and that cluster's admin
    Secret, both read earlier in the pass, stand for.  Neither the cache, nor
    another cluster's client, nor an object other than its own decides where a
    request goes or which token it carries. *)
Theorem requests_addressed (operatorNamespace : string) (existed : Secret.t -> Prop) (key : ObjectKey) :
  (forall s s', existed s -> existed s' ->
    ObjectMeta.ResourceVersion (Secret.Meta s) = ObjectMeta.ResourceVersion (Secret.Meta s') ->
    Secret.Data s = Secret.Data s') ->
  well_served operatorNamespace existed zone_ref (zoneWired operatorNamespace key) /\
  well_served operatorNamespace existed record_ref (recordWired operatorNamespace key) /\
  well_served operatorNamespace existed settings_ref (settingsWired operatorNamespace key) /\
  well_served operatorNamespace existed blocklist_ref (blocklistWired operatorNamespace key) /\
  well_served operatorNamespace existed scope_ref (dhcpWired operatorNamespace key) /\
  well_served operatorNamespace existed dnssec_ref (dnssecWired operatorNamespace key) /\
  well_served operatorNamespace existed app_ref (appWired operatorNamespace key).
Proof.
  intros Hv. split_and!; (apply wired_well_served; [exact Hv|]); apply resolved_reconcile;
    try exact _; intros; first [apply resolved_markReady | apply resolved_finalizeServerSettings
      | by apply resolved_with_server | by apply resolved_finalize_with].
Qed.
End controllers.

(** ** Example: a pass over a Zone whose server does not answer *)

#[local] Existing Instance RefKubeLib.lib.

Definition example_answer (a : kubeE Zone.t + servedE) : answer a :=
  match a with
  | inl (KGet _) => inr (example_zone "example.com")
  | inl (KUpdate o) => inr o
  | inl (KStatusUpdate _) => None
  | inr (inl (ServerRef.GetCluster _)) => inr served_tc
  | inr (inl (GetAdminSecret _)) => inr retained_secret
  | inr (inl Lock) => ∅
  | inr (inl (Unlock _)) => tt
  | inr (inr (Post _ _ _)) => TransportFailed (EText "connection refused")
  end.

Definition posted (tr : list (event (kubeE Zone.t + servedE))) : list (string * option string) :=
  omap (fun e => match projT1 e with inr (inr (Post u auth _)) => Some (u, auth) | _ => None end) tr.

Definition example_pass : prog (kubeE Zone.t + servedE) (option (Z * option error)) :=
  zoneWired "ops" {| KeyNamespace := ""; KeyName := "zone" |}.

Example example_pass_posts :
  posted (history (fun a (_ : unit) => (example_answer a, tt)) example_pass tt)
  = [("http://dns-0.dns-headless.ops.svc:5380/api/zones/options/get", Some "Bearer tok")].
Proof. vm_compute. reflexivity. Qed.

Example requests_addressed_witness :
  well_served "ops" (eq retained_secret) zone_ref example_pass.
Proof.
  refine (proj1 (@requests_addressed RefKubeLib.lib RefKubeLib.laws "ops" (eq retained_secret)
    {| KeyNamespace := ""; KeyName := "zone" |} _)).
  by intros s s' <- <- _.
Defined.
