(* ===== verification/Chartgen.v ===== *)
(** * The chart generator

    [hack/chartgen/main.go] copies what controller-gen and kubebuilder wrote
    under [config/] into the Helm chart's templates, and checks a rendered chart
    against [config/].  It is a program over the file system and the standard
    streams ([fsE]); what the YAML library decodes is a parameter ([YamlLib]). *)

From S2P Require Import Prelude GoStrings GoErrors Effects GoText.

Local Open Scope string_scope.
Local Open Scope Z_scope.
Local Open Scope go_scope.
Local Open Scope prog_scope.

(** ** Data *)

Module paths.
Record t := mk { config : string; chart : string }.
End paths.
Definition default_paths : paths.t := paths.mk "config" "charts/technitium-operator".

Module objectMeta.
Record t := mk { Name : string; Annotations : gmap string string }.
End objectMeta.
Module object.
Record t := mk { Kind : string; Metadata : objectMeta.t }.
End object.
(** The names of the webhooks. *)
Module webhookConfig.
Record t := mk { Kind : string; Webhooks : list string }.
End webhookConfig.

(** A [[]any] keeps apart nil and empty, as [reflect.DeepEqual] does. *)
Module webhook.
Record t (any : Type) := mk { Name : string; Path : string; Rules : option (list any) }.
Arguments mk {any}.
Arguments Name {any}.
Arguments Path {any}.
Arguments Rules {any}.
End webhook.
Module renderedObject.
Record t (any : Type) := mk
  { Kind : string; Metadata : objectMeta.t; Rules : option (list any); Webhooks : list (webhook.t any) }.
Arguments mk {any}.
Arguments Kind {any}.
Arguments Metadata {any}.
Arguments Rules {any}.
Arguments Webhooks {any}.
End renderedObject.

(** [yaml.Unmarshal] at the three types, and the values it puts in an [any],
    whose equality is [reflect.DeepEqual]. *)
Class YamlLib := {
  any : Type;
  any_eq_dec :: EqDecision any;
  Unmarshal_object : string -> fallible object.t;
  Unmarshal_webhookConfig : string -> fallible webhookConfig.t;
  Unmarshal_renderedObject : string -> fallible (renderedObject.t any)
}.

(** The file system, and the process's streams. *)
Inductive fsE : Type :=
| ReadFile (path : string)
| Glob (pattern : string)
| RemoveAll (path : string)
| MkdirAll (path : string)
| WriteFile (path content : string)
| ReadStdin
| Stdout (text : string)
| Stderr (text : string).
#[export] Instance fsE_Effect : Effect fsE := fun c => match c with
| ReadFile _ | ReadStdin => fallible string
| Glob _ => fallible (list string)
| RemoveAll _ | MkdirAll _ | WriteFile _ _ => option error
| Stdout _ | Stderr _ => unit
end.

(** ** Reading sources *)

Definition newline : ascii := ascii_of_N 10.
Definition nl : string := String newline "".
Definition lines (l : list string) : string := fold_right (fun x r => x +:+ nl +:+ r) "" l.

Definition header : string :=
  lines ["# Code generated by hack/chartgen from config/. DO NOT EDIT."; "# Regenerate with `just manifests`."].

Definition readSource (path : string) : prog fsE (fallible string) :=
  try b <- (call (ReadFile path) : prog fsE (fallible string)) ;;
  if Contains b "{{" then
    fail (EText (path +:+ " contains `{{`, which Helm would interpret as a template action"))
  else ok b.

Definition bodyFrom (doc key path : string) : fallible string :=
  match Cut doc (nl +:+ key +:+ ":" +:+ nl) with
  | None => inl (EText (path +:+ ": no top-level " +:+ quoted key +:+ " field"))
  | Some (_, rest) => inr (TrimRightChar (key +:+ ":" +:+ nl +:+ rest) newline +:+ nl)
  end.

Definition splitDocs (b : string) : list string :=
  omap (fun d =>
    let d := TrimPrefix d ("---" +:+ nl) in
    if TrimSpace d =s? "" then None else Some (nl +:+ d))
    (Split b (nl +:+ "---" +:+ nl)).

Definition writeFile (path content : string) : prog fsE (option error) :=
  check (call (MkdirAll (Dir path)) : prog fsE (option error)) ;;
  call (WriteFile path content).

(** A rendered manifest. *)
Abbreviation robj := (renderedObject.t any).

Section generator.
Context `{YamlLib}.

(** ** CRDs *)

Definition labels : string := "    {{- include " +:+ quoted "technitium-operator.labels" +:+ " . | nindent 4 }}".
Definition fullname : string := "{{ include " +:+ quoted "technitium-operator.fullname" +:+ " . }}".

Definition crdTemplate (crd : object.t) (spec : string) : string :=
  let m := object.Metadata crd in
  let a := objectMeta.Annotations m in
  header +:+ lines (["{{- if .Values.crds.install }}"; "apiVersion: apiextensions.k8s.io/v1";
    "kind: CustomResourceDefinition"; "metadata:"; "  name: " +:+ objectMeta.Name m; "  annotations:"]
    ++ map (fun k => "    " +:+ k +:+ ": " +:+ default "" (a !! k)) (Sort (map fst (map_to_list a)))
    ++ ["    {{- if .Values.crds.keep }}"; "    helm.sh/resource-policy: keep"; "    {{- end }}"; "  labels:"; labels])%list
  +:+ spec +:+ lines ["{{- end }}"].

Definition crdDir (p : paths.t) : string := JoinPath [paths.chart p; "templates"; "crds"].
Definition crdSources (p : paths.t) : string := JoinPath [paths.config p; "crd"; "bases"; "*.yaml"].

Definition generateCRD (p : paths.t) (src : string) : prog fsE (option error) :=
  tryE b <- readSource src ;;
  match Unmarshal_object b with
  | inl e => Ret (Some (wrapf src e))
  | inr crd =>
      if negb (object.Kind crd =s? "CustomResourceDefinition") || (objectMeta.Name (object.Metadata crd) =s? "") then
        Ret (Some (EText (src +:+ ": not a named CustomResourceDefinition")))
      else
        match bodyFrom b "spec" src with
        | inl e => Ret (Some e)
        | inr spec => writeFile (JoinPath [crdDir p; Base src]) (crdTemplate crd spec)
        end
  end.

Definition generateCRDs (p : paths.t) : prog fsE (option error) :=
  tryE srcs <- (call (Glob (crdSources p)) : prog fsE (fallible (list string))) ;;
  match srcs with
  | [] => Ret (Some (EText "no CRDs found under config/crd/bases"))
  | _ =>
      check (call (RemoveAll (crdDir p)) : prog fsE (option error)) ;;
      for_each srcs (generateCRD p)
  end.

(** ** The manager's role *)

Definition managerRole (p : paths.t) : string := JoinPath [paths.config p; "rbac"; "role.yaml"].

Definition managerTemplate (rules : string) : string :=
  header +:+ lines ["{{- if .Values.rbac.create }}"; "apiVersion: rbac.authorization.k8s.io/v1"; "kind: ClusterRole";
    "metadata:"; "  name: " +:+ fullname +:+ "-manager-role"; "  labels:"; labels]
  +:+ rules +:+ lines ["---"; "apiVersion: rbac.authorization.k8s.io/v1"; "kind: ClusterRoleBinding"; "metadata:";
    "  name: " +:+ fullname +:+ "-manager-rolebinding"; "  labels:"; labels;
    "roleRef:"; "  apiGroup: rbac.authorization.k8s.io"; "  kind: ClusterRole";
    "  name: " +:+ fullname +:+ "-manager-role"; "subjects:"; "- kind: ServiceAccount";
    "  name: {{ include " +:+ quoted "technitium-operator.serviceAccountName" +:+ " . }}";
    "  namespace: {{ .Release.Namespace }}"; "{{- end }}"].

Definition generateManagerRBAC (p : paths.t) : prog fsE (option error) :=
  let src := managerRole p in
  tryE b <- readSource src ;;
  match bodyFrom b "rules" src with
  | inl e => Ret (Some e)
  | inr rules => writeFile (JoinPath [paths.chart p; "templates"; "manager-rbac.yaml"]) (managerTemplate rules)
  end.

(** ** The helper roles *)

Definition helperRoleSources (p : paths.t) : prog fsE (fallible (list string)) :=
  let sources role :=
    call (Glob (JoinPath [paths.config p; "rbac"; "*_" +:+ role +:+ "_role.yaml"])) : prog fsE (fallible (list string)) in
  try admin <- sources "admin" ;;
  try editor <- sources "editor" ;;
  try viewer <- sources "viewer" ;;
  match Sort (admin ++ editor ++ viewer)%list with
  | [] => fail (EText "no *_{admin,editor,viewer}_role.yaml found under config/rbac")
  | srcs => ok srcs
  end.

Definition helperRole (comment : string) (role : object.t) (rules : string) : string :=
  lines ["---"] +:+ (if comment =s? "" then "" else comment +:+ nl)
  +:+ lines ["apiVersion: rbac.authorization.k8s.io/v1"; "kind: ClusterRole"; "metadata:";
    "  name: " +:+ fullname +:+ "-" +:+ objectMeta.Name (object.Metadata role); "  labels:"; labels]
  +:+ rules.

(** The comment the scaffold puts above a role. *)
Definition scaffoldComment (doc : string) : string :=
  TrimSpace (match Cut doc (nl +:+ "apiVersion:") with Some (before, _) => before | None => doc end).

(** What the loop writes for the sources. *)
Fixpoint helperRoles (srcs : list string) : prog fsE (fallible string) :=
  match srcs with
  | [] => ok ""
  | src :: srcs =>
      try b <- readSource src ;;
      match Unmarshal_object b with
      | inl e => fail (wrapf src e)
      | inr role =>
          if negb (object.Kind role =s? "ClusterRole") || (objectMeta.Name (object.Metadata role) =s? "") then
            fail (EText (src +:+ ": not a named ClusterRole"))
          else
            match bodyFrom b "rules" src with
            | inl e => fail e
            | inr rules =>
                try rest <- helperRoles srcs ;;
                ok (helperRole (scaffoldComment b) role rules +:+ rest)
            end
      end
  end.

Definition generateHelperRoles (p : paths.t) : prog fsE (option error) :=
  tryE srcs <- helperRoleSources p ;;
  tryE roles <- helperRoles srcs ;;
  writeFile (JoinPath [paths.chart p; "templates"; "helper-roles.yaml"])
    (header +:+ lines ["{{- if and .Values.rbac.create .Values.rbac.helperRoles }}"] +:+ roles +:+ lines ["{{- end }}"]).

(** ** The webhook configurations *)

Definition webhookSubstitutions : list (string * string) :=
  [(lines ["      namespace: system"], lines ["      namespace: {{ .Release.Namespace }}"]);
   (lines ["  failurePolicy: Fail"], lines ["  failurePolicy: {{ .Values.webhook.failurePolicy }}"])].

Definition webhookNames : gmap string string :=
  <["MutatingWebhookConfiguration" := "mutating-webhook-configuration"]>
  (<["ValidatingWebhookConfiguration" := "validating-webhook-configuration"]> ∅).

Definition webhookSource (p : paths.t) : string := JoinPath [paths.config p; "webhook"; "manifests.yaml"].

(** The substitutions, each of which must find one line per webhook. *)
Fixpoint substitute (src kind : string) (n : Z) (subs : list (string * string)) (body : string) : fallible string :=
  match subs with
  | [] => inr body
  | (from, to) :: subs =>
      let found := Count body from in
      if negb (found =? n) then
        inl (EText (src +:+ ": " +:+ kind +:+ ": expected " +:+ Itoa n +:+ " occurrences of " +:+ quoted (TrimSpace from)
                    +:+ ", found " +:+ Itoa found))
      else substitute src kind n subs (ReplaceAll body from to)
  end.

Definition webhookHead (kind name : string) : string :=
  lines ["---"; "apiVersion: admissionregistration.k8s.io/v1"; "kind: " +:+ kind; "metadata:";
    "  name: " +:+ fullname +:+ "-" +:+ name; "  labels:"; labels;
    "  {{- if .Values.webhook.certManager.enabled }}"; "  annotations:";
    "    cert-manager.io/inject-ca-from: {{ .Release.Namespace }}/" +:+ fullname +:+ "-serving-cert"; "  {{- end }}"].

Definition webhookDoc (src doc : string) : fallible string :=
  match Unmarshal_webhookConfig doc with
  | inl e => inl (wrapf src e)
  | inr cfg =>
      let kind := webhookConfig.Kind cfg in
      match webhookNames !! kind with
      | None => inl (EText (src +:+ ": unexpected kind " +:+ quoted kind))
      | Some name =>
          match bodyFrom doc "webhooks" src with
          | inl e => inl e
          | inr body =>
              match substitute src kind (Z.of_nat (length (webhookConfig.Webhooks cfg))) webhookSubstitutions body with
              | inl e => inl e
              | inr body => inr (webhookHead kind name +:+ body)
              end
          end
      end
  end.

Fixpoint webhookDocs (src : string) (docs : list string) : fallible string :=
  match docs with
  | [] => inr ""
  | doc :: docs =>
      match webhookDoc src doc with
      | inl e => inl e
      | inr text =>
          match webhookDocs src docs with
          | inl e => inl e
          | inr rest => inr (text +:+ rest)
          end
      end
  end.

Definition generateWebhooks (p : paths.t) : prog fsE (option error) :=
  let src := webhookSource p in
  tryE b <- readSource src ;;
  match webhookDocs src (splitDocs b) with
  | inl e => Ret (Some e)
  | inr docs =>
      writeFile (JoinPath [paths.chart p; "templates"; "webhook-configurations.yaml"])
        (header +:+ lines ["{{- if .Values.webhook.enabled }}"] +:+ docs +:+ lines ["{{- end }}"])
  end.

Definition generate (p : paths.t) : prog fsE (option error) :=
  let named (name : string) (q : prog fsE (option error)) : prog fsE (option error) :=
    r <- q ;; Ret (wrapf name <$> r) in
  check named "CRDs" (generateCRDs p) ;;
  check named "manager RBAC" (generateManagerRBAC p) ;;
  check named "helper roles" (generateHelperRoles p) ;;
  named "webhooks" (generateWebhooks p).

(** ** Checking a rendered chart *)

Definition name_of (o : robj) : string := objectMeta.Name (renderedObject.Metadata o).

Fixpoint parseDocs (src : string) (docs : list string) : fallible (list robj) :=
  match docs with
  | [] => inr []
  | doc :: docs =>
      match Unmarshal_renderedObject doc with
      | inl e => inl (wrapf src e)
      | inr o =>
          match parseDocs src docs with
          | inl e => inl e
          | inr objs => inr (if negb (renderedObject.Kind o =s? "") then o :: objs else objs)
          end
      end
  end.
Definition parseObjects (b src : string) : fallible (list robj) := parseDocs src (splitDocs b).

Fixpoint loadObjects (files : list string) : prog fsE (fallible (list robj)) :=
  match files with
  | [] => ok []
  | f :: files =>
      try b <- (call (ReadFile f) : prog fsE (fallible string)) ;;
      match parseObjects b f with
      | inl e => fail e
      | inr o => try objs <- loadObjects files ;; ok (o ++ objs)%list
      end
  end.

Definition byKind (objs : list robj) (kind : string) : list robj :=
  List.filter (fun o => renderedObject.Kind o =s? kind) objs.
Definition names (objs : list robj) : list string := Sort (map name_of objs).

(** A later webhook of the same name replaces an earlier one. *)
Definition webhookSummary (hooks : list (webhook.t any)) : gmap string (string * option (list any)) :=
  fold_left (fun m h => <[webhook.Name h := (webhook.Path h, webhook.Rules h)]> m) hooks ∅.

Definition list_text (l : list string) : string := "[" +:+ Join l " " +:+ "]".

Definition crdProblems (rendered wantCRDs : list robj) : list string :=
  let want := names wantCRDs in
  let got := names (byKind rendered "CustomResourceDefinition") in
  if bool_decide (want = got) then [] else ["CRDs: want " +:+ list_text want +:+ ", rendered " +:+ list_text got].

Definition roleProblem (gotRoles : list robj) (want : robj) : option string :=
  match List.find (fun o => HasSuffix (name_of o) ("-" +:+ name_of want)) gotRoles with
  | None => Some ("ClusterRole *-" +:+ name_of want +:+ ": not rendered")
  | Some got =>
      if bool_decide (renderedObject.Rules want = renderedObject.Rules got) then None
      else Some ("ClusterRole *-" +:+ name_of want +:+ ": rules differ from config/rbac")
  end.

Definition hookProblem (rendered : list robj) (want : robj) : option string :=
  let kind := renderedObject.Kind want in
  match byKind rendered kind with
  | [got] =>
      if bool_decide (webhookSummary (renderedObject.Webhooks want) = webhookSummary (renderedObject.Webhooks got)) then None
      else Some (kind +:+ ": webhooks differ from config/webhook")
  | got => Some (kind +:+ ": rendered " +:+ Itoa (Z.of_nat (length got)) +:+ ", want 1")
  end.

Definition problems (rendered wantCRDs wantRoles wantHooks : list robj) : list string :=
  (crdProblems rendered wantCRDs ++ omap (roleProblem (byKind rendered "ClusterRole")) wantRoles
   ++ omap (hookProblem rendered) wantHooks)%list.

Definition verifyRendered (p : paths.t) : prog fsE (option error) :=
  tryE b <- (call ReadStdin : prog fsE (fallible string)) ;;
  match parseObjects b "stdin" with
  | inl e => Ret (Some e)
  | inr rendered =>
      tryE crdFiles <- (call (Glob (crdSources p)) : prog fsE (fallible (list string))) ;;
      tryE wantCRDs <- loadObjects crdFiles ;;
      tryE roleSrcs <- helperRoleSources p ;;
      tryE wantRoles <- loadObjects (managerRole p :: roleSrcs) ;;
      tryE wantHooks <- loadObjects [webhookSource p] ;;
      match problems rendered wantCRDs wantRoles wantHooks with
      | [] =>
          call (Stdout ("Rendered chart matches config/: " +:+ Itoa (Z.of_nat (length wantCRDs)) +:+ " CRDs, "
            +:+ Itoa (Z.of_nat (length wantRoles)) +:+ " ClusterRoles, "
            +:+ Itoa (Z.of_nat (length wantHooks)) +:+ " webhook configurations" +:+ nl)) ;;
          Ret None
      | ps => Ret (Some (EText ("rendered chart does not match config/:" +:+ nl +:+ "  " +:+ Join ps (nl +:+ "  "))))
      end
  end.

(** [main], after its flags are parsed; the result is the exit status. *)
Definition main (p : paths.t) (checkRendered : bool) : prog fsE Z :=
  err <- (if checkRendered then verifyRendered p else generate p) ;;
  match err with
  | Some e => call (Stderr ("chartgen: " +:+ Error e +:+ nl)) ;; Ret 1
  | None => Ret 0
  end.
End generator.

(** ** What is copied verbatim *)

(** No Helm template action. *)
Definition plain (s : string) : Prop := Contains s "{{" = false.

(** [body] is the text from the top-level line [key:] on, up to the number of
    newlines at its end. *)
Definition body_of (doc key body : string) : Prop :=
  HasPrefix body (key +:+ ":") = true /\
  exists pre trail, doc +:+ nl = pre +:+ nl +:+ body +:+ trail /\ str_forall (Ascii.eqb newline) trail = true.

Lemma newlines_comm (t : string) : str_forall (Ascii.eqb newline) t = true -> t +:+ nl = nl +:+ t.
Proof.
  induction t as [|c t IH]; [done|]. cbn -[nl newline]. intros [Hc Ht]%andb_prop. apply Ascii.eqb_eq in Hc as <-.
  change (String newline (t +:+ nl) = String newline (String newline t)). f_equal. by apply IH.
Qed.

Lemma bodyFrom_spec (doc key path body : string) :
  bodyFrom doc key path = inr body -> body_of doc key body /\ (plain doc -> plain body).
Proof.
  unfold bodyFrom. destruct (Cut doc _) as [[pre rest]|] eqn:Ec; [|done]. intros [= <-].
  apply Cut_spec in Ec. set (text := key +:+ ":" +:+ nl +:+ rest).
  assert (Ed : doc = pre +:+ nl +:+ text) by (rewrite Ec; unfold text; by rewrite !string_app_assoc).
  unfold TrimRightChar. destruct (trim_right_by_spec (Ascii.eqb newline) text) as (t & Et & Ht).
  split; [split|].
  - assert (Hcolon : exists u, trim_right_by (Ascii.eqb newline) (":" +:+ nl +:+ rest) = ":" +:+ u).
    { change (":" +:+ nl +:+ rest) with (String ":" (nl +:+ rest)). cbn -[nl].
      destruct (trim_right_by _ (nl +:+ rest)) as [|d u]; [by exists ""|by exists (String d u)]. }
    destruct Hcolon as [u Hu]. unfold text. rewrite trim_right_by_app by (by rewrite Hu).
    rewrite Hu, !string_app_assoc, <- string_app_assoc. apply HasPrefix_app.
  - exists pre, t. split; [|done]. rewrite Ed, !string_app_assoc. do 2 f_equal. rewrite Et at 1.
    by rewrite string_app_assoc, newlines_comm.
  - intros Hp. unfold plain. apply app_lacks; [done..|]. apply (part_lacks text "" _ t); [exact Et|].
    apply (part_lacks doc (pre +:+ nl) text ""); [|done]. by rewrite Ed, string_app_nil_r, !string_app_assoc.
Qed.

Lemma splitDocs_plain (b : string) : plain b -> Forall plain (splitDocs b).
Proof.
  intros Hb. unfold splitDocs. apply Forall_forall. intros doc (d & Hd & E)%list_elem_of_omap.
  destruct (TrimSpace _ =s? ""); [done|]. injection E as <-.
  pose proof (Split_lacks b (nl +:+ "---" +:+ nl) "{{" ltac:(done) Hb) as Hf.
  rewrite Forall_forall in Hf. specialize (Hf d Hd). unfold plain. rewrite Contains_skip by done.
  unfold TrimPrefix. destruct (CutPrefix d _) as [r|] eqn:Er; [|done]. apply CutPrefix_spec in Er.
  apply (part_lacks d ("---" +:+ nl) r ""); [by rewrite string_app_nil_r|done].
Qed.

(** Undoing the substitutions, last first. *)
Definition restore (text : string) : string :=
  fold_right (fun '(from, to) text => ReplaceAll text to from) text webhookSubstitutions.

Lemma substitute_restores (src kind : string) (n : Z) (body out : string) :
  plain body -> substitute src kind n webhookSubstitutions body = inr out ->
  restore out = body.
Proof.
  intros Hp. unfold webhookSubstitutions. cbn [substitute take].
  set (f1 := lines ["      namespace: system"]). set (t1 := lines ["      namespace: {{ .Release.Namespace }}"]).
  set (f2 := lines ["  failurePolicy: Fail"]). set (t2 := lines ["  failurePolicy: {{ .Values.webhook.failurePolicy }}"]).
  destruct (negb (Count body f1 =? n)) eqn:E1; [done|].
  destruct (negb (Count (ReplaceAll body f1 t1) f2 =? n)) eqn:E2; [done|]. intros [= <-].
  assert (Hl : forall t, Contains t "{{" = true -> Contains body t = false).
  { intros t Ht. by apply (Contains_trans_false body t "{{"). }
  unfold restore, webhookSubstitutions. cbn [fold_right]. fold f1 t1 f2 t2.
  rewrite (ReplaceAll_undo _ f2 t2); [|done|done|vm_compute; reflexivity|].
  - apply ReplaceAll_undo; [done|done|vm_compute; reflexivity|]. by apply Hl.
  - apply ReplaceAll_lacks; [done|done|vm_compute; reflexivity|vm_compute; reflexivity|]. by apply Hl.
Qed.

(** ** What [generate] writes *)

Section outcome.
Context `{YamlLib} (p : paths.t).

Abbreviation fs_history := (list (event fsE)).
Definition writes (tr : fs_history) : list (string * string) :=
  omap (fun e => match projT1 e with WriteFile path content => Some (path, content) | _ => None end) tr.
Definition removals (tr : fs_history) : list string :=
  omap (fun e => match projT1 e with RemoveAll path => Some path | _ => None end) tr.

(** A source read in this history. *)
Definition read_from (tr : fs_history) (src b : string) : Prop :=
  In (ev (ReadFile src : fsE) (inr b)) tr /\ plain b.
Definition globbed (tr : fs_history) (pattern : string) (srcs : list string) : Prop :=
  In (ev (Glob pattern : fsE) (inr srcs)) tr.

Definition crd_copied (tr : fs_history) (src : string) (w : string * string) : Prop :=
  exists b crd spec,
    read_from tr src b /\ Unmarshal_object b = inr crd /\ object.Kind crd = "CustomResourceDefinition" /\
    objectMeta.Name (object.Metadata crd) <> "" /\ body_of b "spec" spec /\
    w = (JoinPath [crdDir p; Base src], crdTemplate crd spec).

Definition manager_copied (tr : fs_history) (w : string * string) : Prop :=
  exists b rules, read_from tr (managerRole p) b /\ body_of b "rules" rules /\
    w = (JoinPath [paths.chart p; "templates"; "manager-rbac.yaml"], managerTemplate rules).

Definition role_copied (tr : fs_history) (src text : string) : Prop :=
  exists b role rules,
    read_from tr src b /\ Unmarshal_object b = inr role /\ object.Kind role = "ClusterRole" /\
    objectMeta.Name (object.Metadata role) <> "" /\ body_of b "rules" rules /\
    text = helperRole (scaffoldComment b) role rules.
Definition roles_copied (tr : fs_history) (w : string * string) : Prop :=
  exists admin editor viewer texts,
    let srcs := fun role => JoinPath [paths.config p; "rbac"; "*_" +:+ role +:+ "_role.yaml"] in
    globbed tr (srcs "admin") admin /\ globbed tr (srcs "editor") editor /\ globbed tr (srcs "viewer") viewer /\
    Forall2 (role_copied tr) (Sort (admin ++ editor ++ viewer)) texts /\
    w = (JoinPath [paths.chart p; "templates"; "helper-roles.yaml"],
         header +:+ lines ["{{- if and .Values.rbac.create .Values.rbac.helperRoles }}"]
         +:+ Join texts "" +:+ lines ["{{- end }}"]).

Definition webhook_copied (doc text : string) : Prop :=
  exists cfg name body tail,
    Unmarshal_webhookConfig doc = inr cfg /\ webhookNames !! webhookConfig.Kind cfg = Some name /\
    body_of doc "webhooks" body /\ text = webhookHead (webhookConfig.Kind cfg) name +:+ tail /\ restore tail = body.
Definition webhooks_copied (tr : fs_history) (w : string * string) : Prop :=
  exists b texts, read_from tr (webhookSource p) b /\ Forall2 webhook_copied (splitDocs b) texts /\
    w = (JoinPath [paths.chart p; "templates"; "webhook-configurations.yaml"],
         header +:+ lines ["{{- if .Values.webhook.enabled }}"] +:+ Join texts "" +:+ lines ["{{- end }}"]).

(** All of the sources, each in its place, and nothing else. *)
Definition generated (tr : fs_history) : Prop :=
  exists srcs crds manager roles webhooks,
    globbed tr (crdSources p) srcs /\ srcs <> [] /\ Forall2 (crd_copied tr) srcs crds /\
    manager_copied tr manager /\ roles_copied tr roles /\ webhooks_copied tr webhooks /\
    writes tr = (crds ++ [manager; roles; webhooks])%list /\ removals tr = [crdDir p].

(** *** Histories grow *)
Definition quiet (tr : fs_history) : Prop := writes tr = [] /\ removals tr = [].
Definition extends (tr tr' : fs_history) : Prop := forall e, In e tr -> In e tr'.

Lemma extends_left tr tr' : extends tr (tr ++ tr')%list.
Proof. intros e He. apply in_or_app. by left. Qed.
Lemma extends_right tr tr' : extends tr' (tr ++ tr')%list.
Proof. intros e He. apply in_or_app. by right. Qed.
Lemma read_from_extends tr tr' src b : extends tr tr' -> read_from tr src b -> read_from tr' src b.
Proof. intros He [Hr Hp]. split; [by apply He|done]. Qed.
Lemma crd_copied_extends tr tr' src w : extends tr tr' -> crd_copied tr src w -> crd_copied tr' src w.
Proof. intros He (b & crd & spec & Hr & Hx). exists b, crd, spec. split; [by eapply read_from_extends|done]. Qed.
Lemma role_copied_extends tr tr' src w : extends tr tr' -> role_copied tr src w -> role_copied tr' src w.
Proof. intros He (b & role & rules & Hr & Hx). exists b, role, rules. split; [by eapply read_from_extends|done]. Qed.

Lemma writes_app tr tr' : writes (tr ++ tr')%list = (writes tr ++ writes tr')%list.
Proof. apply omap_app. Qed.
Lemma removals_app tr tr' : removals (tr ++ tr')%list = (removals tr ++ removals tr')%list.
Proof. apply omap_app. Qed.
Lemma quiet_app tr tr' : quiet tr -> quiet tr' -> quiet (tr ++ tr')%list.
Proof. intros [W R] [W' R']. split; [by rewrite writes_app, W, W'|by rewrite removals_app, R, R']. Qed.

Lemma after_quiet tr tr' ws : quiet tr -> writes tr' = ws -> writes (tr ++ tr')%list = ws.
Proof. intros [W _] E. by rewrite writes_app, W, E. Qed.
Lemma after_quiet_removals tr tr' rs : quiet tr -> removals tr' = rs -> removals (tr ++ tr')%list = rs.
Proof. intros [_ R] E. by rewrite removals_app, R, E. Qed.

(** *** The steps *)
Lemma readSource_reads src :
  always (readSource src) (fun tr r => quiet tr /\ forall b, r = inr b -> read_from tr src b).
Proof.
  unfold always, readSource. cbn -[Contains]. intros [e|b]; cbn -[Contains]; [done|].
  destruct (Contains b "{{") eqn:Eb; cbn; [done|]. split; [done|]. intros b' [= <-]. split; [by left|done].
Qed.

Lemma writeFile_writes path content :
  always (writeFile path content) (fun tr r => removals tr = [] /\ (r = None -> writes tr = [(path, content)])).
Proof. unfold always, writeFile. cbn. intros [e|]; [done|]. by intros [e|]. Qed.

(** A source is read, and then a file may be written. *)
Lemma read_then_write src (k : string -> prog fsE (option error)) (Q : fs_history -> string * string -> Prop) :
  (forall b tr0, read_from tr0 src b -> always (k b) (fun tr r => removals tr = [] /\
     (r = None -> exists w, writes tr = [w] /\ forall tr', extends tr0 tr' -> Q tr' w))) ->
  always (tryE b <- readSource src ;; k b)
    (fun tr r => removals tr = [] /\ (r = None -> exists w, writes tr = [w] /\ Q tr w)).
Proof.
  intros Hk. apply (always_bind _ _ _ _ (readSource_reads src)). intros tr [e|b] [Hq Hr].
  - unfold always. cbn. rewrite app_nil_r. split; [apply Hq|done].
  - eapply holds_mono; [|exact (Hk b tr (Hr b eq_refl))]. cbn beta. intros tr' r [R W].
    split; [by apply after_quiet_removals|]. intros Hn. destruct (W Hn) as (w & Hw & HQ). exists w.
    split; [by apply after_quiet|]. apply HQ, extends_left.
Qed.

Lemma writes_one path content (Q : string * string -> Prop) :
  Q (path, content) ->
  always (writeFile path content) (fun tr r => removals tr = [] /\ (r = None -> exists w, writes tr = [w] /\ Q w)).
Proof.
  intros HQ. eapply holds_mono; [|exact (writeFile_writes path content)]. cbn beta. intros tr r [R W].
  split; [done|]. intros Hn. exists (path, content). split; [by apply W|done].
Qed.

Lemma generateCRD_copies src :
  always (generateCRD p src) (fun tr r => removals tr = [] /\ (r = None -> exists w, writes tr = [w] /\ crd_copied tr src w)).
Proof.
  unfold generateCRD. apply read_then_write. intros b tr0 Hr.
  destruct (Unmarshal_object b) as [e|crd] eqn:Eu; [by split|].
  destruct (_ || _) eqn:Ek; [by split|]. destruct (bodyFrom b "spec" src) as [e|spec] eqn:Eb; [by split|].
  apply writes_one. intros tr' He. exists b, crd, spec.
  apply orb_false_iff in Ek as [E1 E2]. apply negb_false_iff, String.eqb_eq in E1. apply String.eqb_neq in E2.
  split_and!; try done; [by eapply read_from_extends|by eapply bodyFrom_spec].
Qed.

Lemma generateManagerRBAC_copies :
  always (generateManagerRBAC p) (fun tr r => removals tr = [] /\ (r = None -> exists w, writes tr = [w] /\ manager_copied tr w)).
Proof.
  unfold generateManagerRBAC. apply read_then_write. intros b tr0 Hr.
  destruct (bodyFrom b "rules" _) as [e|rules] eqn:Eb; [by split|].
  apply writes_one. intros tr' He. exists b, rules. split_and!; [by eapply read_from_extends|by eapply bodyFrom_spec|done].
Qed.

Lemma generateCRD_each srcs :
  always (for_each srcs (generateCRD p)) (fun tr r => removals tr = [] /\
    (r = None -> Forall2 (crd_copied tr) srcs (writes tr))).
Proof.
  induction srcs as [|src srcs IH]; [split; [done|constructor]|]. cbn [for_each].
  apply (always_bind _ _ _ _ (generateCRD_copies src)). intros tr [e|] [R W].
  - unfold always. cbn. rewrite app_nil_r. by split.
  - destruct (W eq_refl) as (w & Hw & Hc). eapply holds_mono; [|exact IH]. cbn beta. intros tr' r [R' W'].
    split; [by rewrite removals_app, R, R'|]. intros Hn. rewrite writes_app, Hw.
    constructor; [by eapply crd_copied_extends; [apply extends_left|]|].
    eapply Forall2_impl; [by apply W'|]. intros x y. apply crd_copied_extends, extends_right.
Qed.

Lemma generateCRDs_copies :
  always (generateCRDs p) (fun tr r => r = None -> removals tr = [crdDir p] /\
    exists srcs, globbed tr (crdSources p) srcs /\ srcs <> [] /\ Forall2 (crd_copied tr) srcs (writes tr)).
Proof.
  unfold always, generateCRDs. cbn [bind call holds app]. intros [e|srcs]; [done|].
  destruct srcs as [|src srcs]; [done|]. set (all := src :: srcs). cbn [bind call holds app].
  intros [e|]; [done|].
  eapply holds_mono; [|exact (holds_frame _ [_; _] _ (generateCRD_each all))]. cbn beta.
  intros tr r (ext & -> & R & W) Hn. split; [by rewrite removals_app, R|]. exists all. split; [by left|]. split; [done|].
  rewrite writes_app. eapply Forall2_impl; [by apply W|]. intros x y. apply crd_copied_extends, extends_right.
Qed.

Lemma Join_texts (x : string) (l : list string) : x +:+ Join l "" = Join (x :: l) "".
Proof. destruct l; [apply string_app_nil_r|done]. Qed.

Lemma helperRoles_copies srcs :
  always (helperRoles srcs) (fun tr r => quiet tr /\
    forall text, r = inr text -> exists texts, text = Join texts "" /\ Forall2 (role_copied tr) srcs texts).
Proof.
  induction srcs as [|src srcs IH]; cbn [helperRoles].
  { split; [done|]. intros text [= <-]. exists []. by split. }
  apply (always_bind _ _ _ _ (readSource_reads src)). intros tr [e|b] [Hq Hr].
  { unfold always. cbn. by rewrite app_nil_r. }
  specialize (Hr b eq_refl).
  assert (Hstop : forall e : error, always (fail e : prog fsE (fallible string)) (fun tr' r => quiet (tr ++ tr')%list /\
    forall text, r = inr text -> exists texts, text = Join texts "" /\ Forall2 (role_copied (tr ++ tr')%list) (src :: srcs) texts)).
  { intros e. unfold always. cbn. by rewrite app_nil_r. }
  destruct (Unmarshal_object b) as [e|role] eqn:Eu; [apply Hstop|].
  destruct (_ || _) eqn:Ek; [apply Hstop|]. destruct (bodyFrom b "rules" src) as [e|rules] eqn:Eb; [apply Hstop|].
  apply orb_false_iff in Ek as [E1 E2]. apply negb_false_iff, String.eqb_eq in E1. apply String.eqb_neq in E2.
  apply (always_bind _ _ _ _ IH). intros tr' [e|rest] [Hq' Hrest]; unfold always; cbn [holds];
    rewrite app_nil_r; (split; [by apply quiet_app|]); [done|]. intros text [= <-].
  destruct (Hrest rest eq_refl) as (texts & -> & Hf).
  exists (helperRole (scaffoldComment b) role rules :: texts). split; [apply Join_texts|]. constructor.
  - exists b, role, rules. split_and!; try done; [|by eapply bodyFrom_spec].
    eapply read_from_extends; [apply extends_left|done].
  - eapply Forall2_impl; [exact Hf|]. intros x y. apply role_copied_extends, extends_right.
Qed.

Lemma webhookDocs_copied src docs text :
  Forall plain docs -> webhookDocs src docs = inr text ->
  exists texts, text = Join texts "" /\ Forall2 webhook_copied docs texts.
Proof.
  intros Hp. revert text. induction Hp as [|doc docs Hdoc Hp IH]; intros text; cbn [webhookDocs].
  { intros [= <-]. exists []. by split. }
  destruct (webhookDoc src doc) as [e|x] eqn:Ex; [done|].
  destruct (webhookDocs src docs) as [e|rest]; [done|]. intros [= <-].
  destruct (IH rest eq_refl) as (texts & -> & Hf). exists (x :: texts). split; [apply Join_texts|].
  constructor; [|done]. clear -Ex Hdoc. unfold webhookDoc in Ex.
  destruct (Unmarshal_webhookConfig doc) as [e|cfg] eqn:Eu; [done|].
  destruct (webhookNames !! _) as [name|] eqn:En; [|done].
  destruct (bodyFrom doc "webhooks" src) as [e|body] eqn:Eb; [done|].
  destruct (substitute _ _ _ _ body) as [e|tail] eqn:Es; [done|]. injection Ex as <-.
  apply bodyFrom_spec in Eb as [Hb Hpl]. exists cfg, name, body, tail. split_and!; try done.
  by eapply substitute_restores; [apply Hpl|].
Qed.

Lemma generateWebhooks_copies :
  always (generateWebhooks p) (fun tr r => removals tr = [] /\ (r = None -> exists w, writes tr = [w] /\ webhooks_copied tr w)).
Proof.
  unfold generateWebhooks. apply read_then_write. intros b tr0 Hr.
  destruct (webhookDocs _ _) as [e|docs] eqn:Ed; [by split|].
  destruct (webhookDocs_copied _ _ _ (splitDocs_plain b (proj2 Hr)) Ed) as (texts & -> & Hf).
  apply writes_one. intros tr' He. exists b, texts. split_and!; [by eapply read_from_extends|done|done].
Qed.

Lemma helperRoleSources_globs :
  always (helperRoleSources p) (fun tr r => quiet tr /\ forall srcs, r = inr srcs ->
    exists admin editor viewer, srcs = Sort (admin ++ editor ++ viewer)%list /\
      let pat := fun role => JoinPath [paths.config p; "rbac"; "*_" +:+ role +:+ "_role.yaml"] in
      globbed tr (pat "admin") admin /\ globbed tr (pat "editor") editor /\ globbed tr (pat "viewer") viewer).
Proof.
  unfold always, helperRoleSources. cbn -[JoinPath Sort app].
  intros [e|admin]; cbn -[JoinPath Sort app]; [done|]. intros [e|editor]; cbn -[JoinPath Sort app]; [done|].
  intros [e|viewer]; cbn -[JoinPath Sort app]; [done|].
  destruct (Sort _) as [|src srcs] eqn:Es; cbn -[JoinPath Sort]; [done|]. split; [done|]. intros l [= <-].
  exists admin, editor, viewer. split; [done|]. split_and!; [by left|by right; left|by right; right; left].
Qed.

Lemma generateHelperRoles_copies :
  always (generateHelperRoles p) (fun tr r => removals tr = [] /\ (r = None -> exists w, writes tr = [w] /\ roles_copied tr w)).
Proof.
  unfold generateHelperRoles. apply (always_bind _ _ _ _ helperRoleSources_globs). intros tr [e|srcs] [Hq Hs].
  { unfold always. cbn. rewrite app_nil_r. split; [apply Hq|done]. }
  destruct (Hs srcs eq_refl) as (admin & editor & viewer & -> & Hg). clear Hs.
  apply (always_bind _ _ _ _ (helperRoles_copies _)). intros tr' [e|roles] [Hq' Hr].
  { unfold always. cbn. rewrite app_nil_r. split; [by apply (quiet_app tr tr')|done]. }
  destruct (Hr roles eq_refl) as (texts & -> & Hf). clear Hr.
  eapply holds_mono; [|apply writeFile_writes]. cbn beta. intros tr2 r [R W].
  split; [apply after_quiet_removals; [done|]; by apply after_quiet_removals|]. intros Hn. eexists. split.
  { apply after_quiet; [done|]. apply after_quiet; [done|]. by apply W. }
  exists admin, editor, viewer, texts. cbn zeta in *. destruct Hg as (G1 & G2 & G3).
  split_and!; try (by apply extends_left); [|done].
  eapply Forall2_impl; [exact Hf|]. intros x y. apply role_copied_extends.
  intros e He. apply in_or_app. right. apply in_or_app. by left.
Qed.

(** *** All four *)
Lemma manager_copied_extends tr tr' w : extends tr tr' -> manager_copied tr w -> manager_copied tr' w.
Proof. intros He (b & rules & Hr & Hx). exists b, rules. split; [by eapply read_from_extends|done]. Qed.
Lemma roles_copied_extends tr tr' w : extends tr tr' -> roles_copied tr w -> roles_copied tr' w.
Proof.
  intros He (admin & editor & viewer & texts & G1 & G2 & G3 & Hf & Hw). exists admin, editor, viewer, texts.
  split_and!; try (by apply He); [|done]. eapply Forall2_impl; [exact Hf|]. intros x y. by apply role_copied_extends.
Qed.
Lemma webhooks_copied_extends tr tr' w : extends tr tr' -> webhooks_copied tr w -> webhooks_copied tr' w.
Proof. intros He (b & texts & Hr & Hx). exists b, texts. split; [by eapply read_from_extends|done]. Qed.

(** A step of [generate], and the rest after it. *)
Lemma named_step name (q q' : prog fsE (option error)) (Q Q' : fs_history -> Prop) :
  always q (fun tr r => r = None -> Q tr) ->
  (forall tr, Q tr -> always q' (fun tr' r => r = None -> Q' (tr ++ tr')%list)) ->
  always (check (r <- q ;; Ret (wrapf name <$> r)) ;; q') (fun tr r => r = None -> Q' tr).
Proof.
  intros Hq Hq'. apply holds_bind, holds_bind. eapply holds_mono; [|exact Hq]. cbn beta. intros tr [e|] HQ.
  - by cbn.
  - cbn [fmap option_fmap option_map holds]. eapply holds_mono; [|exact (holds_frame q' tr _ (Hq' tr (HQ eq_refl)))].
    cbn beta. by intros tr' r (ext & -> & Hx).
Qed.

End outcome.

(** ** What [verifyRendered] accepts *)

(** A file system, and what stands on standard input. *)
Module fileSystem.
Record t := mk { files : string -> fallible string; globs : string -> fallible (list string); stdin : fallible string }.
End fileSystem.

Section verification.
Context `{YamlLib} (fs : fileSystem.t) (p : paths.t).

Definition fs_step (a : fsE) (s : unit) : answer a * unit :=
  match a with
  | ReadFile path => (fileSystem.files fs path, s)
  | Glob pattern => (fileSystem.globs fs pattern, s)
  | RemoveAll _ | MkdirAll _ | WriteFile _ _ => (None, s)
  | ReadStdin => (fileSystem.stdin fs, s)
  | Stdout _ | Stderr _ => (tt, s)
  end.
(** The result of a program there. *)
Definition result {R : Type} (q : prog fsE R) : R := (run fs_step q tt).1.

Lemma result_bind {R V : Type} (q : prog fsE R) (k : R -> prog fsE V) : result (bind q k) = result (k (result q)).
Proof. unfold result. rewrite run_bind. by destruct (run fs_step q tt) as [r []]. Qed.

Lemma result_try {X Y : Type} (q : prog fsE (fallible X)) (k : X -> prog fsE (fallible Y)) (y : Y) :
  result (try x <- q ;; k x) = inr y <-> exists x, result q = inr x /\ result (k x) = inr y.
Proof.
  rewrite result_bind. destruct (result q) as [e|x]; split.
  - done.
  - by intros (x & [=] & _).
  - intros E. by exists x.
  - by intros (x' & [= <-] & E).
Qed.
Lemma result_tryE {X : Type} (q : prog fsE (fallible X)) (k : X -> prog fsE (option error)) :
  result (tryE x <- q ;; k x) = None <-> exists x, result q = inr x /\ result (k x) = None.
Proof.
  rewrite result_bind. destruct (result q) as [e|x]; split.
  - done.
  - by intros (x & [=] & _).
  - intros E. by exists x.
  - by intros (x' & [= <-] & E).
Qed.

(** The objects of files, in order. *)
Definition loaded (srcs : list string) (objs : list robj) : Prop :=
  exists parts, Forall2 (fun f part => exists b, fileSystem.files fs f = inr b /\ parseObjects b f = inr part) srcs parts /\
    objs = concat parts.

Definition roleSources (srcs : list string) : Prop :=
  exists admin editor viewer,
    let globs := fun role => fileSystem.globs fs (JoinPath [paths.config p; "rbac"; "*_" +:+ role +:+ "_role.yaml"]) in
    globs "admin" = inr admin /\ globs "editor" = inr editor /\ globs "viewer" = inr viewer /\
    srcs = Sort (admin ++ editor ++ viewer)%list /\ srcs <> [].

(** The path and the rules of the last webhook of that name. *)
Definition hook_named (name : string) (hooks : list (webhook.t any)) : option (string * option (list any)) :=
  (fun h => (webhook.Path h, webhook.Rules h)) <$> List.find (fun h => webhook.Name h =s? name) (rev hooks).

(** The same CRDs; every role's rules in the first rendered ClusterRole whose
    name ends in its own; every webhook configuration once, with the same
    webhooks. *)
Record matches (rendered crds roles hooks : list robj) : Prop := {
  m_crds : map name_of crds ≡ₚ map name_of (byKind rendered "CustomResourceDefinition");
  m_roles want : want ∈ roles -> exists pre got post,
    byKind rendered "ClusterRole" = (pre ++ got :: post)%list /\
    HasSuffix (name_of got) ("-" +:+ name_of want) = true /\
    Forall (fun o => HasSuffix (name_of o) ("-" +:+ name_of want) = false) pre /\
    renderedObject.Rules got = renderedObject.Rules want;
  m_hooks want : want ∈ hooks -> exists got,
    byKind rendered (renderedObject.Kind want) = [got] /\
    forall name, hook_named name (renderedObject.Webhooks got) = hook_named name (renderedObject.Webhooks want)
}.

Lemma webhookSummary_lookup (hooks : list (webhook.t any)) (name : string) :
  webhookSummary hooks !! name = hook_named name hooks.
Proof.
  unfold webhookSummary, hook_named. induction hooks as [|h hooks IH] using rev_ind; [done|].
  rewrite fold_left_app, rev_app_distr. cbn. destruct (webhook.Name h =s? name) eqn:E.
  - apply String.eqb_eq in E as <-. by rewrite lookup_insert_eq.
  - apply String.eqb_neq in E. by rewrite lookup_insert_ne.
Qed.

Lemma find_split {X : Type} (f : X -> bool) (l : list X) (x : X) :
  List.find f l = Some x <-> exists pre post, l = (pre ++ x :: post)%list /\ f x = true /\ Forall (fun y => f y = false) pre.
Proof.
  split.
  - induction l as [|y l IH]; cbn; [done|]. destruct (f y) eqn:Ef.
    + intros [= <-]. by exists [], l.
    + intros Hx. destruct (IH Hx) as (pre & post & -> & Hf & Hp). exists (y :: pre), post. split_and!; [done..|by constructor].
  - intros (pre & post & -> & Hf & Hp). induction Hp as [|y pre Hy Hp IH]; cbn; [by rewrite Hf|by rewrite Hy].
Qed.

Lemma roleProblem_none (got : list robj) (want : robj) :
  roleProblem got want = None <-> exists pre o post,
    got = (pre ++ o :: post)%list /\ HasSuffix (name_of o) ("-" +:+ name_of want) = true /\
    Forall (fun o => HasSuffix (name_of o) ("-" +:+ name_of want) = false) pre /\
    renderedObject.Rules o = renderedObject.Rules want.
Proof.
  unfold roleProblem. destruct (List.find _ got) as [o|] eqn:Ef.
  - destruct (proj1 (find_split _ _ _) Ef) as (pre & post & E & Hs & Hp). case_bool_decide as Hr; split; try done.
    + intros _. exists pre, o, post. by split_and!.
    + intros (pre' & o' & post' & E' & Hs' & Hp' & Hr').
      assert (Ef' : List.find (fun o => HasSuffix (name_of o) ("-" +:+ name_of want)) got = Some o')
        by (apply find_split; by exists pre', post'). rewrite Ef in Ef'. injection Ef' as <-. by destruct Hr.
  - split; [done|]. intros (pre & o & post & E & Hs & Hp & _).
    assert (Ef' : List.find (fun o => HasSuffix (name_of o) ("-" +:+ name_of want)) got = Some o)
      by (apply find_split; by exists pre, post). congruence.
Qed.

Lemma hookProblem_none (rendered : list robj) (want : robj) :
  hookProblem rendered want = None <-> exists got,
    byKind rendered (renderedObject.Kind want) = [got] /\
    forall name, hook_named name (renderedObject.Webhooks got) = hook_named name (renderedObject.Webhooks want).
Proof.
  unfold hookProblem. destruct (byKind _ _) as [|got [|got' l]].
  - split; [done|]. by intros (g & E & _).
  - case_bool_decide as Hw; split; try done.
    + intros _. exists got. split; [done|]. intros name. by rewrite <- !webhookSummary_lookup, Hw.
    + intros (g & [= <-] & Hg). destruct Hw. apply map_eq. intros name. by rewrite !webhookSummary_lookup.
  - split; [done|]. by intros (g & E & _).
Qed.

Lemma omap_nil {X Y : Type} (f : X -> option Y) (l : list X) : omap f l = [] <-> forall x, x ∈ l -> f x = None.
Proof.
  induction l as [|x l IH]; cbn; [by split; [intros _ x ?%elem_of_nil|]|].
  destruct (f x) as [y|] eqn:E.
  - split; [done|]. intros Hn. specialize (Hn x ltac:(by left)). congruence.
  - rewrite IH. split; [intros Hn z [->|Hz]%elem_of_cons; auto|]. intros Hn z Hz. apply Hn. by right.
Qed.

Lemma problems_none (rendered crds roles hooks : list robj) :
  problems rendered crds roles hooks = [] <-> matches rendered crds roles hooks.
Proof.
  unfold problems. split.
  - intros [E1 [E2 E3]%app_eq_nil]%app_eq_nil. constructor.
    + unfold crdProblems in E1. case_bool_decide as Hn; [|done]. by apply Sort_eq.
    + intros want Hw. apply roleProblem_none. by apply (proj1 (omap_nil _ _) E2).
    + intros want Hw. apply hookProblem_none. by apply (proj1 (omap_nil _ _) E3).
  - intros [M1 M2 M3]. unfold crdProblems. rewrite bool_decide_eq_true_2 by (by apply Sort_eq).
    rewrite (proj2 (omap_nil _ roles)) by (intros w Hw; apply roleProblem_none; auto).
    by rewrite (proj2 (omap_nil _ hooks)) by (intros w Hw; apply hookProblem_none; auto).
Qed.

Lemma result_loadObjects srcs objs : result (loadObjects srcs) = inr objs <-> loaded srcs objs.
Proof.
  revert objs. induction srcs as [|f srcs IH]; intros objs; cbn [loadObjects].
  { split; [intros [= <-]; exists []; by split|]. intros (parts & Hf & ->). by apply Forall2_nil_inv_l in Hf as ->. }
  rewrite result_bind. change (result (call (ReadFile f))) with (fileSystem.files fs f). split.
  - destruct (fileSystem.files fs f) as [e|b] eqn:Eb; [done|].
    destruct (parseObjects b f) as [e|o] eqn:Eo; [done|]. rewrite result_bind.
    destruct (result (loadObjects srcs)) as [e|l] eqn:El; [done|]. intros [= <-].
    destruct (proj1 (IH l) eq_refl) as (parts & Hf & ->). exists (o :: parts). split; [|done].
    constructor; [by exists b|done].
  - intros (parts & Hf & ->). apply Forall2_cons_inv_l in Hf as (part & parts' & (b & -> & Eo) & Hf & ->). rewrite Eo.
    rewrite result_bind. rewrite (proj2 (IH (concat parts'))); [done|by exists parts'].
Qed.

Lemma result_helperRoleSources srcs : result (helperRoleSources p) = inr srcs <-> roleSources srcs.
Proof.
  unfold helperRoleSources, roleSources. cbn zeta. split.
  - intros (admin & E1 & (editor & E2 & (viewer & E3 & E)%result_try)%result_try)%result_try.
    exists admin, editor, viewer. destruct (Sort _) as [|x l] eqn:Es; [done|]. injection E as <-. by split_and!.
  - intros (admin & editor & viewer & E1 & E2 & E3 & -> & Hne).
    apply result_try. exists admin. split; [exact E1|]. apply result_try. exists editor. split; [exact E2|].
    apply result_try. exists viewer. split; [exact E3|]. by destruct (Sort _).
Qed.

(** A call that changes the file system. *)
Definition changes_files (a : fsE) : Prop :=
  match a with WriteFile _ _ | MkdirAll _ | RemoveAll _ => True | _ => False end.

Lemma loadObjects_reads srcs : avoids changes_files (loadObjects srcs).
Proof.
  induction srcs as [|f srcs IH]; [done|]. cbn. split; [tauto|]. intros [e|b]; [done|].
  cbn. destruct (parseObjects b f); [done|]. apply avoids_bind; [exact IH|]. by intros [e|objs].
Qed.

Lemma verifyRendered_reads : avoids changes_files (verifyRendered p).
Proof.
  unfold verifyRendered. cbn -[problems helperRoleSources loadObjects]. split; [tauto|]. intros [e|b]; [done|]. cbn -[problems helperRoleSources loadObjects].
  destruct (parseObjects b "stdin"); [done|]. cbn -[problems helperRoleSources loadObjects]. split; [tauto|]. intros [e|crdFiles]; [done|].
  apply avoids_bind; [apply loadObjects_reads|]. intros [e|crds]; [done|].
  apply avoids_bind.
  { cbn -[Sort]. do 3 (split; [tauto|]; intros [e|?]; [done|]; cbn -[Sort]). by destruct (Sort _). }
  intros [e|roleSrcs]; [done|]. apply avoids_bind; [apply loadObjects_reads|]. intros [e|roles]; [done|].
  apply avoids_bind; [apply loadObjects_reads|]. intros [e|hooks]; [done|].
  destruct (problems _ _ _ _); [|done]. cbn. by split; [tauto|].
Qed.

(** C40: What [chartgen -check-rendered] accepts.  The check succeeds exactly
    when everything can be read and the rendered chart [matches] [config/]: the
    same CRDs by name, for every role of [config/] its very rules in the first
    rendered ClusterRole that bears its name, and every webhook configuration
    rendered once, with the same path and rules for every webhook name.  It
    never writes a file. *)
Theorem verifyRendered_accepts :
  (result (verifyRendered p) = None <->
   exists b rendered crdFiles crds roleSrcs roles hooks,
     fileSystem.stdin fs = inr b /\ parseObjects b "stdin" = inr rendered /\
     fileSystem.globs fs (crdSources p) = inr crdFiles /\ loaded crdFiles crds /\
     roleSources roleSrcs /\ loaded (managerRole p :: roleSrcs) roles /\
     loaded [webhookSource p] hooks /\ matches rendered crds roles hooks) /\
  avoids changes_files (main p true).
Proof.
  split.
  - unfold verifyRendered. split.
    + intros (b & E1 & Hr)%result_tryE. destruct (parseObjects b "stdin") as [e|rendered] eqn:E2; [done|].
      apply result_tryE in Hr as (crdFiles & E3 & (crds & E4 & (roleSrcs & E5 & (roles & E6 & (hooks & E7 & Hp)%result_tryE)%result_tryE)%result_tryE)%result_tryE).
      exists b, rendered, crdFiles, crds, roleSrcs, roles, hooks.
      rewrite <- !result_loadObjects, <- result_helperRoleSources, <- problems_none. split_and!; try done.
      by destruct (problems _ _ _ _).
    + intros (b & rendered & crdFiles & crds & roleSrcs & roles & hooks & E1 & E2 & E3 & E4 & E5 & E6 & E7 & Hm).
      apply result_tryE. exists b. split; [exact E1|]. rewrite E2.
      apply result_tryE. exists crdFiles. split; [exact E3|].
      apply result_tryE. exists crds. split; [by apply result_loadObjects|].
      apply result_tryE. exists roleSrcs. split; [by apply result_helperRoleSources|].
      apply result_tryE. exists roles. split; [by apply result_loadObjects|].
      apply result_tryE. exists hooks. split; [by apply result_loadObjects|].
      by rewrite (proj2 (problems_none _ _ _ _) Hm).
  - apply avoids_bind; [apply verifyRendered_reads|]. intros [e|]; cbn; [by split; [tauto|]|done].
Qed.
End verification.

(** ** Example

    A decoder of one kind, one name and no rules, and a small [config/]. *)

Definition line_after (b marker : string) : string :=
  match Cut (nl +:+ b) (nl +:+ marker) with
  | Some (_, rest) => match Cut rest nl with Some (v, _) => v | None => rest end
  | None => ""
  end.
Definition example_meta (b : string) : objectMeta.t :=
  objectMeta.mk (line_after b "  name: ") {["controller-gen.kubebuilder.io/version" := "v0.19.0"]}.
Definition example_hooks (b : string) : list (webhook.t string) :=
  if Contains b "webhooks:" then [webhook.mk (line_after b "- name: ") (line_after b "      path: ") (Some [])] else [].
#[local] Instance example_yaml : YamlLib := {|
  any := string;
  Unmarshal_object b := inr (object.mk (line_after b "kind: ") (example_meta b));
  Unmarshal_webhookConfig b := inr (webhookConfig.mk (line_after b "kind: ") (map webhook.Name (example_hooks b)));
  Unmarshal_renderedObject b :=
    inr (renderedObject.mk (line_after b "kind: ") (example_meta b) (Some [line_after b "- verb: "]) (example_hooks b))
|}.

Definition example_role (name verb : string) : string :=
  lines ["kind: ClusterRole"; "metadata:"; "  name: " +:+ name; "rules:"; "- verb: " +:+ verb].
Definition example_webhooks (namespace policy : string) : string :=
  lines ["---"; "kind: ValidatingWebhookConfiguration"; "webhooks:"; "- name: vzone"; "  clientConfig:"; "    service:";
    "      namespace: " +:+ namespace; "      path: /validate"; "  failurePolicy: " +:+ policy].
Definition example_files (rendered : string) : fileSystem.t := fileSystem.mk
  (fun path =>
    if path =s? "config/crd/bases/zones.yaml" then
      inr (lines ["kind: CustomResourceDefinition"; "metadata:"; "  name: zones.dns"; "spec:"; "  group: dns"; ""])
    else if path =s? "config/rbac/role.yaml" then inr (example_role "manager-role" "get")
    else if path =s? "config/rbac/zone_admin_role.yaml" then inr (example_role "zone-admin-role" "all")
    else if path =s? "config/webhook/manifests.yaml" then inr (example_webhooks "system" "Fail")
    else inl (EText "no such file"))
  (fun pattern =>
    if pattern =s? "config/crd/bases/*.yaml" then inr ["config/crd/bases/zones.yaml"]
    else if pattern =s? "config/rbac/*_admin_role.yaml" then inr ["config/rbac/zone_admin_role.yaml"] else inr [])
  (inr rendered).

(** A rendered chart whose manager has the given rule. *)
Definition example_rendered (verb : string) : string :=
  lines ["---"; "kind: CustomResourceDefinition"; "metadata:"; "  name: zones.dns"; "---"] +:+ example_role "op-manager-role" verb
  +:+ lines ["---"] +:+ example_role "op-zone-admin-role" "all" +:+ example_webhooks "dns" "Ignore".

Definition example_history : list (event fsE) :=
  history (fs_step (example_files "")) (generate default_paths) tt.

Example example_written :
  result (example_files "") (generate default_paths) = None /\
  map fst (writes example_history)
  = ["charts/technitium-operator/templates/crds/zones.yaml"; "charts/technitium-operator/templates/manager-rbac.yaml";
     "charts/technitium-operator/templates/helper-roles.yaml"; "charts/technitium-operator/templates/webhook-configurations.yaml"].
Proof. vm_compute. by split. Qed.


Example example_check :
  result (example_files (example_rendered "get")) (verifyRendered default_paths) = None /\
  result (example_files (example_rendered "delete")) (verifyRendered default_paths)
  = Some (EText (lines ["rendered chart does not match config/:"] +:+ "  ClusterRole *-manager-role: rules differ from config/rbac")).
Proof. vm_compute. by split. Qed.

Example verifyRendered_accepts_witness :
  exists crds roles hooks rendered, matches rendered crds roles hooks /\ length rendered = 4%nat.
Proof.
  destruct (proj1 (proj1 (verifyRendered_accepts (example_files (example_rendered "get")) default_paths)))
    as (b & rendered & crdFiles & crds & roleSrcs & roles & hooks & E1 & E2 & _ & _ & _ & _ & _ & Hm).
  - vm_compute. reflexivity.
  - exists crds, roles, hooks, rendered. split; [exact Hm|]. injection E1 as <-.
    assert (E : parseObjects (example_rendered "get") "stdin" = inr rendered) by exact E2.
    revert E. vm_compute. intros E. injection E as <-. reflexivity.
Defined.
