(* ===== verification/ExternalDns.v ===== *)
(** * The external-dns webhook provider

    [internal/externaldns]: ExternalDNS endpoints translated to Record
    resources and back ([translate.go]), and the webhook handlers that apply a
    change set through the Kubernetes API ([server.go]). *)

From S2P Require Import Prelude GoStrings GoErrors Effects Kube Lifecycle RecordsAPI Record.

Local Open Scope string_scope.
Local Open Scope Z_scope.
Local Open Scope go_scope.
Local Open Scope prog_scope.

(** ** Wire types *)

Module Endpoint.
Record t := mk {
  DNSName : string;
  Targets : list string;
  RecordType : string;
  SetIdentifier : string;
  RecordTTL : Z;
  Labels : gmap string string;
  ProviderSpecific : list (string * string)
}.
#[export] Instance t_eq_dec : EqDecision t.
Proof. solve_decision. Defined.
(** The fields [Adjust] rewrites. *)
Definition with_names (e : t) (dnsName recordType : string) : t :=
  mk dnsName (Targets e) recordType (SetIdentifier e) (RecordTTL e) (Labels e) (ProviderSpecific e).
Definition with_Targets (e : t) (targets : list string) : t :=
  mk (DNSName e) targets (RecordType e) (SetIdentifier e) (RecordTTL e) (Labels e) (ProviderSpecific e).
End Endpoint.
#[export] Existing Instance Endpoint.t_eq_dec.

Module Changes.
Record t := mk {
  Create : list Endpoint.t;
  UpdateOld : list Endpoint.t;
  UpdateNew : list Endpoint.t;
  Delete : list Endpoint.t
}.
End Changes.

Definition normalizeName (s : string) : string := TrimRightChar (ToLower (TrimSpace s)) "."%char.

(** ** Translation *)

Definition LabelManagedBy : string := "app.kubernetes.io/managed-by".
Definition LabelManagedByValue : string := "external-dns".
Definition LabelOwner : string := "dns.packet.fail/external-dns-owner".
Definition AnnotationSetIdentifier : string := "dns.packet.fail/external-dns-set-identifier".

Definition supportedTypes (s : string) : option string :=
  if bool_decide (s ∈ [RecordTypeA; RecordTypeAAAA; RecordTypeCNAME; RecordTypeTXT; RecordTypeNS; RecordTypePTR; RecordTypeMX])
  then Some s else None.

Module Translator.
Record t := mk { Namespace : string; ServerRef : string; OwnerID : string; Zones : list string }.
End Translator.

(** Records to create, to patch, and the names of those to delete. *)
Module Plan.
Record t := mk { Create : list RecordObj.t; Patch : list RecordObj.t; Delete : list string }.
End Plan.

(** [h.Write]: each part and a zero byte. *)
Definition hashed_parts (parts : list string) : string :=
  fold_right (fun p s => p +:+ String zero s) "" parts.

Section translate.
(** The first sixteen bytes of SHA-256, in hexadecimal. *)
Context (digest : string -> string).
Context (T : Translator.t).

Definition RecordName (ownerID dnsName recordType target setIdentifier : string) : string :=
  "edns-" +:+ digest (hashed_parts [ownerID; normalizeName dnsName; ToUpper recordType; target; setIdentifier]).

(** The loop of [ZoneFor]; [name] is normalised. *)
Fixpoint longest_zone (name best : string) (zones : list string) : string :=
  match zones with
  | [] => best
  | z :: zones =>
      let z := normalizeName z in
      let matches := (name =s? z) || HasSuffix name ("." +:+ z) in
      longest_zone name (if matches && (String.length best <? String.length z)%nat then z else best) zones
  end.
Definition ZoneFor (name : string) : option string :=
  let best := longest_zone (normalizeName name) "" (Translator.Zones T) in
  if best =s? "" then None else Some best.

Definition ParseMX (target : string) : fallible (Z * string) :=
  match Fields target with
  | [p; host] =>
      match ParseUint16 p with
      | Some n => inr (n, host)
      | None => inl (wrapf ("malformed MX target " +:+ quoted target +:+ ": invalid priority")
                       (EText ("strconv.ParseUint: parsing " +:+ quoted p +:+ ": "
                        +:+ match parse_nonneg p with None => "invalid syntax" | Some _ => "value out of range" end)))
      end
  | _ => inl (EText ("malformed MX target " +:+ quoted target +:+ ": want " +:+ quoted "<priority> <host>"))
  end.

Definition Selector : gmap string string :=
  <[LabelManagedBy := LabelManagedByValue]> {[LabelOwner := Translator.OwnerID T]}.

Definition max_ttl (ttl : Z) : option Z := if 0 <? ttl then Some (Z.min ttl max_int32) else None.

(** The data and the priority of a target. *)
Definition rdata (recordType target : string) : fallible (string * option Z) :=
  if recordType =s? RecordTypeMX then
    match ParseMX target with inl e => inl e | inr (p, host) => inr (host, Some p) end
  else inr (target, None).

(** The object of an endpoint's target, once its zone, type and data are known. *)
Definition desiredRecord (ep : Endpoint.t) (target zone recordType data : string) (priority : option Z) : RecordObj.t :=
  let name := normalizeName (Endpoint.DNSName ep) in
  let m := ObjectMeta.named (Translator.Namespace T)
             (RecordName (Translator.OwnerID T) (Endpoint.DNSName ep) (Endpoint.RecordType ep) target
                (Endpoint.SetIdentifier ep)) in
  let m := ObjectMeta.with_Labels m Selector in
  let m := if Endpoint.SetIdentifier ep =s? "" then m
           else ObjectMeta.with_Annotations m {[AnnotationSetIdentifier := Endpoint.SetIdentifier ep]} in
  RecordObj.mk m
    (RecordSpec.mk (SecretReference.mk (Translator.ServerRef T) "") zone name recordType
       (max_ttl (Endpoint.RecordTTL ep)) data priority "")
    (RecordStatus.mk [] 0 false "" None).

Definition Desired (ep : Endpoint.t) (target : string) : fallible RecordObj.t :=
  match supportedTypes (ToUpper (Endpoint.RecordType ep)) with
  | None => inl (EText ("unsupported record type " +:+ quoted (Endpoint.RecordType ep) +:+ " for " +:+ Endpoint.DNSName ep))
  | Some rt =>
      match ZoneFor (normalizeName (Endpoint.DNSName ep)) with
      | None => inl (EText (Endpoint.DNSName ep +:+ " is not in any configured zone"))
      | Some zone =>
          match rdata rt target with
          | inl e => inl e
          | inr (data, priority) => inr (desiredRecord ep target zone rt data priority)
          end
      end
  end.

(** *** Records as endpoints *)

Definition epKey : Type := string * string * string.
Definition keyOf (ep : Endpoint.t) : epKey :=
  (normalizeName (Endpoint.DNSName ep), ToUpper (Endpoint.RecordType ep), Endpoint.SetIdentifier ep).

Definition recordKey (r : RecordObj.t) : epKey :=
  let spec := RecordObj.Spec r in
  (RecordSpec.Name spec, RecordSpec.Type_ spec,
   default "" (ObjectMeta.Annotations (RecordObj.Meta r) !! AnnotationSetIdentifier)).

Definition recordTarget (r : RecordObj.t) : string :=
  let spec := RecordObj.Spec r in
  match RecordSpec.Priority spec with
  | Some p => if RecordSpec.Type_ spec =s? RecordTypeMX then Itoa p +:+ " " +:+ RecordSpec.Data spec
              else RecordSpec.Data spec
  | None => RecordSpec.Data spec
  end.

Definition newGroup (r : RecordObj.t) : Endpoint.t :=
  let '(name, ty, set) := recordKey r in
  Endpoint.mk name [] ty set (default 0 (RecordSpec.TTL (RecordObj.Spec r))) ∅ [].

(** The groups, in the order their keys were first seen. *)
Definition groups : Type := list (epKey * Endpoint.t).
Fixpoint add_to_group (g : groups) (k : epKey) (fresh : Endpoint.t) (target : string) : groups :=
  match g with
  | [] => [(k, Endpoint.with_Targets fresh [target])]
  | (k', ep) :: g =>
      if decide (k' = k) then (k', Endpoint.with_Targets ep (Endpoint.Targets ep ++ [target])%list) :: g
      else (k', ep) :: add_to_group g k fresh target
  end.
Definition group_records (records : list RecordObj.t) (g : groups) : groups :=
  fold_left (fun g r => add_to_group g (recordKey r) (newGroup r) (recordTarget r)) records g.

(** [cmp.Or] of the three comparisons. *)
Definition endpoint_leb (a b : Endpoint.t) : bool :=
  match String.compare (Endpoint.DNSName a) (Endpoint.DNSName b) with
  | Lt => true
  | Gt => false
  | Eq =>
      match String.compare (Endpoint.RecordType a) (Endpoint.RecordType b) with
      | Lt => true
      | Gt => false
      | Eq => string_leb (Endpoint.SetIdentifier a) (Endpoint.SetIdentifier b)
      end
  end.

Definition Endpoints (records : list RecordObj.t) : list Endpoint.t :=
  sort_by endpoint_leb
    (map (fun '(_, ep) => Endpoint.with_Targets ep (Sort (Endpoint.Targets ep))) (group_records records [])).

(** *** Plans *)

Definition recordNameOf (ep : Endpoint.t) (target : string) : string :=
  RecordName (Translator.OwnerID T) (Endpoint.DNSName ep) (Endpoint.RecordType ep) target (Endpoint.SetIdentifier ep).

(** [del]: the list of deletions is also the set [deleted]. *)
Definition add_delete (l : list string) (n : string) : list string :=
  if decide (n ∈ l) then l else (l ++ [n])%list.

(** The records of several targets, or the first error. *)
Fixpoint desiredAll (ep : Endpoint.t) (targets : list string) : fallible (list RecordObj.t) :=
  match targets with
  | [] => inr []
  | t :: targets =>
      match Desired ep t with
      | inl e => inl e
      | inr r => match desiredAll ep targets with inl e => inl e | inr rs => inr (r :: rs) end
      end
  end.

Fixpoint planCreates (eps : list Endpoint.t) : fallible (list RecordObj.t) :=
  match eps with
  | [] => inr []
  | ep :: eps =>
      match desiredAll ep (Endpoint.Targets ep) with
      | inl e => inl e
      | inr rs => match planCreates eps with inl e => inl e | inr rs' => inr (rs ++ rs')%list end
      end
  end.

(** [olds]: the last old endpoint of each key; [oldOrder]: the keys as first
    seen. *)
Definition oldOf (olds : list Endpoint.t) (k : epKey) : option Endpoint.t :=
  List.find (fun ep => bool_decide (keyOf ep = k)) (rev olds).
Definition oldOrder (olds : list Endpoint.t) : list epKey :=
  fold_left (fun order ep => if decide (keyOf ep ∈ order) then order else (order ++ [keyOf ep])%list) olds [].

(** One target of a new endpoint: to create, to patch, or kept as it is. *)
Definition updateTargets (old : option Endpoint.t) (nw : Endpoint.t) (rs : list (string * RecordObj.t))
  : list RecordObj.t * list RecordObj.t :=
  let oldTargets := match old with Some o => Endpoint.Targets o | None => [] end in
  let ttlChanged := match old with
                    | Some o => negb (Endpoint.RecordTTL o =? Endpoint.RecordTTL nw)
                    | None => false
                    end in
  (map snd (List.filter (fun '(t, _) => bool_decide (t ∉ oldTargets)) rs),
   if ttlChanged then map snd (List.filter (fun '(t, _) => bool_decide (t ∈ oldTargets)) rs) else []).

(** The names of the old targets that are not among the new. *)
Definition removedTargets (old : option Endpoint.t) (nw : list string) : list string :=
  match old with
  | Some o => map (recordNameOf o) (List.filter (fun t => bool_decide (t ∉ nw)) (Endpoint.Targets o))
  | None => []
  end.

Fixpoint planUpdates (olds news : list Endpoint.t) (p : Plan.t) : fallible Plan.t :=
  match news with
  | [] => inr p
  | nw :: news =>
      let old := oldOf olds (keyOf nw) in
      match desiredAll nw (Endpoint.Targets nw) with
      | inl e => inl e
      | inr rs =>
          let '(creates, patches) := updateTargets old nw (combine (Endpoint.Targets nw) rs) in
          planUpdates olds news
            (Plan.mk (Plan.Create p ++ creates) (Plan.Patch p ++ patches)
               (fold_left add_delete (removedTargets old (Endpoint.Targets nw)) (Plan.Delete p)))
      end
  end.

(** The old endpoints with no new one, then the deletions asked for. *)
Definition goneTargets (c : Changes.t) : list string :=
  (flat_map (fun k => if bool_decide (k ∈ map keyOf (Changes.UpdateNew c)) then []
                      else match oldOf (Changes.UpdateOld c) k with
                           | Some o => map (recordNameOf o) (Endpoint.Targets o)
                           | None => []
                           end) (oldOrder (Changes.UpdateOld c))
   ++ flat_map (fun ep => map (recordNameOf ep) (Endpoint.Targets ep)) (Changes.Delete c))%list.

Definition BuildPlan (c : Changes.t) : fallible Plan.t :=
  match planCreates (Changes.Create c) with
  | inl e => inl e
  | inr creates =>
      match planUpdates (Changes.UpdateOld c) (Changes.UpdateNew c) (Plan.mk creates [] []) with
      | inl e => inl e
      | inr p => inr (Plan.mk (Plan.Create p) (Plan.Patch p) (fold_left add_delete (goneTargets c) (Plan.Delete p)))
      end
  end.

(** [Adjust]; a nil pointer is [None]. *)
Definition Adjust (input : list (option Endpoint.t)) : list Endpoint.t :=
  omap (fun o =>
    ep ← o;
    match supportedTypes (ToUpper (Endpoint.RecordType ep)), ZoneFor (Endpoint.DNSName ep) with
    | Some _, Some _ =>
        Some (Endpoint.with_names ep (normalizeName (Endpoint.DNSName ep)) (ToUpper (Endpoint.RecordType ep)))
    | _, _ => None
    end) input.
End translate.

(** ** Configuration *)

Module Config.
Record t := mk {
  ServerRef : string;
  Zones : list string;
  Namespace : string;
  OwnerID : string;
  Listen : string;
  HealthListen : string
}.
End Config.

(** [ParseFlags] once the flags are parsed. *)
Definition checkConfig (cfg : Config.t) : fallible Config.t :=
  if Config.ServerRef cfg =s? "" then inl (EText "--server-ref is required")
  else if (length (Config.Zones cfg) =? 0)%nat then inl (EText "at least one --zone is required")
  else if Config.Namespace cfg =s? "" then inl (EText "--namespace is required when it cannot be detected")
  else inr (Config.mk (Config.ServerRef cfg) (map normalizeName (Config.Zones cfg)) (Config.Namespace cfg) (Config.OwnerID cfg)
         (Config.Listen cfg) (Config.HealthListen cfg)).

(** ** Handlers *)

(** The Kubernetes calls; [EPatch] sends the difference to the object just
    read. *)
Inductive ednsE : Type :=
| ECreate (r : RecordObj.t)
| EGet (key : ObjectKey)
| EPatch (r : RecordObj.t)
| EDelete (key : ObjectKey)
| EList (namespace : string) (labels : gmap string string).
#[export] Instance ednsE_Effect : Effect ednsE := fun c => match c with
| EGet _ => fallible RecordObj.t
| EList _ _ => fallible (list RecordObj.t)
| _ => option error
end.

(** Responses: their status, and their body where it matters. *)
Inductive response := NoContent | OK (endpoints : list Endpoint.t) | HTTPError (code : Z) (message : string).

Section handlers.
Context (digest : string -> string).
Context (T : Translator.t).

Definition objectKey (r : RecordObj.t) : ObjectKey :=
  {| KeyNamespace := ObjectMeta.Namespace (RecordObj.Meta r); KeyName := ObjectMeta.Name (RecordObj.Meta r) |}.

(** The object as patched: the spec, labels and annotations wanted. *)
Definition patched (cur want : RecordObj.t) : RecordObj.t :=
  let m := ObjectMeta.with_Labels (RecordObj.Meta cur) (ObjectMeta.Labels (RecordObj.Meta want)) in
  RecordObj.mk (ObjectMeta.with_Annotations m (ObjectMeta.Annotations (RecordObj.Meta want)))
    (RecordObj.Spec want) (RecordObj.Status cur).

Definition patch (want : RecordObj.t) : prog ednsE (option error) :=
  g <- call (EGet (objectKey want)) ;;
  match (g : fallible RecordObj.t) with
  | inl e => Ret (Some e)
  | inr cur => call (EPatch (patched cur want))
  end.

Definition createOne (rec : RecordObj.t) : prog ednsE (option error) :=
  c <- call (ECreate rec) ;;
  e <- match (c : option error) with
       | Some e => if IsAlreadyExists e then patch rec else Ret (Some e)
       | None => Ret None
       end ;;
  Ret (wrapf ("creating Record " +:+ ObjectMeta.Name (RecordObj.Meta rec)) <$> e).

Definition patchOne (rec : RecordObj.t) : prog ednsE (option error) :=
  e <- patch rec ;; Ret (wrapf ("patching Record " +:+ ObjectMeta.Name (RecordObj.Meta rec)) <$> e).

Definition deleteOne (name : string) : prog ednsE (option error) :=
  d <- call (EDelete {| KeyNamespace := Translator.Namespace T; KeyName := name |}) ;;
  Ret (match (d : option error) with
       | Some e => if IsNotFound e then None else Some (wrapf ("deleting Record " +:+ name) e)
       | None => None
       end).

Definition apply (p : Plan.t) : prog ednsE (option error) :=
  check for_each (Plan.Create p) createOne ;;
  check for_each (Plan.Patch p) patchOne ;;
  for_each (Plan.Delete p) deleteOne.

(** A decoded body, or the status and message of the decoding failure. *)
Definition applyChanges (body : (Z * string) + Changes.t) : prog ednsE response :=
  match body with
  | inl (code, message) => Ret (HTTPError code message)
  | inr c =>
      match BuildPlan digest T c with
      | inl e => Ret (HTTPError 400 (Error e))
      | inr plan =>
          r <- apply plan ;;
          Ret (match r with Some e => HTTPError 500 (Error e) | None => NoContent end)
      end
  end.

Definition records : prog ednsE response :=
  l <- call (EList (Translator.Namespace T) (Selector T)) ;;
  Ret (match (l : fallible (list RecordObj.t)) with
       | inl e => HTTPError 500 (Error e)
       | inr items => OK (Endpoints items)
       end).

Definition negotiate : list string := Translator.Zones T.

Definition adjust (body : (Z * string) + list (option Endpoint.t)) : response :=
  match body with
  | inl (code, message) => HTTPError code message
  | inr input => OK (Adjust T input)
  end.
End handlers.

(** ** Zones *)

Section zones.
Context (T : Translator.t).

(** [name] is the zone [z] or lies below it. *)
Definition in_zone (name z : string) : Prop := name = z \/ exists labels, name = labels +:+ "." +:+ z.

Lemma in_zone_bool name z : (name =s? z) || HasSuffix name ("." +:+ z) = true <-> in_zone name z.
Proof. unfold in_zone. by rewrite orb_true_iff, String.eqb_eq, HasSuffix_spec. Qed.

(** What the loop has established of the zones seen so far. *)
Lemma longest_zone_spec name zones : forall best,
  let r := longest_zone name best zones in
  (r = best \/ exists z, z ∈ zones /\ r = normalizeName z /\ in_zone name r) /\
  (String.length best <= String.length r)%nat /\
  forall z, z ∈ zones -> in_zone name (normalizeName z) -> (String.length (normalizeName z) <= String.length r)%nat.
Proof.
  induction zones as [|z zones IH]; intros best; cbn [longest_zone].
  { split; [by left|]. split; [done|]. intros z Hz. by apply elem_of_nil in Hz. }
  set (nz := normalizeName z). set (m := (name =s? nz) || HasSuffix name ("." +:+ nz)).
  pose proof (in_zone_bool name nz) as Hm. fold m in Hm.
  destruct m; cbn [andb]; [destruct (Nat.ltb_spec (String.length best) (String.length nz)) as [Hlt|Hge]|].
  - destruct (IH nz) as (Hr & Hlen & Hmax). split; [|split; [etransitivity; [apply Nat.lt_le_incl, Hlt|exact Hlen]|]].
    + right. destruct Hr as [->|(z' & Hz' & E & Hin)]; [exists z|exists z'].
      * split; [by left|]. by split; [|apply Hm].
      * split; [by right|done].
    + intros z' [->|Hz']%elem_of_cons Hin; [exact Hlen|by apply Hmax].
  - destruct (IH best) as (Hr & Hlen & Hmax). split; [|split; [done|]].
    + destruct Hr as [->|(z' & Hz' & E & Hin)]; [by left|]. right. exists z'. split; [by right|done].
    + intros z' [->|Hz']%elem_of_cons Hin; [etransitivity; [exact Hge|exact Hlen]|by apply Hmax].
  - destruct (IH best) as (Hr & Hlen & Hmax). split; [|split; [done|]].
    + destruct Hr as [->|(z' & Hz' & E & Hin)]; [by left|]. right. exists z'. split; [by right|done].
    + intros z' [->|Hz']%elem_of_cons Hin; [by apply Hm in Hin|by apply Hmax].
Qed.

(** A name goes to its closest configured zone.  [ZoneFor] answers a
    configured zone (lower case, without trailing dots) that the normalised
    name equals or lies below on a label boundary, and no configured zone that
    contains the name is longer; it answers none exactly when no configured
    zone other than the root contains the name. *)
Theorem ZoneFor_closest (name : string) :
  let n := normalizeName name in
  match ZoneFor T name with
  | Some zone =>
      zone <> "" /\ (exists z, z ∈ Translator.Zones T /\ zone = normalizeName z) /\ in_zone n zone /\
      forall z, z ∈ Translator.Zones T -> in_zone n (normalizeName z) ->
        (String.length (normalizeName z) <= String.length zone)%nat
  | None => forall z, z ∈ Translator.Zones T -> in_zone n (normalizeName z) -> normalizeName z = ""
  end.
Proof.
  cbn zeta. unfold ZoneFor. destruct (longest_zone_spec (normalizeName name) (Translator.Zones T) "") as (Hr & _ & Hmax).
  set (best := longest_zone _ _ _) in *. destruct (best =s? "") eqn:E.
  - apply String.eqb_eq in E. intros z Hz Hin. specialize (Hmax z Hz Hin). rewrite E in Hmax. cbn in Hmax.
    destruct (normalizeName z); [done|cbn in Hmax; lia].
  - apply String.eqb_neq in E. destruct Hr as [?|(z & Hz & Ez & Hin)]; [done|].
    split; [done|]. split; [by exists z|]. by split.
Qed.
End zones.

(** ** Applying a plan *)

Section application.
Context (digest : string -> string) (T : Translator.t).

(** The record is there, as wanted. *)
Definition patch_confirmed (tr : list (event ednsE)) (want : RecordObj.t) : Prop :=
  exists cur, In (ev (EPatch (patched cur want) : ednsE) None) tr.
Definition create_confirmed (tr : list (event ednsE)) (want : RecordObj.t) : Prop :=
  In (ev (ECreate want : ednsE) None) tr \/ patch_confirmed tr want.
Definition delete_confirmed (tr : list (event ednsE)) (name : string) : Prop :=
  exists x, In (ev (EDelete {| KeyNamespace := Translator.Namespace T; KeyName := name |} : ednsE) x) tr /\
    match x with None => True | Some e => IsNotFound e = true end.

Definition is_delete (c : ednsE) : bool := match c with EDelete _ => true | _ => false end.
Definition no_delete (tr : list (event ednsE)) : Prop := Forall (fun e => is_delete (projT1 e) = false) tr.

Lemma patch_always want :
  always (patch want) (fun tr r => no_delete tr /\ (r = None -> patch_confirmed tr want)).
Proof.
  unfold always, patch. cbn. intros [e|cur]; cbn; [by split; [repeat constructor|]|].
  intros x. split; [by repeat constructor|]. cbn. intros ->. exists cur. right. by left.
Qed.

Lemma createOne_always rec :
  always (createOne rec) (fun tr r => no_delete tr /\ (r = None -> create_confirmed tr rec)).
Proof.
  unfold always, createOne. cbn -[patch]. intros [e|]; cbn -[patch].
  2: { split; [by repeat constructor|]. intros _. left. by left. }
  destruct (IsAlreadyExists e); cbn -[patch]; [|by split; [repeat constructor|]].
  apply holds_bind. eapply holds_mono; [|apply holds_frame, patch_always].
  intros tr [e'|] (ext & -> & Hn & Hc); cbn; (split; [by constructor|]); [done|]. intros _. right.
  destruct (Hc eq_refl) as (cur & Hin). exists cur. by right.
Qed.

Lemma patchOne_always rec :
  always (patchOne rec) (fun tr r => no_delete tr /\ (r = None -> patch_confirmed tr rec)).
Proof.
  unfold always, patchOne. apply holds_bind. eapply holds_mono; [|apply patch_always].
  intros tr [e|] [Hn Hc]; cbn; (split; [done|]); [done|]. intros _. by apply Hc.
Qed.

(** A phase: each item in turn, until one fails. *)
Lemma phase_always {X : Type} (l : list X) (body : X -> prog ednsE (option error))
    (N : event ednsE -> Prop) (C : list (event ednsE) -> X -> Prop) :
  (forall tr tr' x, incl tr tr' -> C tr x -> C tr' x) ->
  (forall x, x ∈ l -> always (body x) (fun tr r => Forall N tr /\ (r = None -> C tr x))) ->
  always (for_each l body) (fun tr r => Forall N tr /\ (r = None -> forall x, x ∈ l -> C tr x)).
Proof.
  intros Hmono. unfold always. induction l as [|x l IH]; cbn; intros Hb.
  { split; [constructor|]. intros _ x Hx. by apply elem_of_nil in Hx. }
  apply holds_bind. eapply holds_mono; [|apply Hb; by left].
  intros tr [e|] [Hn Hc]; cbn; [by split|].
  eapply holds_mono; [|apply holds_frame, IH; intros y Hy; apply Hb; by right].
  intros tr' r (ext & -> & Hn' & Hc'). split; [by apply Forall_app|]. intros Hr y [->|Hy]%elem_of_cons.
  - eapply Hmono; [|by apply Hc]. apply incl_appl, incl_refl.
  - eapply Hmono; [|by apply Hc']. apply incl_appr, incl_refl.
Qed.

Lemma create_confirmed_mono tr tr' x : incl tr tr' -> create_confirmed tr x -> create_confirmed tr' x.
Proof. intros Hi [Hc|(cur & Hc)]; [left; by apply Hi|right; exists cur; by apply Hi]. Qed.
Lemma patch_confirmed_mono tr tr' x : incl tr tr' -> patch_confirmed tr x -> patch_confirmed tr' x.
Proof. intros Hi (cur & Hc). exists cur. by apply Hi. Qed.
Lemma delete_confirmed_mono tr tr' x : incl tr tr' -> delete_confirmed tr x -> delete_confirmed tr' x.
Proof. intros Hi (y & Hy & E). exists y. split; [by apply Hi|done]. Qed.

(** The deletions of a history are of the plan, and follow what it creates and
    patches. *)
Definition applied_in_order (p : Plan.t) (tr : list (event ednsE)) (r : option error) : Prop :=
  (forall key, In (EDelete key : ednsE) (map projT1 tr) ->
     (exists n, n ∈ Plan.Delete p /\ key = {| KeyNamespace := Translator.Namespace T; KeyName := n |}) /\
     (forall x, x ∈ Plan.Create p -> create_confirmed tr x) /\ (forall x, x ∈ Plan.Patch p -> patch_confirmed tr x)) /\
  (r = None ->
     (forall x, x ∈ Plan.Create p -> create_confirmed tr x) /\ (forall x, x ∈ Plan.Patch p -> patch_confirmed tr x) /\
     (forall n, n ∈ Plan.Delete p -> delete_confirmed tr n)).

Lemma no_delete_request tr key : no_delete tr -> ~ In (EDelete key : ednsE) (map projT1 tr).
Proof.
  intros Hn (e & He & Hin)%in_map_iff. unfold no_delete in Hn. rewrite List.Forall_forall in Hn.
  specialize (Hn e Hin). by rewrite He in Hn.
Qed.

Lemma apply_always p : always (apply T p) (applied_in_order p).
Proof.
  unfold always, apply. apply holds_bind.
  eapply holds_mono; [|apply (phase_always (Plan.Create p) createOne (fun e => is_delete (projT1 e) = false) create_confirmed);
    [apply create_confirmed_mono|intros x _; apply createOne_always]].
  intros tr1 [e|] [Hn1 Hc1]; [split; [|done]; intros key Hin; by apply no_delete_request in Hin|].
  apply holds_bind. eapply holds_mono; [|apply holds_frame, (phase_always (Plan.Patch p) patchOne (fun e => is_delete (projT1 e) = false) patch_confirmed);
    [apply patch_confirmed_mono|intros x _; apply patchOne_always]].
  intros tr2 r2 (ext2 & -> & Hn2 & Hc2).
  assert (Hn : no_delete (tr1 ++ ext2)) by by apply Forall_app.
  destruct r2 as [e|]; [split; [|done]; intros key Hin; by apply no_delete_request in Hin|].
  eapply holds_mono; [|apply holds_frame, (phase_always (Plan.Delete p) (deleteOne T)
    (fun e => exists n, n ∈ Plan.Delete p /\ projT1 e = EDelete {| KeyNamespace := Translator.Namespace T; KeyName := n |})
    delete_confirmed); [apply delete_confirmed_mono|]].
  2: { intros n Hn'. unfold always, deleteOne. cbn. intros x. split; [constructor; [by exists n|constructor]|].
    intros Hx. exists x. split; [by left|]. destruct x as [e|]; [|done]. by destruct (IsNotFound e). }
  intros tr r (ext & -> & Hd & Hr).
  assert (H1 : forall x, x ∈ Plan.Create p -> create_confirmed ((tr1 ++ ext2) ++ ext) x).
  { intros x Hx. eapply create_confirmed_mono; [|by apply Hc1]. by apply incl_appl, incl_appl, incl_refl. }
  assert (H2 : forall x, x ∈ Plan.Patch p -> patch_confirmed ((tr1 ++ ext2) ++ ext) x).
  { intros x Hx. eapply patch_confirmed_mono; [|by apply Hc2]. by apply incl_appl, incl_appr, incl_refl. }
  split.
  - intros key Hin. split; [|done]. rewrite map_app in Hin. apply in_app_or in Hin as [Hin|Hin]; [by apply no_delete_request in Hin|].
    apply in_map_iff in Hin as (e & He & Hin). rewrite List.Forall_forall in Hd. destruct (Hd e Hin) as (n & Hn' & En).
    exists n. split; [done|]. rewrite He in En. by injection En.
  - intros E. split; [done|]. split; [done|]. intros n Hn'. eapply delete_confirmed_mono; [|by apply Hr].
    apply incl_appr, incl_refl.
Qed.

(** C28: A change set is applied without a gap, or not at all.  Whatever the API
    server answers: a change set that cannot be translated is rejected with
    400 before any call; otherwise only records of the plan are deleted, and
    none before everything the plan creates or patches was confirmed; 204 is
    answered only when every creation, patch and deletion was confirmed, and
    any other failure is a 500. *)
Theorem changes_applied_in_order (c : Changes.t) :
  always (applyChanges digest T (inr c)) (fun tr resp =>
    match BuildPlan digest T c with
    | inl e => tr = [] /\ resp = HTTPError 400 (Error e)
    | inr p => exists r, applied_in_order p tr r /\
        resp = match r with None => NoContent | Some e => HTTPError 500 (Error e) end
    end).
Proof.
  unfold always, applyChanges. destruct (BuildPlan digest T c) as [e|p]; [by split|].
  apply holds_bind. eapply holds_mono; [|apply apply_always].
  intros tr [e|] Ho; cbn; [by exists (Some e)|by exists None].
Qed.
End application.
