(* ===== verification/ExternalDnsStore.v ===== *)
(** * What the external-dns webhook does to the Records

    The plan of a change set in terms of pairs of a key (name, type and set
    identifier) and a target; the refinement of a set of such pairs by the
    Records an API server stores; and the round trip from endpoints to Records
    and back. *)

From S2P Require Import Prelude GoStrings GoErrors Effects Kube Lifecycle RecordsAPI Record ExternalDns.

Local Open Scope string_scope.
Local Open Scope Z_scope.
Local Open Scope go_scope.
Local Open Scope prog_scope.

(** ** Pairs

    Seen from ExternalDNS the Records of a webhook are a set of pairs; a pair is
    present when the object of its name is. *)

Definition no_nul (s : string) : Prop := str_forall (fun c => negb (Ascii.eqb c zero)) s = true.

Lemma app_zero_inj (p p' s s' : string) :
  no_nul p -> no_nul p' -> p +:+ String zero s = p' +:+ String zero s' -> p = p' /\ s = s'.
Proof.
  unfold no_nul. revert p'. induction p as [|c p IH]; intros [|c' p'] Hp Hp' E.
  - by injection E.
  - change (String zero s = String c' (p' +:+ String zero s')) in E. injection E as <- _. done.
  - change (String c (p +:+ String zero s) = String zero s') in E. injection E as -> _. done.
  - change (String c (p +:+ String zero s) = String c' (p' +:+ String zero s')) in E. injection E as <- E.
    cbn in Hp, Hp'. apply andb_prop in Hp as [_ Hp], Hp' as [_ Hp']. destruct (IH p' Hp Hp' E) as [-> ->]. done.
Qed.

(** The changes, as sets of pairs. *)
Definition wanted (c : Changes.t) (k : epKey) (t : string) : Prop :=
  exists ep, (ep ∈ Changes.Create c \/ ep ∈ Changes.UpdateNew c) /\ keyOf ep = k /\ t ∈ Endpoint.Targets ep.
Definition renewed (c : Changes.t) (k : epKey) (t : string) : Prop :=
  exists ep, ep ∈ Changes.UpdateNew c /\ keyOf ep = k /\ t ∈ Endpoint.Targets ep.
Definition old_target (c : Changes.t) (k : epKey) (t : string) : Prop :=
  exists o, oldOf (Changes.UpdateOld c) k = Some o /\ t ∈ Endpoint.Targets o.
Definition removed (c : Changes.t) (k : epKey) (t : string) : Prop :=
  (old_target c k t /\ ~ renewed c k t) \/
  exists ep, ep ∈ Changes.Delete c /\ keyOf ep = k /\ t ∈ Endpoint.Targets ep.

(** A change set as ExternalDNS plans them: one update per key, and nothing
    both wanted and removed. *)
Definition changes_wf (c : Changes.t) : Prop :=
  NoDup (map keyOf (Changes.UpdateNew c)) /\ forall k t, wanted c k t -> ~ removed c k t.

Section plans.
Context (digest : string -> string) (T : Translator.t).

(** The object name of a pair. *)
Definition pairName (k : epKey) (t : string) : string :=
  let '(name, ty, set) := k in "edns-" +:+ digest (hashed_parts [Translator.OwnerID T; name; ty; t; set]).

Lemma recordNameOf_pair ep t : recordNameOf digest T ep t = pairName (keyOf ep) t.
Proof. done. Qed.

Definition nameOf (r : RecordObj.t) : string := ObjectMeta.Name (RecordObj.Meta r).

Lemma Desired_meta ep t r :
  Desired digest T ep t = inr r ->
  nameOf r = pairName (keyOf ep) t /\ ObjectMeta.Namespace (RecordObj.Meta r) = Translator.Namespace T.
Proof.
  unfold Desired. destruct (supportedTypes _) as [rt|]; [|done]. destruct (ZoneFor _ _) as [z|]; [|done].
  destruct (rdata rt t) as [e|[d p]]; [done|]. intros [= <-]. unfold desiredRecord, nameOf. cbn.
  by destruct (Endpoint.SetIdentifier ep =s? "").
Qed.

Lemma desiredAll_spec ep ts rs :
  desiredAll digest T ep ts = inr rs ->
  rs = map snd (combine ts rs) /\
  (forall t r, (t, r) ∈ combine ts rs -> t ∈ ts /\ Desired digest T ep t = inr r) /\
  (forall t, t ∈ ts -> exists r, (t, r) ∈ combine ts rs).
Proof.
  revert rs. induction ts as [|t ts IH]; cbn; intros rs E.
  { injection E as <-. split; [done|]. split; [intros t r Hin|intros t Hin]; by apply elem_of_nil in Hin. }
  destruct (Desired digest T ep t) as [e|r] eqn:Ed; [done|].
  destruct (desiredAll digest T ep ts) as [e|rs']; [done|]. injection E as <-.
  destruct (IH rs' eq_refl) as (H1 & H2 & H3). cbn. split; [by rewrite <- H1|]. split.
  - intros t' r' [[= -> ->]|Hin]%elem_of_cons; [by split; [left|]|].
    destruct (H2 _ _ Hin) as [Ht Er]. split; [by right|done].
  - intros t' [->|Hin]%elem_of_cons; [exists r; by left|]. destruct (H3 t' Hin) as (r' & Hr'). exists r'. by right.
Qed.

(** The records of a list of endpoints: one for each of their targets. *)
Lemma planCreates_spec eps rs :
  planCreates digest T eps = inr rs ->
  (forall r, r ∈ rs -> exists ep t, ep ∈ eps /\ t ∈ Endpoint.Targets ep /\ Desired digest T ep t = inr r) /\
  (forall ep t, ep ∈ eps -> t ∈ Endpoint.Targets ep -> exists r, r ∈ rs /\ Desired digest T ep t = inr r).
Proof.
  revert rs. induction eps as [|ep eps IH]; cbn; intros rs E.
  { injection E as <-. split; [intros r Hr; by apply elem_of_nil in Hr|intros ep t Hep; by apply elem_of_nil in Hep]. }
  destruct (desiredAll digest T ep (Endpoint.Targets ep)) as [e|rs1] eqn:Ed; [done|].
  destruct (planCreates digest T eps) as [e|rs2]; [done|]. injection E as <-.
  destruct (desiredAll_spec _ _ _ Ed) as (Ec & D1 & D2). destruct (IH rs2 eq_refl) as [H1 H2]. split.
  - intros r [Hr|Hr]%elem_of_app.
    + rewrite Ec in Hr. apply list_elem_of_In, in_map_iff in Hr as ([t r'] & <- & Hin%list_elem_of_In).
      exists ep, t. split; [by left|by apply D1].
    + destruct (H1 r Hr) as (ep' & t & Hep & Ht). exists ep', t. split; [by right|done].
  - intros ep' t [->|Hep]%elem_of_cons Ht.
    + destruct (D2 t Ht) as (r & Hr). exists r. split; [|by apply D1]. apply elem_of_app. left. rewrite Ec.
      apply list_elem_of_In, in_map_iff. exists (t, r). split; [done|by apply list_elem_of_In].
    + destruct (H2 ep' t Hep Ht) as (r & Hr & Er). exists r. split; [apply elem_of_app; by right|done].
Qed.

Lemma add_deletes_elem l ns n : n ∈ fold_left add_delete ns l <-> n ∈ l \/ n ∈ ns.
Proof.
  revert l. induction ns as [|m ns IH]; intros l; cbn; [rewrite elem_of_nil; tauto|].
  rewrite IH, elem_of_cons. unfold add_delete. case_decide as Hm; [|rewrite elem_of_app, list_elem_of_singleton; tauto].
  split; [tauto|]. intros [?|[->|?]]; tauto.
Qed.

Lemma oldOf_Some olds k o : oldOf olds k = Some o -> keyOf o = k /\ o ∈ olds.
Proof.
  unfold oldOf. intros [Hin Hk]%find_some. split; [by apply bool_decide_eq_true in Hk|].
  by apply list_elem_of_In, in_rev.
Qed.

Lemma oldOrder_elem olds k : k ∈ oldOrder olds <-> k ∈ map keyOf olds.
Proof.
  unfold oldOrder. assert (Hgen : forall order, k ∈ fold_left (fun order ep => if decide (keyOf ep ∈ order) then order
      else (order ++ [keyOf ep])%list) olds order <-> k ∈ order \/ k ∈ map keyOf olds).
  { induction olds as [|o olds IH]; intros order; cbn; [rewrite elem_of_nil; naive_solver|].
    rewrite IH, elem_of_cons. case_decide; [|rewrite elem_of_app, list_elem_of_singleton]; naive_solver. }
  rewrite Hgen, elem_of_nil. naive_solver.
Qed.

Lemma removedTargets_elem olds nw n :
  n ∈ removedTargets digest T (oldOf olds (keyOf nw)) (Endpoint.Targets nw) <->
  exists o t, oldOf olds (keyOf nw) = Some o /\ t ∈ Endpoint.Targets o /\ t ∉ Endpoint.Targets nw /\
    n = pairName (keyOf nw) t.
Proof.
  unfold removedTargets. destruct (oldOf olds (keyOf nw)) as [o|] eqn:Eo.
  2: { rewrite elem_of_nil. naive_solver. }
  apply oldOf_Some in Eo as [Ek _]. rewrite map_elem. split.
  - intros (t & -> & Ht). apply (filter_bool_elem (fun t => t ∉ Endpoint.Targets nw)) in Ht as [Hn Ht].
    exists o, t. split_and!; try done. by rewrite recordNameOf_pair, Ek.
  - intros (o' & t & [= <-] & Ht & Hn & ->). exists t. split; [by rewrite recordNameOf_pair, Ek|].
    by apply (filter_bool_elem (fun t => t ∉ Endpoint.Targets nw)).
Qed.

(** The targets the old endpoint of a key had. *)
Definition was (olds : list Endpoint.t) (k : epKey) (t : string) : Prop :=
  exists o, oldOf olds k = Some o /\ t ∈ Endpoint.Targets o.

Lemma updateTargets_spec olds nw rs creates patches :
  desiredAll digest T nw (Endpoint.Targets nw) = inr rs ->
  updateTargets (oldOf olds (keyOf nw)) nw (combine (Endpoint.Targets nw) rs) = (creates, patches) ->
  (forall r, r ∈ creates -> exists t, t ∈ Endpoint.Targets nw /\ Desired digest T nw t = inr r) /\
  (forall r, r ∈ patches -> exists t, t ∈ Endpoint.Targets nw /\ was olds (keyOf nw) t /\ Desired digest T nw t = inr r) /\
  (forall t, t ∈ Endpoint.Targets nw -> was olds (keyOf nw) t \/ exists r, r ∈ creates /\ Desired digest T nw t = inr r).
Proof.
  intros (_ & D1 & D2)%desiredAll_spec. unfold updateTargets, was. intros [= <- <-].
  set (ots := match oldOf olds (keyOf nw) with Some o => Endpoint.Targets o | None => [] end).
  assert (Hots : forall t, t ∈ ots -> exists o, oldOf olds (keyOf nw) = Some o /\ t ∈ Endpoint.Targets o).
  { unfold ots. destruct (oldOf olds (keyOf nw)) as [o|]; intros t Ht; [by exists o|by apply elem_of_nil in Ht]. }
  split; [|split].
  - intros r (x & -> & Hx)%map_elem. apply list_elem_of_In, filter_In in Hx as [Hx _]. destruct x as [t r].
    exists t. by apply D1, list_elem_of_In.
  - intros r Hr. match type of Hr with r ∈ (if ?b then _ else _) => destruct b end; [|by apply elem_of_nil in Hr].
    apply map_elem in Hr as (x & -> & Hx). apply list_elem_of_In, filter_In in Hx as [Hx Hb]. destruct x as [t r].
    apply bool_decide_eq_true in Hb. exists t. destruct (D1 t r) as [Ht Er]; [by apply list_elem_of_In|].
    split; [done|]. split; [by apply Hots|done].
  - intros t Ht. destruct (decide (t ∈ ots)) as [Hin|Hout]; [left; by apply Hots|right].
    destruct (D2 t Ht) as (r & Hr). exists r. split; [|by apply D1]. apply map_elem. exists (t, r). split; [done|].
    apply list_elem_of_In, filter_In. split; [by apply list_elem_of_In|]. by apply bool_decide_eq_true.
Qed.

(** What the loop over the new endpoints adds to a plan. *)
Lemma planUpdates_spec olds news : forall p p',
  planUpdates digest T olds news p = inr p' ->
  (forall r, r ∈ Plan.Create p' -> r ∈ Plan.Create p \/
     exists nw t, nw ∈ news /\ t ∈ Endpoint.Targets nw /\ Desired digest T nw t = inr r) /\
  (forall r, r ∈ Plan.Patch p' -> r ∈ Plan.Patch p \/
     exists nw t, nw ∈ news /\ t ∈ Endpoint.Targets nw /\ was olds (keyOf nw) t /\ Desired digest T nw t = inr r) /\
  (forall r, r ∈ Plan.Create p -> r ∈ Plan.Create p') /\
  (forall nw t, nw ∈ news -> t ∈ Endpoint.Targets nw ->
     was olds (keyOf nw) t \/ exists r, r ∈ Plan.Create p' /\ Desired digest T nw t = inr r) /\
  (forall n, n ∈ Plan.Delete p' <-> n ∈ Plan.Delete p \/
     exists nw o t, nw ∈ news /\ oldOf olds (keyOf nw) = Some o /\ t ∈ Endpoint.Targets o /\
       t ∉ Endpoint.Targets nw /\ n = pairName (keyOf nw) t).
Proof.
  induction news as [|nw news IH]; intros p p'; cbn -[updateTargets removedTargets].
  { intros [= <-]. split_and!; try (intros; by left); try done.
    - intros nw t Hn. by apply elem_of_nil in Hn.
    - intros n. split; [by left|]. intros [?|(nw & o & t & Hn & _)]; [done|by apply elem_of_nil in Hn]. }
  destruct (desiredAll digest T nw (Endpoint.Targets nw)) as [e|rs] eqn:Ed; [done|].
  destruct (updateTargets (oldOf olds (keyOf nw)) nw (combine (Endpoint.Targets nw) rs)) as [creates patches] eqn:Eu.
  destruct (updateTargets_spec _ _ _ _ _ Ed Eu) as (C & P & W). intros E.
  destruct (IH _ _ E) as (I1 & I2 & I3 & I4 & I5). cbn -[pairName removedTargets] in *. split_and!.
  - intros r Hr. destruct (I1 r Hr) as [[?|Hc]%elem_of_app|(nw' & t & Hn & Ht)]; [by left|right|right].
    + destruct (C r Hc) as (t & Ht). exists nw, t. split; [by left|done].
    + exists nw', t. split; [by right|done].
  - intros r Hr. destruct (I2 r Hr) as [[?|Hc]%elem_of_app|(nw' & t & Hn & Ht)]; [by left|right|right].
    + destruct (P r Hc) as (t & Ht). exists nw, t. split; [by left|done].
    + exists nw', t. split; [by right|done].
  - intros r Hr. apply I3, elem_of_app. by left.
  - intros nw' t [->|Hn]%elem_of_cons Ht; [|by apply I4].
    destruct (W t Ht) as [?|(r & Hr & Er)]; [by left|right]. exists r. split; [|done]. apply I3, elem_of_app. by right.
  - intros n. rewrite I5, add_deletes_elem, removedTargets_elem. split.
    + intros [[?|(o & t & Ho & Ht)]|(nw' & o & t & Hn & Ht)]; [by left|right|right].
      * exists nw, o, t. split; [by left|done].
      * exists nw', o, t. split; [by right|done].
    + intros [?|(nw' & o & t & [->|Hn]%elem_of_cons & Ht)]; [by left; left|left; right|right].
      * by exists o, t.
      * by exists nw', o, t.
Qed.

(** What a plan asks for, in terms of pairs. *)
Record plan_of (c : Changes.t) (p : Plan.t) : Prop := {
  plan_wanted : forall r, r ∈ (Plan.Create p ++ Plan.Patch p)%list ->
    exists ep t, (ep ∈ Changes.Create c \/ ep ∈ Changes.UpdateNew c) /\ t ∈ Endpoint.Targets ep /\
      Desired digest T ep t = inr r;
  plan_patches_old : forall r, r ∈ Plan.Patch p -> exists k t, old_target c k t /\ nameOf r = pairName k t;
  plan_creates : forall k t, wanted c k t ->
    (exists r, r ∈ Plan.Create p /\ nameOf r = pairName k t) \/ old_target c k t;
  plan_deletes : forall n, n ∈ Plan.Delete p <-> exists k t, removed c k t /\ n = pairName k t
}.

Lemma goneTargets_elem c n :
  n ∈ goneTargets digest T c <->
  (exists k t, old_target c k t /\ k ∉ map keyOf (Changes.UpdateNew c) /\ n = pairName k t) \/
  (exists ep t, ep ∈ Changes.Delete c /\ t ∈ Endpoint.Targets ep /\ n = pairName (keyOf ep) t).
Proof.
  unfold goneTargets. rewrite elem_of_app, !list_elem_of_In, !in_flat_map. split.
  - intros [(k & Hk & Hn)|(ep & Hep & Hn)].
    + left. case_bool_decide as Hs; [done|]. destruct (oldOf _ k) as [o|] eqn:Eo; [|done].
      apply in_map_iff in Hn as (t & <- & Ht). exists k, t. split; [exists o; split; [done|by apply list_elem_of_In]|].
      split; [done|]. apply oldOf_Some in Eo as [<- _]. apply recordNameOf_pair.
    + right. apply in_map_iff in Hn as (t & <- & Ht). exists ep, t. rewrite !list_elem_of_In.
      split; [done|]. split; [done|]. apply recordNameOf_pair.
  - intros [(k & t & (o & Ho & Ht) & Hk & ->)|(ep & t & Hep & Ht & ->)].
    + left. pose proof (oldOf_Some _ _ _ Ho) as [Ek Hin]. exists k. split.
      { apply list_elem_of_In, oldOrder_elem, map_elem. by exists o. }
      rewrite bool_decide_eq_false_2, Ho by done. apply in_map_iff. exists t.
      split; [by rewrite recordNameOf_pair, Ek|by apply list_elem_of_In].
    + right. exists ep. split; [by apply list_elem_of_In|]. apply in_map_iff. exists t.
      split; [apply recordNameOf_pair|by apply list_elem_of_In].
Qed.

(** With one update per key, the new endpoint of a key is the one that renews
    its targets. *)
Lemma renewed_of c nw t :
  NoDup (map keyOf (Changes.UpdateNew c)) -> nw ∈ Changes.UpdateNew c ->
  renewed c (keyOf nw) t <-> t ∈ Endpoint.Targets nw.
Proof.
  intros Hnd Hin. split; [|intros Ht; by exists nw]. intros (ep & Hep & Ek & Ht).
  cut (ep = nw); [by intros <-|]. clear Ht t.
  revert Hnd Hin Hep. induction (Changes.UpdateNew c) as [|x l IH]; cbn; [by intros _ Hn%elem_of_nil|].
  intros [Hx Hnd]%NoDup_cons [<-|Hin]%elem_of_cons [<-|Hep]%elem_of_cons; [done| | |by apply IH].
  - destruct Hx. apply map_elem. by exists ep.
  - destruct Hx. rewrite Ek. apply map_elem. by exists nw.
Qed.

Lemma BuildPlan_spec c p :
  NoDup (map keyOf (Changes.UpdateNew c)) -> BuildPlan digest T c = inr p -> plan_of c p.
Proof.
  intros Hnd. unfold BuildPlan.
  destruct (planCreates digest T (Changes.Create c)) as [e|cs] eqn:Ec; [done|].
  destruct (planUpdates digest T _ _ _) as [e|q] eqn:Eu; [done|]. intros [= <-].
  apply planCreates_spec in Ec as [C1 C2]. apply planUpdates_spec in Eu as (U1 & U2 & U3 & U4 & U5). cbn -[pairName] in *.
  constructor; cbn -[pairName].
  - intros r [Hr|Hr]%elem_of_app.
    + destruct (U1 r Hr) as [Hc|(nw & t & Hn & Ht & Er)]; [|exists nw, t; by split; [right|]].
      destruct (C1 r Hc) as (ep & t & Hep & Ht & Er). exists ep, t. by split; [left|].
    + destruct (U2 r Hr) as [Hc|(nw & t & Hn & Ht & _ & Er)]; [by apply elem_of_nil in Hc|].
      exists nw, t. by split; [right|].
  - intros r Hr. destruct (U2 r Hr) as [Hc|(nw & t & Hn & Ht & Hw & [Em _]%Desired_meta)]; [by apply elem_of_nil in Hc|].
    by exists (keyOf nw), t.
  - intros k t (ep & [Hep|Hep] & <- & Ht).
    + left. destruct (C2 ep t Hep Ht) as (r & Hr & [Em _]%Desired_meta). exists r. split; [by apply U3|done].
    + destruct (U4 ep t Hep Ht) as [Hw|(r & Hr & [Em _]%Desired_meta)]; [by right|left]. by exists r.
  - intros n. rewrite add_deletes_elem, U5, goneTargets_elem. split.
    + intros [[Hn|(nw & o & t & Hn & Ho & Ht & Hnt & ->)]|[(k & t & Ho & Hk & ->)|(ep & t & Hep & Ht & ->)]].
      * by apply elem_of_nil in Hn.
      * exists (keyOf nw), t. split; [|done]. left. split; [by exists o|]. by rewrite renewed_of.
      * exists k, t. split; [|done]. left. split; [done|]. intros (ep & Hep & <- & _).
        apply Hk, map_elem. by exists ep.
      * exists (keyOf ep), t. split; [|done]. right. by exists ep.
    + intros (k & t & [[(o & Ho & Ht) Hr]|(ep & Hep & <- & Ht)] & ->); [|right; right; by exists ep, t].
      destruct (decide (k ∈ map keyOf (Changes.UpdateNew c))) as [Hk|Hk].
      * apply map_elem in Hk as (nw & -> & Hn). rewrite renewed_of in Hr by done. left; right. by exists nw, o, t.
      * right; left. exists k, t. split; [by exists o|done].
Qed.
End plans.

(** ** The Records an API server stores

    A server that answers every call: creation of what exists and deletion or
    reading of what does not are refused. *)

Definition storeKey (key : ObjectKey) : string * string := (KeyNamespace key, KeyName key).
#[local] Notation recordsStore := (gmap (string * string) RecordObj.t).
Definition keyIn (r : RecordObj.t) : string * string := storeKey (objectKey r).

Definition serve (a : ednsE) (s : recordsStore) : answer a * recordsStore :=
  match a as a' return answer a' * recordsStore with
  | ECreate r =>
      match s !! keyIn r with
      | Some _ => (Some (EKube AlreadyExists "already exists"), s)
      | None => (None, <[keyIn r := r]> s)
      end
  | EGet key =>
      (match s !! storeKey key with Some r => inr r | None => inl (EKube NotFound "not found") end, s)
  | EPatch r =>
      match s !! keyIn r with
      | Some _ => (None, <[keyIn r := r]> s)
      | None => (Some (EKube NotFound "not found"), s)
      end
  | EDelete key =>
      match s !! storeKey key with
      | Some _ => (None, delete (storeKey key) s)
      | None => (Some (EKube NotFound "not found"), s)
      end
  | EList ns labels =>
      (inr (List.filter (fun r => bool_decide (ObjectMeta.Namespace (RecordObj.Meta r) = ns /\
                                               labels ⊆ ObjectMeta.Labels (RecordObj.Meta r)))
              (map snd (map_to_list s))), s)
  end.

(** An object is stored under its own key. *)
Definition store_wf (s : recordsStore) : Prop := map_Forall (fun k r => keyIn r = k) s.

Section phases.
Implicit Types (s : recordsStore) (r : RecordObj.t).

(** The program stores an object with the spec of [r] in the place of [r]. *)
Definition puts (p : prog ednsE (option error)) s r : Prop :=
  exists x, run serve p s = (None, <[keyIn r := x]> s) /\ RecordObj.Spec x = RecordObj.Spec r /\ keyIn x = keyIn r.

(** What is stored at a key after storing each of [l]. *)
Definition put_at (l : list RecordObj.t) s s' (k : string * string) : Prop :=
  (exists r x, r ∈ l /\ keyIn r = k /\ s' !! k = Some x /\ RecordObj.Spec x = RecordObj.Spec r) \/
  ((forall r, r ∈ l -> keyIn r <> k) /\ s' !! k = s !! k).

Lemma run_put_phase (body : RecordObj.t -> prog ednsE (option error)) (ready : recordsStore -> RecordObj.t -> Prop) :
  (forall s r k x, ready s r -> ready (<[k := x]> s) r) ->
  (forall s r, store_wf s -> ready s r -> puts (body r) s r) ->
  forall l s, store_wf s -> (forall r, r ∈ l -> ready s r) ->
  exists s', run serve (for_each l body) s = (None, s') /\ store_wf s' /\ (forall k, put_at l s s' k).
Proof.
  intros Hmono Hbody l. induction l as [|r l IH]; intros s Hwf Hready.
  { exists s. split; [done|]. split; [done|]. intros k. right. split; [|done]. intros r Hr. by apply elem_of_nil in Hr. }
  destruct (Hbody s r Hwf) as (x & Hrun & Hspec & Hkey); [apply Hready; by left|].
  destruct (IH (<[keyIn r := x]> s)) as (s' & Hl & Hwf' & Hk).
  { by apply map_Forall_insert_2. }
  { intros r' Hr'. apply Hmono, Hready. by right. }
  exists s'. split; [cbn [for_each]; by rewrite run_bind, Hrun|]. split; [done|].
  intros k. destruct (Hk k) as [(r' & x' & Hr' & Hx')|[Hno Hs]]; [left; exists r', x'; by split; [right|]|].
  destruct (decide (keyIn r = k)) as [<-|Hne].
  - left. exists r, x. split; [by left|]. split; [done|]. by rewrite Hs, lookup_insert_eq.
  - right. split; [|by rewrite Hs, lookup_insert_ne]. intros r' [->|Hr']%elem_of_cons; [done|by apply Hno].
Qed.

Lemma run_patch s r : store_wf s -> is_Some (s !! keyIn r) -> puts (patch r) s r.
Proof.
  intros Hwf [cur Hcur]. exists (patched cur r). pose proof (Hwf _ _ Hcur) as Hkey. cbn in Hkey.
  split; [|by split]. unfold patch. cbn -[keyIn storeKey patched].
  change (storeKey (objectKey r)) with (keyIn r). rewrite Hcur. cbn -[keyIn patched].
  change (keyIn (patched cur r)) with (keyIn cur). by rewrite Hkey, Hcur.
Qed.

Lemma run_createOne s r : store_wf s -> puts (createOne r) s r.
Proof.
  intros Hwf. unfold createOne. destruct (s !! keyIn r) as [cur|] eqn:Hcur.
  - destruct (run_patch s r Hwf) as (x & Hrun & Hx); [by rewrite Hcur|]. exists x. split; [|done].
    cbn -[patch keyIn]. rewrite Hcur. cbn -[patch]. rewrite !run_bind.
    change (IsAlreadyExists (EKube AlreadyExists "already exists")) with true. cbn -[patch]. by rewrite Hrun.
  - exists r. split; [|done]. cbn -[patch keyIn]. by rewrite Hcur.
Qed.

Lemma run_patchOne s r : store_wf s -> is_Some (s !! keyIn r) -> puts (patchOne r) s r.
Proof.
  intros Hwf Hr. destruct (run_patch s r Hwf Hr) as (x & Hrun & Hx). exists x. split; [|done].
  unfold patchOne. by rewrite run_bind, Hrun.
Qed.

Lemma run_delete_phase (T : Translator.t) l s : store_wf s ->
  exists s', run serve (for_each l (deleteOne T)) s = (None, s') /\ store_wf s' /\
    (forall k, s' !! k = if decide (k.1 = Translator.Namespace T /\ k.2 ∈ l) then None else s !! k).
Proof.
  revert s. induction l as [|n l IH]; intros s Hwf.
  { exists s. split; [done|]. split; [done|]. intros k. rewrite decide_False; [done|]. intros [_ Hn]. by apply elem_of_nil in Hn. }
  set (kn := (Translator.Namespace T, n)).
  assert (Hrun : run serve (deleteOne T n) s = (None, delete kn s)).
  { unfold deleteOne. cbn -[storeKey]. change (storeKey _) with kn. destruct (s !! kn) eqn:E; cbn; [done|]. by rewrite delete_id. }
  destruct (IH (delete kn s)) as (s' & Hl & Hwf' & Hk); [by apply map_Forall_delete|].
  exists s'. split; [cbn [for_each]; by rewrite run_bind, Hrun|]. split; [done|].
  intros k. rewrite Hk. destruct (decide (k = kn)) as [->|Hne].
  - rewrite lookup_delete_eq. rewrite (decide_True (P := _ /\ _ ∈ n :: l)) by (split; [done|by left]). by case_decide.
  - rewrite lookup_delete_ne by done. apply decide_ext. rewrite elem_of_cons. split; [tauto|].
    intros [Hns [Hn|Hn]]; [|done]. destruct Hne. destruct k. cbn in *. by subst.
Qed.
End phases.

(** ** Refinement *)

Section refinement.
Context (digest : string -> string) (T : Translator.t).
#[local] Notation pairName := (pairName digest T).

Definition pairInput (k : epKey) (t : string) : string :=
  let '(name, ty, set) := k in hashed_parts [Translator.OwnerID T; name; ty; t; set].

(** The pairs at hand: their texts hold no zero byte, and the digest tells
    them apart. *)
Record hashable (pairs : epKey -> string -> Prop) : Prop := {
  pairs_no_nul : forall name ty set t, pairs (name, ty, set) t -> no_nul name /\ no_nul ty /\ no_nul t /\ no_nul set;
  pairs_no_collision : forall k t k' t', pairs k t -> pairs k' t' ->
    digest (pairInput k t) = digest (pairInput k' t') -> pairInput k t = pairInput k' t'
}.

Lemma pairName_inj pairs k t k' t' :
  hashable pairs -> pairs k t -> pairs k' t' -> pairName k t = pairName k' t' -> k = k' /\ t = t'.
Proof.
  intros Hh Hp Hp' E. destruct k as [[n y] z] eqn:Ek, k' as [[n' y'] z'] eqn:Ek'. subst.
  destruct (pairs_no_nul _ Hh _ _ _ _ Hp) as (Hn & Hy & Ht & Hz).
  destruct (pairs_no_nul _ Hh _ _ _ _ Hp') as (Hn' & Hy' & Ht' & Hz').
  apply (inj (String.append _)) in E. apply (pairs_no_collision _ Hh _ _ _ _ Hp Hp') in E.
  unfold pairInput, hashed_parts in E. cbn [fold_right] in E.
  apply (inj (String.append _)) in E. injection E as E.
  apply app_zero_inj in E as [-> E]; [|done..]. apply app_zero_inj in E as [-> E]; [|done..].
  apply app_zero_inj in E as [-> E]; [|done..]. by apply app_zero_inj in E as [-> _].
Qed.

(** The Record of a pair is stored. *)
Definition pairKey (k : epKey) (t : string) : string * string := (Translator.Namespace T, pairName k t).
Definition present (s : recordsStore) (k : epKey) (t : string) : Prop := is_Some (s !! pairKey k t).

(** Every target asked for can be represented. *)
Definition representable (c : Changes.t) : Prop :=
  forall ep t, ep ∈ Changes.Create c \/ ep ∈ Changes.UpdateNew c -> t ∈ Endpoint.Targets ep ->
    exists r, Desired digest T ep t = inr r.

Lemma desiredAll_total ep ts :
  (forall t, t ∈ ts -> exists r, Desired digest T ep t = inr r) -> exists rs, desiredAll digest T ep ts = inr rs.
Proof.
  induction ts as [|t ts IH]; cbn; intros Hd; [by exists []|].
  destruct (Hd t) as (r & ->); [by left|]. destruct IH as (rs & ->); [|by exists (r :: rs)].
  intros t' Ht'. apply Hd. by right.
Qed.

Lemma planCreates_total eps :
  (forall ep t, ep ∈ eps -> t ∈ Endpoint.Targets ep -> exists r, Desired digest T ep t = inr r) ->
  exists rs, planCreates digest T eps = inr rs.
Proof.
  induction eps as [|ep eps IH]; cbn; intros Hd; [by exists []|].
  destruct (desiredAll_total ep (Endpoint.Targets ep)) as (rs & ->); [intros t; apply Hd; by left|].
  destruct IH as (rs' & ->); [|by eexists]. intros ep' t Hep. apply Hd. by right.
Qed.

Lemma planUpdates_total olds news : forall p,
  (forall ep t, ep ∈ news -> t ∈ Endpoint.Targets ep -> exists r, Desired digest T ep t = inr r) ->
  exists p', planUpdates digest T olds news p = inr p'.
Proof.
  induction news as [|ep news IH]; cbn -[updateTargets]; intros p Hd; [by exists p|].
  destruct (desiredAll_total ep (Endpoint.Targets ep)) as (rs & ->); [intros t; apply Hd; by left|].
  destruct (updateTargets _ _ _) as [cs ps]. apply IH. intros ep' t Hep. apply Hd. by right.
Qed.

Lemma BuildPlan_total c : representable c -> exists p, BuildPlan digest T c = inr p.
Proof.
  intros Hr. unfold BuildPlan.
  destruct (planCreates_total (Changes.Create c)) as (cs & ->); [intros ep t Hep; apply Hr; by left|].
  destruct (planUpdates_total (Changes.UpdateOld c) (Changes.UpdateNew c) (Plan.mk cs [] [])) as (p & ->);
    [intros ep t Hep; apply Hr; by right|]. by eexists.
Qed.

Lemma put_at_keeps l s s' k : put_at l s s' k -> is_Some (s !! k) -> is_Some (s' !! k).
Proof. intros [(r & x & _ & _ & -> & _)|[_ ->]]; [by intros _; exists x|done]. Qed.

(** The Records of a plan are those of the pairs wanted. *)
Lemma plan_key c p r :
  plan_of digest T c p -> r ∈ (Plan.Create p ++ Plan.Patch p)%list ->
  exists ep t, (ep ∈ Changes.Create c \/ ep ∈ Changes.UpdateNew c) /\ t ∈ Endpoint.Targets ep /\
    Desired digest T ep t = inr r /\ wanted c (keyOf ep) t /\ keyIn r = pairKey (keyOf ep) t.
Proof.
  intros Hp Hr. destruct (plan_wanted _ _ _ _ Hp r Hr) as (ep & t & Hep & Ht & Er).
  exists ep, t. split_and!; [done..|by exists ep|]. destruct (Desired_meta _ _ _ _ _ Er) as [Em Ens].
  unfold nameOf in Em. unfold keyIn, objectKey, storeKey, pairKey. cbn [KeyNamespace KeyName]. by rewrite Ens, Em.
Qed.

Lemma put_at_app l l' s s1 s2 k : put_at l s s1 k -> put_at l' s1 s2 k -> put_at (l ++ l')%list s s2 k.
Proof.
  intros H1 [(r & x & Hr & Hx)|[Hno Hs]]; [left; exists r, x; by split; [apply elem_of_app; right|]|].
  destruct H1 as [(r & x & Hr & Ek & Ex & Es)|[Hno' Hs']].
  - left. exists r, x. split; [apply elem_of_app; by left|]. by rewrite Hs.
  - right. split; [|by rewrite Hs]. intros r [Hr|Hr]%elem_of_app; [by apply Hno'|by apply Hno].
Qed.

(** The creations and patches of a plan. *)
Lemma run_puts c p s :
  plan_of digest T c p -> store_wf s -> (forall k t, old_target c k t -> present s k t) ->
  exists s1 s2,
    run serve (for_each (Plan.Create p) createOne) s = (None, s1) /\
    run serve (for_each (Plan.Patch p) patchOne) s1 = (None, s2) /\ store_wf s2 /\
    (forall key, put_at (Plan.Create p ++ Plan.Patch p)%list s s2 key).
Proof.
  intros Hp Hwf Hold.
  destruct (run_put_phase createOne (fun _ _ => True)) with (l := Plan.Create p) (s := s) as (s1 & R1 & W1 & K1);
    [done|intros; by apply run_createOne|done|done|].
  destruct (run_put_phase patchOne (fun s r => is_Some (s !! keyIn r))) with (l := Plan.Patch p) (s := s1)
    as (s2 & R2 & W2 & K2).
  - intros s' r k x Hr. destruct (decide (k = keyIn r)) as [->|]; [by rewrite lookup_insert_eq|by rewrite lookup_insert_ne].
  - intros s' r. apply run_patchOne.
  - done.
  - intros r Hr. destruct (plan_patches_old _ _ _ _ Hp r Hr) as (k & t & Ho & Em).
    destruct (plan_key c p r Hp) as (ep & t' & _ & _ & Er & _ & Ek); [apply elem_of_app; by right|].
    apply (put_at_keeps _ _ _ _ (K1 (keyIn r))). destruct (Desired_meta _ _ _ _ _ Er) as [En _].
    replace (keyIn r) with (pairKey k t); [by apply Hold|]. rewrite Ek. unfold pairKey. by rewrite <- Em, <- En.
  - exists s1, s2. split_and!; [done..|]. intros key. eapply put_at_app; [apply K1|apply K2].
Qed.

Lemma run_apply c p s :
  plan_of digest T c p -> store_wf s -> (forall k t, old_target c k t -> present s k t) ->
  exists s2 s', run serve (apply T p) s = (None, s') /\ store_wf s' /\
    (forall key, put_at (Plan.Create p ++ Plan.Patch p)%list s s2 key) /\
    (forall key, s' !! key = if decide (key.1 = Translator.Namespace T /\ key.2 ∈ Plan.Delete p) then None else s2 !! key).
Proof.
  intros Hp Hwf Hold. destruct (run_puts c p s Hp Hwf Hold) as (s1 & s2 & R1 & R2 & W2 & K2).
  destruct (run_delete_phase T (Plan.Delete p) s2 W2) as (s' & R3 & W3 & K3).
  exists s2, s'. split; [|done]. unfold apply. rewrite !run_bind, R1. cbn -[for_each]. by rewrite run_bind, R2.
Qed.

(** *** Pairs and names

    With names that tell the pairs at hand apart. *)

Section named_pairs.
Context (c : Changes.t) (p : Plan.t) (pairs : epKey -> string -> Prop).
Context (Hh : hashable pairs) (Hpairs : forall k t, wanted c k t \/ removed c k t -> pairs k t).
Context (Hp : plan_of digest T c p).
#[local] Notation puts_of := (Plan.Create p ++ Plan.Patch p)%list.

(** An object stored under the name of a pair is of an endpoint of its key. *)
Lemma put_endpoint r k t : r ∈ puts_of -> pairs k t -> keyIn r = pairKey k t ->
  exists ep, (ep ∈ Changes.Create c \/ ep ∈ Changes.UpdateNew c) /\ keyOf ep = k /\ t ∈ Endpoint.Targets ep /\
    Desired digest T ep t = inr r.
Proof.
  intros Hr Hkt Ek. destruct (plan_key c p r Hp Hr) as (ep & t' & Hep & Ht' & Er & Hw & Ek').
  rewrite Ek in Ek'. pose proof (f_equal snd Ek') as En.
  apply (pairName_inj pairs) in En as [-> ->]; [by exists ep|done|done|]. apply Hpairs. by left.
Qed.

(** The deletions are those of the pairs removed. *)
Lemma deleted_pair k t : pairs k t -> pairName k t ∈ Plan.Delete p <-> removed c k t.
Proof.
  intros Hkt. rewrite (plan_deletes _ _ _ _ Hp). split; [|intros Hr; by exists k, t].
  intros (k' & t' & Hr & En). apply (pairName_inj pairs) in En as [-> ->]; [done..|]. apply Hpairs. by right.
Qed.

(** A pair newly wanted is put. *)
Lemma new_pair_put k t : wanted c k t -> ~ old_target c k t -> exists r, r ∈ puts_of /\ keyIn r = pairKey k t.
Proof.
  intros Hw Ho. destruct (plan_creates _ _ _ _ Hp k t Hw) as [(r & Hr & En)|?]; [|done].
  assert (Hr' : r ∈ puts_of) by (apply elem_of_app; by left).
  exists r. split; [done|]. destruct (plan_key c p r Hp Hr') as (ep & t' & _ & _ & Er & _ & ->).
  apply Desired_meta in Er as [Em _]. unfold pairKey. by rewrite <- En, <- Em.
Qed.

(** What is there once the puts are done. *)
Lemma present_put s s2 k t :
  (forall key, put_at puts_of s s2 key) -> (forall k t, old_target c k t -> present s k t) -> pairs k t ->
  present s2 k t <-> wanted c k t \/ present s k t.
Proof.
  intros K2 Hold Hkt. unfold present in *. split.
  - intros Hx. destruct (K2 (pairKey k t)) as [(r & x & Hr & Ek & _)|[_ E]]; [left|right; by rewrite <- E].
    destruct (put_endpoint r k t Hr Hkt Ek) as (ep & Hep & <- & Ht & _). by exists ep.
  - intros [Hw|Hs]; [|by apply (put_at_keeps _ _ _ _ (K2 _))].
    destruct (decide (is_Some (s !! pairKey k t))) as [Hs|Hs]; [by apply (put_at_keeps _ _ _ _ (K2 _))|].
    destruct (new_pair_put k t Hw) as (r & Hr & Ek); [intros Ho; by apply Hs, Hold|].
    destruct (K2 (pairKey k t)) as [(_ & x & _ & _ & -> & _)|[Hno _]]; [by exists x|by destruct (Hno r Hr)].
Qed.

(** A key of no pair of the change set is neither put nor deleted. *)
Lemma other_key s s2 key :
  (forall key, put_at puts_of s s2 key) -> (forall k t, wanted c k t \/ removed c k t -> key <> pairKey k t) ->
  s2 !! key = s !! key /\ ~ (key.1 = Translator.Namespace T /\ key.2 ∈ Plan.Delete p).
Proof.
  intros K2 Hkey. split.
  - destruct (K2 key) as [(r & x & Hin & <- & _)|[_ ->]]; [|done].
    destruct (plan_key c p r Hp Hin) as (ep & t & _ & _ & _ & Hw & Ek). destruct (Hkey (keyOf ep) t); [by left|done].
  - intros [Hns (k & t & Hr & En)%(plan_deletes _ _ _ _ Hp)]. destruct (Hkey k t); [by right|].
    destruct key. cbn in *. by subst.
Qed.
End named_pairs.

End refinement.

(** ** Round trip *)

Section roundtrip.
Context (digest : string -> string) (T : Translator.t).

(** A target as its Record reports it: an MX target is parsed and printed. *)
Definition normalTarget (recordType target : string) : string :=
  match rdata recordType target with
  | inr (data, Some p) => Itoa p +:+ " " +:+ data
  | _ => target
  end.

(** An endpoint as its Records report it, its targets in the given order. *)
Definition reported (ep : Endpoint.t) (targets : list string) : Endpoint.t :=
  let rt := ToUpper (Endpoint.RecordType ep) in
  Endpoint.mk (normalizeName (Endpoint.DNSName ep)) (map (normalTarget rt) targets) rt
    (Endpoint.SetIdentifier ep) (default 0 (max_ttl (Endpoint.RecordTTL ep))) ∅ [].
Definition normalized (ep : Endpoint.t) : Endpoint.t :=
  let e := reported ep (Endpoint.Targets ep) in Endpoint.with_Targets e (Sort (Endpoint.Targets e)).

Lemma Desired_reported ep t r :
  Desired digest T ep t = inr r ->
  recordKey r = keyOf ep /\ newGroup r = reported ep [] /\ recordTarget r = normalTarget (ToUpper (Endpoint.RecordType ep)) t.
Proof.
  unfold Desired. destruct (supportedTypes _) as [rt|] eqn:Et; [|done]. destruct (ZoneFor _ _) as [z|]; [|done].
  assert (Ert : rt = ToUpper (Endpoint.RecordType ep)).
  { unfold supportedTypes in Et. by case_bool_decide; simplify_eq. }
  destruct (rdata rt t) as [e|[d p]] eqn:Ed; [done|]. intros [= <-].
  assert (Ek : recordKey (desiredRecord digest T ep t z rt d p) = keyOf ep).
  { unfold recordKey, desiredRecord, keyOf. cbn -[lookup]. rewrite Ert. f_equal.
    destruct (String.eqb_spec (Endpoint.SetIdentifier ep) "") as [->|]; [done|].
    change (default "" (({[AnnotationSetIdentifier := Endpoint.SetIdentifier ep]} : gmap string string) !! AnnotationSetIdentifier)
      = Endpoint.SetIdentifier ep). by rewrite lookup_singleton_eq. }
  split; [done|]. split.
  - unfold newGroup. rewrite Ek. done.
  - unfold normalTarget, recordTarget. rewrite <- Ert, Ed. cbn. destruct p as [p|].
    + unfold rdata in Ed. destruct (rt =s? RecordTypeMX); [done|]. by injection Ed.
    + unfold rdata in Ed. destruct (rt =s? RecordTypeMX); [by destruct (ParseMX t) as [|[]]|]. by injection Ed.
Qed.

Lemma add_to_group_new g k fresh t :
  k ∉ map fst g -> add_to_group g k fresh t = (g ++ [(k, Endpoint.with_Targets fresh [t])])%list.
Proof.
  induction g as [|[k' e] g IH]; cbn; [done|]. intros Hk. rewrite not_elem_of_cons in Hk.
  rewrite decide_False by (intros ->; tauto). by rewrite IH by tauto.
Qed.

Lemma add_to_group_last g k e fresh t :
  k ∉ map fst g -> add_to_group (g ++ [(k, e)])%list k fresh t
    = (g ++ [(k, Endpoint.with_Targets e (Endpoint.Targets e ++ [t]))])%list.
Proof.
  induction g as [|[k' e'] g IH]; cbn; [by rewrite decide_True|]. intros Hk. rewrite not_elem_of_cons in Hk.
  rewrite decide_False by (intros ->; tauto). by rewrite IH by tauto.
Qed.

(** The Records of further targets join the group of their endpoint. *)
Lemma group_more ep ts rs : forall g seen,
  desiredAll digest T ep ts = inr rs -> keyOf ep ∉ map fst g ->
  group_records rs (g ++ [(keyOf ep, reported ep seen)])%list = (g ++ [(keyOf ep, reported ep (seen ++ ts))])%list.
Proof.
  revert rs. induction ts as [|t ts IH]; cbn; intros rs g seen E Hk.
  { injection E as <-. cbn. by rewrite app_nil_r. }
  destruct (Desired digest T ep t) as [e|r] eqn:Er; [done|].
  destruct (desiredAll digest T ep ts) as [e|rs']; [done|]. injection E as <-.
  destruct (Desired_reported _ _ _ Er) as (Ek & _ & Et). cbn -[newGroup recordTarget]. rewrite Ek, add_to_group_last by done.
  replace (Endpoint.with_Targets _ _) with (reported ep (seen ++ [t])).
  2: { unfold reported, Endpoint.with_Targets. cbn. by rewrite map_app, Et. }
  fold (group_records rs' (g ++ [(keyOf ep, reported ep (seen ++ [t]))])%list).
  rewrite IH by done. by rewrite <- app_assoc.
Qed.

Lemma group_endpoint ep rs g :
  desiredAll digest T ep (Endpoint.Targets ep) = inr rs -> Endpoint.Targets ep <> [] -> keyOf ep ∉ map fst g ->
  group_records rs g = (g ++ [(keyOf ep, reported ep (Endpoint.Targets ep))])%list.
Proof.
  destruct (Endpoint.Targets ep) as [|t ts] eqn:Ets; [done|]. cbn. intros E _ Hk.
  destruct (Desired digest T ep t) as [e|r] eqn:Er; [done|].
  destruct (desiredAll digest T ep ts) as [e|rs'] eqn:Ea; [done|]. injection E as <-.
  destruct (Desired_reported _ _ _ Er) as (Ek & En & Et). cbn -[newGroup recordTarget].
  rewrite Ek, En, Et, add_to_group_new by done.
  apply (group_more ep ts rs' g [t] Ea Hk).
Qed.

Lemma group_endpoints eps : forall rs g,
  planCreates digest T eps = inr rs -> (forall ep, ep ∈ eps -> Endpoint.Targets ep <> []) ->
  NoDup (map fst g ++ map keyOf eps)%list ->
  group_records rs g = (g ++ map (fun ep => (keyOf ep, reported ep (Endpoint.Targets ep))) eps)%list.
Proof.
  induction eps as [|ep eps IH]; cbn; intros rs g E Hne Hnd.
  { injection E as <-. by rewrite app_nil_r. }
  destruct (desiredAll digest T ep (Endpoint.Targets ep)) as [e|rs1] eqn:Ea; [done|].
  destruct (planCreates digest T eps) as [e|rs2]; [done|]. injection E as <-.
  unfold group_records. rewrite fold_left_app. fold (group_records rs1 g).
  rewrite (group_endpoint ep rs1 g Ea); [|apply Hne; by left|].
  2: { apply NoDup_app in Hnd as (_ & Hd & _). intros Hin. apply (Hd _ Hin). by left. }
  match goal with |- fold_left _ _ ?g' = _ => fold (group_records rs2 g') end.
  rewrite IH, <- app_assoc; [done|done|intros ep' Hep; apply Hne; by right|].
  by rewrite map_app, <- app_assoc.
Qed.

(** C32: Endpoints survive the trip through Records.  Translating endpoints with
    distinct keys and at least one target each to Records, and listing those
    Records as endpoints, gives back the same endpoints, sorted: with names,
    types and TTLs normalised, and each one's targets sorted and, for MX,
    printed from their parsed priority and host. *)
Theorem endpoints_roundtrip (eps : list Endpoint.t) (rs : list RecordObj.t) :
  NoDup (map keyOf eps) -> (forall ep, ep ∈ eps -> Endpoint.Targets ep <> []) ->
  planCreates digest T eps = inr rs ->
  Endpoints rs = sort_by endpoint_leb (map normalized eps).
Proof.
  intros Hnd Hne E. unfold Endpoints. rewrite (group_endpoints eps rs [] E Hne Hnd). cbn.
  by rewrite map_map.
Qed.
End roundtrip.

(** ** Examples

    Owner [o] of zone [example.com]; the digest keeps its argument. *)

Module EdnsExample.
Definition T : Translator.t := Translator.mk "dns" "srv" "o" ["example.com."].
Definition digest (s : string) : string := s.
Definition ep (name ty : string) (targets : list string) : Endpoint.t := Endpoint.mk name targets ty "" 300 ∅ [].
Definition a := ep "A.example.com" "A" ["10.0.0.1"].
Definition b := ep "b.example.com" "a" ["10.0.0.2"; "10.0.0.3"].
Definition b' := ep "b.example.com" "A" ["10.0.0.3"; "10.0.0.4"].
Definition d := ep "d.example.com" "TXT" ["gone"].
Definition c : Changes.t := Changes.mk [a] [b] [b'] [d].
(** The Records before: those of [b] and [d]. *)
Definition before : recordsStore :=
  (run serve (applyChanges digest T (inr (Changes.mk [b; d] [] [] []))) ∅).2.
Definition key (name ty : string) : epKey := (name, ty, "").
Definition pairs_list : list (epKey * string) :=
  [(key "a.example.com" "A", "10.0.0.1"); (key "b.example.com" "A", "10.0.0.2");
   (key "b.example.com" "A", "10.0.0.3"); (key "b.example.com" "A", "10.0.0.4"); (key "d.example.com" "TXT", "gone")].
Definition pairs (k : epKey) (t : string) : Prop := (k, t) ∈ pairs_list.
End EdnsExample.

Lemma example_hashable : hashable EdnsExample.digest EdnsExample.T EdnsExample.pairs.
Proof.
  split; [|done]. intros n y z t Hp. unfold EdnsExample.pairs, EdnsExample.pairs_list, EdnsExample.key in Hp.
  repeat (apply elem_of_cons in Hp as [[= -> -> -> ->]|Hp]; [by vm_compute|]). by apply elem_of_nil in Hp.
Qed.

Lemma example_old k t : old_target EdnsExample.c k t -> k = keyOf EdnsExample.b /\ t ∈ Endpoint.Targets EdnsExample.b.
Proof. intros (o & [<- Ho]%oldOf_Some & Ht). cbn in Ho. apply list_elem_of_singleton in Ho as ->. done. Qed.

Lemma example_pairs k t :
  wanted EdnsExample.c k t \/ removed EdnsExample.c k t -> EdnsExample.pairs k t.
Proof.
  intros [(e & [He|He] & <- & Ht)|[[[-> Ht]%example_old _]|(e & He & <- & Ht)]]; try (cbn in He; enumerate);
    cbn in Ht; enumerate; unfold EdnsExample.pairs; by_decision.
Qed.

Lemma example_wf : changes_wf EdnsExample.c.
Proof.
  split; [apply NoDup_singleton|].
  intros k t (e & He & <- & Ht) [[Ho Hr]|(e' & He' & Ek & Ht')].
  - destruct He as [He|He]; cbn in *; enumerate; apply example_old in Ho as [Ek _]; try by vm_compute in Ek.
    all: apply Hr; exists EdnsExample.b'; split_and!; [by left|done|set_solver].
  - destruct He as [He|He]; cbn in *; enumerate; by vm_compute in Ek.
Qed.

Lemma example_representable : representable EdnsExample.digest EdnsExample.T EdnsExample.c.
Proof. intros e t [He|He] Ht; cbn in *; enumerate; by eexists. Qed.


Lemma endpoints_roundtrip_witness :
  exists rs, planCreates EdnsExample.digest EdnsExample.T [EdnsExample.d; EdnsExample.b] = inr rs /\
    Endpoints rs = [normalized EdnsExample.b; normalized EdnsExample.d].
Proof.
  eexists. split; [vm_compute; reflexivity|].
  etransitivity; [apply (endpoints_roundtrip EdnsExample.digest EdnsExample.T [EdnsExample.d; EdnsExample.b])|].
  - by_decision.
  - intros e He. repeat (apply elem_of_cons in He as [->|He]; [done|]). by apply elem_of_nil in He.
  - vm_compute. reflexivity.
  - vm_compute. reflexivity.
Defined.

(** An MX target is reported from its parsed parts, but its Record is named
    after the target as spelled: deleting what the webhook reports of
    ["10  mail"] (two spaces) answers 204 and leaves the Record. *)
Theorem respelled_mx_survives_deletion :
  let mx := EdnsExample.ep "example.com" "MX" ["10  mail.example.com"] in
  let T := EdnsExample.T in
  let s := (run serve (applyChanges EdnsExample.digest T (inr (Changes.mk [mx] [] [] []))) ∅).2 in
  exists eps, (run serve (records T) s).1 = OK eps /\
    let after := run serve (applyChanges EdnsExample.digest T (inr (Changes.mk [] [] [] eps))) s in
    after.1 = NoContent /\ size s = 1%nat /\ size after.2 = 1%nat.
Proof.
  eexists. split; [vm_compute; reflexivity|]. split_and!; vm_compute; reflexivity.
Qed.
