(* ===== verification/StatsPoller.v ===== *)
(** * The statistics poller

    [internal/controller/technitium_stats.go]: the dashboard statistics of every
    node, read in passes and published as gauges.  A gauge series is identified
    by its metric, its cluster, its node and its extra label (empty when the
    metric has none); its value is the integer given to [float64]. *)

From S2P Require Import Prelude GoStrings GoErrors Effects Kube Client ServerAPI Lifecycle ClusterTypes ClusterKube Services Workload Nodes ServerRef.

Local Open Scope string_scope.
Local Open Scope Z_scope.
Local Open Scope go_scope.
Local Open Scope prog_scope.

(** ** The gauges *)

Inductive metric :=
| queries | queriesBySrc | clients | cacheEntries | zones | allowedZones | blockedZones | allowListSize | blockListSize
| scrapeSuccess | lastSuccess.
#[export] Instance metric_eq_dec : EqDecision metric.
Proof. solve_decision. Defined.
Definition all_metrics : list metric :=
  [queries; queriesBySrc; clients; cacheEntries; zones; allowedZones; blockedZones; allowListSize; blockListSize;
   scrapeSuccess; lastSuccess].
#[export] Instance metric_finite : finite.Finite metric.
Proof.
  refine {| finite.enum := all_metrics |}.
  - by_decision.
  - intros []; by_decision.
Defined.

Definition dataVecs : list metric :=
  [queries; queriesBySrc; clients; cacheEntries; zones; allowedZones; blockedZones; allowListSize; blockListSize].

(** A cluster and one of its nodes. *)
Definition nodeKey : Type := string * string.
Abbreviation gauges := (gmap (nodeKey * (metric * string)) Z).

Definition deleteData (cluster node : string) (m : gauges) : gauges :=
  filter (fun '(k, _) => ~ (k.1 = (cluster, node) /\ k.2.1 ∈ dataVecs)) m.

Definition deleteNode (cluster node : string) (m : gauges) : gauges :=
  let m := deleteData cluster node m in
  let m := filter (fun '(k, _) => ~ (k.1 = (cluster, node) /\ k.2.1 = scrapeSuccess)) m in
  filter (fun '(k, _) => ~ (k.1 = (cluster, node) /\ k.2.1 = lastSuccess)) m.

(** The values [set] publishes, in the order of the source. *)
Definition data_values (s : DashboardStats.t) : list (metric * string * Z) :=
  [(queries, "no_error", DashboardStats.TotalNoError s); (queries, "server_failure", DashboardStats.TotalServerFailure s);
   (queries, "nx_domain", DashboardStats.TotalNxDomain s); (queries, "refused", DashboardStats.TotalRefused s);
   (queriesBySrc, "authoritative", DashboardStats.TotalAuthoritative s);
   (queriesBySrc, "recursive", DashboardStats.TotalRecursive s); (queriesBySrc, "cached", DashboardStats.TotalCached s);
   (queriesBySrc, "blocked", DashboardStats.TotalBlocked s); (queriesBySrc, "dropped", DashboardStats.TotalDropped s);
   (clients, "", DashboardStats.TotalClients s); (cacheEntries, "", DashboardStats.CachedEntries s);
   (zones, "", DashboardStats.Zones s); (allowedZones, "", DashboardStats.AllowedZones s);
   (blockedZones, "", DashboardStats.BlockedZones s); (allowListSize, "", DashboardStats.AllowListZones s);
   (blockListSize, "", DashboardStats.BlockListZones s)].

Definition set_gauges (cluster node : string) (s : DashboardStats.t) (now : Z) (m : gauges) : gauges :=
  let at_ k := ((cluster, node), k) in
  let m := fold_left (fun m '(k, v) => <[at_ k := v]> m) (data_values s) m in
  <[at_ (lastSuccess, "") := now]> (<[at_ (scrapeSuccess, "") := 1]> m).

(** ** The poller *)

Module TechnitiumStatsPoller.
Record t := mk { metrics : gauges; known : gset nodeKey }.
End TechnitiumStatsPoller.

(** What a pass reads: Kubernetes, the nodes, and the clock. *)
Inductive statsE : Type :=
| ListClusters
| StatsSecret (key : ObjectKey)
| ReadStats (c : Client.t)
| CurrentTime.
#[export] Instance statsE_Effect : Effect statsE := fun c => match c with
| ListClusters => fallible (list TechnitiumCluster.t)
| StatsSecret _ => fallible Secret.t
| ReadStats _ => fallible DashboardStats.t
| CurrentTime => Z
end.

Section poller.
Context (OperatorNamespace : string).

(** [statsClient], as production wires it. *)
Definition statsClient (endpoint : string) (secret : Secret.t) : fallible Client.t :=
  match ClientOptionsFromSecret (Some secret) with
  | inl e => inl e
  | inr opts => NewClient endpoint opts
  end.

Definition pollFailed (cluster node : string) (m : gauges) : gauges :=
  <[((cluster, node), (scrapeSuccess, "")) := 0]> (deleteData cluster node m).

(** The client of a node that can be polled. *)
Definition nodeClient (tc : TechnitiumCluster.t) (secret : Secret.t) (ns : NodeStatus.t) : option Client.t :=
  let name := TechnitiumCluster.Name tc in
  if negb (nodeJoined (NodeStatus.State ns)) then None
  else
    match ParseInt32 (TrimPrefix (NodeStatus.Name ns) (name +:+ "-")) with
    | None => None
    | Some ordinal =>
        match statsClient (nodeEndpoint name ordinal OperatorNamespace) secret with
        | inl _ => None
        | inr api => Some api
        end
    end.

Definition pollNode (tc : TechnitiumCluster.t) (secret : Secret.t) (ns : NodeStatus.t) (m : gauges) : prog statsE gauges :=
  let name := TechnitiumCluster.Name tc in
  match nodeClient tc secret ns with
  | None => Ret (pollFailed name (NodeStatus.Name ns) m)
  | Some api =>
      r <- call (ReadStats api) ;;
      match (r : fallible DashboardStats.t) with
      | inl _ => Ret (pollFailed name (NodeStatus.Name ns) m)
      | inr stats => now <- call CurrentTime ;; Ret (set_gauges name (NodeStatus.Name ns) stats now m)
      end
  end.

Fixpoint pollNodes (tc : TechnitiumCluster.t) (secret : Secret.t) (nodes : list NodeStatus.t) (m : gauges)
  : prog statsE gauges :=
  match nodes with
  | [] => Ret m
  | ns :: nodes => m <- pollNode tc secret ns m ;; pollNodes tc secret nodes m
  end.

(** The nodes published, and the gauges. *)
Definition pollCluster (tc : TechnitiumCluster.t) (m : gauges) : prog statsE (list string * gauges) :=
  let nodes := TechnitiumClusterStatus.Nodes (TechnitiumCluster.Status tc) in
  if ObjectMeta.Deleting (TechnitiumCluster.Meta tc) || (length nodes =? 0)%nat then Ret ([], m)
  else
    match adminSecretKeyFor tc OperatorNamespace with
    | (_, Some _) => Ret ([], m)
    | (key, None) =>
        s <- call (StatsSecret key) ;;
        match (s : fallible Secret.t) with
        | inl _ => Ret ([], m)
        | inr secret =>
            if lookup_or_empty adminSecretTokenKey (Secret.Data secret) =s? "" then Ret ([], m)
            else m <- pollNodes tc secret nodes m ;; Ret (map NodeStatus.Name nodes, m)
        end
    end.

Fixpoint pollClusters (items : list TechnitiumCluster.t) (seen : gset nodeKey) (m : gauges)
  : prog statsE (gset nodeKey * gauges) :=
  match items with
  | [] => Ret (seen, m)
  | tc :: items =>
      r <- pollCluster tc m ;;
      let '(nodes, m) := r in
      pollClusters items (seen ∪ list_to_set (map (pair (TechnitiumCluster.Name tc)) nodes)) m
  end.

(** One pass. *)
Definition poll (p : TechnitiumStatsPoller.t) : prog statsE TechnitiumStatsPoller.t :=
  l <- call ListClusters ;;
  match (l : fallible (list TechnitiumCluster.t)) with
  | inl _ => Ret p
  | inr items =>
      r <- pollClusters items ∅ (TechnitiumStatsPoller.metrics p) ;;
      let '(seen, m) := r in
      Ret (TechnitiumStatsPoller.mk
             (fold_left (fun m '(cluster, node) => deleteNode cluster node m)
                (elements (TechnitiumStatsPoller.known p ∖ seen)) m)
             seen)
  end.

(** A new poller has no series yet. *)
Definition newPoller : TechnitiumStatsPoller.t := TechnitiumStatsPoller.mk ∅ ∅.

(** [Start]: passes until the context is cancelled.  [Tick] waits, and tells a
    tick from the cancellation; [None] when [fuel] passes were not the end. *)
Inductive tickE : Type := Tick.
#[export] Instance tickE_Effect : Effect tickE := fun _ => bool.

Fixpoint Start (fuel : nat) (p : TechnitiumStatsPoller.t) : prog (statsE + tickE) (option TechnitiumStatsPoller.t) :=
  match fuel with
  | O => Ret None
  | S fuel =>
      p <- injl (poll p) ;;
      ticked <- (call (inr Tick : statsE + tickE) : prog (statsE + tickE) bool) ;;
      if ticked then Start fuel p else Ret (Some p)
  end.

Definition NeedLeaderElection : bool := true.
End poller.

(** ** Registration *)

Definition metric_name (m : metric) : string :=
  "technitium_dns_" +:+
  match m with
  | queries => "queries_last_hour"
  | queriesBySrc => "queries_by_source_last_hour"
  | clients => "clients_last_hour"
  | cacheEntries => "cache_entries"
  | zones => "zones"
  | allowedZones => "allowed_zones"
  | blockedZones => "blocked_zones"
  | allowListSize => "allow_list_zones"
  | blockListSize => "block_list_zones"
  | scrapeSuccess => "stats_scrape_success"
  | lastSuccess => "stats_last_success_timestamp_seconds"
  end.

(** The labels of a metric's series. *)
Definition metric_labels (m : metric) : list string :=
  (["cluster"; "node"] ++ match m with queries => ["result"] | queriesBySrc => ["source"] | _ => [] end)%list.

Definition collectors : list metric := all_metrics.

(** The registry, which refuses a metric it already has. *)
Inductive registerE : Type := Register (name : string) (labels : list string).
#[export] Instance registerE_Effect : Effect registerE := fun _ => option error.

Definition NewTechnitiumStatsPoller : prog registerE (fallible TechnitiumStatsPoller.t) :=
  checkV for_each collectors (fun m =>
    e <- (call (Register (metric_name m) (metric_labels m)) : prog registerE (option error)) ;;
    Ret (wrapf "registering Technitium stats metrics" <$> e)) ;;
  ok newPoller.

(** No two metrics claim one name. *)
Lemma metric_names_distinct : NoDup (map metric_name collectors).
Proof. by_decision. Qed.

(** ** Series *)

Section series.
Implicit Types (m : gauges) (k : nodeKey) (x : metric * string).

(** The metrics and labels there are. *)
Definition shapes : list (metric * string) :=
  (lastSuccess, "") :: (scrapeSuccess, "")
  :: map fst (data_values (DashboardStats.mk 0 0 0 0 0 0 0 0 0 0 0 0 0 0 0 0 0)).

Lemma shape_cases x : x ∈ shapes -> x = (lastSuccess, "") \/ x = (scrapeSuccess, "") \/ x.1 ∈ dataVecs.
Proof.
  revert x. apply Forall_forall. by_decision.
Qed.

(** Every series is of a node of [known] and has one of the shapes. *)
Definition gauges_ok (known : gset nodeKey) m : Prop :=
  forall k x v, m !! (k, x) = Some v -> k ∈ known /\ x ∈ shapes.

(** The series of a node that was read. *)
Definition exported (s : DashboardStats.t) (now : Z) : gmap (metric * string) Z :=
  list_to_map ((lastSuccess, "", now) :: (scrapeSuccess, "", 1) :: data_values s).

Lemma exported_shape s now x : is_Some (exported s now !! x) <-> x ∈ shapes.
Proof.
  unfold exported. rewrite <- not_eq_None_Some, <- not_elem_of_list_to_map.
  change ((~ (x ∉ shapes)) <-> x ∈ shapes). destruct (decide (x ∈ shapes)); tauto.
Qed.

Lemma lookup_drop (P : nodeKey * (metric * string) -> Prop) `{forall key, Decision (P key)} m key :
  (filter (fun '(key, _) => ~ P key) m : gauges) !! key = if decide (P key) then None else m !! key.
Proof.
  rewrite map_lookup_filter. destruct (m !! key) as [v|]; cbn; [|by case_decide].
  case_decide; [by rewrite option_guard_False by tauto|by rewrite option_guard_True].
Qed.

Lemma lookup_deleteData cluster node m k x :
  deleteData cluster node m !! (k, x) = if decide (k = (cluster, node) /\ x.1 ∈ dataVecs) then None else m !! (k, x).
Proof. exact (lookup_drop (fun key => key.1 = (cluster, node) /\ key.2.1 ∈ dataVecs) m (k, x)). Qed.

Lemma lookup_deleteNode cluster node m k x :
  deleteNode cluster node m !! (k, x) = if decide (k = (cluster, node)) then None else m !! (k, x).
Proof.
  unfold deleteNode.
  rewrite (lookup_drop (fun key => key.1 = (cluster, node) /\ key.2.1 = lastSuccess)),
    (lookup_drop (fun key => key.1 = (cluster, node) /\ key.2.1 = scrapeSuccess)), lookup_deleteData. cbn [fst snd].
  destruct (decide (k = (cluster, node))) as [->|Hk]; [|by rewrite !decide_False by tauto].
  destruct x as [mt label]. cbn [fst]. repeat case_decide; try done.
  destruct mt; try tauto; match goal with Hn : ~ (_ /\ _ ∈ _) |- _ => destruct Hn; split; [done|] end;
    unfold dataVecs; repeat (first [by left|right]).
Qed.

Lemma lookup_deleteNodes ks : forall m k x,
  fold_left (fun m '(cluster, node) => deleteNode cluster node m) ks m !! (k, x)
  = if decide (k ∈ ks) then None else m !! (k, x).
Proof.
  induction ks as [|[c n] ks IH]; intros m k x; cbn [fold_left].
  { by rewrite decide_False by apply not_elem_of_nil. }
  rewrite IH, lookup_deleteNode. destruct (decide (k ∈ ks)) as [Hin|Hin].
  - by rewrite decide_True by (by right).
  - destruct (decide (k = (c, n))) as [->|Hne]; [by rewrite decide_True by (by left)|].
    rewrite decide_False; [done|]. by intros [?|?]%elem_of_cons.
Qed.

Lemma fold_insert_lookup (at_ : nodeKey) l : forall m k x, NoDup (map fst l) ->
  fold_left (fun m '(y, v) => <[(at_, y) := v]> m) l m !! (k, x)
  = if decide (k = at_) then match (list_to_map l : gmap (metric * string) Z) !! x with Some v => Some v | None => m !! (k, x) end
    else m !! (k, x).
Proof.
  induction l as [|[y v] l IH]; intros m k x; cbn -[list_to_map].
  { intros _. by case_decide. }
  intros [Hy Hnd]%NoDup_cons. rewrite IH by done. change (list_to_map ((y, v) :: l)) with (<[y := v]> (list_to_map l : gmap (metric * string) Z)).
  destruct (decide (k = at_)) as [->|Hk].
  - destruct (decide (x = y)) as [->|Hx].
    + rewrite lookup_insert_eq, (proj1 (not_elem_of_list_to_map l y)) by exact Hy. by rewrite lookup_insert_eq.
    + rewrite (lookup_insert_ne (list_to_map l)) by congruence. set (o := list_to_map l !! x).
      destruct o; [done|]. rewrite lookup_insert_ne; [done|congruence].
  - rewrite lookup_insert_ne; [done|congruence].
Qed.

Lemma lookup_set_gauges cluster node s now m k x :
  set_gauges cluster node s now m !! (k, x)
  = if decide (k = (cluster, node)) then match exported s now !! x with Some v => Some v | None => m !! (k, x) end
    else m !! (k, x).
Proof.
  unfold set_gauges, exported. set (l := data_values s).
  change (list_to_map ((lastSuccess, "", now) :: (scrapeSuccess, "", 1) :: l)) with
    (<[(lastSuccess, "") := now]> (<[(scrapeSuccess, "") := 1]> (list_to_map l : gmap (metric * string) Z))).
  assert (Hnd : NoDup (map fst l)) by (by_decision).
  destruct (decide (k = (cluster, node))) as [->|Hk].
  - destruct (decide (x = (lastSuccess, ""))) as [->|H1]; [by rewrite !lookup_insert_eq|].
    rewrite !lookup_insert_ne by congruence.
    destruct (decide (x = (scrapeSuccess, ""))) as [->|H2]; [by rewrite !lookup_insert_eq|].
    rewrite !lookup_insert_ne by congruence. rewrite fold_insert_lookup by done. by rewrite decide_True.
  - rewrite !lookup_insert_ne by congruence. rewrite fold_insert_lookup by done. by rewrite decide_False.
Qed.

Lemma lookup_pollFailed cluster node m k x :
  pollFailed cluster node m !! (k, x)
  = if decide (k = (cluster, node)) then
      if decide (x = (scrapeSuccess, "")) then Some 0 else if decide (x.1 ∈ dataVecs) then None else m !! (k, x)
    else m !! (k, x).
Proof.
  unfold pollFailed. destruct (decide (k = (cluster, node))) as [->|Hk].
  - destruct (decide (x = (scrapeSuccess, ""))) as [->|Hx]; [by rewrite lookup_insert_eq|].
    rewrite lookup_insert_ne, lookup_deleteData by congruence. destruct (decide (x.1 ∈ dataVecs)).
    + by rewrite decide_True.
    + by rewrite decide_False by tauto.
  - rewrite lookup_insert_ne, lookup_deleteData by congruence. by rewrite decide_False by tauto.
Qed.

(** What one node's poll leaves at its series. *)
Lemma gauges_ok_weaken known known' m : known ⊆ known' -> gauges_ok known m -> gauges_ok known' m.
Proof. intros Hs Hok k x v Hv. destruct (Hok k x v Hv). set_solver. Qed.

Lemma gauges_ok_node known cluster node m m' :
  (forall k x, k <> (cluster, node) -> m' !! (k, x) = m !! (k, x)) ->
  (forall x v, m' !! ((cluster, node), x) = Some v -> x ∈ shapes \/ m !! ((cluster, node), x) = Some v) ->
  gauges_ok known m -> gauges_ok ({[(cluster, node)]} ∪ known) m'.
Proof.
  intros Hother Hhere Hok k x v Hv. destruct (decide (k = (cluster, node))) as [->|Hk].
  - split; [set_solver|]. destruct (Hhere x v Hv) as [?|Hm]; [done|]. by apply (Hok _ _ _ Hm).
  - rewrite Hother in Hv by done. destruct (Hok _ _ _ Hv). set_solver.
Qed.

Lemma gauges_ok_failed known cluster node m :
  gauges_ok known m -> gauges_ok ({[(cluster, node)]} ∪ known) (pollFailed cluster node m).
Proof.
  apply gauges_ok_node.
  - intros k x Hk. rewrite lookup_pollFailed. by rewrite decide_False.
  - intros x v. rewrite lookup_pollFailed, decide_True by done. case_decide as Hx; [|case_decide; [done|by right]].
    intros _. left. subst x. by_decision.
Qed.

Lemma gauges_ok_set known cluster node s now m :
  gauges_ok known m -> gauges_ok ({[(cluster, node)]} ∪ known) (set_gauges cluster node s now m).
Proof.
  apply gauges_ok_node.
  - intros k x Hk. rewrite lookup_set_gauges. by rewrite decide_False.
  - intros x v. rewrite lookup_set_gauges, decide_True by done.
    destruct (exported s now !! x) eqn:Ex; [|by right]. intros _. left. apply (exported_shape s now). by eexists.
Qed.
End series.

(** ** Passes *)

Section passes.
Context (OperatorNamespace : string).
#[local] Notation poll := (poll OperatorNamespace).
Implicit Types (m : gauges) (k : nodeKey) (x : metric * string).

Lemma pollNode_ok known tc secret ns m :
  gauges_ok known m ->
  always (pollNode OperatorNamespace tc secret ns m) (fun _ m' =>
    gauges_ok ({[(TechnitiumCluster.Name tc, NodeStatus.Name ns)]} ∪ known) m').
Proof.
  intros Hok. unfold always, pollNode. destruct (nodeClient _ _ _) as [api|]; cbn -[pollFailed set_gauges];
    [|by apply gauges_ok_failed].
  intros [e|stats]; cbn -[pollFailed set_gauges]; [by apply gauges_ok_failed|].
  intros now. by apply gauges_ok_set.
Qed.

Lemma pollNodes_ok tc secret nodes : forall known m,
  gauges_ok known m ->
  always (pollNodes OperatorNamespace tc secret nodes m) (fun _ m' =>
    gauges_ok (known ∪ list_to_set (map (pair (TechnitiumCluster.Name tc)) (map NodeStatus.Name nodes))) m').
Proof.
  unfold always. induction nodes as [|ns nodes IH]; cbn; intros known m Hok.
  { eapply gauges_ok_weaken; [|exact Hok]. set_solver. }
  apply holds_bind. eapply holds_mono; [|by apply pollNode_ok].
  intros tr m' Hm'. eapply holds_mono; [|apply holds_frame, IH, Hm'].
  intros tr' m'' (_ & _ & Hok'). eapply gauges_ok_weaken; [|exact Hok']. set_solver.
Qed.

Lemma pollCluster_ok tc known m :
  gauges_ok known m ->
  always (pollCluster OperatorNamespace tc m) (fun _ r =>
    gauges_ok (known ∪ list_to_set (map (pair (TechnitiumCluster.Name tc)) r.1)) r.2).
Proof.
  intros Hok. assert (Hnone : gauges_ok (known ∪ list_to_set (map (pair (TechnitiumCluster.Name tc)) [])) m).
  { eapply gauges_ok_weaken; [|exact Hok]. set_solver. }
  unfold always, pollCluster. destruct (_ || _); [done|].
  destruct (adminSecretKeyFor _ _) as [key [e|]]; [done|]. cbn -[pollNodes]. intros [e|secret]; [done|].
  cbn -[pollNodes]. destruct (_ =s? _); [done|]. apply holds_bind.
  eapply holds_mono; [|apply holds_frame, (pollNodes_ok _ _ _ known), Hok]. by intros tr m' (_ & _ & Hm').
Qed.

Lemma pollClusters_ok items : forall known seen m,
  gauges_ok (known ∪ seen) m ->
  always (pollClusters OperatorNamespace items seen m) (fun _ r => gauges_ok (known ∪ r.1) r.2).
Proof.
  unfold always. induction items as [|tc items IH]; cbn -[pollCluster]; intros known seen m Hok; [done|].
  apply holds_bind. eapply holds_mono; [|apply pollCluster_ok, Hok].
  intros tr [nodes m'] Hm'. cbn in Hm'. eapply holds_mono; [|apply holds_frame, (IH known)].
  - by intros tr' r (_ & _ & Hr).
  - eapply gauges_ok_weaken; [|exact Hm']. set_solver.
Qed.

Definition poller_ok (p : TechnitiumStatsPoller.t) : Prop :=
  gauges_ok (TechnitiumStatsPoller.known p) (TechnitiumStatsPoller.metrics p).

Lemma poll_ok p : poller_ok p -> always (poll p) (fun _ p' => poller_ok p').
Proof.
  intros Hok. unfold always, StatsPoller.poll. cbn -[pollClusters]. intros [e|items]; [done|]. cbn -[pollClusters].
  apply holds_bind. eapply holds_mono; [|apply holds_frame, (pollClusters_ok items (TechnitiumStatsPoller.known p))].
  2: { eapply gauges_ok_weaken; [|exact Hok]. set_solver. }
  intros tr [seen m] (_ & _ & Hm). cbn in *. unfold poller_ok. cbn. intros k x v.
  rewrite lookup_deleteNodes. case_decide as Hd; [done|]. intros Hv. destruct (Hm k x v Hv) as [Hk Hx].
  split; [|done]. apply elem_of_union in Hk as [Hk|Hk]; [|done].
  destruct (decide (k ∈ seen)) as [|Hs]; [done|]. destruct Hd. apply elem_of_elements. set_solver.
Qed.

(** The pollers that passes, whatever is answered to them, can lead to. *)
Definition polls_to (p p' : TechnitiumStatsPoller.t) : Prop := exists tr, executes (poll p) tr p'.
Definition reachable_poller : TechnitiumStatsPoller.t -> Prop := rtc polls_to newPoller.

Lemma reachable_poller_ok p : reachable_poller p -> poller_ok p.
Proof.
  unfold reachable_poller. intros Hr. assert (H0 : poller_ok newPoller).
  { intros k x v Hv. cbn in Hv. by rewrite lookup_empty in Hv. }
  revert H0. induction Hr as [|p1 p2 p3 (tr & He) _ IH]; intros Hok; [done|]. apply IH.
  exact (always_executes _ _ _ _ (poll_ok p1 Hok) He).
Qed.

(** What [Start] stops with is such a poller. *)
Lemma Start_reachable fuel p :
  reachable_poller p -> always (Start OperatorNamespace fuel p) (fun _ r => forall p', r = Some p' -> reachable_poller p').
Proof.
  unfold always. generalize (@nil (event (statsE + tickE))). revert p.
  induction fuel as [|fuel IH]; intros p past Hp; [done|]. cbn [Start].
  apply holds_bind, holds_injl. intros tr p1 He. cbn [bind call holds].
  assert (Hp1 : reachable_poller p1) by (eapply rtc_r; [exact Hp|by exists tr]).
  intros [|]; [by apply IH|]. by intros p' [= <-].
Qed.

(** *** A pass in a given world *)

Record world := {
  worldClusters : list TechnitiumCluster.t;
  worldSecrets : ObjectKey -> fallible Secret.t;
  worldStats : Client.t -> fallible DashboardStats.t;
  worldNow : Z
}.

Definition observe (w : world) (a : statsE) (_ : unit) : answer a * unit :=
  match a as a' return answer a' * unit with
  | ListClusters => (inr (worldClusters w), tt)
  | StatsSecret key => (worldSecrets w key, tt)
  | ReadStats c => (worldStats w c, tt)
  | CurrentTime => (worldNow w, tt)
  end.

(** The Secret of a cluster that is polled: one that is not being deleted and
    whose admin Secret carries a token. *)
Definition polledWith (w : world) (tc : TechnitiumCluster.t) : option Secret.t :=
  if ObjectMeta.Deleting (TechnitiumCluster.Meta tc) then None
  else
    match adminSecretKeyFor tc OperatorNamespace with
    | (key, None) =>
        match worldSecrets w key with
        | inr secret => if lookup_or_empty adminSecretTokenKey (Secret.Data secret) =s? "" then None else Some secret
        | inl _ => None
        end
    | _ => None
    end.
(** The node's answer, when it can be asked and answers. *)
Definition nodeStats (w : world) (tc : TechnitiumCluster.t) (secret : Secret.t) (ns : NodeStatus.t) : option DashboardStats.t :=
  api ← nodeClient OperatorNamespace tc secret ns;
  match worldStats w api with inr s => Some s | inl _ => None end.

Definition published (w : world) (tc : TechnitiumCluster.t) (secret : Secret.t) (ns : NodeStatus.t) : Prop :=
  tc ∈ worldClusters w /\ polledWith w tc = Some secret /\ ns ∈ TechnitiumClusterStatus.Nodes (TechnitiumCluster.Status tc).

(** What a node's poll leaves at its series, given its last success. *)
Definition node_series (w : world) (stats : option DashboardStats.t) (old : option Z) x : option Z :=
  match stats with
  | Some s => exported s (worldNow w) !! x
  | None => if decide (x = (scrapeSuccess, "")) then Some 0 else if decide (x = (lastSuccess, "")) then old else None
  end.

Definition step_node (w : world) (tc : TechnitiumCluster.t) (secret : Secret.t) m (ns : NodeStatus.t) : gauges :=
  match nodeStats w tc secret ns with
  | Some s => set_gauges (TechnitiumCluster.Name tc) (NodeStatus.Name ns) s (worldNow w) m
  | None => pollFailed (TechnitiumCluster.Name tc) (NodeStatus.Name ns) m
  end.

Lemma run_pollNode w tc secret ns m s :
  run (observe w) (pollNode OperatorNamespace tc secret ns m) s = (step_node w tc secret m ns, s).
Proof.
  unfold pollNode, step_node, nodeStats. destruct (nodeClient _ _ _ _) as [api|]; cbn -[set_gauges pollFailed]; [|done].
  destruct s. by destruct (worldStats w api).
Qed.

Lemma run_pollNodes w tc secret nodes : forall m s,
  run (observe w) (pollNodes OperatorNamespace tc secret nodes m) s = (fold_left (step_node w tc secret) nodes m, s).
Proof. induction nodes as [|ns nodes IH]; intros m s; cbn; [done|]. by rewrite run_bind, run_pollNode, IH. Qed.

Lemma step_node_lookup w tc secret ns known m k x :
  gauges_ok known m ->
  step_node w tc secret m ns !! (k, x)
  = if decide (k = (TechnitiumCluster.Name tc, NodeStatus.Name ns))
    then node_series w (nodeStats w tc secret ns) (m !! (k, (lastSuccess, ""))) x
    else m !! (k, x).
Proof.
  intros Hok. assert (Hshape : x ∉ shapes -> m !! (k, x) = None).
  { intros Hx. destruct (m !! (k, x)) eqn:E; [|done]. destruct Hx. by destruct (Hok _ _ _ E). }
  unfold step_node, node_series. destruct (nodeStats w tc secret ns) as [st|].
  - rewrite lookup_set_gauges. case_decide; [|done]. pose proof (exported_shape st (worldNow w) x) as Hs.
    destruct (exported st (worldNow w) !! x) as [v|]; [done|]. apply Hshape. intros Hx%Hs. by destruct Hx.
  - rewrite lookup_pollFailed. case_decide; [|done]. case_decide; [done|].
    destruct (decide (x.1 ∈ dataVecs)) as [Hd|Hd].
    + case_decide; [|done]. subst x. exfalso. revert Hd. change (lastSuccess ∉ dataVecs). by_decision.
    + case_decide as Hl; [by subst x|]. apply Hshape. intros [?|[?|?]]%shape_cases; done.
Qed.

Lemma step_node_ok w tc secret ns known m :
  gauges_ok known m -> gauges_ok ({[(TechnitiumCluster.Name tc, NodeStatus.Name ns)]} ∪ known) (step_node w tc secret m ns).
Proof.
  unfold step_node. destruct (nodeStats _ _ _ _); [apply gauges_ok_set|apply gauges_ok_failed].
Qed.

(** The nodes of a cluster, each by its own name. *)
Lemma step_nodes_lookup w tc secret nodes : forall known m k x,
  gauges_ok known m -> NoDup (map NodeStatus.Name nodes) ->
  let m' := fold_left (step_node w tc secret) nodes m in
  (exists known', gauges_ok known' m') /\
  (forall ns, ns ∈ nodes -> k = (TechnitiumCluster.Name tc, NodeStatus.Name ns) ->
     m' !! (k, x) = node_series w (nodeStats w tc secret ns) (m !! (k, (lastSuccess, ""))) x) /\
  ((forall ns, ns ∈ nodes -> k <> (TechnitiumCluster.Name tc, NodeStatus.Name ns)) -> m' !! (k, x) = m !! (k, x)).
Proof.
  induction nodes as [|ns nodes IH]; intros known m k x Hok Hnd; cbn -[node_series].
  { split; [by exists known|]. split; [intros ns Hns; by apply elem_of_nil in Hns|done]. }
  apply NoDup_cons in Hnd as [Hns Hnd].
  destruct (IH _ _ k x (step_node_ok w tc secret ns known m Hok) Hnd) as (Hok' & Hin & Hout).
  split; [done|]. split.
  - intros ns' [->|Hns']%elem_of_cons Hk.
    + rewrite Hout; [by rewrite (step_node_lookup _ _ _ _ known), decide_True|]. intros ns'' Hns'' Hk'.
      rewrite Hk in Hk'. injection Hk' as En. destruct Hns. rewrite En. apply list_elem_of_In, in_map, list_elem_of_In, Hns''.
    + rewrite (Hin ns' Hns' Hk). rewrite (step_node_lookup _ _ _ _ known), decide_False by done || (subst k; intros [= En];
        destruct Hns; rewrite <- En; apply list_elem_of_In, in_map, list_elem_of_In, Hns'). done.
  - intros Hk. rewrite Hout by (intros ns' Hns'; apply Hk; by right).
    rewrite (step_node_lookup _ _ _ _ known), decide_False; [done|apply Hk; by left|done].
Qed.

Definition cluster_nodes (tc : TechnitiumCluster.t) : list NodeStatus.t :=
  TechnitiumClusterStatus.Nodes (TechnitiumCluster.Status tc).

Lemma run_pollCluster w tc m s :
  run (observe w) (pollCluster OperatorNamespace tc m) s
  = (match polledWith w tc with
     | Some secret => (map NodeStatus.Name (cluster_nodes tc), fold_left (step_node w tc secret) (cluster_nodes tc) m)
     | None => ([], m)
     end, s).
Proof.
  unfold pollCluster, polledWith, cluster_nodes. destruct (ObjectMeta.Deleting _); cbn -[pollNodes]; [done|].
  destruct (TechnitiumClusterStatus.Nodes _) as [|ns nodes] eqn:En.
  { cbn. destruct (adminSecretKeyFor _ _) as [key [e|]]; [done|]. destruct (worldSecrets w key); [done|]. by destruct (_ =? _)%string. }
  cbn -[pollNodes]. destruct (adminSecretKeyFor _ _) as [key [e|]]; [done|]. cbn -[pollNodes].
  destruct s, (worldSecrets w key) as [e|secret]; [done|]. destruct (_ =? _)%string; [done|].
  by rewrite run_bind, run_pollNodes.
Qed.

(** [ns] is a node of a polled cluster of [items]. *)
Definition polled_in (w : world) (items : list TechnitiumCluster.t) tc secret ns : Prop :=
  tc ∈ items /\ polledWith w tc = Some secret /\ ns ∈ cluster_nodes tc.
Definition node_key (tc : TechnitiumCluster.t) (ns : NodeStatus.t) : nodeKey := (TechnitiumCluster.Name tc, NodeStatus.Name ns).

Lemma clusters_lookup w items : forall known seen m k x,
  gauges_ok known m -> NoDup (map TechnitiumCluster.Name items) ->
  (forall tc, tc ∈ items -> NoDup (map NodeStatus.Name (cluster_nodes tc))) ->
  let r := (run (observe w) (pollClusters OperatorNamespace items seen m) tt).1 in
  (forall tc secret ns, polled_in w items tc secret ns -> k = node_key tc ns ->
     r.2 !! (k, x) = node_series w (nodeStats w tc secret ns) (m !! (k, (lastSuccess, ""))) x) /\
  ((forall tc secret ns, polled_in w items tc secret ns -> k <> node_key tc ns) -> r.2 !! (k, x) = m !! (k, x)) /\
  (k ∈ r.1 <-> k ∈ seen \/ exists tc secret ns, polled_in w items tc secret ns /\ k = node_key tc ns).
Proof.
  induction items as [|tc items IH]; intros known seen m k x Hok Hnd Hnodes; cbn -[pollCluster node_series].
  { split; [|split]; [intros ? ? ? [Hn _]; by apply elem_of_nil in Hn|done|].
    split; [by left|]. intros [?|(? & ? & ? & [Hn _] & _)]; [done|by apply elem_of_nil in Hn]. }
  apply NoDup_cons in Hnd as [Htc Hnd]. rewrite run_bind, run_pollCluster. cbn [fst snd].
  assert (Hnew : forall tc' ns ns', tc' ∈ items -> node_key tc ns <> node_key tc' ns').
  { intros tc' ns ns' Hin [= En _]. destruct Htc. rewrite En. by apply list_elem_of_In, in_map, list_elem_of_In. }
  assert (Hnodes' : forall tc', tc' ∈ items -> NoDup (map NodeStatus.Name (cluster_nodes tc'))).
  { intros tc' Hin. apply Hnodes. by right. }
  destruct (polledWith w tc) as [secret|] eqn:Ep.
  2: { destruct (IH known (seen ∪ list_to_set (map (pair (TechnitiumCluster.Name tc)) [])) m k x Hok Hnd Hnodes') as (H1 & H2 & H3).
    split; [|split].
    - intros tc' secret ns ([->|Hin]%elem_of_cons & Hp & Hns) Hk; [congruence|]. by apply (H1 tc' secret ns).
    - intros Hk. apply H2. intros tc' secret ns (Hin & Hp). apply (Hk tc' secret). split; [by right|done].
    - rewrite H3. cbn. rewrite elem_of_union, elem_of_empty. split.
      + intros [[?|[]]|(tc' & secret & ns & (Hin & Hp) & Hk)]; [by left|right]. exists tc', secret, ns. by split; [split; [right|]|].
      + intros [?|(tc' & secret & ns & ([->|Hin]%elem_of_cons & Hp & Hns) & Hk)]; [by left; left|congruence|right].
        by exists tc', secret, ns. }
  destruct (step_nodes_lookup w tc secret (cluster_nodes tc) known m k x Hok) as ((known' & Hok') & Hin & Hout);
    [apply Hnodes; by left|].
  destruct (step_nodes_lookup w tc secret (cluster_nodes tc) known m k (lastSuccess, "") Hok) as (_ & _ & Hout');
    [apply Hnodes; by left|].
  destruct (IH known' (seen ∪ list_to_set (map (pair (TechnitiumCluster.Name tc)) (map NodeStatus.Name (cluster_nodes tc))))
    _ k x Hok' Hnd Hnodes') as (H1 & H2 & H3). split; [|split].
  - intros tc' secret' ns ([->|Hitem]%elem_of_cons & Hp & Hns) Hk.
    + rewrite Ep in Hp. injection Hp as <-. rewrite H2; [by apply Hin|].
      intros tc'' secret'' ns'' (Hi & _) Hk''. rewrite Hk in Hk''. by apply Hnew in Hk''.
    + rewrite (H1 tc' secret' ns); [|by split|done]. rewrite Hout'; [done|]. intros ns' _ Hk'.
      rewrite Hk in Hk'. symmetry in Hk'. by apply (Hnew tc' ns' ns) in Hk'.
  - intros Hk. rewrite H2.
    + apply Hout. intros ns Hns. apply (Hk tc secret ns). split; [by left|done].
    + intros tc' secret' ns (Hi & Hp). apply (Hk tc' secret'). split; [by right|done].
  - rewrite H3, elem_of_union, elem_of_list_to_set, map_map, list_elem_of_In, in_map_iff. split.
    + intros [[?|(ns & <- & Hns)]|(tc' & secret' & ns & (Hi & Hp) & Hk)]; [by left|right|right].
      * exists tc, secret, ns. split; [|done]. split; [by left|]. split; [done|by apply list_elem_of_In].
      * exists tc', secret', ns. by split; [split; [right|]|].
    + intros [?|(tc' & secret' & ns & ([->|Hi]%elem_of_cons & Hp & Hns) & Hk)]; [by left; left|left; right|right].
      * exists ns. split; [done|by apply list_elem_of_In].
      * by exists tc', secret', ns.
Qed.

End passes.

(** ** Example: one node answers, the other is not ready *)

Module StatsExample.
Definition node (name state : string) : NodeStatus.t := NodeStatus.mk name "" state "" None "".
Definition up := node "dns-0" nodeSelfState.
Definition down := node "dns-1" "Unreachable".
Definition tc : TechnitiumCluster.t :=
  TechnitiumCluster.with_Status (example_tc "technitium/dns-server:15.5" 2)
    (TechnitiumClusterStatus.mk [] "Ready" 1 "" "" "" 1 [up; down] "" "" None).
Definition stats : DashboardStats.t := DashboardStats.mk 10 7 1 1 1 2 3 4 1 0 5 6 7 8 9 10 11.
Definition w : world := {|
  worldClusters := [tc]; worldSecrets := fun _ => inr retained_secret; worldStats := fun _ => inr stats; worldNow := 1000 |}.
End StatsExample.

