(* ===== verification/GoNet.v ===== *)
(** * Go's [net] package: the addresses the operator parses

    [net.ParseIP] (through [netip.ParseAddr]), [IP.To4], [IP.Mask],
    [IPMask.Size], [IPNet.Contains] on IPv4 and the outcome of [net.ParseMAC].
    An address is its list of bytes; a nil address is [None]. *)

From S2P Require Import Prelude GoStrings.

Local Open Scope string_scope.
Local Open Scope Z_scope.
Local Open Scope go_scope.

(** ** Addresses *)

(** One decimal field: no empty field and no leading zero. *)
Definition octet (s : string) : option Z :=
  if (1 <? String.length s)%nat && HasPrefix s "0" then None else in_range 0 255 (parse_nonneg s).

Definition parseIPv4 (s : string) : option (list Z) :=
  match map octet (SplitChar "."%char s) with
  | [Some a; Some b; Some c; Some d] => Some [a; b; c; d]
  | _ => None
  end.

Definition hex_digit (c : ascii) : option Z :=
  let n := Z.of_N (ascii_code c) in
  if (48 <=? n) && (n <=? 57) then Some (n - 48)
  else if (97 <=? n) && (n <=? 102) then Some (n - 87)
  else if (65 <=? n) && (n <=? 70) then Some (n - 55)
  else None.

(** The leading hexadecimal digits, and what follows them. *)
Fixpoint hex_span (s : string) : list Z * string :=
  match s with
  | String c s' =>
      match hex_digit c with
      | Some d => let '(ds, rest) := hex_span s' in (d :: ds, rest)
      | None => ([], s)
      end
  | "" => ([], "")
  end.

(** The loop of [parseIPv6], with room for [room] more groups: the bytes so
    far and the position of the ellipsis among them. *)
Fixpoint parse_groups (room : nat) (s : string) (ip : list Z) (ellipsis : option nat) : option (list Z * option nat) :=
  match room with
  | O => if s =s? "" then Some (ip, ellipsis) else None
  | S room' =>
      let '(ds, rest) := hex_span s in
      if (length ds =? 0)%nat || (4 <? length ds)%nat then None
      else
        let acc := fold_left (fun acc d => 16 * acc + d) ds 0 in
        let ip' := (ip ++ [acc / 256; acc mod 256])%list in
        match rest with
        | "" => Some (ip', ellipsis)
        | String "." _ =>
            if negb (bool_decide (is_Some ellipsis)) && negb (room =? 2)%nat then None
            else if (room <? 2)%nat then None
            else q ← parseIPv4 s; Some ((ip ++ q)%list, ellipsis)
        | String ":" "" => None
        | String ":" (String ":" rest') =>
            match ellipsis with
            | Some _ => None
            | None =>
                if rest' =s? "" then Some (ip', Some (length ip'))
                else parse_groups room' rest' ip' (Some (length ip'))
            end
        | String ":" rest' => parse_groups room' rest' ip' ellipsis
        | _ => None
        end
  end.

Definition expand_ellipsis (r : list Z * option nat) : option (list Z) :=
  let '(ip, ellipsis) := r in
  if (length ip <? 16)%nat then
    e ← ellipsis; Some (take e ip ++ repeat 0 (16 - length ip) ++ drop e ip)%list
  else match ellipsis with Some _ => None | None => Some ip end.

(** An address with a zone is none for [ParseIP]. *)
Definition parseIPv6 (s : string) : option (list Z) :=
  if Contains s "%" then None
  else
    match s with
    | String ":" (String ":" "") => Some (repeat 0 16)
    | String ":" (String ":" rest) => parse_groups 8 rest [] (Some 0%nat) ≫= expand_ellipsis
    | _ => parse_groups 8 s [] None ≫= expand_ellipsis
    end.

Definition v4InV6Prefix : list Z := (repeat 0 10 ++ [255; 255])%list.

(** The first of the three characters decides the format. *)
Fixpoint parseAddr_from (whole s : string) : option (list Z) :=
  match s with
  | "" => None
  | String c s' =>
      if Ascii.eqb c "." then q ← parseIPv4 whole; Some (v4InV6Prefix ++ q)%list
      else if Ascii.eqb c ":" then parseIPv6 whole
      else if Ascii.eqb c "%" then None
      else parseAddr_from whole s'
  end.
Definition ParseIP (s : string) : option (list Z) := parseAddr_from s s.

Definition To4 (ip : list Z) : option (list Z) :=
  if bool_decide (take 12 ip = v4InV6Prefix) then Some (drop 12 ip) else None.

(** [net.ParseIP(s).To4()]. *)
Definition ParseIP4 (s : string) : option (list Z) := ParseIP s ≫= To4.

(** ** Masks, on four bytes *)

(** The leading one bits of a byte, when only zeros follow. *)
Definition byte_ones (v : Z) : option Z :=
  match List.find (fun k => v =? 256 - 2 ^ (8 - k)) [0; 1; 2; 3; 4; 5; 6; 7; 8] with
  | Some k => Some k
  | None => None
  end.

Fixpoint simpleMaskLength (mask : list Z) : option Z :=
  match mask with
  | [] => Some 0
  | v :: mask =>
      if v =? 255 then n ← simpleMaskLength mask; Some (8 + n)
      else n ← byte_ones v; if forallb (Z.eqb 0) mask then Some n else None
  end.
(** [ones, bits]. *)
Definition Size (mask : list Z) : Z * Z :=
  match simpleMaskLength mask with Some n => (n, 8 * Z.of_nat (length mask)) | None => (0, 0) end.

Definition Mask (ip mask : list Z) : list Z := zip_with Z.land ip mask.
(** [(&IPNet{IP: network, Mask: mask}).Contains(ip)]. *)
Definition network_contains (network mask ip : list Z) : bool := bool_decide (Mask network mask = Mask ip mask).

(** ** Hardware addresses *)

Definition hex_group (n : nat) (s : string) : bool := bool_decide ((hex_span s).2 = "" /\ String.length s = n).

(** [net.ParseMAC] succeeds. *)
Definition ParseMAC_ok (s : string) : bool :=
  match String.get 2 s, String.get 4 s with
  | Some c2, c4 =>
      if Ascii.eqb c2 ":" || Ascii.eqb c2 "-" then
        let gs := SplitChar c2 s in
        forallb (hex_group 2) gs && bool_decide (length gs ∈ [6; 8; 20]%nat)
      else match c4 with
           | Some c4 =>
               Ascii.eqb c4 "." &&
               (let gs := SplitChar c4 s in
                forallb (hex_group 4) gs && bool_decide (length gs ∈ [3; 4; 10]%nat))
           | None => false
           end
  | None, _ => false
  end.

(** ** Examples *)

Example ParseIP4_examples :
  map ParseIP4 ["10.0.0.1"; "::ffff:10.0.0.1"; "::FFFF:0a00:0001"; "0:0:0:0:0:ffff:1.2.3.4"; "10.0.0"; "10.0.0.01"; "10.0.0.256";
                "10.0.0.1 "; "fe80::1"; "::1.2.3.4"; "::ffff:1.2.3.4%eth0"; ""; "1::2::3"; "::ffff:1.2.3.4:5"]
  = [Some [10; 0; 0; 1]; Some [10; 0; 0; 1]; Some [10; 0; 0; 1]; Some [1; 2; 3; 4]; None; None; None;
     None; None; None; None; None; None; None].
Proof. vm_compute. reflexivity. Qed.

Example ParseIP_examples :
  map ParseIP ["::"; "1::"; "1:2:3:4:5:6:7:8"; "1:2:3:4:5:6:7:8:9"; "1:2:3:4:5:6:7"; "1:2:3:4::5:6:7:8"; "12345::"; "1:"; "%"]
  = [Some (repeat 0 16); Some (0 :: 1 :: repeat 0 14);
     Some [0; 1; 0; 2; 0; 3; 0; 4; 0; 5; 0; 6; 0; 7; 0; 8]; None; None; None; None; None; None].
Proof. vm_compute. reflexivity. Qed.

Example Size_examples :
  map Size [[255; 255; 255; 0]; [255; 255; 240; 0]; [255; 0; 255; 0]; [0; 0; 0; 0]; [255; 255; 255; 255]]
  = [(24, 32); (20, 32); (0, 0); (0, 32); (32, 32)].
Proof. vm_compute. reflexivity. Qed.

Example ParseMAC_examples :
  map ParseMAC_ok ["00:1A:2b:3c:4d:5e"; "00-1A-2b-3c-4d-5e"; "001a.2b3c.4d5e"; "00:1A:2b:3c:4d"; "00:1A:2b:3c:4d:5g";
                   "00:1A-2b:3c:4d:5e"; "001a2b3c4d5e"; "0:1A:2b:3c:4d:5e"; ""]
  = [true; true; true; false; false; false; false; false; false].
Proof. vm_compute. reflexivity. Qed.

(** ** Addresses as numbers *)

Section numbers.
Implicit Types (ip mask : list Z).

Definition is_byte (z : Z) : Prop := 0 <= z < 256.
(** An IPv4 address. *)
Definition ip4_wf ip : Prop := length ip = 4%nat /\ Forall is_byte ip.

(** Big-endian. *)
Definition ip_num ip : Z := fold_left (fun acc b => 256 * acc + b) ip 0.

Lemma octet_byte s b : octet s = Some b -> is_byte b.
Proof.
  unfold octet, in_range. destruct (_ && _); [done|]. destruct (parse_nonneg s) as [n|]; [|done].
  destruct (0 <=? n) eqn:E1, (n <=? 255) eqn:E2; cbn; [|done..]. intros [= <-].
  apply Z.leb_le in E1, E2. unfold is_byte. lia.
Qed.

Lemma parseIPv4_bytes s ip : parseIPv4 s = Some ip -> length ip = 4%nat /\ Forall is_byte ip.
Proof.
  unfold parseIPv4. destruct (SplitChar _ s) as [|a [|b [|c [|d [|]]]]]; cbn; try done;
    repeat case_match; try done.
  intros [= <-]. split; [done|]. repeat constructor; by eapply octet_byte.
Qed.

Lemma hex_digit_bound c d : hex_digit c = Some d -> 0 <= d < 16.
Proof.
  unfold hex_digit. set (n := Z.of_N (ascii_code c)). repeat case_match; intros [= <-];
    repeat match goal with H : _ && _ = true |- _ => apply andb_prop in H as [? ?] end; lia.
Qed.

Lemma hex_span_bound s ds rest : hex_span s = (ds, rest) -> Forall (fun d => 0 <= d < 16) ds.
Proof.
  revert ds rest. induction s as [|c s IH]; cbn; intros ds rest; [by intros [= <- _]|].
  destruct (hex_digit c) as [d|] eqn:Ed; [|by intros [= <- _]].
  destruct (hex_span s) as [ds' rest'] eqn:Es. intros [= <- _]. constructor; [by eapply hex_digit_bound|by eapply IH].
Qed.

Lemma hex_value_bound ds : (length ds <= 4)%nat -> Forall (fun d => 0 <= d < 16) ds ->
  0 <= fold_left (fun acc d => 16 * acc + d) ds 0 < 65536.
Proof.
  intros Hl Hf. destruct ds as [|a [|b [|c [|d [|]]]]]; cbn in *; try lia;
    repeat match goal with H : Forall _ (_ :: _) |- _ => inversion H; clear H; subst end; lia.
Qed.

Lemma parse_groups_wf room : forall s ip ellipsis ip' e',
  (length ip + 2 * room = 16)%nat -> Forall is_byte ip ->
  parse_groups room s ip ellipsis = Some (ip', e') -> (length ip' <= 16)%nat /\ Forall is_byte ip'.
Proof.
  induction room as [|room IH]; intros s ip ellipsis ip' e' Hl Hb; cbn [parse_groups].
  { destruct (s =? "")%string; [|done]. intros [= <- <-]. split; [lia|done]. }
  destruct (hex_span s) as [ds rest] eqn:Es. apply hex_span_bound in Es.
  destruct (_ || _) eqn:El; [done|]. apply orb_false_elim in El as [_ El]. apply Nat.ltb_ge in El.
  pose proof (hex_value_bound ds El Es) as Hv. set (v := fold_left _ ds 0) in *.
  set (ip2 := (ip ++ [v / 256; v mod 256])%list).
  assert (Hl2 : (length ip2 + 2 * room = 16)%nat) by (unfold ip2; rewrite length_app; cbn; lia).
  assert (Hb2 : Forall is_byte ip2).
  { apply Forall_app; split; [done|]. repeat constructor; try apply Z.mod_pos_bound; try apply Z.div_lt_upper_bound; try lia.
    apply Z.div_pos; lia. }
  assert (Hq : forall q e, parseIPv4 s = Some q -> (room <? 1)%nat = false -> Some ((ip ++ q)%list, e) = Some (ip', e') ->
    (length ip' <= 16)%nat /\ Forall is_byte ip').
  { intros q e [Hlq Hbq]%parseIPv4_bytes Hr [= <- _]. apply Nat.ltb_ge in Hr. split; [rewrite length_app; lia|by apply Forall_app]. }
  repeat case_match; intros E; try done; try (by eapply IH; [| |exact E]);
    try (injection E as <- <-; split; [lia|done]).
  all: destruct (parseIPv4 s) as [q|] eqn:Eq; [|done]; eapply (Hq q); [done| |exact E];
    repeat match goal with H : (_ <? _)%nat = false |- _ => apply Nat.ltb_ge in H end; apply Nat.ltb_ge; lia.
Qed.

Lemma expand_wf r ip :
  (length r.1 <= 16)%nat -> Forall is_byte r.1 -> expand_ellipsis r = Some ip -> length ip = 16%nat /\ Forall is_byte ip.
Proof.
  destruct r as [l e]. unfold expand_ellipsis. cbn [fst]. intros Hl Hb. destruct (Nat.leb_spec 16 (length l)) as [Hge|Hlt].
  - rewrite (proj2 (Nat.ltb_ge _ _)) by lia. destruct e; [done|]. intros [= <-]. split; [lia|done].
  - rewrite (proj2 (Nat.ltb_lt _ _)) by lia. destruct e as [e|]; [|done]. cbn. intros [= <-]. split.
    + rewrite !length_app, repeat_length, length_take, length_drop. lia.
    + rewrite !Forall_app. split; [by apply Forall_take|]. split; [|by apply Forall_drop].
      apply List.Forall_forall. intros x ->%repeat_spec. unfold is_byte. lia.
Qed.

Lemma parseIPv6_wf s ip : parseIPv6 s = Some ip -> length ip = 16%nat /\ Forall is_byte ip.
Proof.
  assert (Hgen : forall s e r, parse_groups 8 s [] e = Some r -> (length r.1 <= 16)%nat /\ Forall is_byte r.1).
  { intros s' e [l e'] Hp. eapply parse_groups_wf; [| |exact Hp]; [done|constructor]. }
  assert (Hexp : forall s e, parse_groups 8 s [] e ≫= expand_ellipsis = Some ip -> length ip = 16%nat /\ Forall is_byte ip).
  { intros s' e Hb. apply bind_Some in Hb as (r & Hr & He). destruct (Hgen _ _ _ Hr). by apply (expand_wf r). }
  unfold parseIPv6. destruct (Contains s "%"); [done|]. repeat case_match; try (by apply Hexp).
  intros [= <-]. split; [done|]. repeat constructor; unfold is_byte; lia.
Qed.

Lemma parseAddr_wf whole s ip : parseAddr_from whole s = Some ip -> length ip = 16%nat /\ Forall is_byte ip.
Proof.
  induction s as [|c s IH]; cbn; [done|]. destruct (Ascii.eqb c "."); [|destruct (Ascii.eqb c ":"); [apply parseIPv6_wf|by destruct (Ascii.eqb c "%")]].
  destruct (parseIPv4 whole) as [q|] eqn:Eq; [|done]. cbn. apply parseIPv4_bytes in Eq as [Hl Hb]. intros [= <-].
  split; [cbn; by rewrite Hl|]. repeat constructor; unfold is_byte; try lia. done.
Qed.

Lemma ParseIP4_wf s ip : ParseIP4 s = Some ip -> ip4_wf ip.
Proof.
  unfold ParseIP4, ParseIP, To4. intros (r & [Hl Hb]%parseAddr_wf & E)%bind_Some. case_bool_decide; [|done].
  injection E as <-. split; [by rewrite length_drop, Hl|by apply Forall_drop].
Qed.

(** *** Masks *)

Lemma land_byte b n : is_byte b -> is_byte n -> is_byte (Z.land b n).
Proof.
  intros Hb Hn. split; [apply Z.land_nonneg; left; apply Hb|]. change 256 with (2 ^ 8).
  destruct (Z.eq_dec (Z.land b n) 0) as [->|Hz]; [lia|].
  apply Z.log2_lt_pow2; [|eapply Z.le_lt_trans; [apply Z.log2_land; [apply Hb|apply Hn]|]].
  - pose proof (proj2 (Z.land_nonneg b n) (or_introl (proj1 Hb))). lia.
  - apply Z.min_lt_iff. left. destruct (Z.eq_dec b 0) as [->|]; [done|]. apply Z.log2_lt_pow2; unfold is_byte in *; lia.
Qed.

Lemma land_concat a b m n : is_byte b -> is_byte n -> Z.land (256 * a + b) (256 * m + n) = 256 * Z.land a m + Z.land b n.
Proof.
  intros Hb Hn. pose proof (land_byte b n Hb Hn) as Hbn. unfold is_byte in Hbn.
  apply Z.bits_inj'. intros i Hi. change 256 with (2 ^ 8) in *.
  assert (Hbit : forall x y, 0 <= y < 2 ^ 8 -> Z.testbit (2 ^ 8 * x + y) i = if i <? 8 then Z.testbit y i else Z.testbit x (i - 8)).
  { intros x y Hy. destruct (Z.ltb_spec i 8) as [Hlt|Hge].
    - rewrite <- (Z.mod_pow2_bits_low (2 ^ 8 * x + y) 8) by lia.
      replace ((2 ^ 8 * x + y) mod 2 ^ 8) with y; [done|]. rewrite Z.add_comm, Z.mul_comm, Z_mod_plus_full. symmetry. by apply Z.mod_small.
    - replace i with ((i - 8) + 8) at 1 by lia. rewrite <- Z.div_pow2_bits by lia.
      rewrite Z.add_comm, Z.mul_comm, Z.div_add by lia. by rewrite (Z.div_small y), Z.add_0_l by lia. }
  rewrite Z.land_spec, !Hbit by (unfold is_byte in *; lia). destruct (i <? 8); by rewrite Z.land_spec.
Qed.

Lemma ip4_cases ip : ip4_wf ip -> exists a b c d, ip = [a; b; c; d] /\ is_byte a /\ is_byte b /\ is_byte c /\ is_byte d.
Proof.
  intros [Hl Hb]. destruct ip as [|a [|b [|c [|d [|]]]]]; try done. exists a, b, c, d.
  repeat match goal with H : Forall _ (_ :: _) |- _ => inversion H; clear H; subst end. done.
Qed.

Lemma Mask_num ip mask : ip4_wf ip -> ip4_wf mask -> ip_num (Mask ip mask) = Z.land (ip_num ip) (ip_num mask).
Proof.
  intros (a & b & c & d & -> & Ha & Hb & Hc & Hd)%ip4_cases (a' & b' & c' & d' & -> & Ha' & Hb' & Hc' & Hd')%ip4_cases.
  unfold ip_num. cbn -[Z.mul Z.land Z.add]. rewrite !land_concat by done. done.
Qed.

Lemma ip_num_bound ip : ip4_wf ip -> 0 <= ip_num ip < 2 ^ 32.
Proof.
  intros (a & b & c & d & -> & Ha & Hb & Hc & Hd)%ip4_cases. unfold ip_num, is_byte in *. cbn -[Z.mul Z.add]. lia.
Qed.

Lemma ip_num_inj ip ip' : ip4_wf ip -> ip4_wf ip' -> ip_num ip = ip_num ip' -> ip = ip'.
Proof.
  intros (a & b & c & d & -> & Ha & Hb & Hc & Hd)%ip4_cases (a' & b' & c' & d' & -> & Ha' & Hb' & Hc' & Hd')%ip4_cases.
  unfold ip_num, is_byte in *. cbn -[Z.mul Z.add]. intros E.
  assert (d = d' /\ c = c' /\ b = b' /\ a = a') as (-> & -> & -> & ->) by lia. done.
Qed.

Lemma byte_ones_spec v k : byte_ones v = Some k -> 0 <= k <= 8 /\ v = 256 - 2 ^ (8 - k).
Proof.
  unfold byte_ones. destruct (List.find _ _) as [k'|] eqn:E; [|done]. intros [= ->].
  apply find_some in E as [Hin E]. apply Z.eqb_eq in E. split; [|done]. cbn in Hin. lia.
Qed.

Lemma simpleMaskLength_cons v mask n :
  simpleMaskLength (v :: mask) = Some n ->
  (v = 255 /\ simpleMaskLength mask = Some (n - 8)) \/
  (0 <= n <= 8 /\ v = 256 - 2 ^ (8 - n) /\ Forall (fun z => z = 0) mask).
Proof.
  cbn. destruct (Z.eqb_spec v 255) as [->|Hv].
  - intros (n' & Hn & [= <-])%bind_Some. left. split; [done|]. rewrite Hn. f_equal. lia.
  - intros (k & [Hk ->]%byte_ones_spec & E)%bind_Some. destruct (forallb _ mask) eqn:Ef; [|done]. injection E as ->.
    right. split; [done|]. split; [done|]. apply List.Forall_forall. intros z Hz.
    rewrite forallb_forall in Ef. specialize (Ef z Hz). apply Z.eqb_eq in Ef. lia.
Qed.

Lemma zeros_num l acc : Forall (fun z => z = 0) l ->
  fold_left (fun acc b => 256 * acc + b) l acc = acc * 256 ^ Z.of_nat (length l).
Proof.
  revert acc. induction l as [|z l IH]; intros acc Hf; cbn [fold_left length]; [rewrite Z.pow_0_r; lia|].
  inversion Hf; subst. rewrite IH by done. rewrite Nat2Z.inj_succ, Z.pow_succ_r by lia. ring.
Qed.

(** A contiguous mask is its leading ones. *)
Lemma simpleMaskLength_num mask : forall n acc,
  simpleMaskLength mask = Some n ->
  let w := 8 * Z.of_nat (length mask) in
  0 <= n <= w /\ fold_left (fun acc b => 256 * acc + b) mask acc = acc * 2 ^ w + (2 ^ w - 2 ^ (w - n)).
Proof.
  induction mask as [|v mask IH]; intros n acc; cbn zeta.
  { intros [= <-]. split; [done|]. change (acc = acc * 1 + (1 - 1)). lia. }
  intros [[-> E]|(Hn & -> & Hz)]%simpleMaskLength_cons; cbn [fold_left length].
  - destruct (IH _ (256 * acc + 255) E) as [Hb ->]. cbn zeta in *. set (w := 8 * Z.of_nat (length mask)) in *.
    replace (8 * Z.of_nat (S (length mask))) with (w + 8) by lia. split; [lia|].
    replace (w + 8 - n) with (w - (n - 8)) by lia. rewrite Z.pow_add_r by lia. change (2 ^ 8) with 256. ring.
  - set (w := 8 * Z.of_nat (length mask)). replace (8 * Z.of_nat (S (length mask))) with (w + 8) by lia.
    split; [lia|]. rewrite zeros_num by done. change 256 with (2 ^ 8) at 3. rewrite <- Z.pow_mul_r by lia. fold w.
    replace (w + 8 - n) with (w + (8 - n)) by lia. rewrite !Z.pow_add_r by lia. change (2 ^ 8) with 256. ring.
Qed.

Lemma Size_num mask n bits :
  ip4_wf mask -> Size mask = (n, bits) -> bits <> 0 -> 0 <= n <= 32 /\ ip_num mask = 2 ^ 32 - 2 ^ (32 - n).
Proof.
  intros [Hl _]. unfold Size. destruct (simpleMaskLength mask) as [m|] eqn:E; [|by intros [= <- <-]].
  intros [= <- _] _. apply (simpleMaskLength_num mask m 0) in E. rewrite Hl in E. destruct E as [Hb En].
  split; [exact Hb|]. unfold ip_num. rewrite En. change (8 * Z.of_nat 4) with 32. lia.
Qed.

(** The mask of a given number of ones. *)
Definition prefix_mask (n : Z) : list Z :=
  let m := 2 ^ 32 - 2 ^ (32 - n) in [m / 2 ^ 24 mod 256; m / 2 ^ 16 mod 256; m / 2 ^ 8 mod 256; m mod 256].

Lemma prefix_mask_spec n : 0 <= n <= 32 ->
  ip4_wf (prefix_mask n) /\ ip_num (prefix_mask n) = 2 ^ 32 - 2 ^ (32 - n) /\ Size (prefix_mask n) = (n, 32).
Proof.
  intros Hn. split; [|].
  { split; [done|]. unfold prefix_mask. repeat (constructor; [apply Z.mod_pos_bound; lia|]). constructor. }
  assert (Hall : Forall (fun n => ip_num (prefix_mask n) = 2 ^ 32 - 2 ^ (32 - n) /\ Size (prefix_mask n) = (n, 32)) (seqZ 0 33)).
  { by_decision. }
  rewrite Forall_forall in Hall. apply Hall, elem_of_seqZ. lia.
Qed.

(** A mask of leading ones is recognised as such. *)
Lemma Size_complete mask n : ip4_wf mask -> 0 <= n <= 32 -> ip_num mask = 2 ^ 32 - 2 ^ (32 - n) -> Size mask = (n, 32).
Proof.
  intros Hm Hn Hnum. destruct (prefix_mask_spec n Hn) as (Hw & Hnum' & <-). f_equal. apply ip_num_inj; [done..|congruence].
Qed.

Lemma land_prefix x n : 0 <= x < 2 ^ 32 -> 0 <= n <= 32 ->
  Z.land x (2 ^ 32 - 2 ^ (32 - n)) = 2 ^ (32 - n) * (x / 2 ^ (32 - n)).
Proof.
  intros Hx Hn. set (k := 32 - n). assert (Hk : 0 <= k <= 32) by lia.
  replace (2 ^ 32 - 2 ^ k) with (2 ^ k * Z.ones n).
  2: { rewrite Z.ones_equiv. replace 32 with (k + n) by lia. rewrite Z.pow_add_r by lia. lia. }
  apply Z.bits_inj'. intros i Hi. rewrite Z.land_spec, (Z.mul_comm _ (Z.ones n)), (Z.mul_comm _ (x / _)).
  destruct (Z.ltb_spec i k) as [Hlt|Hge]; [by rewrite !Z.mul_pow2_bits_low, andb_false_r by lia|].
  rewrite !Z.mul_pow2_bits by lia. rewrite Z.div_pow2_bits by lia. replace (i - k + k) with i by lia.
  destruct (Z.ltb_spec (i - k) n) as [Hlt|Hhigh]; [by rewrite Z.ones_spec_low, andb_true_r by lia|].
  rewrite Z.ones_spec_high, andb_false_r by lia. symmetry. rewrite <- (Z.mod_small x (2 ^ 32)) by done.
  apply Z.mod_pow2_bits_high. lia.
Qed.

(** Two addresses share a network exactly when their first bits agree. *)
Lemma network_contains_spec start mask ip n :
  ip4_wf start -> ip4_wf mask -> ip4_wf ip -> Size mask = (n, 32) ->
  network_contains (Mask start mask) mask ip = true <-> ip_num ip / 2 ^ (32 - n) = ip_num start / 2 ^ (32 - n).
Proof.
  intros Hs Hm Hi Hn. destruct (Size_num mask n 32 Hm Hn) as [Hb En]; [done|].
  assert (Hwf : forall a b, ip4_wf a -> ip4_wf b -> ip4_wf (Mask a b)).
  { intros a b Ha Hb'. destruct (ip4_cases a Ha) as (? & ? & ? & ? & -> & ? & ? & ? & ?).
    destruct (ip4_cases b Hb') as (? & ? & ? & ? & -> & ? & ? & ? & ?). split; [done|]. unfold Mask. cbn.
    repeat (constructor; [by apply land_byte|]). constructor. }
  unfold network_contains. rewrite bool_decide_eq_true.
  assert (Hnum : forall a, ip4_wf a -> ip_num (Mask a mask) = 2 ^ (32 - n) * (ip_num a / 2 ^ (32 - n))).
  { intros a Ha. rewrite Mask_num, En by done. by apply land_prefix; [apply ip_num_bound|]. }
  assert (Hpow : 2 ^ (32 - n) <> 0) by (apply Z.pow_nonzero; lia).
  assert (Hidem : ip_num (Mask (Mask start mask) mask) = 2 ^ (32 - n) * (ip_num start / 2 ^ (32 - n))).
  { rewrite Hnum by (by apply Hwf). rewrite (Hnum start Hs). f_equal. rewrite Z.mul_comm. by apply Z.div_mul. }
  split.
  - intros E. apply (f_equal ip_num) in E. rewrite Hidem, (Hnum ip Hi) in E. symmetry. by apply Z.mul_reg_l in E.
  - intros E. apply ip_num_inj; [by apply Hwf; [apply Hwf|]|by apply Hwf|]. by rewrite Hidem, (Hnum ip Hi), E.
Qed.
End numbers.
