(* ===== verification/Webhooks.v ===== *)
(** * The admission webhooks

    [internal/webhook/v1alpha1]: the defaulters and validators of the seven
    namespaced resources.  [Admission] is what the Kubernetes API server relies
    on; each resource is an instance of it. *)

From S2P Require Import Prelude GoStrings GoErrors Effects Kube Lifecycle GoNet ZonesAPI RecordsAPI Zone Record ServerSettings Blocklist DHCPScope DNSSEC DNSApp.

Local Open Scope string_scope.
Local Open Scope Z_scope.
Local Open Scope go_scope.

(** ** Field errors *)

(** [field.Required] and [field.Invalid]; the offending value as text. *)
Inductive field_error :=
| Required (path message : string)
| Invalid (path value message : string).

(** [apierrors.NewInvalid]: kind, name and causes. *)
Record rejection := { rejectedKind : string; rejectedName : string; causes : list field_error }.

(** The end of every validator. *)
Definition reject (kind name : string) (errs : list field_error) : option rejection :=
  match errs with [] => None | _ => Some {| rejectedKind := kind; rejectedName := name; causes := errs |} end.

Definition when (b : bool) (e : field_error) : list field_error := if b then [e] else [].
Definition when_set {X : Type} (o : option X) (e : X -> field_error) : list field_error :=
  match o with Some x => [e x] | None => [] end.

(** [*p == ""] or [p == nil]. *)
Definition unset (o : option string) : bool := match o with Some s => s =s? "" | None => true end.

(** The checks of [serverRef] that every validator makes. *)
Definition serverRefErrors (required : string) (ref : SecretReference.t) : list field_error :=
  (when (SecretReference.Name ref =s? "") (Required "spec.serverRef.name" ("serverRef.name is required: " +:+ required))
   ++ when (negb (SecretReference.Namespace ref =s? ""))
        (Invalid "spec.serverRef.namespace" (SecretReference.Namespace ref)
           "serverRef.namespace must not be set: a TechnitiumCluster is cluster-scoped and resolved by name"))%list.

Definition or_default (s d : string) : string := if s =s? "" then d else s.

(** ** Zone *)

Definition ProxyTypeNoProxy : string := "NoProxy".
Definition ProxyTypeHTTP : string := "Http".
Definition ProxyTypeSOCKS5 : string := "Socks5".

Definition ZoneDefault (obj : Zone.t) : Zone.t :=
  let s := Zone.Spec obj in
  Zone.mk (Zone.Meta obj)
    (ZoneSpec.mk (ZoneSpec.ZoneName s) (ZoneSpec.ServerRef s) (or_default (ZoneSpec.Type_ s) ZoneTypePrimary)
       (ZoneSpec.PrimaryNameServerAddresses s) (ZoneSpec.Forwarder s) (ZoneSpec.ForwarderProtocol s) (ZoneSpec.Catalog s)
       (ZoneSpec.DNSSECValidation s) (ZoneSpec.ForwarderProxy s) (or_default (ZoneSpec.DeletionPolicy s) DeletionPolicyDelete))
    (Zone.Status obj).

(** The switch on the zone's type. *)
Definition zoneTypeErrors (s : ZoneSpec.t) : list field_error :=
  let ty := ZoneSpec.Type_ s in
  if ty =s? ZoneTypeForwarder then
    when (unset (ZoneSpec.Forwarder s)) (Required "spec.forwarder" "forwarder is required when type is Forwarder")
  else if (ty =s? ZoneTypeSecondary) || (ty =s? ZoneTypeStub) then
    when (length (ZoneSpec.PrimaryNameServerAddresses s) =? 0)%nat
      (Required "spec.primaryNameServerAddresses" ("primaryNameServerAddresses is required when type is " +:+ ty))
  else [].

(** The fields that only a Forwarder zone has. *)
Definition forwarderOnlyErrors (s : ZoneSpec.t) : list field_error :=
  if ZoneSpec.Type_ s =s? ZoneTypeForwarder then []
  else
    (when_set (ZoneSpec.DNSSECValidation s) (fun v =>
       Invalid "spec.dnssecValidation" (FormatBool v) "dnssecValidation is only meaningful when type is Forwarder")
     ++ when_set (ZoneSpec.ForwarderProxy s) (fun p =>
       Invalid "spec.forwarderProxy" (ForwarderProxy.Type_ p) "forwarderProxy is only meaningful when type is Forwarder"))%list.

Definition proxyErrors (proxy : ForwarderProxy.t) : list field_error :=
  let ty := ForwarderProxy.Type_ proxy in
  if (ty =s? ProxyTypeHTTP) || (ty =s? ProxyTypeSOCKS5) then
    (when (unset (ForwarderProxy.Address proxy))
       (Required "spec.forwarderProxy.address" ("address is required when forwarderProxy.type is " +:+ ty))
     ++ when (negb (is_some (ForwarderProxy.Port proxy)))
       (Required "spec.forwarderProxy.port" ("port is required when forwarderProxy.type is " +:+ ty)))%list
  else if ty =s? ProxyTypeNoProxy then
    (when_set (ForwarderProxy.Address proxy) (fun a =>
       Invalid "spec.forwarderProxy.address" a "address must not be set when forwarderProxy.type is NoProxy")
     ++ when_set (ForwarderProxy.Port proxy) (fun p =>
       Invalid "spec.forwarderProxy.port" (Itoa p) "port must not be set when forwarderProxy.type is NoProxy"))%list
  else [].

(** An immutable field. *)
Definition immutableErrors (path value : string) (old : option string) (message : string) : list field_error :=
  match old with
  | Some o => when (negb (value =s? o)) (Invalid path value message)
  | None => []
  end.

Definition validateSpec (zone : Zone.t) (oldZone : option Zone.t) : option rejection :=
  let s := Zone.Spec zone in
  reject "Zone" (ObjectMeta.Name (Zone.Meta zone))
    (immutableErrors "spec.zoneName" (ZoneSpec.ZoneName s) ((fun o => ZoneSpec.ZoneName (Zone.Spec o)) <$> oldZone)
       "zoneName is immutable: delete and recreate the resource to rename a zone"
     ++ serverRefErrors "a Zone must name the TechnitiumCluster it is created on" (ZoneSpec.ServerRef s)
     ++ zoneTypeErrors s
     ++ forwarderOnlyErrors s
     ++ match ZoneSpec.ForwarderProxy s with Some proxy => proxyErrors proxy | None => [] end)%list.

(** ** Record *)

Definition RecordDefault (obj : RecordObj.t) : RecordObj.t :=
  let s := RecordObj.Spec obj in
  RecordObj.mk (RecordObj.Meta obj)
    (RecordSpec.mk (RecordSpec.ServerRef s) (RecordSpec.Zone s) (RecordSpec.Name s) (RecordSpec.Type_ s) (RecordSpec.TTL s)
       (RecordSpec.Data s) (RecordSpec.Priority s) (or_default (RecordSpec.DeletionPolicy s) DeletionPolicyDelete))
    (RecordObj.Status obj).

Definition validateRecordSpec (record : RecordObj.t) (oldRecord : option RecordObj.t) : option rejection :=
  let s := RecordObj.Spec record in
  reject "Record" (ObjectMeta.Name (RecordObj.Meta record))
    (immutableErrors "spec.name" (RecordSpec.Name s) ((fun o => RecordSpec.Name (RecordObj.Spec o)) <$> oldRecord)
       "name is immutable: delete and recreate the resource to rename a record"
     ++ serverRefErrors "a Record must name the TechnitiumCluster it is created on" (RecordSpec.ServerRef s)
     ++ when ((RecordSpec.Type_ s =s? RecordTypeMX) && negb (is_some (RecordSpec.Priority s)))
          (Required "spec.priority" "priority is required when type is MX"))%list.

(** ** ServerSettings and Blocklist *)

Definition SettingsDeletionPolicyRetain : string := "Retain".

Definition ServerSettingsDefault (obj : ServerSettings.t) : ServerSettings.t :=
  let s := ServerSettings.Spec obj in
  ServerSettings.mk (ServerSettings.Meta obj)
    (ServerSettingsSpec.mk (ServerSettingsSpec.ServerRef s) (ServerSettingsSpec.Forwarders s) (ServerSettingsSpec.Recursion s)
       (ServerSettingsSpec.Cache s) (ServerSettingsSpec.Logging s)
       (or_default (ServerSettingsSpec.DeletionPolicy s) SettingsDeletionPolicyRetain))
    (ServerSettings.Status obj).

Definition validateServerSettingsSpec (settings : ServerSettings.t) : option rejection :=
  reject "ServerSettings" (ObjectMeta.Name (ServerSettings.Meta settings))
    (serverRefErrors "a ServerSettings must name the TechnitiumCluster it configures"
       (ServerSettingsSpec.ServerRef (ServerSettings.Spec settings))).

Definition BlocklistDefault (obj : Blocklist.t) : Blocklist.t :=
  let s := Blocklist.Spec obj in
  Blocklist.mk (Blocklist.Meta obj)
    (BlocklistSpec.mk (BlocklistSpec.ServerRef s) (BlocklistSpec.Enabled s) (BlocklistSpec.BlockListURLs s)
       (BlocklistSpec.UpdateIntervalHours s) (BlocklistSpec.BlockingType s) (BlocklistSpec.AllowedDomains s)
       (BlocklistSpec.BlockedDomains s) (or_default (BlocklistSpec.DeletionPolicy s) DeletionPolicyDelete))
    (Blocklist.Status obj).

Definition validateBlocklistSpec (bl : Blocklist.t) : option rejection :=
  reject "Blocklist" (ObjectMeta.Name (Blocklist.Meta bl))
    (serverRefErrors "a Blocklist must name the TechnitiumCluster it configures" (BlocklistSpec.ServerRef (Blocklist.Spec bl))).

(** ** DNSSEC and DNSApp *)

Definition DNSSECAlgorithmRSA : string := "RSA".
Definition DNSSECAlgorithmECDSA : string := "ECDSA".
Definition NSECTypeNSEC : string := "NSEC".

Definition DNSSECDefault (obj : DNSSEC.t) : DNSSEC.t :=
  let s := DNSSEC.Spec obj in
  DNSSEC.mk (DNSSEC.Meta obj)
    (DNSSECSpec.mk (DNSSECSpec.ServerRef s) (DNSSECSpec.Zone s) (DNSSECSpec.Algorithm s) (DNSSECSpec.HashAlgorithm s)
       (DNSSECSpec.KSKKeySize s) (DNSSECSpec.ZSKKeySize s) (DNSSECSpec.Curve s)
       (or_default (DNSSECSpec.NSECType s) NSECTypeNSEC) (DNSSECSpec.NSEC3Iterations s) (DNSSECSpec.NSEC3SaltLength s)
       (DNSSECSpec.DNSKeyTTL s) (DNSSECSpec.ZSKRolloverDays s) (or_default (DNSSECSpec.DeletionPolicy s) DeletionPolicyDelete))
    (DNSSEC.Status obj).

Definition algorithmErrors (s : DNSSECSpec.t) : list field_error :=
  let alg := DNSSECSpec.Algorithm s in
  if alg =s? DNSSECAlgorithmRSA then
    when_set (DNSSECSpec.Curve s) (fun c => Invalid "spec.curve" c "curve must not be set when algorithm is RSA")
  else if alg =s? DNSSECAlgorithmECDSA then
    (when_set (DNSSECSpec.HashAlgorithm s) (fun h =>
       Invalid "spec.hashAlgorithm" h "hashAlgorithm must not be set when algorithm is ECDSA")
     ++ when_set (DNSSECSpec.KSKKeySize s) (fun n =>
       Invalid "spec.kskKeySize" (Itoa n) "kskKeySize must not be set when algorithm is ECDSA")
     ++ when_set (DNSSECSpec.ZSKKeySize s) (fun n =>
       Invalid "spec.zskKeySize" (Itoa n) "zskKeySize must not be set when algorithm is ECDSA"))%list
  else [].

Definition validateDNSSECSpec (d : DNSSEC.t) : option rejection :=
  let s := DNSSEC.Spec d in
  reject "DNSSEC" (ObjectMeta.Name (DNSSEC.Meta d))
    (serverRefErrors "a DNSSEC resource must name the TechnitiumCluster it signs a zone on" (DNSSECSpec.ServerRef s)
     ++ when (DNSSECSpec.Zone s =s? "") (Required "spec.zone" "zone is required")
     ++ algorithmErrors s)%list.

Definition DNSAppDefault (obj : DNSApp.t) : DNSApp.t :=
  let s := DNSApp.Spec obj in
  DNSApp.mk (DNSApp.Meta obj)
    (DNSAppSpec.mk (DNSAppSpec.ServerRef s) (DNSAppSpec.AppName s) (DNSAppSpec.URL s) (DNSAppSpec.Version s)
       (DNSAppSpec.Config s) (or_default (DNSAppSpec.DeletionPolicy s) DeletionPolicyDelete))
    (DNSApp.Status obj).

Definition validateDNSAppSpec (app : DNSApp.t) : option rejection :=
  let s := DNSApp.Spec app in
  reject "DNSApp" (ObjectMeta.Name (DNSApp.Meta app))
    (serverRefErrors "a DNSApp must name the TechnitiumCluster it installs onto" (DNSAppSpec.ServerRef s)
     ++ when (DNSAppSpec.AppName s =s? "")
          (Required "spec.appName" "appName is required: a DNSApp must name the DNS App it installs")
     ++ when (DNSAppSpec.URL s =s? "")
          (Required "spec.url" "url is required: a DNSApp must know where to download the app package from"))%list.

(** ** DHCPScope *)

Definition DHCPScopeDefault (obj : DHCPScope.t) : DHCPScope.t :=
  let s := DHCPScope.Spec obj in
  DHCPScope.mk (DHCPScope.Meta obj)
    (DHCPScopeSpec.mk (DHCPScopeSpec.ServerRef s) (DHCPScopeSpec.ScopeName s) (DHCPScopeSpec.StartingAddress s)
       (DHCPScopeSpec.EndingAddress s) (DHCPScopeSpec.SubnetMask s) (DHCPScopeSpec.RouterAddress s)
       (DHCPScopeSpec.DNSServers s) (DHCPScopeSpec.LeaseTimeDays s) (DHCPScopeSpec.LeaseTimeHours s)
       (DHCPScopeSpec.LeaseTimeMinutes s) (DHCPScopeSpec.DomainName s)
       (match DHCPScopeSpec.Enabled s with Some b => Some b | None => Some true end) (DHCPScopeSpec.Reservations s)
       (or_default (DHCPScopeSpec.DeletionPolicy s) DeletionPolicyDelete))
    (DHCPScope.Status obj).

(** The sign of the comparison, byte by byte. *)
Fixpoint bytesCompare (a b : list Z) : Z :=
  match a, b with
  | x :: a, y :: b => if negb (x =? y) then (if x <? y then -1 else 1) else bytesCompare a b
  | _, _ => 0
  end.

(** The parsed address, or the errors. *)
Definition validateScopeIP (path value fieldName : string) : option (list Z) * list field_error :=
  if value =s? "" then (None, [Required path (fieldName +:+ " is required")])
  else
    match ParseIP4 value with
    | None => (None, [Invalid path value (fieldName +:+ " must be a valid IPv4 address")])
    | Some ip => (Some ip, [])
    end.

Definition validateAddressInSubnet (path value fieldName : string) (networkIP mask : option (list Z)) : list field_error :=
  if value =s? "" then [Required path (fieldName +:+ " is required")]
  else
    match ParseIP4 value with
    | None => [Invalid path value (fieldName +:+ " must be a valid IPv4 address")]
    | Some ip =>
        match networkIP, mask with
        | Some networkIP, Some mask =>
            when (negb (network_contains (Mask networkIP mask) mask ip))
              (Invalid path value (fieldName +:+ " must fall within the scope's subnet"))
        | _, _ => []
        end
    end.

(** The subnet mask, when it is one, and its errors. *)
Definition validateMask (value : string) : option (list Z) * list field_error :=
  if value =s? "" then (None, [Required "spec.subnetMask" "subnetMask is required"])
  else
    match ParseIP4 value with
    | None => (None, [Invalid "spec.subnetMask" value "subnetMask must be a valid IPv4 subnet mask"])
    | Some mask =>
        if (Size mask).2 =? 0
        then (None, [Invalid "spec.subnetMask" value "subnetMask must be a contiguous IPv4 subnet mask"])
        else (Some mask, [])
    end.

(** The loop over the reservations, from index [i]. *)
Fixpoint reservationErrors (i : Z) (rs : list DHCPReservation.t) (startIP mask : option (list Z)) : list field_error :=
  match rs with
  | [] => []
  | r :: rs =>
      let path := "spec.reservations[" +:+ Itoa i +:+ "]" in
      (when (negb (ParseMAC_ok (DHCPReservation.HardwareAddress r)))
         (Invalid (path +:+ ".hardwareAddress") (DHCPReservation.HardwareAddress r) "hardwareAddress must be a valid MAC address")
       ++ validateAddressInSubnet (path +:+ ".ipAddress") (DHCPReservation.IPAddress r) "ipAddress" startIP mask
       ++ reservationErrors (i + 1) rs startIP mask)%list
  end.

Definition dhcpScopeErrors (s : DHCPScopeSpec.t) : list field_error :=
  let '(startIP, startErrs) := validateScopeIP "spec.startingAddress" (DHCPScopeSpec.StartingAddress s) "startingAddress" in
  let '(endIP, endErrs) := validateScopeIP "spec.endingAddress" (DHCPScopeSpec.EndingAddress s) "endingAddress" in
  let '(mask, maskErrs) := validateMask (DHCPScopeSpec.SubnetMask s) in
  (serverRefErrors "a DHCPScope must name the TechnitiumCluster it configures" (DHCPScopeSpec.ServerRef s)
   ++ when (DHCPScopeSpec.ScopeName s =s? "") (Required "spec.scopeName" "scopeName is required")
   ++ startErrs ++ endErrs
   ++ match startIP, endIP with
      | Some startIP, Some endIP =>
          when (0 <? bytesCompare startIP endIP)
            (Invalid "spec.startingAddress" (DHCPScopeSpec.StartingAddress s) "startingAddress must not be after endingAddress")
      | _, _ => []
      end
   ++ maskErrs
   ++ match DHCPScopeSpec.RouterAddress s with
      | Some router => validateAddressInSubnet "spec.routerAddress" router "routerAddress" startIP mask
      | None => []
      end
   ++ reservationErrors 0 (DHCPScopeSpec.Reservations s) startIP mask)%list.

Definition validateDHCPScopeSpec (scope : DHCPScope.t) : option rejection :=
  reject "DHCPScope" (ObjectMeta.Name (DHCPScope.Meta scope)) (dhcpScopeErrors (DHCPScope.Spec scope)).

(** ** The validators' methods *)

Definition ZoneValidateCreate (o : Zone.t) : option rejection := validateSpec o None.
Definition ZoneValidateUpdate (old o : Zone.t) : option rejection := validateSpec o (Some old).
Definition ZoneValidateDelete (o : Zone.t) : option rejection := None.
Definition RecordValidateCreate (o : RecordObj.t) : option rejection := validateRecordSpec o None.
Definition RecordValidateUpdate (old o : RecordObj.t) : option rejection := validateRecordSpec o (Some old).
Definition RecordValidateDelete (o : RecordObj.t) : option rejection := None.
Definition ServerSettingsValidateCreate (o : ServerSettings.t) : option rejection := validateServerSettingsSpec o.
Definition ServerSettingsValidateUpdate (old o : ServerSettings.t) : option rejection := validateServerSettingsSpec o.
Definition ServerSettingsValidateDelete (o : ServerSettings.t) : option rejection := None.
Definition BlocklistValidateCreate (o : Blocklist.t) : option rejection := validateBlocklistSpec o.
Definition BlocklistValidateUpdate (old o : Blocklist.t) : option rejection := validateBlocklistSpec o.
Definition BlocklistValidateDelete (o : Blocklist.t) : option rejection := None.
Definition DHCPScopeValidateCreate (o : DHCPScope.t) : option rejection := validateDHCPScopeSpec o.
Definition DHCPScopeValidateUpdate (old o : DHCPScope.t) : option rejection := validateDHCPScopeSpec o.
Definition DHCPScopeValidateDelete (o : DHCPScope.t) : option rejection := None.
Definition DNSSECValidateCreate (o : DNSSEC.t) : option rejection := validateDNSSECSpec o.
Definition DNSSECValidateUpdate (old o : DNSSEC.t) : option rejection := validateDNSSECSpec o.
Definition DNSSECValidateDelete (o : DNSSEC.t) : option rejection := None.
Definition DNSAppValidateCreate (o : DNSApp.t) : option rejection := validateDNSAppSpec o.
Definition DNSAppValidateUpdate (old o : DNSApp.t) : option rejection := validateDNSAppSpec o.
Definition DNSAppValidateDelete (o : DNSApp.t) : option rejection := None.

(** ** The interface *)

Class Admission (T : Type) `{Resource T} := {
  Default : T -> T;
  ValidateCreate : T -> option rejection;
  (** [ValidateUpdate old new]. *)
  ValidateUpdate : T -> T -> option rejection;
  ValidateDelete : T -> option rejection;
  (** the field that updates keep, empty when there is none *)
  immutable_part : spec_type -> string
}.

#[export] Instance Zone_Admission : Admission Zone.t := {|
  Default := ZoneDefault; ValidateCreate := ZoneValidateCreate; ValidateUpdate := ZoneValidateUpdate;
  ValidateDelete := ZoneValidateDelete; immutable_part := ZoneSpec.ZoneName |}.
#[export] Instance Record_Admission : Admission RecordObj.t := {|
  Default := RecordDefault; ValidateCreate := RecordValidateCreate; ValidateUpdate := RecordValidateUpdate;
  ValidateDelete := RecordValidateDelete; immutable_part := RecordSpec.Name |}.
#[export] Instance ServerSettings_Admission : Admission ServerSettings.t := {|
  Default := ServerSettingsDefault; ValidateCreate := ServerSettingsValidateCreate; ValidateUpdate := ServerSettingsValidateUpdate;
  ValidateDelete := ServerSettingsValidateDelete; immutable_part := fun _ => "" |}.
#[export] Instance Blocklist_Admission : Admission Blocklist.t := {|
  Default := BlocklistDefault; ValidateCreate := BlocklistValidateCreate; ValidateUpdate := BlocklistValidateUpdate;
  ValidateDelete := BlocklistValidateDelete; immutable_part := fun _ => "" |}.
#[export] Instance DHCPScope_Admission : Admission DHCPScope.t := {|
  Default := DHCPScopeDefault; ValidateCreate := DHCPScopeValidateCreate; ValidateUpdate := DHCPScopeValidateUpdate;
  ValidateDelete := DHCPScopeValidateDelete; immutable_part := fun _ => "" |}.
#[export] Instance DNSSEC_Admission : Admission DNSSEC.t := {|
  Default := DNSSECDefault; ValidateCreate := DNSSECValidateCreate; ValidateUpdate := DNSSECValidateUpdate;
  ValidateDelete := DNSSECValidateDelete; immutable_part := fun _ => "" |}.
#[export] Instance DNSApp_Admission : Admission DNSApp.t := {|
  Default := DNSAppDefault; ValidateCreate := DNSAppValidateCreate; ValidateUpdate := DNSAppValidateUpdate;
  ValidateDelete := DNSAppValidateDelete; immutable_part := fun _ => "" |}.

(** What every instance promises: defaulting is a function of the spec and
    changes nothing else, and settles at once; validation looks at the spec,
    and accepts an update when the new spec is acceptable by itself and keeps
    the immutable part. *)
Class AdmissionLaws (T : Type) `{Admission T} : Prop := {
  default_spec (o o' : T) : spec_of o = spec_of o' -> spec_of (Default o) = spec_of (Default o');
  default_settles (o : T) : spec_of (Default (Default o)) = spec_of (Default o);
  default_rest (o : T) : spec_of (Default o) = spec_of o -> Default o = o;
  default_immutable (o : T) : immutable_part (spec_of (Default o)) = immutable_part (spec_of o);
  create_spec (o o' : T) : spec_of o = spec_of o' -> ValidateCreate o = None <-> ValidateCreate o' = None;
  update_spec (old o : T) :
    ValidateUpdate old o = None <->
    ValidateCreate o = None /\ immutable_part (spec_of o) = immutable_part (spec_of old);
  delete_admitted (o : T) : ValidateDelete o = None
}.

(** *** Proofs of the laws *)

Lemma reject_None kind name errs : reject kind name errs = None <-> errs = [].
Proof. by destruct errs. Qed.

Lemma when_nil b e : when b e = [] <-> b = false.
Proof. by destruct b. Qed.

Lemma when_set_nil {X : Type} (o : option X) e : when_set o e = [] <-> o = None.
Proof. by destruct o. Qed.

Lemma serverRefErrors_nil required ref :
  serverRefErrors required ref = [] <-> SecretReference.Name ref <> "" /\ SecretReference.Namespace ref = "".
Proof. unfold serverRefErrors. by rewrite app_nil, !when_nil, negb_false_iff, String.eqb_neq, String.eqb_eq. Qed.

Lemma immutable_nil path value old message :
  immutableErrors path value old message = [] <-> forall o, old = Some o -> value = o.
Proof.
  unfold immutableErrors. destruct old as [o|]; [|naive_solver]. rewrite when_nil, negb_false_iff, String.eqb_eq. naive_solver.
Qed.

Lemma or_default_settles s d : or_default (or_default s d) d = or_default s d.
Proof. unfold or_default. destruct (s =? "")%string eqn:E; [by destruct (d =? "")%string|by rewrite E]. Qed.

(** Validators that ignore the old object. *)
Lemma update_without_old {T : Type} (v : T -> option rejection) (o : T) : v o = None <-> v o = None /\ "" = "".
Proof. naive_solver. Qed.

Ltac update_spec_only :=
  intros ? ?; unfold ServerSettingsValidateUpdate, BlocklistValidateUpdate, DHCPScopeValidateUpdate, DNSSECValidateUpdate, DNSAppValidateUpdate,
    ServerSettingsValidateCreate, BlocklistValidateCreate, DHCPScopeValidateCreate, DNSSECValidateCreate, DNSAppValidateCreate;
  apply update_without_old.

Ltac admission_laws :=
  constructor; cbn;
  [ by intros [] [] ->
  | intros [? [] ?]; cbn; by rewrite ?or_default_settles
  | intros [? s ?] E; unfold ZoneDefault, RecordDefault, ServerSettingsDefault, BlocklistDefault, DHCPScopeDefault,
      DNSSECDefault, DNSAppDefault; cbn in *; f_equal; exact E
  | done
  | intros [] []; cbn; intros ->; unfold ZoneValidateCreate, RecordValidateCreate, ServerSettingsValidateCreate, BlocklistValidateCreate, DHCPScopeValidateCreate, DNSSECValidateCreate, DNSAppValidateCreate, validateSpec, validateRecordSpec, validateServerSettingsSpec, validateBlocklistSpec,
      validateDHCPScopeSpec, validateDNSSECSpec, validateDNSAppSpec; by rewrite !reject_None
  | update_spec_only
  | done ].

#[export] Instance ServerSettings_AdmissionLaws : AdmissionLaws ServerSettings.t.
Proof. admission_laws. Qed.
#[export] Instance Blocklist_AdmissionLaws : AdmissionLaws Blocklist.t.
Proof. admission_laws. Qed.
#[export] Instance DNSSEC_AdmissionLaws : AdmissionLaws DNSSEC.t.
Proof. admission_laws. Qed.
#[export] Instance DNSApp_AdmissionLaws : AdmissionLaws DNSApp.t.
Proof. admission_laws. Qed.
#[export] Instance DHCPScope_AdmissionLaws : AdmissionLaws DHCPScope.t.
Proof.
  constructor; cbn; [by intros [] [] ->| | |done| |update_spec_only|done].
  - intros [? [] ?]. unfold DHCPScopeDefault. cbn. rewrite or_default_settles. by repeat case_match.
  - intros [? s ?] E. unfold DHCPScopeDefault in *. cbn in *. f_equal. exact E.
  - intros [] []; cbn; intros ->. unfold DHCPScopeValidateCreate, validateDHCPScopeSpec. by rewrite !reject_None.
Qed.

#[export] Instance Zone_AdmissionLaws : AdmissionLaws Zone.t.
Proof.
  constructor; cbn; [by intros [] [] ->| | |done| | |done].
  - intros [? [] ?]; cbn; by rewrite !or_default_settles.
  - intros [? s ?] E. unfold ZoneDefault in *. cbn in *. f_equal. exact E.
  - intros [] []; cbn; intros ->. unfold ZoneValidateCreate, validateSpec. by rewrite !reject_None.
  - intros old o. unfold ZoneValidateUpdate, ZoneValidateCreate, validateSpec. rewrite !reject_None. cbn -[serverRefErrors zoneTypeErrors forwarderOnlyErrors].
    rewrite app_nil, when_nil, negb_false_iff, String.eqb_eq. naive_solver.
Qed.

#[export] Instance Record_AdmissionLaws : AdmissionLaws RecordObj.t.
Proof.
  constructor; cbn; [by intros [] [] ->| | |done| | |done].
  - intros [? [] ?]; cbn; by rewrite !or_default_settles.
  - intros [? s ?] E. unfold RecordDefault in *. cbn in *. f_equal. exact E.
  - intros [] []; cbn; intros ->. unfold RecordValidateCreate, validateRecordSpec. by rewrite !reject_None.
  - intros old o. unfold RecordValidateUpdate, RecordValidateCreate, validateRecordSpec. rewrite !reject_None. cbn -[serverRefErrors].
    rewrite app_nil, when_nil, negb_false_iff, String.eqb_eq. naive_solver.
Qed.

(** ** The life of an object *)

Section life.
Context `{KubeLib} {T : Type} `{AdmissionLaws T} `{!ResourceLaws T}.

(** An update as the API server performs it. *)
Definition admit_update (old o : T) : rejection + T :=
  let o := Default o in
  match ValidateUpdate old o with Some r => inl r | None => inr o end.
Definition admit_create (o : T) : rejection + T :=
  let o := Default o in
  match ValidateCreate o with Some r => inl r | None => inr o end.

(** One write: an admitted update, or a write of the status. *)
Inductive written (old : T) : T -> Prop :=
| updated o o' : admit_update old o = inr o' -> written old o'
| status_written o : spec_of o = spec_of old -> written old o.

(** The objects there can be. *)
Definition life : T -> T -> Prop := rtc written.
Definition stored (o : T) : Prop := exists o0 o1, admit_create o0 = inr o1 /\ life o1 o.

(** Specs are valid, and as the defaulter leaves them. *)
Definition settled (o : T) : Prop := ValidateCreate o = None /\ spec_of (Default o) = spec_of o.

Lemma written_settled o o' : settled o -> written o o' ->
  settled o' /\ immutable_part (spec_of o') = immutable_part (spec_of o).
Proof.
  intros [Hv Hd] [u u' Hu|u Hu].
  - unfold admit_update in Hu. destruct (ValidateUpdate o (Default u)) eqn:E; [done|]. injection Hu as <-.
    apply update_spec in E as [Hv' Hi]. split; [|done]. split; [done|apply default_settles].
  - split; [|by rewrite Hu]. split; [by rewrite (create_spec u o)|]. by rewrite (default_spec u o), Hu.
Qed.

Lemma life_settled o o' : life o o' -> settled o ->
  settled o' /\ immutable_part (spec_of o') = immutable_part (spec_of o).
Proof.
  unfold life. induction 1 as [|o1 o2 o3 Hw _ IH]; [done|]. intros Hs.
  destruct (written_settled _ _ Hs Hw) as [Hs2 <-]. by apply IH.
Qed.

Lemma stored_settled o : stored o -> settled o.
Proof.
  intros (o0 & o1 & Hc & Hl). apply (life_settled _ _ Hl). unfold admit_create in Hc.
  destruct (ValidateCreate (Default o0)) eqn:E; [done|]. injection Hc as <-. split; [done|apply default_settles].
Qed.

(** A write that leaves the spec alone is admitted as it is. *)
Lemma same_spec_admitted o o' : stored o -> spec_of o' = spec_of o -> admit_update o o' = inr o'.
Proof.
  intros [Hv Hd]%stored_settled Hs. unfold admit_update.
  assert (Hd' : spec_of (Default o') = spec_of o') by (by rewrite (default_spec o' o), Hs).
  rewrite (default_rest o' Hd'). destruct (ValidateUpdate o o') eqn:E; [|done].
  assert (Hn : ValidateUpdate o o' = None); [|congruence]. apply update_spec. rewrite Hs. split; [|done].
  by rewrite (create_spec o' o).
Qed.
End life.

(** ** The operator's own writes *)

Section own_writes.
Context `{KubeLib}.

(** The updates of the reconcile skeleton pass admission as they are sent. *)
Definition finalizer_writes_admitted (T : Type) `{AdmissionLaws T} : Prop :=
  forall (o : T) (f : string), stored o ->
    admit_update o (add_finalizer o f).1 = inr (add_finalizer o f).1 /\
    admit_update o (remove_finalizer o f) = inr (remove_finalizer o f).

Lemma finalizer_writes (T : Type) `{AdmissionLaws T} `{!ResourceLaws T} : finalizer_writes_admitted T.
Proof.
  intros o f Hs. split; apply same_spec_admitted; [done| |done|]; unfold add_finalizer, remove_finalizer.
  - destruct (AddFinalizer _ _) as [fs added]. cbn. apply spec_with_meta.
  - apply spec_with_meta.
Qed.

(** C35: The operator never locks itself out.  For each of the seven kinds:
    whatever admitted updates and status writes an object has been through, the
    operator's own updates of it, registering and releasing its finalizer, are
    neither rejected nor altered by its admission webhook, so that a deletion is
    never held up by validation. *)
Theorem own_writes_admitted :
  finalizer_writes_admitted Zone.t /\ finalizer_writes_admitted RecordObj.t /\
  finalizer_writes_admitted ServerSettings.t /\ finalizer_writes_admitted Blocklist.t /\
  finalizer_writes_admitted DHCPScope.t /\ finalizer_writes_admitted DNSSEC.t /\ finalizer_writes_admitted DNSApp.t.
Proof. do 6 (split; [apply finalizer_writes; apply _|]). apply finalizer_writes; apply _. Qed.
End own_writes.

(** ** What the controllers then send *)

(** A [CreateZone] request the server can carry out. *)
Definition zone_request_wf (o : CreateZoneOptions.t) : Prop :=
  let ty := CreateZoneOptions.Type_ o in
  let proxy := CreateZoneOptions.ProxyType o in
  ty <> "" /\
  (ty = ZoneTypeForwarder -> CreateZoneOptions.Forwarder o <> "") /\
  (ty = ZoneTypeSecondary \/ ty = ZoneTypeStub -> CreateZoneOptions.PrimaryNameServerAddresses o <> []) /\
  (ty <> ZoneTypeForwarder -> CreateZoneOptions.DNSSECValidation o = None /\ proxy = "") /\
  (proxy = ProxyTypeHTTP \/ proxy = ProxyTypeSOCKS5 ->
     CreateZoneOptions.ProxyAddress o <> "" /\ is_Some (CreateZoneOptions.ProxyPort o)) /\
  (proxy = ProxyTypeNoProxy -> CreateZoneOptions.ProxyAddress o = "" /\ CreateZoneOptions.ProxyPort o = None).

(** A [SignZone] request without the parameters of another algorithm. *)
Definition sign_request_wf (o : SignZoneOptions.t) : Prop :=
  SignZoneOptions.Zone o <> "" /\
  (SignZoneOptions.Algorithm o = DNSSECAlgorithmRSA -> SignZoneOptions.Curve o = None) /\
  (SignZoneOptions.Algorithm o = DNSSECAlgorithmECDSA ->
     SignZoneOptions.HashAlgorithm o = None /\ SignZoneOptions.KSKKeySize o = None /\ SignZoneOptions.ZSKKeySize o = None).

Lemma unset_default o : unset o = false -> default "" o <> "".
Proof. destruct o as [s|]; [|done]. cbn. by intros ?%String.eqb_neq. Qed.

Lemma zoneTypeErrors_nil s : zoneTypeErrors s = [] ->
  (ZoneSpec.Type_ s = ZoneTypeForwarder -> default "" (ZoneSpec.Forwarder s) <> "") /\
  (ZoneSpec.Type_ s = ZoneTypeSecondary \/ ZoneSpec.Type_ s = ZoneTypeStub -> ZoneSpec.PrimaryNameServerAddresses s <> []).
Proof.
  unfold zoneTypeErrors. destruct (String.eqb_spec (ZoneSpec.Type_ s) ZoneTypeForwarder) as [->|Hf].
  - rewrite when_nil. intros Hu. split; [intros _; by apply unset_default|by intros [?|?]].
  - intros E. split; [done|]. intros Hty.
    assert (Hb : (ZoneSpec.Type_ s =? ZoneTypeSecondary)%string || (ZoneSpec.Type_ s =? ZoneTypeStub)%string = true).
    { by destruct Hty as [->| ->]. }
    rewrite Hb in E. apply when_nil in E. by intros Hn; rewrite Hn in E.
Qed.

Lemma proxyErrors_nil p : proxyErrors p = [] ->
  (ForwarderProxy.Type_ p = ProxyTypeHTTP \/ ForwarderProxy.Type_ p = ProxyTypeSOCKS5 ->
     default "" (ForwarderProxy.Address p) <> "" /\ is_Some (ForwarderProxy.Port p)) /\
  (ForwarderProxy.Type_ p = ProxyTypeNoProxy -> ForwarderProxy.Address p = None /\ ForwarderProxy.Port p = None).
Proof.
  unfold proxyErrors. set (ty := ForwarderProxy.Type_ p). intros E. split; intros Hty.
  - assert (Hb : (ty =? ProxyTypeHTTP)%string || (ty =? ProxyTypeSOCKS5)%string = true) by (by destruct Hty as [->| ->]).
    rewrite Hb, app_nil, !when_nil in E. destruct E as [Ha Hp]. split; [by apply unset_default|].
    by destruct (ForwarderProxy.Port p).
  - rewrite Hty in E. cbn in E. rewrite app_nil, !when_set_nil in E. done.
Qed.

Lemma settled_zone_request z catalog : settled z -> zone_request_wf (createOptionsFromSpec z catalog).
Proof.
  intros [Hv Hd]. cbn in Hv, Hd. unfold ZoneValidateCreate, validateSpec in Hv. rewrite reject_None in Hv.
  apply app_nil in Hv as [_ Hv]. apply app_nil in Hv as [_ Hv]. apply app_nil in Hv as [Hty Hv]. apply app_nil in Hv as [Hf Hp].
  apply zoneTypeErrors_nil in Hty as [H1 H2]. unfold zone_request_wf, createOptionsFromSpec. cbn -[default].
  set (s := Zone.Spec z) in *. split_and!; [|done|done| | |].
  - intros E. apply (f_equal ZoneSpec.Type_) in Hd. cbn in Hd. unfold or_default in Hd. by rewrite E in Hd.
  - intros Hne%String.eqb_neq. unfold forwarderOnlyErrors in Hf. rewrite Hne in Hf.
    rewrite app_nil, !when_set_nil in Hf. by destruct Hf as [-> ->].
  - intros Hpt. destruct (ZoneSpec.ForwarderProxy s) as [p|]; [|by destruct Hpt].
    by apply proxyErrors_nil in Hp as [Hp _]; apply Hp.
  - intros Hpt. destruct (ZoneSpec.ForwarderProxy s) as [p|]; [|done].
    apply proxyErrors_nil in Hp as [_ Hp]. destruct (Hp Hpt) as [Ha Hport]. cbn. by rewrite Ha, Hport.
Qed.

Lemma settled_sign_request d : settled d -> sign_request_wf (signZoneOptionsFromSpec (DNSSEC.Spec d)).
Proof.
  intros [Hv _]. cbn in Hv. unfold DNSSECValidateCreate, validateDNSSECSpec in Hv. rewrite reject_None in Hv.
  apply app_nil in Hv as [_ Hv]. apply app_nil in Hv as [Hz Ha]. rewrite when_nil in Hz. apply String.eqb_neq in Hz.
  unfold sign_request_wf, signZoneOptionsFromSpec, algorithmErrors in *. cbn. split_and!; [done| |]; intros E; rewrite E in Ha; cbn in Ha.
  - by apply when_set_nil in Ha.
  - rewrite !app_nil, !when_set_nil in Ha. tauto.
Qed.

Lemma settled_mx_preference r : settled r ->
  RecordSpec.Type_ (RecordObj.Spec r) = RecordTypeMX ->
  is_Some (RecordValue.Preference (AddRecordOptions.Value (addOptionsFromSpec (RecordObj.Spec r)))).
Proof.
  intros [Hv _] Hty. cbn in Hv. unfold RecordValidateCreate, validateRecordSpec in Hv. rewrite reject_None in Hv.
  apply app_nil in Hv as [_ Hv]. apply app_nil in Hv as [_ Hv]. rewrite when_nil, Hty in Hv. cbn in Hv.
  unfold addOptionsFromSpec, setRecordValue. rewrite Hty. cbn. by destruct (RecordSpec.Priority (RecordObj.Spec r)).
Qed.


(** ** DHCP scopes *)

Section dhcp.
Implicit Types (s : DHCPScopeSpec.t).

(** An address of the network of the first [n] bits of [start]. *)
Definition in_subnet (n : Z) (start : list Z) (a : string) : Prop :=
  exists ip, ParseIP4 a = Some ip /\ ip_num ip / 2 ^ (32 - n) = ip_num start / 2 ^ (32 - n).

(** A range in order, a contiguous mask, and a router and reservations in the
    subnet of the range's first address. *)
Definition dhcp_coherent s : Prop :=
  exists start end_ mask n,
    ParseIP4 (DHCPScopeSpec.StartingAddress s) = Some start /\ ParseIP4 (DHCPScopeSpec.EndingAddress s) = Some end_ /\
    ParseIP4 (DHCPScopeSpec.SubnetMask s) = Some mask /\
    ip_num start <= ip_num end_ /\ 0 <= n <= 32 /\ ip_num mask = 2 ^ 32 - 2 ^ (32 - n) /\
    (forall router, DHCPScopeSpec.RouterAddress s = Some router -> in_subnet n start router) /\
    (forall r, r ∈ DHCPScopeSpec.Reservations s ->
       ParseMAC_ok (DHCPReservation.HardwareAddress r) = true /\ in_subnet n start (DHCPReservation.IPAddress r)).

Lemma bytesCompare_cons x y a b :
  (0 <? bytesCompare (x :: a) (y :: b)) = if x =? y then 0 <? bytesCompare a b else y <? x.
Proof.
  cbn. destruct (Z.eqb_spec x y) as [->|Hne]; [done|]. cbn.
  destruct (Z.ltb_spec x y), (Z.ltb_spec y x); try done; lia.
Qed.

Lemma bytesCompare_num a b : ip4_wf a -> ip4_wf b -> (0 <? bytesCompare a b) = false <-> ip_num a <= ip_num b.
Proof.
  intros (a1 & a2 & a3 & a4 & -> & H1 & H2 & H3 & H4)%ip4_cases (b1 & b2 & b3 & b4 & -> & G1 & G2 & G3 & G4)%ip4_cases.
  unfold ip_num, is_byte in *. rewrite !bytesCompare_cons. cbn -[Z.mul Z.add].
  destruct (Z.eqb_spec a1 b1) as [->|?]; [|rewrite Z.ltb_ge; lia].
  destruct (Z.eqb_spec a2 b2) as [->|?]; [|rewrite Z.ltb_ge; lia].
  destruct (Z.eqb_spec a3 b3) as [->|?]; [|rewrite Z.ltb_ge; lia].
  destruct (Z.eqb_spec a4 b4) as [->|?]; [|rewrite Z.ltb_ge; lia]. split; [lia|done].
Qed.

Lemma ParseIP4_nonempty a ip : ParseIP4 a = Some ip -> (a =? "")%string = false.
Proof. by destruct a. Qed.

Lemma validateScopeIP_spec path value name :
  match ParseIP4 value with
  | Some ip => validateScopeIP path value name = (Some ip, [])
  | None => exists e, validateScopeIP path value name = (None, [e])
  end.
Proof.
  unfold validateScopeIP. destruct (ParseIP4 value) as [ip|] eqn:E; [by rewrite (ParseIP4_nonempty _ _ E)|].
  destruct (value =? "")%string; by eexists.
Qed.

Lemma validateMask_spec value :
  match ParseIP4 value with
  | Some mask =>
      if (Size mask).2 =? 0 then exists e, validateMask value = (None, [e]) else validateMask value = (Some mask, [])
  | None => exists e, validateMask value = (None, [e])
  end.
Proof.
  unfold validateMask. destruct (ParseIP4 value) as [mask|] eqn:E.
  - rewrite (ParseIP4_nonempty _ _ E). destruct (_ =? 0); by eexists.
  - destruct (value =? "")%string; by eexists.
Qed.

Lemma validateAddressInSubnet_nil path value name start mask n :
  ip4_wf start -> ip4_wf mask -> Size mask = (n, 32) ->
  validateAddressInSubnet path value name (Some start) (Some mask) = [] <-> in_subnet n start value.
Proof.
  intros Hs Hm Hn. unfold validateAddressInSubnet, in_subnet. destruct (ParseIP4 value) as [ip|] eqn:E.
  - rewrite (ParseIP4_nonempty _ _ E), when_nil, negb_false_iff.
    rewrite (network_contains_spec start mask ip n) by (done || by eapply ParseIP4_wf).
    split; [intros; by exists ip|]. by intros (ip' & [= <-] & ?).
  - split; [by destruct (value =? "")%string|]. by intros (ip & ? & _).
Qed.

Lemma reservationErrors_nil rs start mask n : ip4_wf start -> ip4_wf mask -> Size mask = (n, 32) -> forall i,
  reservationErrors i rs (Some start) (Some mask) = [] <->
  forall r, r ∈ rs -> ParseMAC_ok (DHCPReservation.HardwareAddress r) = true /\ in_subnet n start (DHCPReservation.IPAddress r).
Proof.
  intros Hs Hm Hn. induction rs as [|r rs IH]; intros i; cbn -[validateAddressInSubnet].
  { split; [|done]. intros _ r Hr. by apply elem_of_nil in Hr. }
  rewrite !app_nil, when_nil, negb_false_iff, IH, (validateAddressInSubnet_nil _ _ _ _ _ n) by done. split.
  - intros (H1 & H2 & H3) r' [->|Hr']%elem_of_cons; [done|by apply H3].
  - intros Hall. split; [apply Hall; by left|]. split; [apply Hall; by left|]. intros r' Hr'. apply Hall. by right.
Qed.

Lemma Size_bits mask : ip4_wf mask -> (Size mask).2 <> 0 -> exists n, Size mask = (n, 32) /\ 0 <= n <= 32 /\ ip_num mask = 2 ^ 32 - 2 ^ (32 - n).
Proof.
  intros Hm Hb. destruct (Size mask) as [n bits] eqn:E. cbn in Hb. destruct (Size_num mask n bits Hm E Hb) as [Hn Hnum].
  exists n. split; [|done]. unfold Size in E. destruct (simpleMaskLength mask); [|by injection E as <- <-].
  injection E as <- <-. by rewrite (proj1 Hm).
Qed.

End dhcp.

(** ** Examples *)

#[local] Existing Instance RefKubeLib.lib.

Module WebhookExample.
Definition zone : Zone.t :=
  Zone.mk (ObjectMeta.named "" "zone")
    (ZoneSpec.mk "example.com" (SecretReference.mk "dns" "") ZoneTypeForwarder [] (Some "9.9.9.9") None None (Some true)
       (Some (ForwarderProxy.mk ProxyTypeHTTP (Some "10.0.0.1") (Some 3128) None None)) "")
    (ZoneStatus.mk [] 0 false).
Definition scope (ending router : string) : DHCPScope.t :=
  DHCPScope.mk (ObjectMeta.named "dns" "lan")
    (DHCPScopeSpec.mk (SecretReference.mk "dns" "") "lan" "10.0.0.10" ending "255.255.255.0" (Some router) None None None None
       None None [DHCPReservation.mk "00:1a:2b:3c:4d:5e" "10.0.0.20" None None] "")
    (DHCPScopeStatus.mk [] 0 false []).
Definition record (zone : string) : RecordObj.t :=
  RecordObj.mk (ObjectMeta.named "dns" "www")
    (RecordSpec.mk (SecretReference.mk "dns" "") zone "www.example.com" "A" None "10.0.0.1" None "Delete")
    (RecordStatus.mk [] 0 false "" None).
End WebhookExample.

Lemma example_zone_stored : stored (ZoneDefault WebhookExample.zone).
Proof.
  exists WebhookExample.zone, (ZoneDefault WebhookExample.zone). split; [vm_compute; reflexivity|apply rtc_refl].
Qed.

Example own_writes_admitted_witness :
  let z := ZoneDefault WebhookExample.zone in
  admit_update z (add_finalizer z zoneFinalizer).1 = inr (add_finalizer z zoneFinalizer).1.
Proof. exact (proj1 (proj1 own_writes_admitted _ zoneFinalizer example_zone_stored)). Defined.


Example coherent_scope_admitted :
  map ValidateCreate [WebhookExample.scope "10.0.0.99" "10.0.0.1"; WebhookExample.scope "::ffff:10.0.0.99" "10.0.0.1"] = [None; None]
  /\ (causes <$> ValidateCreate (WebhookExample.scope "10.0.0.9" "10.0.1.1"))
     = Some [Invalid "spec.startingAddress" "10.0.0.10" "startingAddress must not be after endingAddress";
             Invalid "spec.routerAddress" "10.0.1.1" "routerAddress must fall within the scope's subnet"].
Proof. split; vm_compute; reflexivity. Qed.

(** The last address of the range may leave the subnet. *)
Lemma dhcp_range_leaves_subnet :
  ValidateCreate (WebhookExample.scope "192.168.7.1" "10.0.0.1") = None /\ ~ in_subnet 24 [10; 0; 0; 10] "192.168.7.1".
Proof.
  split; [vm_compute; reflexivity|]. intros (ip & E & Hn). vm_compute in E. injection E as <-. by vm_compute in Hn.
Qed.

(** A Record may be moved to another zone, where its old copy is foreign. *)
Lemma record_zone_edit_admitted :
  admit_update (WebhookExample.record "example.com") (WebhookExample.record "www.example.com")
  = inr (WebhookExample.record "www.example.com").
Proof. vm_compute. reflexivity. Qed.
