(* ===== verification/GoFlags.v ===== *)
(** * Go's [flag] package

    [FlagSet.Parse] over the flags of a command line: what counts as a flag, how
    it gets its value, and where parsing stops.  A flag set is the lookup of a
    flag by name; setting a flag changes the state the flags are bound to. *)

From S2P Require Import Prelude GoStrings GoErrors Effects.

Local Open Scope string_scope.
Local Open Scope go_scope.

(** A [flag.Value]: boolean flags need no argument. *)
Module Flag.
Record t (S : Type) := mk { IsBoolFlag : bool; Set_ : string -> S -> fallible S }.
Arguments mk {S}.
Arguments IsBoolFlag {S}.
Arguments Set_ {S}.
End Flag.
Definition FlagSet (S : Type) : Type := string -> option (Flag.t S).

Definition dash : ascii := "-"%char.
Definition equals : ascii := "="%char.
Definition ErrHelp : error := EText "flag: help requested".

(** What an argument is, by its spelling. *)
Inductive argument :=
| Positional
| Terminator
| BadSyntax
| Named (name : string) (value : option string).

Definition named (name : string) : argument :=
  match name with
  | "" => BadSyntax
  | String c _ =>
      if Ascii.eqb c dash || Ascii.eqb c equals then BadSyntax
      else match CutChar equals name with Some (n, v) => Named n (Some v) | None => Named name None end
  end.

Definition classify (s : string) : argument :=
  match s with
  | String a (String b r) =>
      if negb (Ascii.eqb a dash) then Positional
      else if Ascii.eqb b dash then (if r =s? "" then Terminator else named r) else named (String b r)
  | _ => Positional
  end.

(** The error a failed [Set] is reported with. *)
Definition invalidValue (f : bool) (name value : string) (e : error) : error :=
  if f then EText ("invalid boolean value " +:+ quoted value +:+ " for -" +:+ name +:+ ": " +:+ Error e)
  else EText ("invalid value " +:+ quoted value +:+ " for flag -" +:+ name +:+ ": " +:+ Error e).

(** The state after the flags, and the arguments that are not flags. *)
Fixpoint Parse {S : Type} (fs : FlagSet S) (args : list string) (st : S) : fallible (S * list string) :=
  match args with
  | [] => inr (st, [])
  | s :: rest =>
      match classify s with
      | Positional => inr (st, args)
      | Terminator => inr (st, rest)
      | BadSyntax => inl (EText ("bad flag syntax: " +:+ s))
      | Named name value =>
          match fs name with
          | None =>
              if (name =s? "help") || (name =s? "h") then inl ErrHelp
              else inl (EText ("flag provided but not defined: -" +:+ name))
          | Some f =>
              match value with
              | Some v =>
                  match Flag.Set_ f v st with
                  | inl e => inl (invalidValue (Flag.IsBoolFlag f) name v e)
                  | inr st => Parse fs rest st
                  end
              | None =>
                  if Flag.IsBoolFlag f then
                    match Flag.Set_ f "true" st with
                    | inl e => inl (EText ("invalid boolean flag " +:+ name +:+ ": " +:+ Error e))
                    | inr st => Parse fs rest st
                    end
                  else
                    match rest with
                    | [] => inl (EText ("flag needs an argument: -" +:+ name))
                    | v :: rest =>
                        match Flag.Set_ f v st with
                        | inl e => inl (invalidValue false name v e)
                        | inr st => Parse fs rest st
                        end
                    end
              end
          end
      end
  end.

(** ** Writing flags *)

(** A name that can be written before a value. *)
Definition plain_name (name : string) : bool :=
  match name with
  | "" => false
  | String c _ => negb (Ascii.eqb c dash) && lacks equals name
  end.

(** [--name=value]. *)
Definition assign (name value : string) : string := "--" +:+ name +:+ "=" +:+ value.

Lemma named_spec (name : string) : plain_name name = true -> named name = Named name None.
Proof.
  intros Hn. destruct name as [|c name]; [done|]. cbn [plain_name] in Hn. apply andb_prop in Hn as [Hc Hl].
  unfold named. cbv iota beta. rewrite (CutChar_none equals _ Hl). apply negb_true_iff in Hc. rewrite Hc.
  cbn in Hl. apply andb_prop in Hl as [Hl _]. apply negb_true_iff in Hl.
  by rewrite Ascii.eqb_sym, Hl.
Qed.

Lemma named_assign (name value : string) :
  plain_name name = true -> named (name +:+ "=" +:+ value) = Named name (Some value).
Proof.
  intros Hn. destruct name as [|c name]; [done|]. cbn [plain_name] in Hn. apply andb_prop in Hn as [Hc Hl].
  unfold named. change (String c name +:+ "=" +:+ value) with (String c (name +:+ String equals value)).
  apply negb_true_iff in Hc. cbv iota beta. rewrite Hc.
  change (String c (name +:+ String equals value)) with (String c name +:+ String equals value).
  rewrite CutChar_app by done. cbn in Hl. apply andb_prop in Hl as [Hl _]. apply negb_true_iff in Hl.
  by rewrite Ascii.eqb_sym, Hl.
Qed.

Lemma classify_dashes (r : string) : r <> "" -> classify ("--" +:+ r) = named r.
Proof.
  intros Hr. change ("--" +:+ r) with (String dash (String dash r)). cbn. by rewrite (proj2 (String.eqb_neq r "") Hr).
Qed.

(** Both spellings set the flag. *)
Lemma Parse_assign {S : Type} (fs : FlagSet S) name value f rest st st' :
  plain_name name = true -> fs name = Some f -> Flag.Set_ f value st = inr st' ->
  Parse fs (assign name value :: rest) st = Parse fs rest st'.
Proof.
  intros Hn Hf Hs. cbn [Parse]. unfold assign. rewrite classify_dashes by (by destruct name).
  by rewrite named_assign, Hf, Hs.
Qed.

Lemma Parse_separate {S : Type} (fs : FlagSet S) name value f rest st st' :
  plain_name name = true -> fs name = Some f -> Flag.IsBoolFlag f = false -> Flag.Set_ f value st = inr st' ->
  Parse fs (("--" +:+ name) :: value :: rest) st = Parse fs rest st'.
Proof.
  intros Hn Hf Hb Hs. cbn [Parse]. rewrite classify_dashes by (by destruct name).
  by rewrite named_spec, Hf, Hb, Hs.
Qed.
