(* ===== verification/ExternalDnsRun.v ===== *)
(** * The ExternalDNS webhook as a process

    [internal/externaldns/run.go] and the mux of [server.go]: the command line,
    the servers, and what a request gets, from its method, path and body.  The
    JSON reader is that of [Client]; the text of its errors and the flags zap
    binds are parameters. *)

From S2P Require Import Prelude GoStrings GoErrors Effects Kube Client Lifecycle Record GoFlags ExternalDns.

Local Open Scope string_scope.
Local Open Scope Z_scope.
Local Open Scope go_scope.
Local Open Scope prog_scope.

(** ** The command line *)

Definition string_flag (set : string -> Config.t -> Config.t) : option (Flag.t Config.t) :=
  Some (Flag.mk false (fun v cfg => inr (set v cfg))).

Definition configFlags : FlagSet Config.t := fun name =>
  if name =s? "server-ref" then string_flag (fun v c =>
    Config.mk v (Config.Zones c) (Config.Namespace c) (Config.OwnerID c) (Config.Listen c) (Config.HealthListen c))
  else if name =s? "zone" then string_flag (fun v c =>
    Config.mk (Config.ServerRef c) (Config.Zones c ++ [v])%list (Config.Namespace c) (Config.OwnerID c) (Config.Listen c) (Config.HealthListen c))
  else if name =s? "namespace" then string_flag (fun v c =>
    Config.mk (Config.ServerRef c) (Config.Zones c) v (Config.OwnerID c) (Config.Listen c) (Config.HealthListen c))
  else if name =s? "owner-id" then string_flag (fun v c =>
    Config.mk (Config.ServerRef c) (Config.Zones c) (Config.Namespace c) v (Config.Listen c) (Config.HealthListen c))
  else if name =s? "listen" then string_flag (fun v c =>
    Config.mk (Config.ServerRef c) (Config.Zones c) (Config.Namespace c) (Config.OwnerID c) v (Config.HealthListen c))
  else if name =s? "health-listen" then string_flag (fun v c =>
    Config.mk (Config.ServerRef c) (Config.Zones c) (Config.Namespace c) (Config.OwnerID c) (Config.Listen c) v)
  else None.

(** Why the wait for the servers ends: the context was cancelled, or the first
    server to stop was closed or failed. *)
Inductive stopped := Cancelled | ServerClosed | Failed (e : error).

(** What the process asks of its surroundings.  [Serve] starts a server per
    address and waits. *)
Inductive runE : Type :=
| Getenv (name : string)
| ReadFile (path : string)
| BuildClient
| Serve (addresses : list string)
| Shutdown (address : string).
#[export] Instance runE_Effect : Effect runE := fun c => match c with
| Getenv _ => string
| ReadFile _ => fallible string
| BuildClient => option error
| Serve _ => stopped
| Shutdown _ => option error
end.

Definition namespaceFile : string := "/var/run/secrets/kubernetes.io/serviceaccount/namespace".

Definition defaultNamespace : prog runE string :=
  ns <- (call (Getenv "POD_NAMESPACE") : prog runE string) ;;
  if negb (ns =s? "") then Ret ns
  else
    b <- (call (ReadFile namespaceFile) : prog runE (fallible string)) ;;
    Ret (match b with inr b => TrimSpace b | inl _ => "" end).

Section command.
(** The flags of zap's options: whether a flag is boolean, and the error of
    setting it. *)
Context (zapFlags : string -> option (bool * (string -> option error))).

Definition commandFlags : FlagSet Config.t := fun name =>
  match configFlags name with
  | Some f => Some f
  | None =>
      f ← zapFlags name;
      Some (Flag.mk f.1 (fun v cfg => match f.2 v with Some e => inl e | None => inr cfg end))
  end.

Definition parseConfig (namespace : string) (args : list string) : fallible Config.t :=
  match Parse commandFlags args (Config.mk "" [] namespace "default" "127.0.0.1:8888" ":8080") with
  | inl e => inl e
  | inr (cfg, _) => checkConfig cfg
  end.

Definition ParseFlags (args : list string) : prog runE (fallible Config.t) :=
  ns <- defaultNamespace ;; Ret (parseConfig ns args).

Definition Run (args : list string) : prog runE (option error) :=
  tryE cfg <- ParseFlags args ;;
  c <- (call BuildClient : prog runE (option error)) ;;
  match c with
  | Some e => Ret (Some (wrapf "building Kubernetes client" e))
  | None =>
      r <- (call (Serve [Config.Listen cfg; Config.HealthListen cfg]) : prog runE stopped) ;;
      (call (Shutdown (Config.Listen cfg)) : prog runE (option error)) ;;
      (call (Shutdown (Config.HealthListen cfg)) : prog runE (option error)) ;;
      Ret (match r with Failed e => Some e | Cancelled | ServerClosed => None end)
  end.

(** The translator the webhook serves with. *)
Definition translatorFor (cfg : Config.t) : Translator.t :=
  Translator.mk (Config.Namespace cfg) (Config.ServerRef cfg) (Config.OwnerID cfg) (Config.Zones cfg).

(** *** Writing the command line *)

(** A command line that spells out a configuration. *)
Definition flag_args (cfg : Config.t) : list string :=
  (assign "server-ref" (Config.ServerRef cfg) :: map (assign "zone") (Config.Zones cfg)
   ++ [assign "namespace" (Config.Namespace cfg); assign "owner-id" (Config.OwnerID cfg);
       assign "listen" (Config.Listen cfg); assign "health-listen" (Config.HealthListen cfg)])%list.

Lemma Parse_string (name value : string) (rest : list string) (cfg : Config.t) (set : string -> Config.t -> Config.t) :
  configFlags name = string_flag set -> plain_name name = true ->
  Parse commandFlags (assign name value :: rest) cfg = Parse commandFlags rest (set value cfg).
Proof.
  intros Hf Hn. apply (Parse_assign _ _ _ (Flag.mk false (fun v c => inr (set v c)))); [done| |done].
  unfold commandFlags. by rewrite Hf.
Qed.

Ltac set_flag lemma :=
  erewrite lemma by reflexivity;
  cbn [Config.ServerRef Config.Zones Config.Namespace Config.OwnerID Config.Listen Config.HealthListen].

Lemma Parse_zones (zones rest : list string) : forall cfg,
  Parse commandFlags (map (assign "zone") zones ++ rest)%list cfg
  = Parse commandFlags rest (Config.mk (Config.ServerRef cfg) (Config.Zones cfg ++ zones)%list (Config.Namespace cfg)
      (Config.OwnerID cfg) (Config.Listen cfg) (Config.HealthListen cfg)).
Proof.
  induction zones as [|z zones IH]; intros cfg; cbn [map app]; [rewrite app_nil_r; by destruct cfg|].
  set_flag (Parse_string "zone" z).
  rewrite IH. cbn. by rewrite <- app_assoc.
Qed.

(** The command line round-trips.  Whatever namespace was detected and
    whatever flags zap adds, the flags that spell out a configuration are
    parsed back to it: accepted with its zones normalised when it names a
    server, a zone and a namespace, rejected with that complaint when not. *)
Theorem flags_roundtrip (detected : string) (cfg : Config.t) :
  parseConfig detected (flag_args cfg) = checkConfig cfg.
Proof.
  unfold parseConfig, flag_args.
  set_flag (Parse_string "server-ref").
  rewrite Parse_zones. cbn [Config.ServerRef Config.Zones Config.Namespace Config.OwnerID Config.Listen Config.HealthListen].
  set_flag (Parse_string "namespace").
  set_flag (Parse_string "owner-id").
  set_flag (Parse_string "listen").
  set_flag (Parse_string "health-listen").
  cbn. by destruct cfg.
Qed.
End command.

(** ** Requests *)

(** A body is read as JSON, or fails to be: it is too large or not JSON. *)
Inductive body := Unreadable (tooLarge : bool) (message : string) | Document (j : json).

(** A JSON object as a [map[string]string]; null is the zero value. *)
Definition dec_string_map : decoder (gmap string string) :=
  fun j => match j with
  | JNull => Some ∅
  | JObj kvs => fold_left (fun m '(k, v) => m' ← m; s ← dec_string v; Some (<[k := s]> m')) kvs (Some ∅)
  | _ => None
  end.
(** A pointer. *)
Definition dec_pointer {X : Type} (d : decoder X) : decoder (option X) :=
  fun j => match j with JNull => Some None | _ => Some <$> d j end.

Definition dec_ProviderSpecific : decoder (string * string) :=
  dec_struct (fun kvs =>
    name ← get_field dec_string "name" kvs; value ← get_field dec_string "value" kvs; Some (name, value)).

Definition dec_Endpoint : decoder Endpoint.t :=
  dec_struct (fun kvs =>
    dnsName ← get_field dec_string "dnsName" kvs;
    targets ← get_field (dec_list dec_string) "targets" kvs;
    recordType ← get_field dec_string "recordType" kvs;
    setIdentifier ← get_field dec_string "setIdentifier" kvs;
    recordTTL ← get_field dec_int64 "recordTTL" kvs;
    labels ← get_field dec_string_map "labels" kvs;
    providerSpecific ← get_field (dec_list dec_ProviderSpecific) "providerSpecific" kvs;
    Some (Endpoint.mk dnsName targets recordType setIdentifier recordTTL labels providerSpecific)).

(** [Changes] as decoded: its endpoints are pointers. *)
Module RawChanges.
Record t := mk { Create : list (option Endpoint.t); UpdateOld : list (option Endpoint.t);
                 UpdateNew : list (option Endpoint.t); Delete : list (option Endpoint.t) }.
End RawChanges.
Definition dec_Changes : decoder RawChanges.t :=
  dec_struct (fun kvs =>
    let endpoints name := get_field (dec_list (dec_pointer dec_Endpoint)) name kvs in
    create ← endpoints "create"; updateOld ← endpoints "updateOld";
    updateNew ← endpoints "updateNew"; delete ← endpoints "delete";
    Some (RawChanges.mk create updateOld updateNew delete)).

(** The endpoints before the first nil, and whether there is one. *)
Fixpoint before_nil (l : list (option Endpoint.t)) : list Endpoint.t :=
  match l with Some ep :: l => ep :: before_nil l | _ => [] end.
Definition has_nil (l : list (option Endpoint.t)) : bool := existsb (fun o => negb (bool_decide (is_Some o))) l.

(** The changes that [BuildPlan]'s loops reach before they dereference a nil
    endpoint. *)
Definition reached (c : RawChanges.t) : Changes.t :=
  let create := before_nil (RawChanges.Create c) in
  let old := before_nil (RawChanges.UpdateOld c) in
  let new_ := before_nil (RawChanges.UpdateNew c) in
  if has_nil (RawChanges.Create c) then Changes.mk create [] [] []
  else if has_nil (RawChanges.UpdateOld c) then Changes.mk create old [] []
  else if has_nil (RawChanges.UpdateNew c) then Changes.mk create old new_ []
  else Changes.mk create old new_ (before_nil (RawChanges.Delete c)).
Definition nil_in (c : RawChanges.t) : bool :=
  has_nil (RawChanges.Create c) || has_nil (RawChanges.UpdateOld c) || has_nil (RawChanges.UpdateNew c)
  || has_nil (RawChanges.Delete c).

(** The routes of the mux, over clean paths; GET also serves HEAD. *)
Inductive handler := Negotiate | Records | ApplyChanges | AdjustEndpoints.
Inductive routed := Handled (h : handler) | MethodNotAllowed | PageNotFound.
Definition routes : list (string * string * handler) :=
  [("GET", "/", Negotiate); ("GET", "/records", Records); ("POST", "/records", ApplyChanges);
   ("POST", "/adjustendpoints", AdjustEndpoints)].
Definition Handler (method path : string) : routed :=
  let serves m := (m =s? method) || (m =s? "GET") && (method =s? "HEAD") in
  match List.find (fun '(m, p, _) => serves m && (p =s? path)) routes with
  | Some (_, _, h) => Handled h
  | None => if existsb (fun '(_, p, _) => p =s? path) routes then MethodNotAllowed else PageNotFound
  end.

(** What is sent back. *)
Inductive reply := DomainFilter (Include : list string) | Reply (r : response).
Definition StatusCode (r : reply) : Z :=
  match r with
  | DomainFilter _ => 200
  | Reply (OK _) => 200
  | Reply NoContent => 204
  | Reply (HTTPError code _) => code
  end.

Section serving.
Context (unmarshal_error : json -> string).
Context (digest : string -> string) (T : Translator.t).

Definition decode {V : Type} (d : decoder V) (b : body) : (Z * string) + V :=
  match b with
  | Unreadable tooLarge message => inl (if tooLarge then 413 else 400, message)
  | Document j => match d j with Some v => inr v | None => inl (400, unmarshal_error j) end
  end.

(** [None]: the handler panics, and the server drops the connection. *)
Definition serve (method path : string) (b : body) : prog ednsE (option reply) :=
  match Handler method path with
  | PageNotFound => Ret (Some (Reply (HTTPError 404 "404 page not found")))
  | MethodNotAllowed => Ret (Some (Reply (HTTPError 405 "Method Not Allowed")))
  | Handled Negotiate => Ret (Some (DomainFilter (negotiate T)))
  | Handled Records => r <- records T ;; Ret (Some (Reply r))
  | Handled AdjustEndpoints =>
      Ret (Some (Reply (adjust T (decode (dec_list (dec_pointer dec_Endpoint)) b))))
  | Handled ApplyChanges =>
      match decode dec_Changes b with
      | inl (code, message) => Ret (Some (Reply (HTTPError code message)))
      | inr raw =>
          if nil_in raw then
            Ret (match BuildPlan digest T (reached raw) with
                 | inl e => Some (Reply (HTTPError 400 (Error e)))
                 | inr _ => None
                 end)
          else r <- applyChanges digest T (inr (reached raw)) ;; Ret (Some (Reply r))
      end
  end.

(** ** Who touches Records *)

(** A call that changes a Record. *)
Definition changes_record (a : ednsE) : Prop :=
  match a with ECreate _ | EPatch _ | EDelete _ => True | EGet _ | EList _ _ => False end.

Definition client_error (r : option reply) : Prop :=
  match r with Some r => 400 <= StatusCode r < 500 | None => True end.

Lemma Handler_apply (method path : string) :
  Handler method path = Handled ApplyChanges -> (method, path) = ("POST", "/records").
Proof.
  unfold Handler. destruct (List.find _ routes) as [[[m p] h]|] eqn:Ef; [|by destruct (existsb _ _)].
  intros [= ->]. apply List.find_some in Ef as [Hin Hm]. apply andb_prop in Hm as [Hm Hp].
  apply String.eqb_eq in Hp as <-.
  destruct Hin as [E|[E|[E|[E|[]]]]]; try discriminate. injection E as <- <-.
  apply orb_prop in Hm as [Hm|Hm]; [|done]. by apply String.eqb_eq in Hm as <-.
Qed.

(** C29: Who touches Records.  A request that is answered with a client error,
    or whose handler panics, has made no Kubernetes call at all: an unknown
    path, a wrong method, an unreadable or oversized body, a body of the wrong
    shape, changes that cannot be planned.  Only POST /records changes
    Records; GET and HEAD of any path only read. *)
Theorem requests_touch (method path : string) (b : body) :
  always (serve method path b) (fun tr r => client_error r -> tr = []) /\
  ((method, path) <> ("POST", "/records") -> avoids changes_record (serve method path b)).
Proof.
  unfold serve. destruct (Handler method path) as [[]| |] eqn:Eh.
  - split; [by intros _|done].
  - split.
    + unfold always, records. cbn. intros [e|items]; cbn; lia.
    + intros _. cbn. split; [tauto|done].
  - split.
    + destruct (decode dec_Changes b) as [[code message]|raw]; [by intros _|].
      destruct (nil_in raw); [by intros _|]. unfold applyChanges.
      destruct (BuildPlan digest T (reached raw)) as [e|p]; [by intros _|].
      apply holds_bind, holds_bind. eapply holds_mono; [|apply (holds_extends (apply T p) [])].
      cbn beta. intros tr [e|] _; cbn; lia.
    + intros []. by apply Handler_apply.
  - split; [by intros _|done].
  - split; [by intros _|done].
  - split; [by intros _|done].
Qed.
End serving.

(** A null endpoint is not rejected: [BuildPlan] dereferences it, the handler
    panics, and ExternalDNS gets no response at all. *)
Lemma null_endpoint_panics (unmarshal_error : json -> string) (digest : string -> string) (T : Translator.t) :
  serve unmarshal_error digest T "POST" "/records" (Document (JObj [("create", JArr [JNull])])) = Ret None.
Proof. vm_compute. reflexivity. Qed.

(** ** Examples *)

Definition example_zap (name : string) : option (bool * (string -> option error)) :=
  if name =s? "zap-devel" then Some (true, fun v => if v =s? "maybe" then Some (EText "parse error") else None) else None.

Example example_flags :
  parseConfig example_zap "ops" ["--zone"; "Example.COM."; "-zap-devel"; "--server-ref=dns"; "--"; "--zone=ignored"]
  = inr (Config.mk "dns" ["example.com"] "ops" "default" "127.0.0.1:8888" ":8080") /\
  parseConfig example_zap "" ["--server-ref=dns"; "--zone=a"] = inl (EText "--namespace is required when it cannot be detected") /\
  parseConfig example_zap "ops" ["--server-ref"] = inl (EText "flag needs an argument: -server-ref") /\
  parseConfig example_zap "ops" ["--zap-devel=maybe"]
  = inl (EText ("invalid boolean value " +:+ quoted "maybe" +:+ " for -zap-devel: parse error")).
Proof. vm_compute. by split_and!. Qed.

Definition example_translator : Translator.t := Translator.mk "dns" "srv" "o" ["example.com"].
Definition example_status (method path : string) (b : body) : option Z :=
  match serve (fun _ => "bad") id example_translator method path b with
  | Ret (Some r) => Some (StatusCode r)
  | _ => None
  end.
Example example_statuses :
  map (fun '(m, p, b) => example_status m p b)
    [("HEAD", "/", Document JNull); ("PUT", "/records", Document JNull); ("GET", "/healthz", Document JNull);
     ("POST", "/records", Unreadable true "too large"); ("POST", "/adjustendpoints", Document (JArr [JNull]));
     ("POST", "/records", Document (JObj [("create", JArr [JObj [("targets", JArr [JStr "x"]); ("recordType", JStr "SRV")]])]))]
  = [Some 200; Some 405; Some 404; Some 413; Some 200; Some 400].
Proof. vm_compute. reflexivity. Qed.
