(* ===== verification/OperatorMain.v ===== *)
(** * The operator's entry point

    [cmd/main.go]: what the manager is built with, which controllers, webhooks
    and checks are set up and in which order, and the exit status; and the
    [SetupWithManager] of each controller.  The flags are given as parsed, the
    environment as a function. *)

From S2P Require Import Prelude GoStrings GoErrors Effects Lifecycle.

Local Open Scope string_scope.
Local Open Scope Z_scope.
Local Open Scope go_scope.
Local Open Scope prog_scope.

(** ** Options *)

Module flags.
Record t := mk {
  metricsAddr : string;
  metricsCertPath : string; metricsCertName : string; metricsCertKey : string;
  webhookCertPath : string; webhookCertName : string; webhookCertKey : string;
  enableLeaderElection : bool;
  probeAddr : string;
  statsInterval : Z;  (** a [time.Duration], in nanoseconds *)
  secureMetrics : bool;
  enableHTTP2 : bool
}.
End flags.

(** The flags of a bare command line. *)
Definition default_flags : flags.t :=
  flags.mk "0" "" "tls.crt" "tls.key" "" "tls.crt" "tls.key" false ":8081" minute true false.

(** A [tls.Config], of which the options set the protocols. *)
Definition tls_config : Type := list string.
Definition disableHTTP2 (c : tls_config) : tls_config := ["http/1.1"].

Module certificate.
Record t := mk { CertDir : string; CertName : string; KeyName : string }.
End certificate.
Module webhookOptions.
Record t := mk { TLSOpts : list (tls_config -> tls_config); Cert : option certificate.t }.
End webhookOptions.
Module metricsOptions.
Record t := mk {
  BindAddress : string;
  SecureServing : bool;
  TLSOpts : list (tls_config -> tls_config);
  Authenticated : bool;  (** [FilterProvider] asks for authentication and authorization *)
  Cert : option certificate.t
}.
End metricsOptions.
Module managerOptions.
Record t := mk {
  Metrics : metricsOptions.t;
  WebhookServer : webhookOptions.t;
  HealthProbeBindAddress : string;
  LeaderElection : bool;
  LeaderElectionID : string
}.
End managerOptions.

Definition tlsOpts (f : flags.t) : list (tls_config -> tls_config) :=
  if negb (flags.enableHTTP2 f) then [disableHTTP2] else [].

Definition webhookServerOptions (f : flags.t) : webhookOptions.t :=
  webhookOptions.mk (tlsOpts f)
    (if negb (flags.webhookCertPath f =s? "") then
       Some (certificate.mk (flags.webhookCertPath f) (flags.webhookCertName f) (flags.webhookCertKey f))
     else None).

Definition metricsServerOptions (f : flags.t) : metricsOptions.t :=
  metricsOptions.mk (flags.metricsAddr f) (flags.secureMetrics f) (tlsOpts f) (flags.secureMetrics f)
    (if negb (flags.metricsCertPath f =s? "") then
       Some (certificate.mk (flags.metricsCertPath f) (flags.metricsCertName f) (flags.metricsCertKey f))
     else None).

Definition managerOptionsOf (f : flags.t) : managerOptions.t :=
  managerOptions.mk (metricsServerOptions f) (webhookServerOptions f) (flags.probeAddr f)
    (flags.enableLeaderElection f) "ac3dc08b.packet.fail".

(** ** Controllers *)

Inductive kind := Zone | TechnitiumCluster | Record_ | ServerSettings | Blocklist | DHCPScope | DNSSEC | DNSApp.
#[export] Instance kind_eq_dec : EqDecision kind.
Proof. solve_decision. Defined.

(** What a controller is registered for: its kind, the kinds whose objects
    belong to its own, and the kinds mapped to its own by a function. *)
Module builder.
Record t := mk { For : kind; Owns : list string; Watches : list kind; Named : string }.
End builder.

Definition zoneSetup : builder.t := builder.mk Zone [] [TechnitiumCluster] "zone".
Definition technitiumclusterSetup : builder.t := builder.mk TechnitiumCluster ["StatefulSet"; "Service"; "Secret"; "PodDisruptionBudget"] [] "technitiumcluster".
Definition recordSetup : builder.t := builder.mk Record_ [] [] "record".
Definition serversettingsSetup : builder.t := builder.mk ServerSettings [] [] "serversettings".
Definition blocklistSetup : builder.t := builder.mk Blocklist [] [] "blocklist".
Definition dhcpscopeSetup : builder.t := builder.mk DHCPScope [] [] "dhcpscope".
Definition dnssecSetup : builder.t := builder.mk DNSSEC [] [] "dnssec".
Definition dnsappSetup : builder.t := builder.mk DNSApp [] [] "dnsapp".

Definition SetupWithManager (k : kind) : builder.t :=
  match k with
  | Zone => zoneSetup
  | TechnitiumCluster => technitiumclusterSetup
  | Record_ => recordSetup
  | ServerSettings => serversettingsSetup
  | Blocklist => blocklistSetup
  | DHCPScope => dhcpscopeSetup
  | DNSSEC => dnssecSetup
  | DNSApp => dnsappSetup
  end.

(** A webhook: the kind it is for, and the kinds its validator and its defaulter
    are written for. *)
Module webhookBuilder.
Record t := mk { For : kind; Validator : kind; Defaulter : kind }.
End webhookBuilder.

Definition zoneWebhook : webhookBuilder.t := webhookBuilder.mk Zone Zone Zone.
Definition recordWebhook : webhookBuilder.t := webhookBuilder.mk Record_ Record_ Record_.
Definition serversettingsWebhook : webhookBuilder.t := webhookBuilder.mk ServerSettings ServerSettings ServerSettings.
Definition blocklistWebhook : webhookBuilder.t := webhookBuilder.mk Blocklist Blocklist Blocklist.
Definition dhcpscopeWebhook : webhookBuilder.t := webhookBuilder.mk DHCPScope DHCPScope DHCPScope.
Definition dnssecWebhook : webhookBuilder.t := webhookBuilder.mk DNSSEC DNSSEC DNSSEC.
Definition dnsappWebhook : webhookBuilder.t := webhookBuilder.mk DNSApp DNSApp DNSApp.

(** ** [main] *)

Inductive setupE : Type :=
| RunExternalDNS (args : list string)
| NewManager (opts : managerOptions.t)
| SetupController (b : builder.t) (operatorNamespace : string)
| NewStatsPoller (operatorNamespace : string) (interval : Z)
| AddStatsPoller
| SetupWebhook (w : webhookBuilder.t)
| AddHealthzCheck (name : string)
| AddReadyzCheck (name : string)
| Start.
#[export] Instance setupE_Effect : Effect setupE := fun _ => option error.

Section main.
Context (env : string -> string).

Definition namespaceOf : string :=
  if env "POD_NAMESPACE" =s? "" then "default" else env "POD_NAMESPACE".
Definition webhooksEnabled : bool := negb (env "ENABLE_WEBHOOKS" =s? "false").

(** The manager's process, up to the error it exits with. *)
Definition manager (f : flags.t) : prog setupE (option error) :=
  let ns := namespaceOf in
  let controller k : prog setupE (option error) := call (SetupController (SetupWithManager k) ns) in
  let webhook w : prog setupE (option error) := call (SetupWebhook w) in
  check (call (NewManager (managerOptionsOf f)) : prog setupE (option error)) ;;
  check controller Zone ;;
  check controller TechnitiumCluster ;;
  check controller Record_ ;;
  check (if 0 <? flags.statsInterval f then
           check (call (NewStatsPoller ns (flags.statsInterval f)) : prog setupE (option error)) ;;
           call AddStatsPoller
         else Ret None) ;;
  check (if webhooksEnabled then check webhook zoneWebhook ;; webhook recordWebhook else Ret None) ;;
  check controller ServerSettings ;;
  check (if webhooksEnabled then webhook serversettingsWebhook else Ret None) ;;
  check controller Blocklist ;;
  check (if webhooksEnabled then webhook blocklistWebhook else Ret None) ;;
  check controller DHCPScope ;;
  check (if webhooksEnabled then webhook dhcpscopeWebhook else Ret None) ;;
  check controller DNSSEC ;;
  check (if webhooksEnabled then webhook dnssecWebhook else Ret None) ;;
  check controller DNSApp ;;
  check (if webhooksEnabled then webhook dnsappWebhook else Ret None) ;;
  check (call (AddHealthzCheck "healthz") : prog setupE (option error)) ;;
  check (call (AddReadyzCheck "readyz") : prog setupE (option error)) ;;
  call Start.

(** [main], over [os.Args]; the result is the exit status. *)
Definition main (args : list string) (f : flags.t) : prog setupE Z :=
  r <- (match args with
        | _ :: sub :: rest => if sub =s? "external-dns-webhook" then call (RunExternalDNS rest) else manager f
        | _ => manager f
        end : prog setupE (option error)) ;;
  Ret (match r with Some _ => 1 | None => 0 end).

(** ** What is set up *)

(** The calls [l] in order, all of which succeed when there is no error, and
    otherwise those up to the one that fails. *)
Definition performs (p : prog setupE (option error)) (l : list setupE) : Prop :=
  always p (fun tr r =>
    let ok := fun c => ev (c : setupE) (None : option error) in
    match r with
    | None => tr = map ok l
    | Some e => exists pre c post, l = (pre ++ c :: post)%list /\ tr = (map ok pre ++ [ev (c : setupE) (Some e)])%list
    end).

Lemma performs_call (c : setupE) : performs (call c : prog setupE (option error)) [c].
Proof. unfold performs, always. cbn. intros [e|]; [by exists [], c, []|done]. Qed.

Lemma performs_none : performs (Ret None) [].
Proof. done. Qed.

Lemma performs_check (p q : prog setupE (option error)) l l' :
  performs p l -> performs q l' -> performs (check p ;; q) (l ++ l')%list.
Proof.
  intros Hp Hq. apply (always_bind _ _ _ _ Hp). cbv zeta. intros tr [e|].
  - intros (pre & c & post & -> & ->). unfold always. cbn. rewrite app_nil_r.
    exists pre, c, (post ++ l')%list. by rewrite <- app_assoc.
  - intros ->. eapply holds_mono; [|exact Hq]. cbv beta zeta. intros tr [e|].
    + intros (pre & c & post & -> & ->). exists (l ++ pre)%list, c, post. by rewrite map_app, <- !app_assoc.
    + intros ->. by rewrite map_app.
Qed.

Lemma performs_if (b : bool) (p : prog setupE (option error)) l :
  performs p l -> performs (if b then p else Ret None) (if b then l else []).
Proof. by destruct b. Qed.

(** Everything, in order. *)
Definition setup (f : flags.t) : list setupE :=
  let controller k := SetupController (SetupWithManager k) namespaceOf in
  let webhooks ws := if webhooksEnabled then map SetupWebhook ws else [] in
  ([NewManager (managerOptionsOf f)] ++ [controller Zone] ++ [controller TechnitiumCluster] ++ [controller Record_]
   ++ (if 0 <? flags.statsInterval f then [NewStatsPoller namespaceOf (flags.statsInterval f); AddStatsPoller] else [])
   ++ webhooks [zoneWebhook; recordWebhook] ++ [controller ServerSettings] ++ webhooks [serversettingsWebhook] ++ [controller Blocklist]
   ++ webhooks [blocklistWebhook] ++ [controller DHCPScope] ++ webhooks [dhcpscopeWebhook] ++ [controller DNSSEC] ++ webhooks [dnssecWebhook]
   ++ [controller DNSApp] ++ webhooks [dnsappWebhook] ++ [AddHealthzCheck "healthz"] ++ [AddReadyzCheck "readyz"] ++ [Start])%list.

(** The protocols a server offers after its options. *)
Definition protocols (opts : list (tls_config -> tls_config)) (c : tls_config) : tls_config :=
  fold_left (fun c opt => opt c) opts c.

Definition controllers_of (l : list setupE) : list (builder.t * string) :=
  omap (fun c => match c with SetupController b ns => Some (b, ns) | _ => None end) l.
Definition webhooks_of (l : list setupE) : list webhookBuilder.t :=
  omap (fun c => match c with SetupWebhook w => Some w | _ => None end) l.

(** C38: What the operator starts.  Without the ExternalDNS subcommand the
    process performs the calls of [setup] in order, exiting with 1 at the first
    that fails and with 0 only when the manager ran to its end.  Before it
    starts, every kind's controller is set up once, under its own kind and in
    one and the same non-empty namespace; every kind but TechnitiumCluster has
    its own validator and defaulter, unless webhooks are switched off; and neither server offers
    HTTP/2 unless asked to. *)
Theorem operator_starts (f : flags.t) (args : list string) :
  args !! 1%nat <> Some "external-dns-webhook" ->
  performs (manager f) (setup f) /\
  main args f = (r <- manager f ;; Ret (match r with Some _ => 1 | None => 0 end)) /\
  namespaceOf <> "" /\
  controllers_of (setup f) = map (fun k => (SetupWithManager k, namespaceOf))
    [Zone; TechnitiumCluster; Record_; ServerSettings; Blocklist; DHCPScope; DNSSEC; DNSApp] /\
  (forall k, builder.For (SetupWithManager k) = k) /\
  webhooks_of (setup f) = (if env "ENABLE_WEBHOOKS" =s? "false" then []
    else map (fun k => webhookBuilder.mk k k k) [Zone; Record_; ServerSettings; Blocklist; DHCPScope; DNSSEC; DNSApp]) /\
  (exists before, setup f = (before ++ [Start])%list /\ Start ∉ before) /\
  (flags.enableHTTP2 f = false -> forall c,
     protocols (webhookOptions.TLSOpts (managerOptions.WebhookServer (managerOptionsOf f))) c = ["http/1.1"] /\
     protocols (metricsOptions.TLSOpts (managerOptions.Metrics (managerOptionsOf f))) c = ["http/1.1"]).
Proof.
  intros Hargs. split_and!.
  - unfold manager, setup. cbv zeta. cbn [map].
    repeat first [apply performs_call | apply performs_if | apply (performs_check _ _ [_] [_]) | apply performs_check].
  - unfold main. destruct args as [|a [|sub rest]]; [done..|]. cbn in Hargs.
    destruct (String.eqb_spec sub "external-dns-webhook") as [->|]; [done|done].
  - unfold namespaceOf. destruct (String.eqb_spec (env "POD_NAMESPACE") "") as [|]; done.
  - unfold setup. by destruct (0 <? _), webhooksEnabled.
  - by intros [].
  - unfold setup, webhooksEnabled. by destruct (0 <? _), (env "ENABLE_WEBHOOKS" =s? "false").
  - exists (removelast (setup f)). unfold setup. destruct (0 <? _), webhooksEnabled; (split; [done|]); cbn;
      repeat (apply not_elem_of_cons; split; [done|]); apply not_elem_of_nil.
  - intros Hh c. cbn. unfold tlsOpts. by rewrite Hh.
Qed.
End main.

(** ** Examples *)

Definition example_env (name : string) : string := if name =s? "POD_NAMESPACE" then "dns" else "".

(** A manager in which one call fails. *)
Definition failing (broken : setupE -> bool) (c : setupE) (n : nat) : answer c * nat :=
  (if broken c then Some (EText "refused") else None, S n).
Definition is_webhook (k : kind) (c : setupE) : bool :=
  match c with SetupWebhook w => bool_decide (k = webhookBuilder.For w) | _ => false end.

Example example_exit :
  run (failing (fun _ => false)) (main example_env ["manager"] default_flags) 0%nat = (0, 21%nat) /\
  run (failing (is_webhook Blocklist)) (main example_env ["manager"] default_flags) 0%nat = (1, 12%nat) /\
  run (failing (fun _ => false)) (main example_env ["manager"; "external-dns-webhook"; "--zone=a"] default_flags) 0%nat = (0, 1%nat).
Proof. vm_compute. by split_and!. Qed.

Example operator_starts_witness :
  performs (manager example_env default_flags) (setup example_env default_flags) /\
  map webhookBuilder.For (webhooks_of (setup example_env default_flags))
    = [Zone; Record_; ServerSettings; Blocklist; DHCPScope; DNSSEC; DNSApp].
Proof.
  assert (Hargs : ["manager"] !! 1%nat <> Some "external-dns-webhook") by discriminate.
  pose proof (operator_starts example_env default_flags ["manager"] Hargs) as (P & _ & _ & _ & _ & W & _).
  split; [exact P|]. rewrite W. reflexivity.
Defined.
