(* ===== verification/DeepCopies.v ===== *)
(** * The deep copies of the API types

    The types of [api/v1alpha1], as shapes in memory, and their generated copy
    functions ([zz_generated.deepcopy.go]), statement for statement, over
    [GoHeap].  The types of Kubernetes they contain, with their copy functions,
    are a parameter ([Library]).  Every generated function makes a deep copy, so
    that a copy and its original are independent; two places of the operator
    edit a copy or an original next to the other. *)

From S2P Require Import Prelude GoHeap.

Local Open Scope string_scope.

(** ** The types of Kubernetes *)

Class Library := {
  TypeMeta : shape; ObjectMeta_fields : list (string * shape); ListMeta : shape; Condition : shape; Time : shape;
  IntOrString : shape; Quantity : shape; ResourceRequirements : shape; Affinity : shape;
  TopologySpreadConstraint : shape; Toleration : shape;
  ObjectMeta_DeepCopyInto : copier; ListMeta_DeepCopyInto : copier; Condition_DeepCopyInto : copier;
  Time_DeepCopyInto : copier; Time_DeepCopy : copier; Quantity_DeepCopy : copier;
  ResourceRequirements_DeepCopyInto : copier; Affinity_DeepCopyInto : copier;
  TopologySpreadConstraint_DeepCopyInto : copier; Toleration_DeepCopyInto : copier
}.

Abbreviation ObjectMeta := (Struct ObjectMeta_fields).

(** Their copy functions make deep copies; [TypeMeta] and [IntOrString], which
    are assigned, hold no reference; metadata has labels and annotations. *)
Class LibraryLaws `{Library} := {
  TypeMeta_flat :: Flat TypeMeta;
  IntOrString_flat :: Flat IntOrString;
  ObjectMeta_distinct : NoDup (map fst ObjectMeta_fields);
  Labels_field : ("Labels", Map KString) ∈ ObjectMeta_fields;
  Annotations_field : ("Annotations", Map KString) ∈ ObjectMeta_fields;
  ObjectMeta_copies :: Copies ObjectMeta ObjectMeta_DeepCopyInto;
  ListMeta_copies :: Copies ListMeta ListMeta_DeepCopyInto;
  Condition_copies :: Copies Condition Condition_DeepCopyInto;
  Time_copies :: Copies Time Time_DeepCopyInto;
  Time_DeepCopy_copies :: Copies (Pointer Time) Time_DeepCopy;
  Quantity_copies :: Copies Quantity Quantity_DeepCopy;
  ResourceRequirements_copies :: Copies ResourceRequirements ResourceRequirements_DeepCopyInto;
  Affinity_copies :: Copies Affinity Affinity_DeepCopyInto;
  TopologySpreadConstraint_copies :: Copies TopologySpreadConstraint TopologySpreadConstraint_DeepCopyInto;
  Toleration_copies :: Copies Toleration Toleration_DeepCopyInto
}.

(** The predeclared types; a service's type and traffic policy are strings. *)
Abbreviation string_ := (Basic KString).
Abbreviation bool_ := (Basic KBool).
Abbreviation int32 := (Basic KInt).
Abbreviation int64 := (Basic KInt).
Abbreviation ServiceType := (Basic KString).
Abbreviation ServiceExternalTrafficPolicy := (Basic KString).

Section types.
Context `{Library}.

(** ** The types *)

(** [technitiumcluster_types.go] *)
Definition SecretReference : shape := Struct [("Name", string_); ("Namespace", string_)].

(** [zone_types.go] *)
Definition DeletionPolicy : shape := string_.

(** [technitiumcluster_types.go] *)
Definition TechnitiumClusterPodDisruptionBudgetSpec : shape := Struct [("Enabled", Pointer bool_);
  ("MaxUnavailable", Pointer IntOrString)].
Definition TechnitiumClusterPhase : shape := string_.
Definition PVCRetentionPolicy : shape := string_.
Definition TechnitiumClusterStorageSpec : shape := Struct [("Size", Quantity); ("StorageClassName", Pointer string_);
  ("RetentionPolicy", PVCRetentionPolicy)].
Definition TechnitiumClusterReplicaServiceOverride : shape := Struct [("Ordinal", int32);
  ("Annotations", Map KString)].
Definition TechnitiumClusterPerReplicaServiceSpec : shape := Struct [("Type", ServiceType);
  ("ExternalTrafficPolicy", ServiceExternalTrafficPolicy); ("Annotations", Map KString);
  ("Ordinals", Slice TechnitiumClusterReplicaServiceOverride)].
Definition TechnitiumClusterPrimaryServiceSpec : shape := Struct [("Enabled", bool_); ("Type", ServiceType);
  ("ExternalTrafficPolicy", ServiceExternalTrafficPolicy); ("Annotations", Map KString)].
Definition TechnitiumClusterServiceSpec : shape := Struct [("Type", ServiceType); ("Annotations", Map KString);
  ("ExternalTrafficPolicy", ServiceExternalTrafficPolicy); ("ExposeAPI", Pointer bool_);
  ("PerReplica", Pointer TechnitiumClusterPerReplicaServiceSpec);
  ("Primary", Pointer TechnitiumClusterPrimaryServiceSpec)].
Definition TechnitiumClusterSpec : shape := Struct [("Image", string_); ("Replicas", Pointer int32);
  ("Storage", TechnitiumClusterStorageSpec); ("Resources", ResourceRequirements); ("Affinity", Pointer Affinity);
  ("TopologySpreadConstraints", Slice TopologySpreadConstraint); ("Tolerations", Slice Toleration);
  ("NodeSelector", Map KString); ("PriorityClassName", string_); ("Service", TechnitiumClusterServiceSpec);
  ("PodDisruptionBudget", TechnitiumClusterPodDisruptionBudgetSpec); ("AdminSecretRef", Pointer SecretReference);
  ("DNSServerDomain", string_); ("ClusterDomain", string_); ("DeletionPolicy", DeletionPolicy)].
Definition TechnitiumClusterNodeStatus : shape := Struct [("Name", string_); ("Role", string_); ("State", string_);
  ("Version", string_); ("LastSynced", Pointer Time); ("Message", string_)].
Definition TechnitiumClusterRolloutStatus : shape := Struct [("Node", string_); ("NodeStartedTime", Time)].
Definition TechnitiumClusterStatus : shape := Struct [("Conditions", Slice Condition);
  ("Phase", TechnitiumClusterPhase); ("ReadyReplicas", int32); ("Endpoint", string_); ("PrimaryEndpoint", string_);
  ("PrimaryService", string_); ("ObservedGeneration", int64); ("Nodes", Slice TechnitiumClusterNodeStatus);
  ("Version", string_); ("Members", string_); ("Rollout", Pointer TechnitiumClusterRolloutStatus)].
Definition TechnitiumCluster : shape := Struct [("TypeMeta", TypeMeta); ("ObjectMeta", ObjectMeta);
  ("Spec", TechnitiumClusterSpec); ("Status", TechnitiumClusterStatus)].
Definition TechnitiumClusterList : shape := Struct [("TypeMeta", TypeMeta); ("ListMeta", ListMeta);
  ("Items", Slice TechnitiumCluster)].

(** [zone_types.go] *)
Definition ZoneType : shape := string_.
Definition ForwarderProtocol : shape := string_.
Definition ProxyType : shape := string_.
Definition ForwarderProxy : shape := Struct [("Type", ProxyType); ("Address", Pointer string_);
  ("Port", Pointer int32); ("Username", Pointer string_); ("Password", Pointer string_)].
Definition ZoneSpec : shape := Struct [("ZoneName", string_); ("ServerRef", SecretReference); ("Type", ZoneType);
  ("PrimaryNameServerAddresses", Slice string_); ("Forwarder", Pointer string_);
  ("ForwarderProtocol", Pointer ForwarderProtocol); ("Catalog", Pointer string_); ("DNSSECValidation", Pointer bool_);
  ("ForwarderProxy", Pointer ForwarderProxy); ("DeletionPolicy", DeletionPolicy)].
Definition ZoneStatus : shape := Struct [("Conditions", Slice Condition); ("ObservedGeneration", int64);
  ("ZoneCreated", bool_)].
Definition Zone : shape := Struct [("TypeMeta", TypeMeta); ("ObjectMeta", ObjectMeta); ("Spec", ZoneSpec);
  ("Status", ZoneStatus)].
Definition ZoneList : shape := Struct [("TypeMeta", TypeMeta); ("ListMeta", ListMeta); ("Items", Slice Zone)].

(** [record_types.go] *)
Definition RecordType : shape := string_.
Definition RecordSpec : shape := Struct [("ServerRef", SecretReference); ("Zone", string_); ("Name", string_);
  ("Type", RecordType); ("TTL", Pointer int32); ("Data", string_); ("Priority", Pointer int32);
  ("DeletionPolicy", DeletionPolicy)].
Definition RecordStatus : shape := Struct [("Conditions", Slice Condition); ("ObservedGeneration", int64);
  ("RecordCreated", bool_); ("AppliedData", string_); ("AppliedPriority", Pointer int32)].
Definition Record : shape := Struct [("TypeMeta", TypeMeta); ("ObjectMeta", ObjectMeta); ("Spec", RecordSpec);
  ("Status", RecordStatus)].
Definition RecordList : shape := Struct [("TypeMeta", TypeMeta); ("ListMeta", ListMeta); ("Items", Slice Record)].

(** [serversettings_types.go] *)
Definition RecursionPolicy : shape := string_.
Definition SettingsDeletionPolicy : shape := string_.
Definition ForwarderSettings : shape := Struct [("Addresses", Slice string_);
  ("Protocol", Pointer ForwarderProtocol)].
Definition RecursionSettings : shape := Struct [("Policy", RecursionPolicy); ("NetworkACL", Slice string_)].
Definition CacheSettings : shape := Struct [("ServeStale", Pointer bool_); ("ServeStaleTTLSeconds", Pointer int32);
  ("MaximumRecordTTLSeconds", Pointer int32); ("MinimumRecordTTLSeconds", Pointer int32)].
Definition LoggingSettings : shape := Struct [("Enabled", Pointer bool_); ("LogQueries", Pointer bool_);
  ("UseLocalTime", Pointer bool_); ("MaxFileDays", Pointer int32)].
Definition ServerSettingsSpec : shape := Struct [("ServerRef", SecretReference);
  ("Forwarders", Pointer ForwarderSettings); ("Recursion", Pointer RecursionSettings);
  ("Cache", Pointer CacheSettings); ("Logging", Pointer LoggingSettings); ("DeletionPolicy", SettingsDeletionPolicy)].
Definition ObservedServerSettings : shape := Struct [("Forwarders", Slice string_); ("ForwarderProtocol", string_);
  ("Recursion", string_); ("RecursionNetworkACL", Slice string_); ("ServeStale", Pointer bool_);
  ("ServeStaleTTLSeconds", Pointer int32); ("CacheMaximumRecordTTLSeconds", Pointer int32);
  ("CacheMinimumRecordTTLSeconds", Pointer int32); ("LoggingEnabled", Pointer bool_); ("LogQueries", Pointer bool_);
  ("UseLocalTime", Pointer bool_); ("MaxLogFileDays", Pointer int32)].
Definition ServerSettingsStatus : shape := Struct [("Conditions", Slice Condition); ("ObservedGeneration", int64);
  ("Observed", Pointer ObservedServerSettings)].
Definition ServerSettings : shape := Struct [("TypeMeta", TypeMeta); ("ObjectMeta", ObjectMeta);
  ("Spec", ServerSettingsSpec); ("Status", ServerSettingsStatus)].
Definition ServerSettingsList : shape := Struct [("TypeMeta", TypeMeta); ("ListMeta", ListMeta);
  ("Items", Slice ServerSettings)].

(** [blocklist_types.go] *)
Definition BlockingType : shape := string_.
Definition BlocklistSpec : shape := Struct [("ServerRef", SecretReference); ("Enabled", Pointer bool_);
  ("BlockListURLs", Slice string_); ("UpdateIntervalHours", Pointer int32); ("BlockingType", Pointer BlockingType);
  ("AllowedDomains", Slice string_); ("BlockedDomains", Slice string_); ("DeletionPolicy", DeletionPolicy)].
Definition BlocklistStatus : shape := Struct [("Conditions", Slice Condition); ("ObservedGeneration", int64);
  ("AppliedBlockListURLs", Slice string_); ("AppliedAllowedDomains", Slice string_);
  ("AppliedBlockedDomains", Slice string_)].
Definition Blocklist : shape := Struct [("TypeMeta", TypeMeta); ("ObjectMeta", ObjectMeta); ("Spec", BlocklistSpec);
  ("Status", BlocklistStatus)].
Definition BlocklistList : shape := Struct [("TypeMeta", TypeMeta); ("ListMeta", ListMeta);
  ("Items", Slice Blocklist)].

(** [dhcpscope_types.go] *)
Definition DHCPReservation : shape := Struct [("HardwareAddress", string_); ("IPAddress", string_);
  ("HostName", Pointer string_); ("Comments", Pointer string_)].
Definition DHCPScopeSpec : shape := Struct [("ServerRef", SecretReference); ("ScopeName", string_);
  ("StartingAddress", string_); ("EndingAddress", string_); ("SubnetMask", string_);
  ("RouterAddress", Pointer string_); ("DNSServers", Slice string_); ("LeaseTimeDays", Pointer int32);
  ("LeaseTimeHours", Pointer int32); ("LeaseTimeMinutes", Pointer int32); ("DomainName", Pointer string_);
  ("Enabled", Pointer bool_); ("Reservations", Slice DHCPReservation); ("DeletionPolicy", DeletionPolicy)].
Definition DHCPScopeStatus : shape := Struct [("Conditions", Slice Condition); ("ObservedGeneration", int64);
  ("ScopeCreated", bool_); ("AppliedReservations", Slice string_)].
Definition DHCPScope : shape := Struct [("TypeMeta", TypeMeta); ("ObjectMeta", ObjectMeta); ("Spec", DHCPScopeSpec);
  ("Status", DHCPScopeStatus)].
Definition DHCPScopeList : shape := Struct [("TypeMeta", TypeMeta); ("ListMeta", ListMeta);
  ("Items", Slice DHCPScope)].

(** [dnssec_types.go] *)
Definition DNSSECAlgorithm : shape := string_.
Definition DNSSECHashAlgorithm : shape := string_.
Definition DNSSECCurve : shape := string_.
Definition NSECType : shape := string_.
Definition DNSSECSpec : shape := Struct [("ServerRef", SecretReference); ("Zone", string_);
  ("Algorithm", DNSSECAlgorithm); ("HashAlgorithm", Pointer DNSSECHashAlgorithm); ("KSKKeySize", Pointer int32);
  ("ZSKKeySize", Pointer int32); ("Curve", Pointer DNSSECCurve); ("NSECType", NSECType);
  ("NSEC3Iterations", Pointer int32); ("NSEC3SaltLength", Pointer int32); ("DNSKeyTTL", Pointer int32);
  ("ZSKRolloverDays", Pointer int32); ("DeletionPolicy", DeletionPolicy)].
Definition DNSSECStatus : shape := Struct [("Conditions", Slice Condition); ("ObservedGeneration", int64);
  ("Signed", bool_)].
Definition DNSSEC : shape := Struct [("TypeMeta", TypeMeta); ("ObjectMeta", ObjectMeta); ("Spec", DNSSECSpec);
  ("Status", DNSSECStatus)].
Definition DNSSECList : shape := Struct [("TypeMeta", TypeMeta); ("ListMeta", ListMeta); ("Items", Slice DNSSEC)].

(** [dnsapp_types.go] *)
Definition DNSAppSpec : shape := Struct [("ServerRef", SecretReference); ("AppName", string_); ("URL", string_);
  ("Version", string_); ("Config", string_); ("DeletionPolicy", DeletionPolicy)].
Definition DNSAppStatus : shape := Struct [("Conditions", Slice Condition); ("ObservedGeneration", int64);
  ("InstalledVersion", string_)].
Definition DNSApp : shape := Struct [("TypeMeta", TypeMeta); ("ObjectMeta", ObjectMeta); ("Spec", DNSAppSpec);
  ("Status", DNSAppStatus)].
Definition DNSAppList : shape := Struct [("TypeMeta", TypeMeta); ("ListMeta", ListMeta); ("Items", Slice DNSApp)].

(** ** The generated functions *)

(** *** TechnitiumCluster *)

Definition SecretReference_DeepCopyInto : copier := into [].
Definition SecretReference_DeepCopy : copier := non_nil (new_ SecretReference SecretReference_DeepCopyInto).
Definition TechnitiumClusterPodDisruptionBudgetSpec_DeepCopyInto : copier := into [
  ("Enabled", non_nil (new_ bool_ assign)); ("MaxUnavailable", non_nil (new_ IntOrString assign))].
Definition TechnitiumClusterPodDisruptionBudgetSpec_DeepCopy : copier :=
  non_nil (new_ TechnitiumClusterPodDisruptionBudgetSpec TechnitiumClusterPodDisruptionBudgetSpec_DeepCopyInto).
Definition TechnitiumClusterStorageSpec_DeepCopyInto : copier := into [("Size", Quantity_DeepCopy);
  ("StorageClassName", non_nil (new_ string_ assign))].
Definition TechnitiumClusterStorageSpec_DeepCopy : copier :=
  non_nil (new_ TechnitiumClusterStorageSpec TechnitiumClusterStorageSpec_DeepCopyInto).
Definition TechnitiumClusterReplicaServiceOverride_DeepCopyInto : copier := into [("Annotations", non_nil make_map)].
Definition TechnitiumClusterReplicaServiceOverride_DeepCopy : copier :=
  non_nil (new_ TechnitiumClusterReplicaServiceOverride TechnitiumClusterReplicaServiceOverride_DeepCopyInto).
Definition TechnitiumClusterPerReplicaServiceSpec_DeepCopyInto : copier := into [("Annotations", non_nil make_map);
  ("Ordinals", non_nil (make_each TechnitiumClusterReplicaServiceOverride
                          TechnitiumClusterReplicaServiceOverride_DeepCopyInto))].
Definition TechnitiumClusterPerReplicaServiceSpec_DeepCopy : copier :=
  non_nil (new_ TechnitiumClusterPerReplicaServiceSpec TechnitiumClusterPerReplicaServiceSpec_DeepCopyInto).
Definition TechnitiumClusterPrimaryServiceSpec_DeepCopyInto : copier := into [("Annotations", non_nil make_map)].
Definition TechnitiumClusterPrimaryServiceSpec_DeepCopy : copier :=
  non_nil (new_ TechnitiumClusterPrimaryServiceSpec TechnitiumClusterPrimaryServiceSpec_DeepCopyInto).
Definition TechnitiumClusterServiceSpec_DeepCopyInto : copier := into [("Annotations", non_nil make_map);
  ("ExposeAPI", non_nil (new_ bool_ assign));
  ("PerReplica", non_nil (new_ TechnitiumClusterPerReplicaServiceSpec
                            TechnitiumClusterPerReplicaServiceSpec_DeepCopyInto));
  ("Primary", non_nil (new_ TechnitiumClusterPrimaryServiceSpec TechnitiumClusterPrimaryServiceSpec_DeepCopyInto))].
Definition TechnitiumClusterServiceSpec_DeepCopy : copier :=
  non_nil (new_ TechnitiumClusterServiceSpec TechnitiumClusterServiceSpec_DeepCopyInto).
Definition TechnitiumClusterSpec_DeepCopyInto : copier := into [("Replicas", non_nil (new_ int32 assign));
  ("Storage", TechnitiumClusterStorageSpec_DeepCopyInto); ("Resources", ResourceRequirements_DeepCopyInto);
  ("Affinity", non_nil (new_ Affinity Affinity_DeepCopyInto));
  ("TopologySpreadConstraints", non_nil (make_each TopologySpreadConstraint TopologySpreadConstraint_DeepCopyInto));
  ("Tolerations", non_nil (make_each Toleration Toleration_DeepCopyInto)); ("NodeSelector", non_nil make_map);
  ("Service", TechnitiumClusterServiceSpec_DeepCopyInto);
  ("PodDisruptionBudget", TechnitiumClusterPodDisruptionBudgetSpec_DeepCopyInto);
  ("AdminSecretRef", non_nil (new_ SecretReference assign))].
Definition TechnitiumClusterSpec_DeepCopy : copier :=
  non_nil (new_ TechnitiumClusterSpec TechnitiumClusterSpec_DeepCopyInto).
Definition TechnitiumClusterNodeStatus_DeepCopyInto : copier := into [("LastSynced", non_nil Time_DeepCopy)].
Definition TechnitiumClusterNodeStatus_DeepCopy : copier :=
  non_nil (new_ TechnitiumClusterNodeStatus TechnitiumClusterNodeStatus_DeepCopyInto).
Definition TechnitiumClusterRolloutStatus_DeepCopyInto : copier := into [("NodeStartedTime", Time_DeepCopyInto)].
Definition TechnitiumClusterRolloutStatus_DeepCopy : copier :=
  non_nil (new_ TechnitiumClusterRolloutStatus TechnitiumClusterRolloutStatus_DeepCopyInto).
Definition TechnitiumClusterStatus_DeepCopyInto : copier := into [
  ("Conditions", non_nil (make_each Condition Condition_DeepCopyInto));
  ("Nodes", non_nil (make_each TechnitiumClusterNodeStatus TechnitiumClusterNodeStatus_DeepCopyInto));
  ("Rollout", non_nil (new_ TechnitiumClusterRolloutStatus TechnitiumClusterRolloutStatus_DeepCopyInto))].
Definition TechnitiumClusterStatus_DeepCopy : copier :=
  non_nil (new_ TechnitiumClusterStatus TechnitiumClusterStatus_DeepCopyInto).
Definition TechnitiumCluster_DeepCopyInto : copier := into [("TypeMeta", assign);
  ("ObjectMeta", ObjectMeta_DeepCopyInto); ("Spec", TechnitiumClusterSpec_DeepCopyInto);
  ("Status", TechnitiumClusterStatus_DeepCopyInto)].
Definition TechnitiumCluster_DeepCopy : copier := non_nil (new_ TechnitiumCluster TechnitiumCluster_DeepCopyInto).
Definition TechnitiumCluster_DeepCopyObject : copier := as_object TechnitiumCluster_DeepCopy.
Definition TechnitiumClusterList_DeepCopyInto : copier := into [("TypeMeta", assign);
  ("ListMeta", ListMeta_DeepCopyInto);
  ("Items", non_nil (make_each TechnitiumCluster TechnitiumCluster_DeepCopyInto))].
Definition TechnitiumClusterList_DeepCopy : copier :=
  non_nil (new_ TechnitiumClusterList TechnitiumClusterList_DeepCopyInto).
Definition TechnitiumClusterList_DeepCopyObject : copier := as_object TechnitiumClusterList_DeepCopy.

(** *** Zone *)

Definition ForwarderProxy_DeepCopyInto : copier := into [("Address", non_nil (new_ string_ assign));
  ("Port", non_nil (new_ int32 assign)); ("Username", non_nil (new_ string_ assign));
  ("Password", non_nil (new_ string_ assign))].
Definition ForwarderProxy_DeepCopy : copier := non_nil (new_ ForwarderProxy ForwarderProxy_DeepCopyInto).
Definition ZoneSpec_DeepCopyInto : copier := into [("ServerRef", assign);
  ("PrimaryNameServerAddresses", non_nil (make_copy string_)); ("Forwarder", non_nil (new_ string_ assign));
  ("ForwarderProtocol", non_nil (new_ ForwarderProtocol assign)); ("Catalog", non_nil (new_ string_ assign));
  ("DNSSECValidation", non_nil (new_ bool_ assign));
  ("ForwarderProxy", non_nil (new_ ForwarderProxy ForwarderProxy_DeepCopyInto))].
Definition ZoneSpec_DeepCopy : copier := non_nil (new_ ZoneSpec ZoneSpec_DeepCopyInto).
Definition ZoneStatus_DeepCopyInto : copier := into [
  ("Conditions", non_nil (make_each Condition Condition_DeepCopyInto))].
Definition ZoneStatus_DeepCopy : copier := non_nil (new_ ZoneStatus ZoneStatus_DeepCopyInto).
Definition Zone_DeepCopyInto : copier := into [("TypeMeta", assign); ("ObjectMeta", ObjectMeta_DeepCopyInto);
  ("Spec", ZoneSpec_DeepCopyInto); ("Status", ZoneStatus_DeepCopyInto)].
Definition Zone_DeepCopy : copier := non_nil (new_ Zone Zone_DeepCopyInto).
Definition Zone_DeepCopyObject : copier := as_object Zone_DeepCopy.
Definition ZoneList_DeepCopyInto : copier := into [("TypeMeta", assign); ("ListMeta", ListMeta_DeepCopyInto);
  ("Items", non_nil (make_each Zone Zone_DeepCopyInto))].
Definition ZoneList_DeepCopy : copier := non_nil (new_ ZoneList ZoneList_DeepCopyInto).
Definition ZoneList_DeepCopyObject : copier := as_object ZoneList_DeepCopy.

(** *** Record *)

Definition RecordSpec_DeepCopyInto : copier := into [("ServerRef", assign); ("TTL", non_nil (new_ int32 assign));
  ("Priority", non_nil (new_ int32 assign))].
Definition RecordSpec_DeepCopy : copier := non_nil (new_ RecordSpec RecordSpec_DeepCopyInto).
Definition RecordStatus_DeepCopyInto : copier := into [
  ("Conditions", non_nil (make_each Condition Condition_DeepCopyInto));
  ("AppliedPriority", non_nil (new_ int32 assign))].
Definition RecordStatus_DeepCopy : copier := non_nil (new_ RecordStatus RecordStatus_DeepCopyInto).
Definition Record_DeepCopyInto : copier := into [("TypeMeta", assign); ("ObjectMeta", ObjectMeta_DeepCopyInto);
  ("Spec", RecordSpec_DeepCopyInto); ("Status", RecordStatus_DeepCopyInto)].
Definition Record_DeepCopy : copier := non_nil (new_ Record Record_DeepCopyInto).
Definition Record_DeepCopyObject : copier := as_object Record_DeepCopy.
Definition RecordList_DeepCopyInto : copier := into [("TypeMeta", assign); ("ListMeta", ListMeta_DeepCopyInto);
  ("Items", non_nil (make_each Record Record_DeepCopyInto))].
Definition RecordList_DeepCopy : copier := non_nil (new_ RecordList RecordList_DeepCopyInto).
Definition RecordList_DeepCopyObject : copier := as_object RecordList_DeepCopy.

(** *** ServerSettings *)

Definition ForwarderSettings_DeepCopyInto : copier := into [("Addresses", non_nil (make_copy string_));
  ("Protocol", non_nil (new_ ForwarderProtocol assign))].
Definition ForwarderSettings_DeepCopy : copier := non_nil (new_ ForwarderSettings ForwarderSettings_DeepCopyInto).
Definition RecursionSettings_DeepCopyInto : copier := into [("NetworkACL", non_nil (make_copy string_))].
Definition RecursionSettings_DeepCopy : copier := non_nil (new_ RecursionSettings RecursionSettings_DeepCopyInto).
Definition CacheSettings_DeepCopyInto : copier := into [("ServeStale", non_nil (new_ bool_ assign));
  ("ServeStaleTTLSeconds", non_nil (new_ int32 assign)); ("MaximumRecordTTLSeconds", non_nil (new_ int32 assign));
  ("MinimumRecordTTLSeconds", non_nil (new_ int32 assign))].
Definition CacheSettings_DeepCopy : copier := non_nil (new_ CacheSettings CacheSettings_DeepCopyInto).
Definition LoggingSettings_DeepCopyInto : copier := into [("Enabled", non_nil (new_ bool_ assign));
  ("LogQueries", non_nil (new_ bool_ assign)); ("UseLocalTime", non_nil (new_ bool_ assign));
  ("MaxFileDays", non_nil (new_ int32 assign))].
Definition LoggingSettings_DeepCopy : copier := non_nil (new_ LoggingSettings LoggingSettings_DeepCopyInto).
Definition ServerSettingsSpec_DeepCopyInto : copier := into [("ServerRef", assign);
  ("Forwarders", non_nil (new_ ForwarderSettings ForwarderSettings_DeepCopyInto));
  ("Recursion", non_nil (new_ RecursionSettings RecursionSettings_DeepCopyInto));
  ("Cache", non_nil (new_ CacheSettings CacheSettings_DeepCopyInto));
  ("Logging", non_nil (new_ LoggingSettings LoggingSettings_DeepCopyInto))].
Definition ServerSettingsSpec_DeepCopy : copier := non_nil (new_ ServerSettingsSpec ServerSettingsSpec_DeepCopyInto).
Definition ObservedServerSettings_DeepCopyInto : copier := into [("Forwarders", non_nil (make_copy string_));
  ("RecursionNetworkACL", non_nil (make_copy string_)); ("ServeStale", non_nil (new_ bool_ assign));
  ("ServeStaleTTLSeconds", non_nil (new_ int32 assign));
  ("CacheMaximumRecordTTLSeconds", non_nil (new_ int32 assign));
  ("CacheMinimumRecordTTLSeconds", non_nil (new_ int32 assign)); ("LoggingEnabled", non_nil (new_ bool_ assign));
  ("LogQueries", non_nil (new_ bool_ assign)); ("UseLocalTime", non_nil (new_ bool_ assign));
  ("MaxLogFileDays", non_nil (new_ int32 assign))].
Definition ObservedServerSettings_DeepCopy : copier :=
  non_nil (new_ ObservedServerSettings ObservedServerSettings_DeepCopyInto).
Definition ServerSettingsStatus_DeepCopyInto : copier := into [
  ("Conditions", non_nil (make_each Condition Condition_DeepCopyInto));
  ("Observed", non_nil (new_ ObservedServerSettings ObservedServerSettings_DeepCopyInto))].
Definition ServerSettingsStatus_DeepCopy : copier :=
  non_nil (new_ ServerSettingsStatus ServerSettingsStatus_DeepCopyInto).
Definition ServerSettings_DeepCopyInto : copier := into [("TypeMeta", assign);
  ("ObjectMeta", ObjectMeta_DeepCopyInto); ("Spec", ServerSettingsSpec_DeepCopyInto);
  ("Status", ServerSettingsStatus_DeepCopyInto)].
Definition ServerSettings_DeepCopy : copier := non_nil (new_ ServerSettings ServerSettings_DeepCopyInto).
Definition ServerSettings_DeepCopyObject : copier := as_object ServerSettings_DeepCopy.
Definition ServerSettingsList_DeepCopyInto : copier := into [("TypeMeta", assign);
  ("ListMeta", ListMeta_DeepCopyInto); ("Items", non_nil (make_each ServerSettings ServerSettings_DeepCopyInto))].
Definition ServerSettingsList_DeepCopy : copier := non_nil (new_ ServerSettingsList ServerSettingsList_DeepCopyInto).
Definition ServerSettingsList_DeepCopyObject : copier := as_object ServerSettingsList_DeepCopy.

(** *** Blocklist *)

Definition BlocklistSpec_DeepCopyInto : copier := into [("ServerRef", assign);
  ("Enabled", non_nil (new_ bool_ assign)); ("BlockListURLs", non_nil (make_copy string_));
  ("UpdateIntervalHours", non_nil (new_ int32 assign)); ("BlockingType", non_nil (new_ BlockingType assign));
  ("AllowedDomains", non_nil (make_copy string_)); ("BlockedDomains", non_nil (make_copy string_))].
Definition BlocklistSpec_DeepCopy : copier := non_nil (new_ BlocklistSpec BlocklistSpec_DeepCopyInto).
Definition BlocklistStatus_DeepCopyInto : copier := into [
  ("Conditions", non_nil (make_each Condition Condition_DeepCopyInto));
  ("AppliedBlockListURLs", non_nil (make_copy string_)); ("AppliedAllowedDomains", non_nil (make_copy string_));
  ("AppliedBlockedDomains", non_nil (make_copy string_))].
Definition BlocklistStatus_DeepCopy : copier := non_nil (new_ BlocklistStatus BlocklistStatus_DeepCopyInto).
Definition Blocklist_DeepCopyInto : copier := into [("TypeMeta", assign); ("ObjectMeta", ObjectMeta_DeepCopyInto);
  ("Spec", BlocklistSpec_DeepCopyInto); ("Status", BlocklistStatus_DeepCopyInto)].
Definition Blocklist_DeepCopy : copier := non_nil (new_ Blocklist Blocklist_DeepCopyInto).
Definition Blocklist_DeepCopyObject : copier := as_object Blocklist_DeepCopy.
Definition BlocklistList_DeepCopyInto : copier := into [("TypeMeta", assign); ("ListMeta", ListMeta_DeepCopyInto);
  ("Items", non_nil (make_each Blocklist Blocklist_DeepCopyInto))].
Definition BlocklistList_DeepCopy : copier := non_nil (new_ BlocklistList BlocklistList_DeepCopyInto).
Definition BlocklistList_DeepCopyObject : copier := as_object BlocklistList_DeepCopy.

(** *** DHCPScope *)

Definition DHCPReservation_DeepCopyInto : copier := into [("HostName", non_nil (new_ string_ assign));
  ("Comments", non_nil (new_ string_ assign))].
Definition DHCPReservation_DeepCopy : copier := non_nil (new_ DHCPReservation DHCPReservation_DeepCopyInto).
Definition DHCPScopeSpec_DeepCopyInto : copier := into [("ServerRef", assign);
  ("RouterAddress", non_nil (new_ string_ assign)); ("DNSServers", non_nil (make_copy string_));
  ("LeaseTimeDays", non_nil (new_ int32 assign)); ("LeaseTimeHours", non_nil (new_ int32 assign));
  ("LeaseTimeMinutes", non_nil (new_ int32 assign)); ("DomainName", non_nil (new_ string_ assign));
  ("Enabled", non_nil (new_ bool_ assign));
  ("Reservations", non_nil (make_each DHCPReservation DHCPReservation_DeepCopyInto))].
Definition DHCPScopeSpec_DeepCopy : copier := non_nil (new_ DHCPScopeSpec DHCPScopeSpec_DeepCopyInto).
Definition DHCPScopeStatus_DeepCopyInto : copier := into [
  ("Conditions", non_nil (make_each Condition Condition_DeepCopyInto));
  ("AppliedReservations", non_nil (make_copy string_))].
Definition DHCPScopeStatus_DeepCopy : copier := non_nil (new_ DHCPScopeStatus DHCPScopeStatus_DeepCopyInto).
Definition DHCPScope_DeepCopyInto : copier := into [("TypeMeta", assign); ("ObjectMeta", ObjectMeta_DeepCopyInto);
  ("Spec", DHCPScopeSpec_DeepCopyInto); ("Status", DHCPScopeStatus_DeepCopyInto)].
Definition DHCPScope_DeepCopy : copier := non_nil (new_ DHCPScope DHCPScope_DeepCopyInto).
Definition DHCPScope_DeepCopyObject : copier := as_object DHCPScope_DeepCopy.
Definition DHCPScopeList_DeepCopyInto : copier := into [("TypeMeta", assign); ("ListMeta", ListMeta_DeepCopyInto);
  ("Items", non_nil (make_each DHCPScope DHCPScope_DeepCopyInto))].
Definition DHCPScopeList_DeepCopy : copier := non_nil (new_ DHCPScopeList DHCPScopeList_DeepCopyInto).
Definition DHCPScopeList_DeepCopyObject : copier := as_object DHCPScopeList_DeepCopy.

(** *** DNSSEC *)

Definition DNSSECSpec_DeepCopyInto : copier := into [("ServerRef", assign);
  ("HashAlgorithm", non_nil (new_ DNSSECHashAlgorithm assign)); ("KSKKeySize", non_nil (new_ int32 assign));
  ("ZSKKeySize", non_nil (new_ int32 assign)); ("Curve", non_nil (new_ DNSSECCurve assign));
  ("NSEC3Iterations", non_nil (new_ int32 assign)); ("NSEC3SaltLength", non_nil (new_ int32 assign));
  ("DNSKeyTTL", non_nil (new_ int32 assign)); ("ZSKRolloverDays", non_nil (new_ int32 assign))].
Definition DNSSECSpec_DeepCopy : copier := non_nil (new_ DNSSECSpec DNSSECSpec_DeepCopyInto).
Definition DNSSECStatus_DeepCopyInto : copier := into [
  ("Conditions", non_nil (make_each Condition Condition_DeepCopyInto))].
Definition DNSSECStatus_DeepCopy : copier := non_nil (new_ DNSSECStatus DNSSECStatus_DeepCopyInto).
Definition DNSSEC_DeepCopyInto : copier := into [("TypeMeta", assign); ("ObjectMeta", ObjectMeta_DeepCopyInto);
  ("Spec", DNSSECSpec_DeepCopyInto); ("Status", DNSSECStatus_DeepCopyInto)].
Definition DNSSEC_DeepCopy : copier := non_nil (new_ DNSSEC DNSSEC_DeepCopyInto).
Definition DNSSEC_DeepCopyObject : copier := as_object DNSSEC_DeepCopy.
Definition DNSSECList_DeepCopyInto : copier := into [("TypeMeta", assign); ("ListMeta", ListMeta_DeepCopyInto);
  ("Items", non_nil (make_each DNSSEC DNSSEC_DeepCopyInto))].
Definition DNSSECList_DeepCopy : copier := non_nil (new_ DNSSECList DNSSECList_DeepCopyInto).
Definition DNSSECList_DeepCopyObject : copier := as_object DNSSECList_DeepCopy.

(** *** DNSApp *)

Definition DNSAppSpec_DeepCopyInto : copier := into [("ServerRef", assign)].
Definition DNSAppSpec_DeepCopy : copier := non_nil (new_ DNSAppSpec DNSAppSpec_DeepCopyInto).
Definition DNSAppStatus_DeepCopyInto : copier := into [
  ("Conditions", non_nil (make_each Condition Condition_DeepCopyInto))].
Definition DNSAppStatus_DeepCopy : copier := non_nil (new_ DNSAppStatus DNSAppStatus_DeepCopyInto).
Definition DNSApp_DeepCopyInto : copier := into [("TypeMeta", assign); ("ObjectMeta", ObjectMeta_DeepCopyInto);
  ("Spec", assign); ("Status", DNSAppStatus_DeepCopyInto)].
Definition DNSApp_DeepCopy : copier := non_nil (new_ DNSApp DNSApp_DeepCopyInto).
Definition DNSApp_DeepCopyObject : copier := as_object DNSApp_DeepCopy.
Definition DNSAppList_DeepCopyInto : copier := into [("TypeMeta", assign); ("ListMeta", ListMeta_DeepCopyInto);
  ("Items", non_nil (make_each DNSApp DNSApp_DeepCopyInto))].
Definition DNSAppList_DeepCopy : copier := non_nil (new_ DNSAppList DNSAppList_DeepCopyInto).
Definition DNSAppList_DeepCopyObject : copier := as_object DNSAppList_DeepCopy.

(** ** Every type, and what is registered with the scheme *)

Definition copies_of_types : list (shape * copier) := [(SecretReference, SecretReference_DeepCopy);
  (TechnitiumClusterPodDisruptionBudgetSpec, TechnitiumClusterPodDisruptionBudgetSpec_DeepCopy);
  (TechnitiumClusterStorageSpec, TechnitiumClusterStorageSpec_DeepCopy);
  (TechnitiumClusterReplicaServiceOverride, TechnitiumClusterReplicaServiceOverride_DeepCopy);
  (TechnitiumClusterPerReplicaServiceSpec, TechnitiumClusterPerReplicaServiceSpec_DeepCopy);
  (TechnitiumClusterPrimaryServiceSpec, TechnitiumClusterPrimaryServiceSpec_DeepCopy);
  (TechnitiumClusterServiceSpec, TechnitiumClusterServiceSpec_DeepCopy);
  (TechnitiumClusterSpec, TechnitiumClusterSpec_DeepCopy);
  (TechnitiumClusterNodeStatus, TechnitiumClusterNodeStatus_DeepCopy);
  (TechnitiumClusterRolloutStatus, TechnitiumClusterRolloutStatus_DeepCopy);
  (TechnitiumClusterStatus, TechnitiumClusterStatus_DeepCopy); (TechnitiumCluster, TechnitiumCluster_DeepCopy);
  (TechnitiumClusterList, TechnitiumClusterList_DeepCopy); (ForwarderProxy, ForwarderProxy_DeepCopy);
  (ZoneSpec, ZoneSpec_DeepCopy); (ZoneStatus, ZoneStatus_DeepCopy); (Zone, Zone_DeepCopy);
  (ZoneList, ZoneList_DeepCopy); (RecordSpec, RecordSpec_DeepCopy); (RecordStatus, RecordStatus_DeepCopy);
  (Record, Record_DeepCopy); (RecordList, RecordList_DeepCopy); (ForwarderSettings, ForwarderSettings_DeepCopy);
  (RecursionSettings, RecursionSettings_DeepCopy); (CacheSettings, CacheSettings_DeepCopy);
  (LoggingSettings, LoggingSettings_DeepCopy); (ServerSettingsSpec, ServerSettingsSpec_DeepCopy);
  (ObservedServerSettings, ObservedServerSettings_DeepCopy); (ServerSettingsStatus, ServerSettingsStatus_DeepCopy);
  (ServerSettings, ServerSettings_DeepCopy); (ServerSettingsList, ServerSettingsList_DeepCopy);
  (BlocklistSpec, BlocklistSpec_DeepCopy); (BlocklistStatus, BlocklistStatus_DeepCopy);
  (Blocklist, Blocklist_DeepCopy); (BlocklistList, BlocklistList_DeepCopy);
  (DHCPReservation, DHCPReservation_DeepCopy); (DHCPScopeSpec, DHCPScopeSpec_DeepCopy);
  (DHCPScopeStatus, DHCPScopeStatus_DeepCopy); (DHCPScope, DHCPScope_DeepCopy);
  (DHCPScopeList, DHCPScopeList_DeepCopy); (DNSSECSpec, DNSSECSpec_DeepCopy); (DNSSECStatus, DNSSECStatus_DeepCopy);
  (DNSSEC, DNSSEC_DeepCopy); (DNSSECList, DNSSECList_DeepCopy); (DNSAppSpec, DNSAppSpec_DeepCopy);
  (DNSAppStatus, DNSAppStatus_DeepCopy); (DNSApp, DNSApp_DeepCopy); (DNSAppList, DNSAppList_DeepCopy)].

Definition TechnitiumCluster_init : list (string * shape * copier) :=
  [("TechnitiumCluster", TechnitiumCluster, TechnitiumCluster_DeepCopyObject);
   ("TechnitiumClusterList", TechnitiumClusterList, TechnitiumClusterList_DeepCopyObject)].
Definition Zone_init : list (string * shape * copier) :=
  [("Zone", Zone, Zone_DeepCopyObject); ("ZoneList", ZoneList, ZoneList_DeepCopyObject)].
Definition Record_init : list (string * shape * copier) :=
  [("Record", Record, Record_DeepCopyObject); ("RecordList", RecordList, RecordList_DeepCopyObject)].
Definition ServerSettings_init : list (string * shape * copier) :=
  [("ServerSettings", ServerSettings, ServerSettings_DeepCopyObject);
   ("ServerSettingsList", ServerSettingsList, ServerSettingsList_DeepCopyObject)].
Definition Blocklist_init : list (string * shape * copier) :=
  [("Blocklist", Blocklist, Blocklist_DeepCopyObject); ("BlocklistList", BlocklistList, BlocklistList_DeepCopyObject)].
Definition DHCPScope_init : list (string * shape * copier) :=
  [("DHCPScope", DHCPScope, DHCPScope_DeepCopyObject); ("DHCPScopeList", DHCPScopeList, DHCPScopeList_DeepCopyObject)].
Definition DNSSEC_init : list (string * shape * copier) :=
  [("DNSSEC", DNSSEC, DNSSEC_DeepCopyObject); ("DNSSECList", DNSSECList, DNSSECList_DeepCopyObject)].
Definition DNSApp_init : list (string * shape * copier) :=
  [("DNSApp", DNSApp, DNSApp_DeepCopyObject); ("DNSAppList", DNSAppList, DNSAppList_DeepCopyObject)].

(** What [AddToScheme] makes known, by kind. *)
Definition known : list (string * shape * copier) :=
  (TechnitiumCluster_init ++ Zone_init ++ Record_init ++ ServerSettings_init ++ Blocklist_init
   ++ DHCPScope_init ++ DNSSEC_init ++ DNSApp_init)%list.
(** ** Copies that are edited *)

(** [Server.patch] ([internal/externaldns/server.go]) between the read of [cur] and
    the patch: the copy the patch is computed against. *)
Definition patch_edits (cur want : val) : mem val :=
  base ← Record_DeepCopy cur;
  assign_field cur "Spec" want;;
  assign_in cur "ObjectMeta" "Labels" want;;
  assign_in cur "ObjectMeta" "Annotations" want;;
  mret base.

(** [reconcileStatefulSet] on a refused downgrade: the cluster to build the pod
    template from. *)
Definition keep_image (tc : val) (image : string) : mem val :=
  effective ← TechnitiumCluster_DeepCopy tc;
  set_in effective "Spec" "Image" (VBasic (BString image));;
  mret effective.
End types.

(** ** They are deep copies *)

Section copies.
Context `{LibraryLaws}.

(** Types and functions are found by name. *)
#[local] Hint Constants Opaque : typeclass_instances.

#[local] Instance SecretReference_copies : Copies SecretReference SecretReference_DeepCopyInto.
Proof. solve_copies. Qed.
#[local] Instance TechnitiumClusterPodDisruptionBudgetSpec_copies :
  Copies TechnitiumClusterPodDisruptionBudgetSpec TechnitiumClusterPodDisruptionBudgetSpec_DeepCopyInto.
Proof. solve_copies. Qed.
#[local] Instance TechnitiumClusterStorageSpec_copies :
  Copies TechnitiumClusterStorageSpec TechnitiumClusterStorageSpec_DeepCopyInto.
Proof. solve_copies. Qed.
#[local] Instance TechnitiumClusterReplicaServiceOverride_copies :
  Copies TechnitiumClusterReplicaServiceOverride TechnitiumClusterReplicaServiceOverride_DeepCopyInto.
Proof. solve_copies. Qed.
#[local] Instance TechnitiumClusterPerReplicaServiceSpec_copies :
  Copies TechnitiumClusterPerReplicaServiceSpec TechnitiumClusterPerReplicaServiceSpec_DeepCopyInto.
Proof. solve_copies. Qed.
#[local] Instance TechnitiumClusterPrimaryServiceSpec_copies :
  Copies TechnitiumClusterPrimaryServiceSpec TechnitiumClusterPrimaryServiceSpec_DeepCopyInto.
Proof. solve_copies. Qed.
#[local] Instance TechnitiumClusterServiceSpec_copies :
  Copies TechnitiumClusterServiceSpec TechnitiumClusterServiceSpec_DeepCopyInto.
Proof. solve_copies. Qed.
#[local] Instance TechnitiumClusterSpec_copies : Copies TechnitiumClusterSpec TechnitiumClusterSpec_DeepCopyInto.
Proof. solve_copies. Qed.
#[local] Instance TechnitiumClusterNodeStatus_copies :
  Copies TechnitiumClusterNodeStatus TechnitiumClusterNodeStatus_DeepCopyInto.
Proof. solve_copies. Qed.
#[local] Instance TechnitiumClusterRolloutStatus_copies :
  Copies TechnitiumClusterRolloutStatus TechnitiumClusterRolloutStatus_DeepCopyInto.
Proof. solve_copies. Qed.
#[local] Instance TechnitiumClusterStatus_copies :
  Copies TechnitiumClusterStatus TechnitiumClusterStatus_DeepCopyInto.
Proof. solve_copies. Qed.
#[local] Instance TechnitiumCluster_copies : Copies TechnitiumCluster TechnitiumCluster_DeepCopyInto.
Proof. solve_copies. Qed.
#[local] Instance TechnitiumClusterList_copies : Copies TechnitiumClusterList TechnitiumClusterList_DeepCopyInto.
Proof. solve_copies. Qed.
#[local] Instance ForwarderProxy_copies : Copies ForwarderProxy ForwarderProxy_DeepCopyInto.
Proof. solve_copies. Qed.
#[local] Instance ZoneSpec_copies : Copies ZoneSpec ZoneSpec_DeepCopyInto.
Proof. solve_copies. Qed.
#[local] Instance ZoneStatus_copies : Copies ZoneStatus ZoneStatus_DeepCopyInto.
Proof. solve_copies. Qed.
#[local] Instance Zone_copies : Copies Zone Zone_DeepCopyInto.
Proof. solve_copies. Qed.
#[local] Instance ZoneList_copies : Copies ZoneList ZoneList_DeepCopyInto.
Proof. solve_copies. Qed.
#[local] Instance RecordSpec_copies : Copies RecordSpec RecordSpec_DeepCopyInto.
Proof. solve_copies. Qed.
#[local] Instance RecordStatus_copies : Copies RecordStatus RecordStatus_DeepCopyInto.
Proof. solve_copies. Qed.
#[local] Instance Record_copies : Copies Record Record_DeepCopyInto.
Proof. solve_copies. Qed.
#[local] Instance RecordList_copies : Copies RecordList RecordList_DeepCopyInto.
Proof. solve_copies. Qed.
#[local] Instance ForwarderSettings_copies : Copies ForwarderSettings ForwarderSettings_DeepCopyInto.
Proof. solve_copies. Qed.
#[local] Instance RecursionSettings_copies : Copies RecursionSettings RecursionSettings_DeepCopyInto.
Proof. solve_copies. Qed.
#[local] Instance CacheSettings_copies : Copies CacheSettings CacheSettings_DeepCopyInto.
Proof. solve_copies. Qed.
#[local] Instance LoggingSettings_copies : Copies LoggingSettings LoggingSettings_DeepCopyInto.
Proof. solve_copies. Qed.
#[local] Instance ServerSettingsSpec_copies : Copies ServerSettingsSpec ServerSettingsSpec_DeepCopyInto.
Proof. solve_copies. Qed.
#[local] Instance ObservedServerSettings_copies : Copies ObservedServerSettings ObservedServerSettings_DeepCopyInto.
Proof. solve_copies. Qed.
#[local] Instance ServerSettingsStatus_copies : Copies ServerSettingsStatus ServerSettingsStatus_DeepCopyInto.
Proof. solve_copies. Qed.
#[local] Instance ServerSettings_copies : Copies ServerSettings ServerSettings_DeepCopyInto.
Proof. solve_copies. Qed.
#[local] Instance ServerSettingsList_copies : Copies ServerSettingsList ServerSettingsList_DeepCopyInto.
Proof. solve_copies. Qed.
#[local] Instance BlocklistSpec_copies : Copies BlocklistSpec BlocklistSpec_DeepCopyInto.
Proof. solve_copies. Qed.
#[local] Instance BlocklistStatus_copies : Copies BlocklistStatus BlocklistStatus_DeepCopyInto.
Proof. solve_copies. Qed.
#[local] Instance Blocklist_copies : Copies Blocklist Blocklist_DeepCopyInto.
Proof. solve_copies. Qed.
#[local] Instance BlocklistList_copies : Copies BlocklistList BlocklistList_DeepCopyInto.
Proof. solve_copies. Qed.
#[local] Instance DHCPReservation_copies : Copies DHCPReservation DHCPReservation_DeepCopyInto.
Proof. solve_copies. Qed.
#[local] Instance DHCPScopeSpec_copies : Copies DHCPScopeSpec DHCPScopeSpec_DeepCopyInto.
Proof. solve_copies. Qed.
#[local] Instance DHCPScopeStatus_copies : Copies DHCPScopeStatus DHCPScopeStatus_DeepCopyInto.
Proof. solve_copies. Qed.
#[local] Instance DHCPScope_copies : Copies DHCPScope DHCPScope_DeepCopyInto.
Proof. solve_copies. Qed.
#[local] Instance DHCPScopeList_copies : Copies DHCPScopeList DHCPScopeList_DeepCopyInto.
Proof. solve_copies. Qed.
#[local] Instance DNSSECSpec_copies : Copies DNSSECSpec DNSSECSpec_DeepCopyInto.
Proof. solve_copies. Qed.
#[local] Instance DNSSECStatus_copies : Copies DNSSECStatus DNSSECStatus_DeepCopyInto.
Proof. solve_copies. Qed.
#[local] Instance DNSSEC_copies : Copies DNSSEC DNSSEC_DeepCopyInto.
Proof. solve_copies. Qed.
#[local] Instance DNSSECList_copies : Copies DNSSECList DNSSECList_DeepCopyInto.
Proof. solve_copies. Qed.
#[local] Instance DNSAppSpec_copies : Copies DNSAppSpec DNSAppSpec_DeepCopyInto.
Proof. solve_copies. Qed.
#[local] Instance DNSAppStatus_copies : Copies DNSAppStatus DNSAppStatus_DeepCopyInto.
Proof. solve_copies. Qed.
#[local] Instance DNSApp_copies : Copies DNSApp DNSApp_DeepCopyInto.
Proof. solve_copies. Qed.
#[local] Instance DNSAppList_copies : Copies DNSAppList DNSAppList_DeepCopyInto.
Proof. solve_copies. Qed.

(** Every copier listed with a type makes deep copies of pointers to it. *)
Definition all_deep (l : list (shape * copier)) : Prop := Forall (fun e => Copies (Pointer e.1) e.2) l.

Lemma deep_copies_of_types : all_deep copies_of_types.
Proof.
  unfold all_deep, copies_of_types. repeat (apply Forall_cons; split; [apply pointer_copies; exact _|]). constructor.
Qed.

Definition registered : list (shape * copier) := map (fun e => (e.1.2, e.2)) known.

Lemma deep_copies_registered : all_deep registered.
Proof.
  unfold all_deep, registered. apply Forall_map. unfold known. rewrite !Forall_app.
  split_and!; repeat (apply Forall_cons; split; [apply object_copies; exact _|]); constructor.
Qed.

(** C30: Deep copies are deep.  Every generated [DeepCopy], and the
    [DeepCopyObject] of every type registered with the scheme, returns nil for
    nil and otherwise a pointer that reads the same as the original, without
    changing any memory.  From then on the two are independent: whatever happens
    to memory allocated since, the original reads the same, and whatever happens
    to older memory, the copy does. *)
Theorem deepcopy_independent (t : shape) (c : copier) (h : heap) (v : val) (x : tree) :
  (t, c) ∈ copies_of_types \/ (t, c) ∈ registered ->
  read h (Pointer t) v = Some x ->
  exists v' h', c v h = Some (v', h') /\ (v' = VNil <-> v = VNil) /\
    (forall h'', h ⊆ h'' -> read h'' (Pointer t) v = Some x) /\
    (forall h'', h' ∖ h ⊆ h'' -> read h'' (Pointer t) v' = Some x) /\ h ⊆ h'.
Proof.
  intros Hin Hr. assert (Hc : Copies (Pointer t) c).
  { pose proof deep_copies_of_types as Ht. pose proof deep_copies_registered as Ho. unfold all_deep in Ht, Ho.
    rewrite Forall_forall in Ht, Ho. destruct Hin as [Hin|Hin]; [exact (Ht _ Hin)|exact (Ho _ Hin)]. }
  destruct (copies_independent (Pointer t) c h v x Hr) as (v' & h' & E & R1 & R2 & Hs).
  exists v', h'. split_and!; try done.
  pose proof (read_pointer_nil _ _ _ _ Hr). pose proof (read_pointer_nil _ _ _ _ (R2 _ (reflexivity _))). tauto.
Qed.

(** ** Edits next to a copy *)

(** A copy of an object stands apart from everything. *)
Lemma deepcopy_stands t c l (h : heap) x :
  Copies t c -> read h (Pointer t) (VPointer l) = Some (TPointer x) ->
  exists p h', non_nil (new_ t c) (VPointer l) h = Some (VPointer p, h') /\ h ⊆ h' /\ h !! p = None /\
    stands_at h' p t x /\ read (h' ∖ h) (Pointer t) (VPointer p) = Some (TPointer x).
Proof.
  intros Hc. cbn [read]. destruct (h !! l) as [[v| |]|] eqn:El; try done.
  destruct (read h t v) as [x'|] eqn:Er; [|done]. intros [= ->].
  destruct (new_apart t c l v h x Hc El Er) as (p & w & h' & E & Hs & Ep & Ep' & R).
  exists p, h'. split_and!; [done|done|done| |].
  - exists w. split; [done|]. eapply read_mono; [|exact R]. apply delete_mono, map_subseteq_difference_l. done.
  - apply stands_at_read. exists w. split; [by apply lookup_difference_Some|done].
Qed.

(** What the edits of [patch_edits] make of the object read. *)
Definition patched (w x : tree) : option tree :=
  spec ← tree_get "Spec" w; m ← tree_get "ObjectMeta" w;
  labels ← tree_get "Labels" m; annotations ← tree_get "Annotations" m;
  m' ← tree_get "ObjectMeta" x;
  Some (tree_set "ObjectMeta" (tree_set "Annotations" annotations (tree_set "Labels" labels m')) (tree_set "Spec" spec x)).

Definition object_fields (spec status : shape) : list (string * shape) :=
  [("TypeMeta", TypeMeta); ("ObjectMeta", ObjectMeta); ("Spec", spec); ("Status", status)].
Lemma object_fields_distinct spec status : NoDup (map fst (object_fields spec status)).
Proof. by_decision. Qed.
Lemma object_fields_spec spec status : ("Spec", spec) ∈ object_fields spec status.
Proof. apply list_elem_of_In. cbn. auto. Qed.
Lemma object_fields_meta spec status : ("ObjectMeta", ObjectMeta) ∈ object_fields spec status.
Proof. apply list_elem_of_In. cbn. auto. Qed.

Lemma TechnitiumClusterSpec_distinct :
  NoDup (map fst (match TechnitiumClusterSpec with Struct fs => fs | _ => [] end)).
Proof. by_decision. Qed.
Lemma TechnitiumClusterSpec_image :
  ("Image", string_) ∈ (match TechnitiumClusterSpec with Struct fs => fs | _ => [] end).
Proof. apply list_elem_of_In. cbn. auto. Qed.

(** C31: The patch is computed against what was read.  [patch] copies the Record
    it read, [cur], and then gives [cur] the spec, the labels and the annotations
    of the Record wanted.  When the two are apart in memory, the copy still reads
    as what was read from the API server, [cur] reads as that with exactly those
    three replaced, and the Record wanted is unchanged, although [cur] now shares
    memory with it. *)
Theorem patch_base (h : heap) (l : loc) (want : val) (x w : tree) :
  stands_at h l Record x ->
  read (delete l h) (Pointer Record) want = Some (TPointer w) ->
  exists base h' z, patch_edits (VPointer l) want h = Some (base, h') /\
    read h' (Pointer Record) base = Some (TPointer x) /\
    patched w x = Some z /\ read h' (Pointer Record) (VPointer l) = Some (TPointer z) /\
    read h' (Pointer Record) want = Some (TPointer w).
Proof.
  intros Hx Hw. change Record with (Struct (object_fields RecordSpec RecordStatus)) in *.
  pose proof (object_fields_distinct RecordSpec RecordStatus) as Hnd.
  pose proof (object_fields_meta RecordSpec RecordStatus) as Hmeta.
  destruct (deepcopy_stands Record Record_DeepCopyInto l h x _ (stands_at_read _ _ _ _ Hx))
    as (p & h1 & E & Hs & Ep & _ & Rp).
  pose proof (stands_at_mono _ _ _ _ _ Hs Hx) as Hx1.
  assert (Hw1 := read_mono _ _ _ _ _ (delete_mono _ _ l Hs) Hw).
  destruct (assign_field_edits h1 l want _ x w Hnd Hx1 Hw1 "Spec" RecordSpec (object_fields_spec _ _))
    as (spec & T1 & h2 & E2 & Hx2 & D2).
  assert (Hom : exists om, tree_get "ObjectMeta" x = Some om).
  { destruct (get_stands _ _ _ _ _ _ Hnd Hmeta Hx) as (? & om & _ & _ & Hom). by exists om. }
  destruct Hom as [om Hom].
  rewrite <- D2 in Hw1.
  destruct (assign_in_edits h2 l want _ _ w Hnd Hx2 Hw1 "ObjectMeta" "Labels" _ _ om Hmeta ObjectMeta_distinct Labels_field)
    as (m & labels & T2 & T3 & h3 & E3 & Hx3 & D3); [by rewrite tree_get_set_ne|].
  rewrite <- D3 in Hw1.
  destruct (assign_in_edits h3 l want _ _ w Hnd Hx3 Hw1 "ObjectMeta" "Annotations" _ _
    (tree_set "Labels" labels om) Hmeta ObjectMeta_distinct Annotations_field)
    as (m' & annotations & T2' & T4 & h4 & E4 & Hx4 & D4); [eapply tree_get_set_eq; by rewrite tree_get_set_ne|].
  assert (m' = m) as -> by congruence. rewrite tree_set_set in Hx4. rewrite <- D4 in Hw1.
  eexists (VPointer p), h4, _. split_and!; [| | |by apply stands_at_read|].
  - unfold patch_edits, Record_DeepCopy. rewrite (bind_some _ _ _ _ _ E), (bind_some _ _ _ _ _ E2).
    by rewrite (bind_some _ _ _ _ _ E3), (bind_some _ _ _ _ _ E4).
  - eapply read_mono; [|exact Rp]. transitivity (delete l h4); [|apply delete_subseteq].
    rewrite D4, D3, D2. destruct Hx as (v & El & _). by apply diff_delete with (Pointee v).
  - unfold patched. rewrite T1. cbn. rewrite T2. cbn. rewrite T3. cbn. rewrite T4. cbn. by rewrite Hom.
  - eapply read_mono; [|exact Hw1]. apply delete_subseteq.
Qed.

(** A refused downgrade leaves the cluster alone.  The image that is kept
    is set on a copy: [effective] reads as the cluster with that image, and the
    cluster, from which everything else of the pass is computed, reads as
    before. *)
Theorem keep_image_apart (h : heap) (tc : val) (image : string) (x : tree) :
  read h (Pointer TechnitiumCluster) tc = Some (TPointer x) ->
  exists effective h' spec, keep_image tc image h = Some (effective, h') /\ h ⊆ h' /\
    tree_get "Spec" x = Some spec /\
    read h' (Pointer TechnitiumCluster) effective
      = Some (TPointer (tree_set "Spec" (tree_set "Image" (TBasic (BString image)) spec) x)) /\
    read h' (Pointer TechnitiumCluster) tc = Some (TPointer x).
Proof.
  intros Hx. change TechnitiumCluster with (Struct (object_fields TechnitiumClusterSpec TechnitiumClusterStatus)) in *.
  pose proof (object_fields_distinct TechnitiumClusterSpec TechnitiumClusterStatus) as Hnd.
  pose proof (object_fields_spec TechnitiumClusterSpec TechnitiumClusterStatus) as Hspec.
  destruct (get_read h h tc _ x "Spec" _ Hnd Hspec (reflexivity _) Hx) as (v & spec & _ & _ & Ts).
  assert (Hl : exists l, tc = VPointer l) by (destruct tc as [| |l| | |]; try done; by exists l).
  destruct Hl as [l ->].
  destruct (deepcopy_stands TechnitiumCluster TechnitiumCluster_DeepCopyInto l h x _ Hx)
    as (p & h1 & E & Hs & Ep & Hp & _).
  destruct (set_in_edits h1 p _ _ x "Spec" "Image" string_ (VBasic (BString image)) (TBasic (BString image)) spec
    Hnd Hspec TechnitiumClusterSpec_distinct TechnitiumClusterSpec_image Hp Ts eq_refl) as (h2 & E2 & Hp2 & D2).
  assert (Hs2 : h ⊆ h2).
  { transitivity (delete p h2); [|apply delete_subseteq]. rewrite D2. by apply delete_keeps. }
  exists (VPointer p), h2, spec. split_and!; [|done|done|by apply stands_at_read|by eapply read_mono].
  unfold keep_image, TechnitiumCluster_DeepCopy. rewrite (bind_some _ _ _ _ _ E). by rewrite (bind_some _ _ _ _ _ E2).
Qed.
End copies.

(** ** Examples

    A library of types, each with the reference copier of its shape. *)

Module RefLibrary.
Definition meta_fields : list (string * shape) :=
  [("Name", string_); ("Labels", Map KString); ("Annotations", Map KString); ("Finalizers", Slice string_)].
Definition resources : shape := Struct [("Limits", Map KString); ("Requests", Map KString)].
Definition affinity : shape := Struct [("NodeAffinity", Pointer (Struct [("Terms", Slice (Map KString))]))].
Definition spread : shape := Struct [("MaxSkew", int32); ("MinDomains", Pointer int32)].
Definition toleration : shape := Struct [("Key", string_); ("TolerationSeconds", Pointer int64)].
Definition typeMeta : shape := Struct [("Kind", string_); ("APIVersion", string_)].
Definition listMeta : shape := Struct [("ResourceVersion", string_); ("RemainingItemCount", Pointer int64)].
Definition condition : shape := Struct [("Type", string_); ("Status", string_); ("LastTransitionTime", int64)].
Definition intOrString : shape := Struct [("Type", int64); ("IntVal", int32); ("StrVal", string_)].
Definition quantity : shape := Struct [("Value", int64); ("Format", string_)].

#[export] Instance library : Library := {|
  TypeMeta := typeMeta; ObjectMeta_fields := meta_fields; ListMeta := listMeta; Condition := condition;
  Time := int64; IntOrString := intOrString; Quantity := quantity; ResourceRequirements := resources;
  Affinity := affinity; TopologySpreadConstraint := spread; Toleration := toleration;
  ObjectMeta_DeepCopyInto := deep (Struct meta_fields); ListMeta_DeepCopyInto := deep listMeta;
  Condition_DeepCopyInto := deep condition; Time_DeepCopyInto := assign; Time_DeepCopy := deep (Pointer int64);
  Quantity_DeepCopy := deep quantity; ResourceRequirements_DeepCopyInto := deep resources;
  Affinity_DeepCopyInto := deep affinity; TopologySpreadConstraint_DeepCopyInto := deep spread;
  Toleration_DeepCopyInto := deep toleration |}.

#[export] Instance laws : LibraryLaws.
Proof.
  split.
  1, 2: exact eq_refl.
  1: by_decision.
  1, 2: apply list_elem_of_In; cbn; by auto.
  all: first [by apply deep_copies | exact _].
Qed.
End RefLibrary.
#[local] Existing Instance RefLibrary.library.
#[local] Existing Instance RefLibrary.laws.

Definition val_with (f : string) (x v : val) : val :=
  match v with VStruct m => VStruct (<[f := x]> m) | _ => v end.

(** A Record with labels at [labels] and a TTL at [ttl]. *)
Definition example_object (labels ttl : loc) (data : string) : val :=
  val_with "ObjectMeta" (val_with "Labels" (VMap labels) (zero (Struct RefLibrary.meta_fields)))
    (val_with "Spec" (val_with "TTL" (VPointer ttl) (val_with "Data" (VBasic (BString data)) (zero RecordSpec)))
      (zero Record)).

(** The Record read, the Record wanted, and a cluster with a replica count. *)
Definition example_memory : heap :=
  list_to_map [
    (1, Pointee (example_object 2 3 "192.0.2.1"));
    (2, Entries {[ "app" := BString "web" ]}); (3, Pointee (VBasic (BInt 300)));
    (4, Pointee (example_object 5 6 "192.0.2.2"));
    (5, Entries {[ "app" := BString "shop" ]}); (6, Pointee (VBasic (BInt 60)));
    (7, Pointee (val_with "Spec" (val_with "Replicas" (VPointer 8) (zero TechnitiumClusterSpec)) (zero TechnitiumCluster)));
    (8, Pointee (VBasic (BInt 3)))]%positive.

Definition seen (h : heap) (t : shape) (v : val) : tree := default TNil (read h t v).
Definition record_seen (h : heap) (labels ttl : loc) (data : string) : tree := seen h Record (example_object labels ttl data).

Example deepcopy_independent_witness :
  exists v' h', Record_DeepCopy (VPointer 1) example_memory = Some (v', h') /\
    read (h' ∖ example_memory) (Pointer Record) v' = Some (TPointer (record_seen example_memory 2 3 "192.0.2.1")).
Proof.
  destruct (deepcopy_independent Record Record_DeepCopy example_memory (VPointer 1)
    (TPointer (record_seen example_memory 2 3 "192.0.2.1"))) as (v' & h' & E & _ & _ & R & _).
  - left. by eapply (list_elem_of_lookup_2 _ 20).
  - vm_compute. reflexivity.
  - exists v', h'. split; [exact E|]. by apply R.
Defined.

Example known_kinds :
  map (fun e => e.1.1) known =
    ["TechnitiumCluster"; "TechnitiumClusterList"; "Zone"; "ZoneList"; "Record"; "RecordList"; "ServerSettings";
     "ServerSettingsList"; "Blocklist"; "BlocklistList"; "DHCPScope"; "DHCPScopeList"; "DNSSEC"; "DNSSECList";
     "DNSApp"; "DNSAppList"].
Proof. reflexivity. Qed.

Example patch_base_witness :
  exists base h', patch_edits (VPointer 1) (VPointer 4) example_memory = Some (base, h') /\
    read h' (Pointer Record) base = Some (TPointer (record_seen example_memory 2 3 "192.0.2.1")).
Proof.
  destruct (patch_base example_memory 1 (VPointer 4) (record_seen example_memory 2 3 "192.0.2.1")
    (record_seen example_memory 5 6 "192.0.2.2")) as (base & h' & z & E & R & _).
  - exists (example_object 2 3 "192.0.2.1"). split; vm_compute; reflexivity.
  - vm_compute. reflexivity.
  - exists base, h'. split; [exact E|exact R].
Defined.

Example keep_image_apart_witness :
  exists effective h', keep_image (VPointer 7) "technitium/dns-server:15.5" example_memory = Some (effective, h') /\
    read h' (Pointer TechnitiumCluster) (VPointer 7) = read example_memory (Pointer TechnitiumCluster) (VPointer 7).
Proof.
  destruct (keep_image_apart example_memory (VPointer 7) "technitium/dns-server:15.5"
    (seen (delete 7%positive example_memory) TechnitiumCluster
      (val_with "Spec" (val_with "Replicas" (VPointer 8) (zero TechnitiumClusterSpec)) (zero TechnitiumCluster))))
    as (effective & h' & spec & E & _ & _ & _ & R).
  - vm_compute. reflexivity.
  - exists effective, h'. split; [exact E|]. rewrite R. vm_compute. reflexivity.
Defined.
